(** * A share-based tool scheduler and its waiting queue

    Shallow embedding of [code/hw1_submission/hw1/heap.c] (the min-heap that
    backs the waiting queue) and of the scheduler core of [code/hw1.c]
    (customer table, tool table, placement, preemption, share accounting,
    the report and the command loop of an agent),
    together with the variant scheduler of
    [code/hw1_submission/test_extract/hw1/hw1.c].

    Conventions of the embedding.
    - C [int] and [long long] values are integers of [Z].  Signed overflow is
      undefined in C and is not given a meaning here; the narrowing casts the
      source writes, [(int)(...)], are modelled by [to_int], the
      two's-complement wrap to 32 bits.
    - C [double] values (shares, heap keys) are exact rationals of [Q]:
      comparisons, sums and the population average are those of [Q], and
      [(int)x] is truncation toward zero.  Rounding is not modelled, except
      for the quotient that the report prints with two decimals.
    - A C array is a map from its [int] index to its cell.  Reads and writes
      outside the bounds are undefined in C; the invariants below keep every
      index that matters inside the bounds.
    - [printf] appends a line to the standard output, a list of strings.
    - [get_current_time_ms] reads the next value of a stream of clock
      readings.
    - A character buffer is the string of the characters written to it, and
      a C string ends at its first zero byte.  [recv] is given by what it
      delivers, and [send] by the bytes it is handed. *)

From Stdlib Require Import ZArith QArith List String Bool Lia Lqa FinFun.
From Stdlib Require Import Ascii DecimalString DecimalPos Sorted Permutation Qabs.
Import ListNotations.

Local Open Scope Z_scope.

(** * Part I: the embedding *)

(** ** Machine integers, arrays, formatting *)

Definition INT_MIN : Z := - 2 ^ 31.

Definition INT_MAX : Z := 2 ^ 31 - 1.

(** [(int)x] for an integer [x] of a wider type. *)
Definition to_int (x : Z) : Z := (x + 2 ^ 31) mod 2 ^ 32 - 2 ^ 31.

(** [(int)x] for a double [x]: the fractional part is discarded. *)
Definition double_to_int (x : Q) : Z := Z.quot (Qnum x) (Z.pos (Qden x)).

(** [a < b] on doubles. *)
Definition Qltb (a b : Q) : bool := negb (Qle_bool b a).

Definition upd {A : Type} (f : Z -> A) (i : Z) (v : A) : Z -> A :=
  fun j => if Z.eqb j i then v else f j.

(** The indices [0, 1, ..., n-1] of a [for (i = 0; i < n; i++)] loop. *)
Definition range (n : Z) : list Z := List.map Z.of_nat (List.seq 0 (Z.to_nat n)).

(** [%d] *)
Definition fmt_d (z : Z) : string := NilZero.string_of_int (Z.to_int z).

Definition newline : string := String (Ascii.ascii_of_nat 10) EmptyString.

(** ** heap.c: the waiting queue *)

Module Heap.

Definition NIL : Z := -1.

Definition MAX_NODES : Z := 1024.

Record Node : Type := mkNode {
  key : Q;
  heap_index : Z
}.

(** The globals of heap.c: [GLB], [HEAP_ARRAY] and [*heap_size_ptr]. *)
Record heap : Type := mkHeap {
  GLB : Z -> Node;
  HEAP_ARRAY : Z -> Z;
  heap_size : Z
}.

Definition set_GLB (g : Z -> Node) (h : heap) : heap :=
  mkHeap g (HEAP_ARRAY h) (heap_size h).

Definition set_HEAP_ARRAY (a : Z -> Z) (h : heap) : heap :=
  mkHeap (GLB h) a (heap_size h).

Definition set_heap_size (n : Z) (h : heap) : heap :=
  mkHeap (GLB h) (HEAP_ARRAY h) n.

(** [GLB[n].heap_index = v] and [GLB[n].key = k] *)
Definition set_heap_index (n v : Z) (h : heap) : heap :=
  set_GLB (upd (GLB h) n (mkNode (key (GLB h n)) v)) h.

Definition set_key (n : Z) (k : Q) (h : heap) : heap :=
  set_GLB (upd (GLB h) n (mkNode k (heap_index (GLB h n)))) h.

(** [GLB[HEAP_ARRAY[p]].key] *)
Definition key_at (h : heap) (p : Z) : Q := key (GLB h (HEAP_ARRAY h p)).

Definition heap_parent (i : Z) : Z := Z.quot (i - 1) 2.

Definition heap_left (i : Z) : Z := 2 * i + 1.

Definition heap_right (i : Z) : Z := 2 * i + 2.

Definition heap_swap (i j : Z) (h : heap) : heap :=
  let node_i := HEAP_ARRAY h i in
  let node_j := HEAP_ARRAY h j in
  let h := set_HEAP_ARRAY (upd (HEAP_ARRAY h) i node_j) h in
  let h := set_HEAP_ARRAY (upd (HEAP_ARRAY h) j node_i) h in
  let h := set_heap_index node_i j h in
  set_heap_index node_j i h.

(** One call of [min_heapify]: the index it recurses on, if it swaps. *)
Definition smallest_of (i : Z) (h : heap) : Z :=
  let l := heap_left i in
  let r := heap_right i in
  let smallest := i in
  let smallest :=
    if (l <? heap_size h) && Qltb (key_at h l) (key_at h smallest)
    then l else smallest in
  if (r <? heap_size h) && Qltb (key_at h r) (key_at h smallest)
  then r else smallest.

Fixpoint min_heapify_rec (fuel : nat) (i : Z) (h : heap) : heap :=
  match fuel with
  | O => h
  | S fuel' =>
      let smallest := smallest_of i h in
      if negb (smallest =? i)
      then min_heapify_rec fuel' smallest (heap_swap i smallest h)
      else h
  end.

(** The recursion descends from [i] to a child, so [heap_size - i] calls
    are enough (see [min_heapify_fuel]). *)
Definition min_heapify (i : Z) (h : heap) : heap :=
  min_heapify_rec (Z.to_nat (heap_size h - i)) i h.

Fixpoint bubble_up_loop (fuel : nat) (i : Z) (h : heap) : heap :=
  match fuel with
  | O => h
  | S fuel' =>
      if (0 <? i) && Qltb (key_at h i) (key_at h (heap_parent i))
      then bubble_up_loop fuel' (heap_parent i) (heap_swap i (heap_parent i) h)
      else h
  end.

(** The loop moves from [i] to its parent, so [i] iterations are enough
    (see [bubble_up_fuel]). *)
Definition bubble_up (i : Z) (h : heap) : heap :=
  bubble_up_loop (Z.to_nat i) i h.

Definition msg_full : string := "HeapError: Heap is full." ++ newline.

Definition msg_invalid (n : Z) : string :=
  "HeapError: Invalid node index " ++ fmt_d n ++ "." ++ newline.

Definition msg_uninit (n : Z) : string :=
  "HeapError: Node " ++ fmt_d n ++ " does not appear to be initialized." ++ newline.

Definition msg_already (n i : Z) : string :=
  "HeapError: Node " ++ fmt_d n ++ " is already in the heap at index "
    ++ fmt_d i ++ "." ++ newline.

Definition msg_empty : string := "HeapError: Cannot pop from an empty heap." ++ newline.

Definition msg_not_in (n : Z) : string :=
  "HeapError: Node " ++ fmt_d n ++ " is not in the heap." ++ newline.

(** Each public function returns its C result, the heap it leaves and the
    lines it printed. *)
Definition heap_insert (nodeindex : Z) (h : heap) : Z * heap * list string :=
  if heap_size h >=? MAX_NODES then (-1, h, [msg_full])
  else if (nodeindex <? 0) || (nodeindex >=? MAX_NODES)
  then (-1, h, [msg_invalid nodeindex])
  else
    let out :=
      if Qeq_bool (key (GLB h nodeindex)) 0 then [msg_uninit nodeindex] else [] in
    if negb (heap_index (GLB h nodeindex) =? NIL)
    then (-1, h, out ++ [msg_already nodeindex (heap_index (GLB h nodeindex))])
    else
      let i := heap_size h in
      let h := set_HEAP_ARRAY (upd (HEAP_ARRAY h) i nodeindex) h in
      let h := set_heap_index nodeindex i h in
      let h := set_heap_size (heap_size h + 1) h in
      (0, bubble_up i h, out).

Definition heap_pop (h : heap) : Z * heap * list string :=
  if heap_size h <=? 0 then (NIL, h, [msg_empty])
  else
    let min_node_index := HEAP_ARRAY h 0 in
    let h := heap_swap 0 (heap_size h - 1) h in
    let h := set_heap_size (heap_size h - 1) h in
    let h := set_heap_index min_node_index NIL h in
    let h := if 0 <? heap_size h then min_heapify 0 h else h in
    (min_node_index, h, []).

Definition heap_delete (nodeindex : Z) (h : heap) : Z * heap * list string :=
  if (nodeindex <? 0) || (nodeindex >=? MAX_NODES)
     || (heap_index (GLB h nodeindex) =? NIL)
  then (-1, h, [msg_not_in nodeindex])
  else
    let i := heap_index (GLB h nodeindex) in
    let h := heap_swap i (heap_size h - 1) h in
    let h := set_heap_size (heap_size h - 1) h in
    let h := set_heap_index nodeindex NIL h in
    let h :=
      if i <? heap_size h then
        if (0 <? i) && Qltb (key_at h i) (key_at h (heap_parent i))
        then bubble_up i h
        else min_heapify i h
      else h in
    (0, h, []).

(** *** Invariants of the queue *)

(** The node [n] occupies a position of the heap. *)
Definition in_heap (h : heap) (n : Z) : Prop :=
  exists p, 0 <= p < heap_size h /\ HEAP_ARRAY h p = n.

(** Identity-to-position back-map: positions and [heap_index] fields agree. *)
Record backmap (h : heap) : Prop := mkBackmap {
  bm_size : 0 <= heap_size h <= MAX_NODES;
  bm_pos : forall p, 0 <= p < heap_size h ->
      0 <= HEAP_ARRAY h p < MAX_NODES /\ heap_index (GLB h (HEAP_ARRAY h p)) = p;
  bm_node : forall n, 0 <= n < MAX_NODES -> heap_index (GLB h n) <> NIL ->
      0 <= heap_index (GLB h n) < heap_size h /\ HEAP_ARRAY h (heap_index (GLB h n)) = n
}.

(** Min-heap order: no position holds a smaller key than its parent. *)
Definition min_heap (h : heap) : Prop :=
  forall p, 0 < p < heap_size h -> (key_at h (heap_parent p) <= key_at h p)%Q.

(** Executable forms of the invariants, to check a concrete heap. *)
Definition backmapb (h : heap) : bool :=
  (0 <=? heap_size h) && (heap_size h <=? MAX_NODES)
  && forallb (fun p => (0 <=? HEAP_ARRAY h p) && (HEAP_ARRAY h p <? MAX_NODES)
                       && (heap_index (GLB h (HEAP_ARRAY h p)) =? p))
       (range (heap_size h))
  && forallb (fun n => (heap_index (GLB h n) =? NIL)
                       || ((0 <=? heap_index (GLB h n))
                           && (heap_index (GLB h n) <? heap_size h)
                           && (HEAP_ARRAY h (heap_index (GLB h n)) =? n)))
       (range MAX_NODES).

Definition min_heapb (h : heap) : bool :=
  forallb (fun p => (p <=? 0) || Qle_bool (key_at h (heap_parent p)) (key_at h p))
    (range (heap_size h)).

(** The heap of [setup_shared_memory]: no node is queued, every key is 0. *)
Definition empty_heap : heap :=
  mkHeap (fun _ => mkNode 0 NIL) (fun _ => 0) 0.

(** The demonstration of heap.c: nodes 1..6 with the keys
    10.5, 5.2, 15.1, 3.0, 7.8, 12.0, inserted in this order. *)
Definition demo_keys : list (Z * Q) :=
  [(1, 21 # 2); (2, 26 # 5); (3, 151 # 10); (4, 3 # 1); (5, 39 # 5); (6, 12 # 1)].

Definition demo_heap : heap :=
  let h := fold_left (fun h nk => set_key (fst nk) (snd nk) h) demo_keys empty_heap in
  fold_left (fun h nk => snd (fst (heap_insert (fst nk) h))) demo_keys h.

(** Keys are never written by the queue operations. *)
Definition same_keys (h h' : heap) : Prop :=
  forall n, key (GLB h' n) = key (GLB h n).

(** Nodes outside [0, MAX_NODES) and outside the heap keep their cell. *)
Definition same_outside (h h' : heap) : Prop :=
  forall n, ~ in_heap h n -> GLB h' n = GLB h n.

(** *** What the repairs and the operations establish *)

(** What a repair step guarantees: the heap [h'] it leaves is well formed
    and ordered and holds the nodes of [h], with their keys. *)
Record repaired (h h' : heap) : Prop := mkRepaired {
  rp_backmap : backmap h';
  rp_min : min_heap h';
  rp_size : heap_size h' = heap_size h;
  rp_keys : same_keys h h';
  rp_in : forall n, in_heap h' n <-> in_heap h n;
  rp_out : same_outside h h'
}.

(** The order may fail only between [i] and its parent. *)
Definition up_ok (h : heap) (i : Z) : Prop :=
  (forall p, 0 < p < heap_size h -> p <> i ->
     (key_at h (heap_parent p) <= key_at h p)%Q) /\
  (0 < i -> forall c, 0 < c < heap_size h -> heap_parent c = i ->
     (key_at h (heap_parent i) <= key_at h c)%Q).

(** The order may fail only between [i] and its children. *)
Definition down_ok (h : heap) (i : Z) : Prop :=
  (forall p, 0 < p < heap_size h -> heap_parent p <> i ->
     (key_at h (heap_parent p) <= key_at h p)%Q) /\
  (0 < i -> forall c, 0 < c < heap_size h -> heap_parent c = i ->
     (key_at h (heap_parent i) <= key_at h c)%Q).

(** What a successful removal of the node [n] guarantees. *)
Record removed (n : Z) (h h' : heap) : Prop := mkRemoved {
  rm_backmap : backmap h';
  rm_min : min_heap h';
  rm_size : heap_size h' = heap_size h - 1;
  rm_keys : same_keys h h';
  rm_in : forall m, in_heap h' m <-> in_heap h m /\ m <> n;
  rm_index : heap_index (GLB h' n) = NIL;
  rm_out : same_outside h h'
}.

(** What a successful insertion of the node [n] guarantees. *)
Record inserted (n : Z) (h h' : heap) : Prop := mkInserted {
  in_backmap : backmap h';
  in_min : min_heap h';
  in_size : heap_size h' = heap_size h + 1;
  in_keys : same_keys h h';
  in_in : forall m, in_heap h' m <-> in_heap h m \/ m = n;
  in_out : forall m, ~ in_heap h m -> m <> n -> GLB h' m = GLB h m
}.

(** Forgetting the last position, which holds the node [n]. *)
Definition drop_last (n : Z) (h : heap) : heap :=
  set_heap_index n NIL (set_heap_size (heap_size h - 1) h).

(** The heap once position [i] has been swapped to the end and cut off. *)
Definition cut (i : Z) (h : heap) : heap :=
  drop_last (HEAP_ARRAY h i) (heap_swap i (heap_size h - 1) h).

(** *** Draining the queue; two heaps out of order *)

(** [while (heap_size > 0) min_idx = heap_pop();], the loop that ends the
    demonstration of heap.c: the nodes in the order they come out. *)
Fixpoint pop_all (fuel : nat) (h : heap) : list Z * heap :=
  match fuel with
  | O => ([], h)
  | S fuel' =>
      if 0 <? heap_size h then
        let '(n, h1, _) := heap_pop h in
        let (l, h2) := pop_all fuel' h1 in
        (n :: l, h2)
      else ([], h)
  end.

(** The demonstration heap after node 3, in the last position, has been
    given the key 1.0: the order fails between that position and its parent. *)
Definition demo_heap_low : heap := set_key 3 (1 # 1) demo_heap.

(** The demonstration heap after node 4, at the root, has been given the key
    20.0: the order fails between the root and its children. *)
Definition demo_heap_high : heap := set_key 4 (20 # 1) demo_heap.

End Heap.

(** ** hw1.c: the scheduler state *)

Definition MAX_CUSTOMERS : Z := 1024.

Definition MAX_TOOLS : Z := 100.

Definition NIL : Z := -1.

Inductive CustomerState : Type :=
| CUSTOMER_STATE_RESTING
| CUSTOMER_STATE_WAITING
| CUSTOMER_STATE_USING
| CUSTOMER_STATE_DELETED.

Inductive EventType : Type :=
| EVENT_NONE
| EVENT_TOOL_ASSIGNED
| EVENT_TOOL_REMOVED
| EVENT_TOOL_COMPLETED.

Definition CustomerState_eqb (a b : CustomerState) : bool :=
  match a, b with
  | CUSTOMER_STATE_RESTING, CUSTOMER_STATE_RESTING
  | CUSTOMER_STATE_WAITING, CUSTOMER_STATE_WAITING
  | CUSTOMER_STATE_USING, CUSTOMER_STATE_USING
  | CUSTOMER_STATE_DELETED, CUSTOMER_STATE_DELETED => true
  | _, _ => false
  end.

(** [Customer]; the flags [is_allocated] and [event_pending] are booleans.
    The condition variable [agent_cond] carries no data and is left out. *)
Record Customer : Type := mkCustomer {
  customer_id : Z;
  is_allocated : bool;
  state : CustomerState;
  share : Q;
  request_duration : Z;
  remaining_duration : Z;
  current_tool : Z;
  session_start : Z;
  wait_start : Z;
  heap_index : Z;
  event_pending : bool;
  event_type : EventType;
  event_tool_id : Z
}.

(** [ToolInfo]; its [session_start] field is [tool_session_start] here. *)
Record ToolInfo : Type := mkToolInfo {
  tool_id : Z;
  total_usage : Z;
  current_user : Z;
  current_usage : Z;
  tool_session_start : Z;
  tool_should_exit : Z
}.

(** [SharedMemory].  The fields [q] and [Q] are [param_q] and [param_Q];
    [heap] holds [heap_nodes], [heap_array] and [heap_size_value], the cells
    that [GLB], [HEAP_ARRAY] and [heap_size_ptr] of heap.c point to. *)
Record SharedMemory : Type := mkSharedMemory {
  customers : Z -> Customer;
  free_customer_slots : Z -> Z;
  free_customer_count : Z;
  waiting_count : Z;
  tools : Z -> ToolInfo;
  num_tools : Z;
  total_customers : Z;
  resting_customers : Z;
  total_share : Q;
  param_q : Z;
  param_Q : Z;
  start_time : Z;
  server_should_exit : bool;
  heap : Heap.heap
}.

(** What a process sees: the shared region, the standard output, and the
    monotonic clock as the stream of its readings with the number of
    readings taken so far. *)
Record World : Type := mkWorld {
  shm : SharedMemory;
  stdout : list string;
  clock : nat -> Z;
  ticks : nat
}.

(** *** Field updates *)

Definition set_customer_id v c := mkCustomer v (is_allocated c) (state c) (share c) (request_duration c) (remaining_duration c) (current_tool c) (session_start c) (wait_start c) (heap_index c) (event_pending c) (event_type c) (event_tool_id c).

Definition set_is_allocated v c := mkCustomer (customer_id c) v (state c) (share c) (request_duration c) (remaining_duration c) (current_tool c) (session_start c) (wait_start c) (heap_index c) (event_pending c) (event_type c) (event_tool_id c).

Definition set_state v c := mkCustomer (customer_id c) (is_allocated c) v (share c) (request_duration c) (remaining_duration c) (current_tool c) (session_start c) (wait_start c) (heap_index c) (event_pending c) (event_type c) (event_tool_id c).

Definition set_share v c := mkCustomer (customer_id c) (is_allocated c) (state c) v (request_duration c) (remaining_duration c) (current_tool c) (session_start c) (wait_start c) (heap_index c) (event_pending c) (event_type c) (event_tool_id c).

Definition set_request_duration v c := mkCustomer (customer_id c) (is_allocated c) (state c) (share c) v (remaining_duration c) (current_tool c) (session_start c) (wait_start c) (heap_index c) (event_pending c) (event_type c) (event_tool_id c).

Definition set_remaining_duration v c := mkCustomer (customer_id c) (is_allocated c) (state c) (share c) (request_duration c) v (current_tool c) (session_start c) (wait_start c) (heap_index c) (event_pending c) (event_type c) (event_tool_id c).

Definition set_current_tool v c := mkCustomer (customer_id c) (is_allocated c) (state c) (share c) (request_duration c) (remaining_duration c) v (session_start c) (wait_start c) (heap_index c) (event_pending c) (event_type c) (event_tool_id c).

Definition set_session_start v c := mkCustomer (customer_id c) (is_allocated c) (state c) (share c) (request_duration c) (remaining_duration c) (current_tool c) v (wait_start c) (heap_index c) (event_pending c) (event_type c) (event_tool_id c).

Definition set_wait_start v c := mkCustomer (customer_id c) (is_allocated c) (state c) (share c) (request_duration c) (remaining_duration c) (current_tool c) (session_start c) v (heap_index c) (event_pending c) (event_type c) (event_tool_id c).

Definition set_heap_index v c := mkCustomer (customer_id c) (is_allocated c) (state c) (share c) (request_duration c) (remaining_duration c) (current_tool c) (session_start c) (wait_start c) v (event_pending c) (event_type c) (event_tool_id c).

Definition set_event_pending v c := mkCustomer (customer_id c) (is_allocated c) (state c) (share c) (request_duration c) (remaining_duration c) (current_tool c) (session_start c) (wait_start c) (heap_index c) v (event_type c) (event_tool_id c).

Definition set_event_type v c := mkCustomer (customer_id c) (is_allocated c) (state c) (share c) (request_duration c) (remaining_duration c) (current_tool c) (session_start c) (wait_start c) (heap_index c) (event_pending c) v (event_tool_id c).

Definition set_event_tool_id v c := mkCustomer (customer_id c) (is_allocated c) (state c) (share c) (request_duration c) (remaining_duration c) (current_tool c) (session_start c) (wait_start c) (heap_index c) (event_pending c) (event_type c) v.

Definition set_total_usage v t := mkToolInfo (tool_id t) v (current_user t) (current_usage t) (tool_session_start t) (tool_should_exit t).

Definition set_current_user v t := mkToolInfo (tool_id t) (total_usage t) v (current_usage t) (tool_session_start t) (tool_should_exit t).

Definition set_current_usage v t := mkToolInfo (tool_id t) (total_usage t) (current_user t) v (tool_session_start t) (tool_should_exit t).

Definition set_tool_session_start v t := mkToolInfo (tool_id t) (total_usage t) (current_user t) (current_usage t) v (tool_should_exit t).

Definition set_customers v s := mkSharedMemory v (free_customer_slots s) (free_customer_count s) (waiting_count s) (tools s) (num_tools s) (total_customers s) (resting_customers s) (total_share s) (param_q s) (param_Q s) (start_time s) (server_should_exit s) (heap s).

Definition set_free_customer_slots v s := mkSharedMemory (customers s) v (free_customer_count s) (waiting_count s) (tools s) (num_tools s) (total_customers s) (resting_customers s) (total_share s) (param_q s) (param_Q s) (start_time s) (server_should_exit s) (heap s).

Definition set_free_customer_count v s := mkSharedMemory (customers s) (free_customer_slots s) v (waiting_count s) (tools s) (num_tools s) (total_customers s) (resting_customers s) (total_share s) (param_q s) (param_Q s) (start_time s) (server_should_exit s) (heap s).

Definition set_waiting_count v s := mkSharedMemory (customers s) (free_customer_slots s) (free_customer_count s) v (tools s) (num_tools s) (total_customers s) (resting_customers s) (total_share s) (param_q s) (param_Q s) (start_time s) (server_should_exit s) (heap s).

Definition set_tools v s := mkSharedMemory (customers s) (free_customer_slots s) (free_customer_count s) (waiting_count s) v (num_tools s) (total_customers s) (resting_customers s) (total_share s) (param_q s) (param_Q s) (start_time s) (server_should_exit s) (heap s).

Definition set_total_customers v s := mkSharedMemory (customers s) (free_customer_slots s) (free_customer_count s) (waiting_count s) (tools s) (num_tools s) v (resting_customers s) (total_share s) (param_q s) (param_Q s) (start_time s) (server_should_exit s) (heap s).

Definition set_resting_customers v s := mkSharedMemory (customers s) (free_customer_slots s) (free_customer_count s) (waiting_count s) (tools s) (num_tools s) (total_customers s) v (total_share s) (param_q s) (param_Q s) (start_time s) (server_should_exit s) (heap s).

Definition set_total_share v s := mkSharedMemory (customers s) (free_customer_slots s) (free_customer_count s) (waiting_count s) (tools s) (num_tools s) (total_customers s) (resting_customers s) v (param_q s) (param_Q s) (start_time s) (server_should_exit s) (heap s).

Definition set_heap v s := mkSharedMemory (customers s) (free_customer_slots s) (free_customer_count s) (waiting_count s) (tools s) (num_tools s) (total_customers s) (resting_customers s) (total_share s) (param_q s) (param_Q s) (start_time s) (server_should_exit s) v.

(** [shm->customers[idx].field = ...] and [shm->tools[i].field = ...] *)
Definition on_customer (idx : Z) (f : Customer -> Customer) (s : SharedMemory) : SharedMemory :=
  set_customers (upd (customers s) idx (f (customers s idx))) s.

Definition on_tool (i : Z) (f : ToolInfo -> ToolInfo) (s : SharedMemory) : SharedMemory :=
  set_tools (upd (tools s) i (f (tools s i))) s.

(** *** A process step: state, output and clock *)

Definition M (A : Type) : Type := World -> A * World.

Definition ret {A : Type} (a : A) : M A := fun w => (a, w).

Definition bind {A B : Type} (m : M A) (k : A -> M B) : M B :=
  fun w => let (a, w') := m w in k a w'.

Declare Scope sched_scope.

Delimit Scope sched_scope with sched.

Notation "x <- m ;; k" := (bind m (fun x => k))
  (at level 61, m at next level, right associativity) : sched_scope.

Notation "m ;; k" := (bind m (fun _ => k))
  (at level 61, right associativity) : sched_scope.

Local Open Scope sched_scope.

Definition get_shm : M SharedMemory := fun w => (shm w, w).

Definition modify (f : SharedMemory -> SharedMemory) : M unit :=
  fun w => (tt, mkWorld (f (shm w)) (stdout w) (clock w) (ticks w)).

Definition printf (line : string) : M unit :=
  fun w => (tt, mkWorld (shm w) (stdout w ++ [line]) (clock w) (ticks w)).

Definition get_current_time_ms : M Z :=
  fun w => (clock w (ticks w), mkWorld (shm w) (stdout w) (clock w) (S (ticks w))).

Definition when (b : bool) (m : M unit) : M unit := if b then m else ret tt.

(** A call into heap.c: the queue lives in the shared region and its
    diagnostics go to the standard output. *)
Definition call_heap (f : Heap.heap -> Z * Heap.heap * list string) : M Z :=
  fun w =>
    let '(r, h, out) := f (heap (shm w)) in
    (r, mkWorld (set_heap h (shm w)) (stdout w ++ out) (clock w) (ticks w)).

Definition heap_insert (nodeindex : Z) : M Z := call_heap (Heap.heap_insert nodeindex).

Definition heap_pop : M Z := call_heap Heap.heap_pop.

Definition heap_delete (nodeindex : Z) : M Z := call_heap (Heap.heap_delete nodeindex).

(** [pthread_cond_signal] and [pthread_cond_broadcast] wake other processes
    and change nothing of the state modelled here. *)
Definition pthread_cond_signal : M unit := ret tt.

Definition pthread_cond_broadcast : M unit := ret tt.

(** The three event lines, as the [printf] calls of
    [assign_tool_to_customer] and [remove_customer_from_tool] format
    them. *)
Definition event_line (ev : EventType) (id s t : Z) : string :=
  match ev with
  | EVENT_TOOL_ASSIGNED =>
      "Customer " ++ fmt_d id ++ " with share " ++ fmt_d s
        ++ " is assigned to the tool " ++ fmt_d t ++ "." ++ newline
  | EVENT_TOOL_REMOVED =>
      "Customer " ++ fmt_d id ++ " with share " ++ fmt_d s
        ++ " is removed from the tool " ++ fmt_d t ++ "." ++ newline
  | _ =>
      "Customer " ++ fmt_d id ++ " with share " ++ fmt_d s
        ++ " leaves the tool " ++ fmt_d t ++ "." ++ newline
  end.

(** ** hw1.c: customers *)

Definition allocate_customer (id : Z) : M Z :=
  s <- get_shm ;;
  if free_customer_count s <=? 0 then ret (-1)
  else
    let count := free_customer_count s - 1 in
    let idx := free_customer_slots s count in
    let new_share :=
      if 0 <? total_customers s
      then (total_share s / inject_Z (total_customers s))%Q
      else 0%Q in
    let c := customers s idx in
    let c := mkCustomer id true CUSTOMER_STATE_RESTING new_share 0 0 (-1) 0 0 idx
               false EVENT_NONE (event_tool_id c) in
    modify (fun s =>
      set_total_share (total_share s + new_share)%Q
        (set_resting_customers (resting_customers s + 1)
           (set_total_customers (total_customers s + 1)
              (set_customers (upd (customers s) idx c)
                 (set_free_customer_count count s))))) ;;
    ret idx.

(** [if (GLB[idx].heap_index != NIL) heap_delete(idx); waiting_count--],
    the sequence by which a waiting customer leaves the queue. *)
Definition leave_queue (idx : Z) : M unit :=
  s <- get_shm ;;
  when (negb (Heap.heap_index (Heap.GLB (heap s) idx) =? NIL))
       (_ <- heap_delete idx ;; ret tt) ;;
  modify (fun s => set_waiting_count (waiting_count s - 1) s).

Definition deallocate_customer (customer_idx : Z) : M unit :=
  s <- get_shm ;;
  let c := customers s customer_idx in
  if negb (is_allocated c) then ret tt
  else
    (match state c with
     | CUSTOMER_STATE_RESTING =>
         modify (fun s => set_resting_customers (resting_customers s - 1) s)
     | CUSTOMER_STATE_WAITING => leave_queue customer_idx
     | CUSTOMER_STATE_USING =>
         when ((0 <=? current_tool c) && (current_tool c <? num_tools s))
              (modify (on_tool (current_tool c)
                         (fun t => set_current_usage 0 (set_current_user (-1) t))))
     | CUSTOMER_STATE_DELETED => ret tt
     end) ;;
    modify (fun s =>
      set_total_share (total_share s - share (customers s customer_idx))%Q
        (set_total_customers (total_customers s - 1) s)) ;;
    modify (on_customer customer_idx (fun c =>
      set_current_tool (-1)
        (set_customer_id (-1)
           (set_state CUSTOMER_STATE_DELETED (set_is_allocated false c))))) ;;
    modify (fun s =>
      set_free_customer_count (free_customer_count s + 1)
        (set_free_customer_slots
           (upd (free_customer_slots s) (free_customer_count s) customer_idx) s)).

(** ** hw1.c: choosing a tool *)

Definition LLONG_MAX : Z := 2 ^ 63 - 1.

Definition find_free_tool (s : SharedMemory) : Z :=
  fst (fold_left
         (fun (acc : Z * Z) i =>
            let (best_tool, min_usage) := acc in
            if current_user (tools s i) =? -1 then
              if (total_usage (tools s i) <? min_usage)
                 || ((total_usage (tools s i) =? min_usage)
                     && ((best_tool =? -1) || (i <? best_tool)))
              then (i, total_usage (tools s i))
              else acc
            else acc)
         (range (num_tools s)) (-1, LLONG_MAX)).

(** The loop of [find_preemption_candidate]: the pair (candidate, max_usage). *)
Definition max_usage_tool (s : SharedMemory) : Z * Z :=
  fold_left
    (fun (acc : Z * Z) i =>
       let (candidate, max_usage) := acc in
       if negb (current_user (tools s i) =? -1) then
         let usage := current_usage (tools s i) in
         if (max_usage <? usage)
            || ((usage =? max_usage) && ((candidate =? -1) || (i <? candidate)))
         then (i, usage)
         else acc
       else acc)
    (range (num_tools s)) (-1, 0).

Definition find_preemption_candidate (new_share : Q) (s : SharedMemory) : Z :=
  let candidate := fst (max_usage_tool s) in
  if candidate =? -1 then -1
  else
    let user_idx := current_user (tools s candidate) in
    let c := customers s user_idx in
    if Qltb (share c) new_share then -1
    else if current_usage (tools s candidate) <? param_q s then -1
    else candidate.

Definition find_max_share_tool_above_q (s : SharedMemory) : Z :=
  fst (fold_left
         (fun (acc : Z * Q) i =>
            let (max_tool, max_share) := acc in
            let user_idx := current_user (tools s i) in
            if negb (user_idx =? -1) then
              let c := customers s user_idx in
              if param_q s <=? current_usage (tools s i) then
                if Qltb max_share (share c)
                   || (Qeq_bool (share c) max_share
                       && ((max_tool =? -1) || (i <? max_tool)))
                then (i, share c)
                else acc
              else acc
            else acc)
         (range (num_tools s)) (-1, (-1)%Q)).

(** ** hw1.c: binding and unbinding *)

Definition assign_tool_to_customer (customer_idx tool_id : Z) : M unit :=
  s <- get_shm ;;
  when (CustomerState_eqb (state (customers s customer_idx)) CUSTOMER_STATE_WAITING)
       (leave_queue customer_idx) ;;
  now <- get_current_time_ms ;;
  modify (on_customer customer_idx (fun c =>
    set_session_start now
      (set_current_tool tool_id (set_state CUSTOMER_STATE_USING c)))) ;;
  modify (on_tool tool_id (fun t =>
    set_tool_session_start now
      (set_current_usage 0 (set_current_user customer_idx t)))) ;;
  modify (on_customer customer_idx (fun c =>
    set_event_tool_id tool_id
      (set_event_type EVENT_TOOL_ASSIGNED (set_event_pending true c)))) ;;
  pthread_cond_signal ;;
  s <- get_shm ;;
  let c := customers s customer_idx in
  printf (event_line EVENT_TOOL_ASSIGNED (customer_id c) (double_to_int (share c)) tool_id).

Definition remove_customer_from_tool (customer_idx : Z) (event : EventType) : M unit :=
  s <- get_shm ;;
  let tool := current_tool (customers s customer_idx) in
  if tool =? -1 then ret tt
  else
    now <- get_current_time_ms ;;
    let usage := to_int (now - session_start (customers s customer_idx)) in
    modify (on_customer customer_idx (fun c =>
      set_share (share c + inject_Z usage)%Q c)) ;;
    modify (fun s => set_total_share (total_share s + inject_Z usage)%Q s) ;;
    modify (on_tool tool (fun t => set_total_usage (total_usage t + usage) t)) ;;
    s <- get_shm ;;
    let c := customers s customer_idx in
    printf (match event with
            | EVENT_TOOL_REMOVED =>
                event_line EVENT_TOOL_REMOVED
                  (customer_id c) (double_to_int (share c)) (current_tool c)
            | _ =>
                event_line EVENT_TOOL_COMPLETED
                  (customer_id c) (double_to_int (share c)) (current_tool c)
            end) ;;
    modify (on_tool tool (fun t => set_current_usage 0 (set_current_user (-1) t))) ;;
    modify (on_customer customer_idx (set_current_tool (-1))) ;;
    modify (fun s => on_customer customer_idx (fun c =>
      set_event_tool_id (tool_id (tools s tool))
        (set_event_type event (set_event_pending true c))) s) ;;
    pthread_cond_signal.

Definition assign_next_from_queue (tool_id : Z) : M unit :=
  s <- get_shm ;;
  if Heap.heap_size (heap s) <=? 0 then ret tt
  else
    next_idx <- heap_pop ;;
    when (negb (next_idx =? NIL) && (0 <=? next_idx))
         (assign_tool_to_customer next_idx tool_id).

(** [old_c->state = WAITING; ...; heap_insert(old_user); waiting_count++],
    the sequence that follows each preemption and each enqueueing. *)
Definition enqueue_waiting (idx : Z) : M unit :=
  now <- get_current_time_ms ;;
  modify (on_customer idx (fun c =>
    set_wait_start now (set_state CUSTOMER_STATE_WAITING c))) ;;
  modify (fun s => set_heap (Heap.set_key idx (share (customers s idx)) (heap s)) s) ;;
  _ <- heap_insert idx ;;
  modify (fun s => set_waiting_count (waiting_count s + 1) s).

(** ** hw1.c: the commands of a customer *)

Definition handle_request (customer_idx duration : Z) : M unit :=
  s <- get_shm ;;
  (match state (customers s customer_idx) with
   | CUSTOMER_STATE_RESTING =>
       modify (fun s => set_resting_customers (resting_customers s - 1) s)
   | CUSTOMER_STATE_WAITING => leave_queue customer_idx
   | _ => ret tt
   end) ;;
  modify (on_customer customer_idx (fun c =>
    set_remaining_duration duration (set_request_duration duration c))) ;;
  s <- get_shm ;;
  let tool := find_free_tool s in
  (if negb (tool =? -1) then assign_tool_to_customer customer_idx tool
   else
     let tool := find_preemption_candidate (share (customers s customer_idx)) s in
     if negb (tool =? -1) then
       let old_user := current_user (tools s tool) in
       remove_customer_from_tool old_user EVENT_TOOL_REMOVED ;;
       enqueue_waiting old_user ;;
       assign_tool_to_customer customer_idx tool
     else
       enqueue_waiting customer_idx ;;
       s <- get_shm ;;
       when (0 <? Heap.heap_size (heap s))
            (let min_waiter_idx := Heap.HEAP_ARRAY (heap s) 0 in
             when ((0 <=? min_waiter_idx) && (min_waiter_idx <? MAX_CUSTOMERS))
                  (let max_tool := find_max_share_tool_above_q s in
                   when (negb (max_tool =? -1))
                        (let max_user := current_user (tools s max_tool) in
                         when (Qltb (share (customers s min_waiter_idx))
                                    (share (customers s max_user)))
                              pthread_cond_signal)))) ;;
  pthread_cond_broadcast.

Definition handle_rest (customer_idx : Z) : M unit :=
  s <- get_shm ;;
  match state (customers s customer_idx) with
  | CUSTOMER_STATE_USING =>
      let tool_id := current_tool (customers s customer_idx) in
      remove_customer_from_tool customer_idx EVENT_TOOL_COMPLETED ;;
      when (negb (tool_id =? -1)) (assign_next_from_queue tool_id) ;;
      modify (on_customer customer_idx (set_state CUSTOMER_STATE_RESTING)) ;;
      modify (fun s => set_resting_customers (resting_customers s + 1) s)
  | CUSTOMER_STATE_WAITING =>
      leave_queue customer_idx ;;
      modify (on_customer customer_idx (set_state CUSTOMER_STATE_RESTING)) ;;
      modify (fun s => set_resting_customers (resting_customers s + 1) s)
  | _ => ret tt
  end.

(** ** hw1.c: the tool runner *)

(** The holder is moved back to the queue and the tool goes to the head of
    the queue: the body shared by the [Q] branch and the [q] branch. *)
Definition preempt_holder (tool_id old_user : Z) : M unit :=
  remove_customer_from_tool old_user EVENT_TOOL_REMOVED ;;
  enqueue_waiting old_user ;;
  assign_next_from_queue tool_id.

(** One iteration of the loop of [tool_process], between
    [pthread_mutex_lock] and [pthread_mutex_unlock].  The result tells
    whether the loop goes on. *)
Definition tool_process_tick (tool_id : Z) : M bool :=
  s <- get_shm ;;
  if server_should_exit s then ret false
  else
    let user := current_user (tools s tool_id) in
    (if user =? -1 then ret tt
     else
       now <- get_current_time_ms ;;
       let elapsed := to_int (now - tool_session_start (tools s tool_id)) in
       modify (on_tool tool_id (set_current_usage elapsed)) ;;
       let remaining := request_duration (customers s user) - elapsed in
       modify (on_customer user
                 (set_remaining_duration (if remaining <? 0 then 0 else remaining))) ;;
       s <- get_shm ;;
       if remaining_duration (customers s user) <=? 0 then
         remove_customer_from_tool user EVENT_TOOL_COMPLETED ;;
         modify (on_customer user (set_state CUSTOMER_STATE_RESTING)) ;;
         modify (fun s => set_resting_customers (resting_customers s + 1) s) ;;
         assign_next_from_queue tool_id
       else if param_Q s <=? elapsed then
         when (0 <? Heap.heap_size (heap s)) (preempt_holder tool_id user)
       else if (param_q s <=? elapsed) && (0 <? Heap.heap_size (heap s)) then
         let min_idx := Heap.HEAP_ARRAY (heap s) 0 in
         when ((0 <=? min_idx) && (min_idx <? MAX_CUSTOMERS))
              (when (Qltb (share (customers s min_idx)) (share (customers s user)))
                    (preempt_holder tool_id user))
       else ret tt) ;;
    ret true.

(** ** hw1.c: the agent *)

(** One iteration of the loop of [agent_notify_thread].  The thread sleeps
    while the customer is allocated and has no pending event; it ends when
    the customer is not allocated or a [send] fails; otherwise it formats
    the pending event into its buffer and sends the buffer. *)
Inductive NotifyStep : Type :=
| NotifyWaits
| NotifyExits
| NotifySends (buffer : string).

(** The buffer after the three [snprintf] of [agent_notify_thread]: one of
    them writes the line of the event, and for any other event type the
    buffer is left as it was. *)
Definition notify_buffer (buffer : string) (event_type : EventType)
    (customer_id share tool_id : Z) : string :=
  match event_type with
  | EVENT_TOOL_ASSIGNED =>
      "Customer " ++ fmt_d customer_id ++ " with share " ++ fmt_d share
        ++ " is assigned to the tool " ++ fmt_d tool_id ++ "." ++ newline
  | EVENT_TOOL_REMOVED =>
      "Customer " ++ fmt_d customer_id ++ " with share " ++ fmt_d share
        ++ " is removed from the tool " ++ fmt_d tool_id ++ "." ++ newline
  | EVENT_TOOL_COMPLETED =>
      "Customer " ++ fmt_d customer_id ++ " with share " ++ fmt_d share
        ++ " leaves the tool " ++ fmt_d tool_id ++ "." ++ newline
  | EVENT_NONE => buffer
  end.

Definition agent_notify_step (customer_idx : Z) (buffer : string) : M NotifyStep :=
  s <- get_shm ;;
  let c := customers s customer_idx in
  if negb (event_pending c) && is_allocated c then ret NotifyWaits
  else if negb (is_allocated c) then ret NotifyExits
  else if event_pending c then
    let event_type := event_type c in
    let tool_id := event_tool_id c in
    let share := double_to_int (share c) in
    let customer_id := customer_id c in
    modify (on_customer customer_idx (set_event_pending false)) ;;
    ret (NotifySends (notify_buffer buffer event_type customer_id share tool_id))
  else ret NotifyExits.

(** [agent_process] once the socket thread has ended: the first critical
    section frees the tool and clears [is_allocated]; the second one, after
    the notify thread has been joined, calls [deallocate_customer]. *)
Definition agent_release (customer_idx : Z) : M unit :=
  s <- get_shm ;;
  let c := customers s customer_idx in
  when (CustomerState_eqb (state c) CUSTOMER_STATE_USING
        && negb (current_tool c =? -1))
       (remove_customer_from_tool customer_idx EVENT_TOOL_COMPLETED ;;
        assign_next_from_queue (current_tool c)) ;;
  modify (on_customer customer_idx (set_is_allocated false)) ;;
  pthread_cond_signal.

Definition agent_disconnect (customer_idx : Z) : M unit :=
  agent_release customer_idx ;;
  deallocate_customer customer_idx.

(** ** hw1.c: start-up *)

Definition zero_customer : Customer :=
  mkCustomer 0 false CUSTOMER_STATE_RESTING 0 0 0 0 0 0 0 false EVENT_NONE 0.

Definition zero_tool : ToolInfo := mkToolInfo 0 0 0 0 0 0.

Definition setup_shared_memory (q Q k : Z) : M unit :=
  now <- get_current_time_ms ;;
  modify (fun _ =>
    mkSharedMemory
      (fun i => if (0 <=? i) && (i <? MAX_CUSTOMERS)
                then mkCustomer (-1) false CUSTOMER_STATE_DELETED 0 0 0 (-1) 0 0 (-1)
                       false EVENT_NONE 0
                else zero_customer)
      (fun i => if (0 <=? i) && (i <? MAX_CUSTOMERS) then i else 0)
      MAX_CUSTOMERS
      0
      (fun i => if (0 <=? i) && (i <? k) then mkToolInfo i 0 (-1) 0 0 0 else zero_tool)
      k 0 0 0 q Q now false
      (Heap.mkHeap
         (fun i => if (0 <=? i) && (i <? MAX_CUSTOMERS)
                   then Heap.mkNode 0 Heap.NIL else Heap.mkNode 0 0)
         (fun _ => 0) 0)).

(** The world before [setup_shared_memory]: nothing is mapped yet. *)
Definition boot (clk : nat -> Z) : World :=
  mkWorld
    (mkSharedMemory (fun _ => zero_customer) (fun _ => 0) 0 0 (fun _ => zero_tool)
       0 0 0 0 0 0 0 false (Heap.mkHeap (fun _ => Heap.mkNode 0 0) (fun _ => 0) 0))
    [] clk 0.

(** Running a sequence of steps from a world. *)
Definition exec {A : Type} (m : M A) (w : World) : World := snd (m w).

(** ** The state each step leaves *)

(** *** Unbinding *)

(** The line [remove_customer_from_tool] prints for the event it is given. *)
Definition unbind_event (ev : EventType) : EventType :=
  match ev with EVENT_TOOL_REMOVED => EVENT_TOOL_REMOVED | _ => EVENT_TOOL_COMPLETED end.

(** The shared region after [remove_customer_from_tool] has unbound the
    customer [x] at the clock reading [now]. *)
Definition unbound_shm (x : Z) (ev : EventType) (now : Z) (s : SharedMemory)
  : SharedMemory :=
  let tool := current_tool (customers s x) in
  let usage := to_int (now - session_start (customers s x)) in
  let s := on_customer x (fun c => set_share (share c + inject_Z usage)%Q c) s in
  let s := set_total_share (total_share s + inject_Z usage)%Q s in
  let s := on_tool tool (fun t => set_total_usage (total_usage t + usage) t) s in
  let s := on_tool tool (fun t => set_current_usage 0 (set_current_user (-1) t)) s in
  let s := on_customer x (set_current_tool (-1)) s in
  on_customer x (fun c =>
    set_event_tool_id (tool_id (tools s tool))
      (set_event_type ev (set_event_pending true c))) s.

Definition unbound_line (x : Z) (ev : EventType) (now : Z) (s : SharedMemory) : string :=
  let c := customers s x in
  event_line (unbind_event ev) (customer_id c)
    (double_to_int (share c + inject_Z (to_int (now - session_start c)))%Q)
    (current_tool c).

(** *** Binding *)

(** The shared region after the assignments of [assign_tool_to_customer]. *)
Definition bound_shm (x tool now : Z) (s : SharedMemory) : SharedMemory :=
  let s := on_customer x (fun c =>
             set_session_start now
               (set_current_tool tool (set_state CUSTOMER_STATE_USING c))) s in
  let s := on_tool tool (fun t =>
             set_tool_session_start now
               (set_current_usage 0 (set_current_user x t))) s in
  on_customer x (fun c =>
    set_event_tool_id tool
      (set_event_type EVENT_TOOL_ASSIGNED (set_event_pending true c))) s.

Definition bound_line (x tool : Z) (s : SharedMemory) : string :=
  let c := customers s x in
  event_line EVENT_TOOL_ASSIGNED (customer_id c) (double_to_int (share c)) tool.

(** *** Steps on the queue *)

(** The queue of a world. *)
Definition hp (w : World) : Heap.heap := heap (shm w).

(** The queue [h'] is [h] without the customer [x]. *)
Record left_queue (x : Z) (h h' : Heap.heap) : Prop := mkLeftQueue {
  lq_backmap : Heap.backmap h';
  lq_min : Heap.min_heap h';
  lq_keys : Heap.same_keys h h';
  lq_in : forall m, Heap.in_heap h' m <-> Heap.in_heap h m /\ m <> x
}.

(** The queue [h'] is [h] with the customer [x] added under the key [k]. *)
Record joined_queue (x : Z) (k : Q) (h h' : Heap.heap) : Prop := mkJoinedQueue {
  jq_backmap : Heap.backmap h';
  jq_min : Heap.min_heap h';
  jq_in : forall m, Heap.in_heap h' m <-> Heap.in_heap h m \/ m = x;
  jq_key : Heap.key (Heap.GLB h' x) = k;
  jq_keys : forall m, m <> x -> Heap.key (Heap.GLB h' m) = Heap.key (Heap.GLB h m)
}.

(** ** Scenarios *)

(** A server with [k] tools and thresholds [q], [Q], right after
    [setup_shared_memory]; the clock reads 0, 10, 20, ... *)
Definition clock10 : nat -> Z := fun n => 10 * Z.of_nat n.

Definition server (q Q k : Z) : World := exec (setup_shared_memory q Q k) (boot clock10).

(** A customer served on the only tool: the server starts, customer 4242
    connects (slot 1023) and sends [REQUEST 50]. *)
Definition w_connected : World := exec (allocate_customer 4242) (server 100 500 1).

Definition w_using : World := exec (handle_request 1023 50) w_connected.

(** A clock that gives the readings of [l] in turn, then stays at the last. *)
Definition clock_of (l : list Z) : nat -> Z := fun n => nth n l (last l 0).

(** Customer 4242 connects to a server with one tool, sends [REQUEST 50] at
    time 10, is found complete by the tool runner at time 60, and
    disconnects.  Then customer 4343 connects. *)
Definition w_served : World :=
  exec (_ <- tool_process_tick 0 ;; ret tt)
    (exec (handle_request 1023 50)
       (exec (_ <- allocate_customer 4242 ;; ret tt)
          (exec (setup_shared_memory 100 500 1) (boot (clock_of [0; 10; 60]))))).

Definition w_departed : World := exec (agent_disconnect 1023) w_served.

Definition w_newcomer : World := exec (_ <- allocate_customer 4343 ;; ret tt) w_departed.

(** ** The invariants of the scheduler state *)

(** The tool [t] is bound, no bound tool has a larger [current_usage], and
    among the bound tools of the same [current_usage] it has the least index. *)
Definition selected (s : SharedMemory) (t : Z) : Prop :=
  0 <= t < num_tools s /\ current_user (tools s t) <> -1 /\
  forall i, 0 <= i < num_tools s -> current_user (tools s i) <> -1 ->
    current_usage (tools s i) <= current_usage (tools s t) /\
    (current_usage (tools s i) = current_usage (tools s t) -> t <= i).

(** Invariant 8, lower bound: a bound tool has a non-negative usage. *)
Definition usage_nonneg (s : SharedMemory) : Prop :=
  forall t, 0 <= t < num_tools s -> current_user (tools s t) <> -1 ->
    0 <= current_usage (tools s t).

(** Invariant 1 (a customer is queued iff it is Waiting), the forward half
    of invariant 2 (the holder of a tool is Using and points back to the
    tool), and the two invariants of the queue. *)
Record sched_inv (s : SharedMemory) : Prop := mkSchedInv {
  si_backmap : Heap.backmap (heap s);
  si_min : Heap.min_heap (heap s);
  si_queue : forall c, 0 <= c < MAX_CUSTOMERS ->
      (Heap.in_heap (heap s) c <-> state (customers s c) = CUSTOMER_STATE_WAITING);
  si_tools : forall t, 0 <= t < num_tools s -> current_user (tools s t) <> -1 ->
      0 <= current_user (tools s t) < MAX_CUSTOMERS /\
      state (customers s (current_user (tools s t))) = CUSTOMER_STATE_USING /\
      current_tool (customers s (current_user (tools s t))) = t
}.

(** Executable form of [sched_inv] and of [usage_nonneg]. *)
Definition sched_invb (s : SharedMemory) : bool :=
  Heap.backmapb (heap s) && Heap.min_heapb (heap s)
  && forallb (fun c => Bool.eqb (negb (Heap.heap_index (Heap.GLB (heap s) c) =? Heap.NIL))
                         (CustomerState_eqb (state (customers s c)) CUSTOMER_STATE_WAITING))
       (range MAX_CUSTOMERS)
  && forallb (fun t => let u := current_user (tools s t) in
                       (u =? -1)
                       || ((0 <=? u) && (u <? MAX_CUSTOMERS)
                           && CustomerState_eqb (state (customers s u)) CUSTOMER_STATE_USING
                           && (current_tool (customers s u) =? t)))
       (range (num_tools s)).

Definition usage_nonnegb (s : SharedMemory) : bool :=
  forallb (fun t => (current_user (tools s t) =? -1) || (0 <=? current_usage (tools s t)))
    (range (num_tools s)).

(** ** REQUEST: the three placements *)

(** [handle_request] from the point where the durations are stored: the
    search for a tool and what follows it. *)
Definition request_placement (customer_idx : Z) : M unit :=
  s <- get_shm ;;
  let tool := find_free_tool s in
  (if negb (tool =? -1) then assign_tool_to_customer customer_idx tool
   else
     let tool := find_preemption_candidate (share (customers s customer_idx)) s in
     if negb (tool =? -1) then
       let old_user := current_user (tools s tool) in
       remove_customer_from_tool old_user EVENT_TOOL_REMOVED ;;
       enqueue_waiting old_user ;;
       assign_tool_to_customer customer_idx tool
     else
       enqueue_waiting customer_idx ;;
       s <- get_shm ;;
       when (0 <? Heap.heap_size (heap s))
            (let min_waiter_idx := Heap.HEAP_ARRAY (heap s) 0 in
             when ((0 <=? min_waiter_idx) && (min_waiter_idx <? MAX_CUSTOMERS))
                  (let max_tool := find_max_share_tool_above_q s in
                   when (negb (max_tool =? -1))
                        (let max_user := current_user (tools s max_tool) in
                         when (Qltb (share (customers s min_waiter_idx))
                                    (share (customers s max_user)))
                              pthread_cond_signal)))) ;;
  pthread_cond_broadcast.

(** The first statements of [handle_request]: the counters for the state
    the customer leaves. *)
Definition request_entry (customer_idx : Z) (st : CustomerState) : M unit :=
  match st with
  | CUSTOMER_STATE_RESTING =>
      modify (fun s => set_resting_customers (resting_customers s - 1) s)
  | CUSTOMER_STATE_WAITING => leave_queue customer_idx
  | _ => ret tt
  end.

(** What the first statements of [handle_request] leave for the placement:
    the requester is out of the queue, and nothing else that the placement
    reads has changed. *)
Record entered (idx : Z) (w w2 : World) : Prop := mkEntered {
  en_queue : left_queue idx (hp w) (hp w2);
  en_absent : ~ Heap.in_heap (hp w2) idx;
  en_tools : tools (shm w2) = tools (shm w);
  en_num : num_tools (shm w2) = num_tools (shm w);
  en_q : param_q (shm w2) = param_q (shm w);
  en_state : forall c, state (customers (shm w2) c) = state (customers (shm w) c);
  en_share : forall c, share (customers (shm w2) c) = share (customers (shm w) c);
  en_tool : forall c,
      current_tool (customers (shm w2) c) = current_tool (customers (shm w) c);
  en_id : forall c, customer_id (customers (shm w2) c) = customer_id (customers (shm w) c);
  en_start : forall c,
      session_start (customers (shm w2) c) = session_start (customers (shm w) c);
  en_out : stdout w2 = stdout w;
  en_clock : clock w2 = clock w;
  en_ticks : ticks w2 = ticks w
}.

(** Executable form of [selected]. *)
Definition selectedb (s : SharedMemory) (t : Z) : bool :=
  (0 <=? t) && (t <? num_tools s) && negb (current_user (tools s t) =? -1)
  && forallb (fun i =>
       (current_user (tools s i) =? -1)
       || ((current_usage (tools s i) <=? current_usage (tools s t))
           && (negb (current_usage (tools s i) =? current_usage (tools s t))
               || (t <=? i))))
       (range (num_tools s)).

(** One tool, held by customer 4242 (slot 1023) since time 10, with
    [current_usage] 150 after a tick at time 160; customer 4343 (slot 1022)
    is Resting.  Both shares are 0. *)
Definition w_busy : World :=
  exec (_ <- tool_process_tick 0 ;; ret tt)
    (exec (handle_request 1023 2000)
       (exec (_ <- allocate_customer 4343 ;; ret tt)
          (exec (_ <- allocate_customer 4242 ;; ret tt)
             (exec (setup_shared_memory 100 500 1)
                (boot (clock_of [0; 10; 160; 170; 180; 190])))))).

(** ** The tool runner at the [Q] threshold *)

(** The world in which a tick acts once it has stored the elapsed time. *)
Definition ticked (tool_id : Z) (w : World) : World :=
  let s := shm w in
  let user := current_user (tools s tool_id) in
  let elapsed := to_int (clock w (ticks w) - tool_session_start (tools s tool_id)) in
  let remaining := request_duration (customers s user) - elapsed in
  mkWorld
    (on_customer user (set_remaining_duration (if remaining <? 0 then 0 else remaining))
       (on_tool tool_id (set_current_usage elapsed) s))
    (stdout w) (clock w) (S (ticks w)).

(** Customer 4343 (slot 1022) has been served 5000 ms; customer 4242 (slot
    1023, share 0) then takes the only tool at time 5020 for 2000 ms, and
    4343 asks again and waits with key 5000.  The next tick comes at time
    5520: [elapsed = Q = 500]. *)
Definition w_starved : World :=
  exec (handle_request 1022 1000)
    (exec (handle_request 1023 2000)
       (exec (_ <- tool_process_tick 0 ;; ret tt)
          (exec (handle_request 1022 5000)
             (exec (_ <- allocate_customer 4343 ;; ret tt)
                (exec (_ <- allocate_customer 4242 ;; ret tt)
                   (exec (setup_shared_memory 100 500 1)
                      (boot (clock_of
                         [0; 10; 5010; 5010; 5020; 5030; 5520; 5520; 5520; 5520])))))))).

(** The reading of the [Q] rule under which the holder always ends the tick
    Waiting, in the queue under its updated share, the tool going to one of
    the customers that were waiting. *)
Definition holder_ends_waiting (w : World) (t : Z) : Prop :=
  let s := shm w in
  let H := current_user (tools s t) in
  let elapsed := to_int (clock w (ticks w) - tool_session_start (tools s t)) in
  server_should_exit s = false -> H <> -1 ->
  0 < request_duration (customers s H) - elapsed ->
  param_Q s <= elapsed -> 0 < Heap.heap_size (heap s) ->
  let s' := shm (exec (tool_process_tick t) w) in
  state (customers s' H) = CUSTOMER_STATE_WAITING /\
  Heap.in_heap (heap s') H /\
  Heap.key (Heap.GLB (heap s') H) = share (customers s' H) /\
  Heap.in_heap (heap s) (current_user (tools s' t)).

(** ** Statements about the rest of hw1.c *)

(** A bound tool that [find_max_share_tool_above_q] may return. *)
Definition above_q (s : SharedMemory) (t : Z) : Prop :=
  0 <= t < num_tools s /\ current_user (tools s t) <> -1 /\
  param_q s <= current_usage (tools s t) /\
  (-1 <= share (customers s (current_user (tools s t))))%Q.

(** No customer is between two states. *)
Definition none_in_transit : Z -> Prop := fun _ => False.

(** The customers of [T], and [x]. *)
Definition with_transit (T : Z -> Prop) (x : Z) : Z -> Prop := fun c => T c \/ c = x.

(** [sched_inv] in the middle of a transition: the customers of [T] have
    been taken out of the queue or off their tool and their [state] field
    has not been written yet. *)
Record loose_inv (T : Z -> Prop) (s : SharedMemory) : Prop := mkLooseInv {
  li_backmap : Heap.backmap (heap s);
  li_min : Heap.min_heap (heap s);
  li_queue : forall c, 0 <= c < MAX_CUSTOMERS -> ~ T c ->
      (Heap.in_heap (heap s) c <-> state (customers s c) = CUSTOMER_STATE_WAITING);
  li_absent : forall c, T c -> ~ Heap.in_heap (heap s) c;
  li_tools : forall t, 0 <= t < num_tools s -> current_user (tools s t) <> -1 ->
      0 <= current_user (tools s t) < MAX_CUSTOMERS /\
      ~ T (current_user (tools s t)) /\
      state (customers s (current_user (tools s t))) = CUSTOMER_STATE_USING /\
      current_tool (customers s (current_user (tools s t))) = t
}.

(** What a tick does once it has stored the elapsed time of the holder
    [user]: the three branches of [tool_process]. *)
Definition tick_action (tool_id user elapsed : Z) : M unit :=
  s <- get_shm ;;
  if remaining_duration (customers s user) <=? 0 then
    remove_customer_from_tool user EVENT_TOOL_COMPLETED ;;
    modify (on_customer user (set_state CUSTOMER_STATE_RESTING)) ;;
    modify (fun s => set_resting_customers (resting_customers s + 1) s) ;;
    assign_next_from_queue tool_id
  else if param_Q s <=? elapsed then
    when (0 <? Heap.heap_size (heap s)) (preempt_holder tool_id user)
  else if (param_q s <=? elapsed) && (0 <? Heap.heap_size (heap s)) then
    let min_idx := Heap.HEAP_ARRAY (heap s) 0 in
    when ((0 <=? min_idx) && (min_idx <? MAX_CUSTOMERS))
         (when (Qltb (share (customers s min_idx)) (share (customers s user)))
               (preempt_holder tool_id user))
  else ret tt.

(** The free list of customer slots: a stack of distinct slots, each
    unallocated and Deleted, and one slot per customer that is not counted
    in [total_customers]. *)
Record table_inv (s : SharedMemory) : Prop := mkTableInv {
  ti_count : 0 <= free_customer_count s <= MAX_CUSTOMERS;
  ti_slots : forall i, 0 <= i < free_customer_count s ->
      0 <= free_customer_slots s i < MAX_CUSTOMERS /\
      is_allocated (customers s (free_customer_slots s i)) = false /\
      state (customers s (free_customer_slots s i)) = CUSTOMER_STATE_DELETED;
  ti_distinct : forall i j, 0 <= i < free_customer_count s ->
      0 <= j < free_customer_count s ->
      free_customer_slots s i = free_customer_slots s j -> i = j;
  ti_total : total_customers s + free_customer_count s = MAX_CUSTOMERS
}.

(** What [assign_next_from_queue] never writes. *)
Record table_kept (s s' : SharedMemory) : Prop := mkTableKept {
  tk_total : total_customers s' = total_customers s;
  tk_count : free_customer_count s' = free_customer_count s;
  tk_slots : free_customer_slots s' = free_customer_slots s;
  tk_resting : resting_customers s' = resting_customers s;
  tk_share : total_share s' = total_share s;
  tk_tools : num_tools s' = num_tools s
}.

(** How far [waiting_count] is from the size of the queue. *)
Definition queue_gap (s : SharedMemory) : Z :=
  waiting_count s - Heap.heap_size (heap s).

(** Customer 4242 (slot 1023) holds the only tool since time 10 for a
    request of 50 ms; the next clock reading is 60. *)
Definition w_serving : World :=
  exec (handle_request 1023 50)
    (exec (_ <- allocate_customer 4242 ;; ret tt)
       (exec (setup_shared_memory 100 500 1) (boot (clock_of [0; 10; 60])))).

(** ** The variant scheduler of test_extract/hw1/hw1.c *)

(** [%.0f]: the nearest integer, ties to even (the sign of a zero result is
    not modelled). *)
Definition round_half_even (x : Q) : Z :=
  let n := Qnum x in
  let d := Z.pos (Qden x) in
  let f := (2 * n + d) / (2 * d) in
  if ((2 * n + d) mod (2 * d) =? 0) && Z.odd f then f - 1 else f.

Module Variant.

(** The three event lines with the share printed by [%.0f]. *)
Definition event_line (ev : EventType) (id : Z) (s : Q) (t : Z) : string :=
  match ev with
  | EVENT_TOOL_ASSIGNED =>
      "Customer " ++ fmt_d id ++ " with share " ++ fmt_d (round_half_even s)
        ++ " is assigned to the tool " ++ fmt_d t ++ "." ++ newline
  | EVENT_TOOL_REMOVED =>
      "Customer " ++ fmt_d id ++ " with share " ++ fmt_d (round_half_even s)
        ++ " is removed from the tool " ++ fmt_d t ++ "." ++ newline
  | _ =>
      "Customer " ++ fmt_d id ++ " with share " ++ fmt_d (round_half_even s)
        ++ " leaves the tool " ++ fmt_d t ++ "." ++ newline
  end.

Definition find_free_tool (s : SharedMemory) : Z :=
  fst (fold_left
         (fun (acc : Z * Z) i =>
            let (best_tool, min_usage) := acc in
            if current_user (tools s i) =? -1 then
              if total_usage (tools s i) <? min_usage
              then (i, total_usage (tools s i))
              else acc
            else acc)
         (range (num_tools s)) (-1, LLONG_MAX)).

Definition find_preemption_candidate (new_share : Q) (s : SharedMemory) : Z :=
  let candidate :=
    fst (fold_left
           (fun (acc : Z * Z) i =>
              let (candidate, max_usage) := acc in
              if negb (current_user (tools s i) =? -1) then
                let usage := current_usage (tools s i) in
                if max_usage <? usage then (i, usage) else acc
              else acc)
           (range (num_tools s)) (-1, 0)) in
  if candidate =? -1 then -1
  else
    let user_idx := current_user (tools s candidate) in
    let c := customers s user_idx in
    if Qltb (share c) new_share then -1
    else if current_usage (tools s candidate) <? param_q s then -1
    else candidate.

(** The customer leaves the queue only when its own [heap_index] field (its
    slot number, written once by [allocate_customer]) is below [heap_size]. *)
Definition assign_tool_to_customer (customer_idx tool_id : Z) : M unit :=
  now <- get_current_time_ms ;;
  modify (on_customer customer_idx (fun c =>
    set_session_start now
      (set_current_tool tool_id (set_state CUSTOMER_STATE_USING c)))) ;;
  modify (on_tool tool_id (fun t =>
    set_tool_session_start now
      (set_current_usage 0 (set_current_user customer_idx t)))) ;;
  s <- get_shm ;;
  let c := customers s customer_idx in
  when (negb (heap_index c =? -1) && (heap_index c <? Heap.heap_size (heap s)))
       (_ <- heap_delete (heap_index c) ;;
        modify (fun s => set_waiting_count (waiting_count s - 1) s)) ;;
  modify (on_customer customer_idx (fun c =>
    set_event_tool_id tool_id
      (set_event_type EVENT_TOOL_ASSIGNED (set_event_pending true c)))) ;;
  pthread_cond_signal ;;
  s <- get_shm ;;
  let c := customers s customer_idx in
  printf (event_line EVENT_TOOL_ASSIGNED (customer_id c) (share c) tool_id).

Definition remove_customer_from_tool (customer_idx : Z) (event : EventType) : M unit :=
  s <- get_shm ;;
  let tool := current_tool (customers s customer_idx) in
  if tool =? -1 then ret tt
  else
    now <- get_current_time_ms ;;
    let usage := to_int (now - session_start (customers s customer_idx)) in
    modify (on_customer customer_idx (fun c =>
      set_share (share c + inject_Z usage)%Q c)) ;;
    modify (fun s => set_total_share (total_share s + inject_Z usage)%Q s) ;;
    modify (on_tool tool (fun t => set_total_usage (total_usage t + usage) t)) ;;
    s <- get_shm ;;
    let c := customers s customer_idx in
    printf (match event with
            | EVENT_TOOL_REMOVED =>
                event_line EVENT_TOOL_REMOVED (customer_id c) (share c) (current_tool c)
            | _ =>
                event_line EVENT_TOOL_COMPLETED (customer_id c) (share c) (current_tool c)
            end) ;;
    modify (on_tool tool (fun t => set_current_usage 0 (set_current_user (-1) t))) ;;
    modify (on_customer customer_idx (set_current_tool (-1))) ;;
    modify (fun s => on_customer customer_idx (fun c =>
      set_event_tool_id (tool_id (tools s tool))
        (set_event_type event (set_event_pending true c))) s) ;;
    pthread_cond_signal.

Definition assign_next_from_queue (tool_id : Z) : M unit :=
  s <- get_shm ;;
  if Heap.heap_size (heap s) <=? 0 then ret tt
  else
    next_idx <- heap_pop ;;
    when (negb (next_idx =? NIL) && (0 <=? next_idx))
         (modify (fun s => set_waiting_count (waiting_count s - 1) s) ;;
          assign_tool_to_customer next_idx tool_id).

(** A Waiting customer that asks again is not taken out of the queue here. *)
Definition handle_request (customer_idx duration : Z) : M unit :=
  s <- get_shm ;;
  when (CustomerState_eqb (state (customers s customer_idx)) CUSTOMER_STATE_RESTING)
       (modify (fun s => set_resting_customers (resting_customers s - 1) s)) ;;
  modify (on_customer customer_idx (fun c =>
    set_remaining_duration duration (set_request_duration duration c))) ;;
  s <- get_shm ;;
  let tool := find_free_tool s in
  (if negb (tool =? -1) then assign_tool_to_customer customer_idx tool
   else
     let tool := find_preemption_candidate (share (customers s customer_idx)) s in
     if negb (tool =? -1) then
       let old_user := current_user (tools s tool) in
       remove_customer_from_tool old_user EVENT_TOOL_REMOVED ;;
       enqueue_waiting old_user ;;
       assign_tool_to_customer customer_idx tool
     else
       enqueue_waiting customer_idx) ;;
  pthread_cond_broadcast.

Definition preempt_holder (tool_id old_user : Z) : M unit :=
  remove_customer_from_tool old_user EVENT_TOOL_REMOVED ;;
  enqueue_waiting old_user ;;
  assign_next_from_queue tool_id.

(** One iteration of the variant's [tool_process]. *)
Definition tool_process_tick (tool_id : Z) : M unit :=
  s <- get_shm ;;
  let user := current_user (tools s tool_id) in
  if user =? -1 then ret tt
  else
    now <- get_current_time_ms ;;
    let elapsed := to_int (now - tool_session_start (tools s tool_id)) in
    modify (on_tool tool_id (set_current_usage elapsed)) ;;
    let remaining := request_duration (customers s user) - elapsed in
    modify (on_customer user
              (set_remaining_duration (if remaining <? 0 then 0 else remaining))) ;;
    s <- get_shm ;;
    if remaining_duration (customers s user) <=? 0 then
      remove_customer_from_tool user EVENT_TOOL_COMPLETED ;;
      modify (on_customer user (set_state CUSTOMER_STATE_RESTING)) ;;
      modify (fun s => set_resting_customers (resting_customers s + 1) s) ;;
      assign_next_from_queue tool_id
    else if param_Q s <=? elapsed then
      when (0 <? Heap.heap_size (heap s)) (preempt_holder tool_id user)
    else if (param_q s <=? elapsed) && (0 <? Heap.heap_size (heap s)) then
      let min_idx := Heap.HEAP_ARRAY (heap s) 0 in
      when ((0 <=? min_idx) && (min_idx <? MAX_CUSTOMERS))
           (when (Qltb (share (customers s min_idx)) (share (customers s user)))
                 (preempt_holder tool_id user))
    else ret tt.

(** One tool.  Customer 4242 (slot 1023) is served since time 10; customer
    4343 (slot 1022) has asked and waits; the tick at time 160 has stored
    [current_usage = 150 >= q].  [allocate_customer] and
    [setup_shared_memory] are the same in both files. *)
Definition w_waiting : World :=
  exec (tool_process_tick 0)
    (exec (handle_request 1022 1000)
       (exec (handle_request 1023 2000)
          (exec (_ <- allocate_customer 4343 ;; ret tt)
             (exec (_ <- allocate_customer 4242 ;; ret tt)
                (exec (setup_shared_memory 100 500 1)
                   (boot (clock_of [0; 10; 20; 160; 170; 180; 190]))))))).

End Variant.

(** ** hw1.c: the report *)

Definition BUFFER_SIZE : Z := 4096.

(** [n] spaces: the padding of a [%d] with a field width. *)
Fixpoint spaces (n : nat) : string :=
  match n with O => EmptyString | S n' => String Ascii.Space (spaces n') end.

(** [%-Nd]: padded on the right up to the width [N]. *)
Definition fmt_d_left (width : nat) (z : Z) : string :=
  let pad := spaces (width - String.length (fmt_d z)) in
  (fmt_d z ++ pad)%string.

(** [%Nd]: padded on the left up to the width [N]. *)
Definition fmt_d_right (width : nat) (z : Z) : string :=
  let pad := spaces (width - String.length (fmt_d z)) in
  (pad ++ fmt_d z)%string.

(** The division of two doubles gives the double nearest to the quotient,
    ties going to the even significand of 53 bits.  (The quotient is below
    the largest double; the least exponent is that of the subnormal
    doubles.) *)
Definition nearest_double (x : Q) : Q :=
  let x := Qred x in
  let n := Z.abs (Qnum x) in
  let d := Z.pos (Qden x) in
  if n =? 0 then 0%Q
  else
    let a := Z.log2 n - Z.log2 d in
    let above := if 0 <=? a then d * 2 ^ a <=? n else d <=? n * 2 ^ (- a) in
    let exponent := if above then a else a - 1 in
    let e := Z.max (exponent - 52) (-1074) in
    let m :=
      if 0 <=? e then round_half_even (n # Z.to_pos (d * 2 ^ e))
      else round_half_even (n * 2 ^ (- e) # Z.to_pos d) in
    let v := if 0 <=? e then inject_Z (m * 2 ^ e) else (m # Z.to_pos (2 ^ (- e))) in
    if Qnum x <? 0 then (- v)%Q else v.

(** [%.2f] of a double: its value rounded to two decimals, ties to even; a
    negative value keeps its sign when it rounds to zero. *)
Definition fmt_f2 (x : Q) : string :=
  let r := round_half_even (Qabs x * 100) in
  let sign := if Qltb x 0 then "-"%string else EmptyString in
  let pad := if r mod 100 <? 10 then "0"%string else EmptyString in
  (sign ++ fmt_d (r / 100) ++ "." ++ pad ++ fmt_d (r mod 100))%string.

(** The first [n] characters. *)
Fixpoint take (n : nat) (s : string) : string :=
  match n, s with
  | S n', String c s' => String c (take n' s')
  | _, _ => EmptyString
  end.

Definition strlen (s : string) : Z := Z.of_nat (String.length s).

(** [char buffer[BUFFER_SIZE * 10]; int offset]: the characters written so
    far and the running offset. *)
Record ReportBuffer : Type := mkReportBuffer {
  written : string;
  offset : Z
}.

Definition REPORT_SIZE : Z := BUFFER_SIZE * 10.

(** [offset += snprintf(buffer + offset, sizeof(buffer) - offset, ...)] for
    the formatted text [text]: at most [sizeof(buffer) - offset - 1]
    characters are stored, and the whole length is added to [offset].  Once
    [offset] is past the end of the buffer the call has no defined
    behaviour. *)
Definition snprintf (text : string) (b : option ReportBuffer) : option ReportBuffer :=
  match b with
  | None => None
  | Some b =>
      if REPORT_SIZE <? offset b then None
      else Some (mkReportBuffer
                   (written b ++ take (Z.to_nat (REPORT_SIZE - offset b - 1)) text)%string
                   (offset b + strlen text))
  end.

(** [send(socket_fd, buffer, offset, 0)]: the [offset] first bytes of the
    buffer.  They are the characters written, followed by the terminating
    zero when the last text lost exactly one character; otherwise bytes
    that were never written would be sent. *)
Definition send (b : option ReportBuffer) : option string :=
  match b with
  | None => None
  | Some b =>
      if offset b =? strlen (written b) then Some (written b)
      else if offset b =? strlen (written b) + 1
      then Some (written b ++ String Ascii.zero EmptyString)%string
      else None
  end.

Module Wait.

(** [WaitEntry] *)
Record Entry : Type := mkEntry {
  id : Z;
  duration : Z;
  share : Z
}.

End Wait.

(** The first loop of [handle_report]: the entries of the allocated Waiting
    customers, in slot order. *)
Definition collect_waiting (s : SharedMemory) (now : Z) : (Z -> Wait.Entry) * Z :=
  fold_left
    (fun (acc : (Z -> Wait.Entry) * Z) i =>
       let (wait_list, wait_count) := acc in
       let c := customers s i in
       if is_allocated c && CustomerState_eqb (state c) CUSTOMER_STATE_WAITING then
         (upd wait_list wait_count
            (Wait.mkEntry (customer_id c) (to_int (now - wait_start c))
               (double_to_int (share c))),
          wait_count + 1)
       else acc)
    (range MAX_CUSTOMERS) (fun _ => Wait.mkEntry 0 0 0, 0).

(** The indices [lo, lo+1, ..., hi-1]. *)
Definition range_from (lo hi : Z) : list Z :=
  List.map (fun k => lo + k) (range (hi - lo)).

(** The two nested loops that order [wait_list] by share. *)
Definition sort_inner (i wait_count : Z) (wait_list : Z -> Wait.Entry) : Z -> Wait.Entry :=
  fold_left
    (fun wait_list j =>
       if Wait.share (wait_list j) <? Wait.share (wait_list i) then
         let tmp := wait_list i in
         upd (upd wait_list i (wait_list j)) j tmp
       else wait_list)
    (range_from (i + 1) wait_count) wait_list.

Definition sort_wait_list (wait_count : Z) (wait_list : Z -> Wait.Entry) : Z -> Wait.Entry :=
  fold_left (fun wait_list i => sort_inner i wait_count wait_list)
    (range (wait_count - 1)) wait_list.

Definition report_header (s : SharedMemory) : string :=
  "k: " ++ fmt_d (num_tools s) ++ ", customers: " ++ fmt_d (waiting_count s)
    ++ " waiting, " ++ fmt_d (resting_customers s) ++ " resting, "
    ++ fmt_d (total_customers s) ++ " in total" ++ newline.

Definition report_average (s : SharedMemory) : string :=
  let avg_share :=
    if 0 <? total_customers s
    then nearest_double (total_share s / inject_Z (total_customers s)) else 0%Q in
  "average share: " ++ fmt_f2 avg_share ++ newline.

Definition wait_row (e : Wait.Entry) : string :=
  (fmt_d_left 12 (Wait.id e) ++ " " ++ fmt_d_right 10 (Wait.duration e) ++ " "
     ++ fmt_d_right 12 (Wait.share e) ++ newline)%string.

(** The row of a free tool. *)
Definition free_tool_row (s : SharedMemory) (i : Z) : string :=
  let t := tools s i in
  (fmt_d_left 5 i ++ " " ++ fmt_d_right 12 (to_int (total_usage t))
     ++ " FREE" ++ newline)%string.

(** The row of a bound tool, for the clock reading [now_tool]. *)
Definition busy_tool_row (s : SharedMemory) (i : Z) (now_tool : Z) : string :=
  let t := tools s i in
  let c := customers s (current_user t) in
  let current := to_int (now_tool - tool_session_start t) in
  let in_use := to_int (total_usage t + current) in
  (fmt_d_left 5 i ++ " " ++ fmt_d_right 12 in_use
     ++ " " ++ fmt_d_left 12 (customer_id c)
     ++ " " ++ fmt_d_right 10 (double_to_int (share c))
     ++ " " ++ fmt_d_right 12 (remaining_duration c) ++ newline)%string.

(** The body of the last loop: a bound tool takes a clock reading. *)
Definition tool_row (s : SharedMemory) (i : Z) : M string :=
  if current_user (tools s i) =? -1 then ret (free_tool_row s i)
  else now_tool <- get_current_time_ms ;; ret (busy_tool_row s i now_tool).

(** [for (i = ...) body], with the buffer threaded through. *)
Fixpoint for_each {A : Type} (l : list Z) (body : Z -> A -> M A) (a : A) : M A :=
  match l with
  | [] => ret a
  | i :: l' => a' <- body i a ;; for_each l' body a'
  end.

(** [handle_report]: the result is what [send] is given, when that is
    defined. *)
Definition handle_report : M (option string) :=
  s <- get_shm ;;
  let b := Some (mkReportBuffer EmptyString 0) in
  let b := snprintf (report_header s) b in
  let b := snprintf (report_average s) b in
  let b := snprintf ("waiting list:" ++ newline) b in
  let b := snprintf ("customer   duration  share" ++ newline) b in
  let b := snprintf ("---------------------------" ++ newline) b in
  now <- get_current_time_ms ;;
  let (wait_list, wait_count) := collect_waiting s now in
  let wait_list := sort_wait_list wait_count wait_list in
  let b := fold_left (fun b i => snprintf (wait_row (wait_list i)) b)
             (range wait_count) b in
  let b := snprintf (newline ++ "Tools:" ++ newline)%string b in
  let b := snprintf ("id   totaluse currentuser share duration" ++ newline) b in
  let b := snprintf ("--------------" ++ newline) b in
  b <- for_each (range (num_tools s))
         (fun i b => row <- tool_row s i ;; ret (snprintf row b)) b ;;
  ret (send b).

(** The texts of a list, one after the other. *)
Definition join (texts : list string) : string :=
  fold_right String.append EmptyString texts.

(** What the client receives for the texts handed to [snprintf] in turn:
    all of them when they leave room for the terminating zero, the zero in
    place of the last character when they fill the buffer exactly, and
    nothing defined when they are longer than the buffer. *)
Definition sent (texts : list string) : option string :=
  let text := join texts in
  if strlen text <? REPORT_SIZE then Some text
  else if strlen text =? REPORT_SIZE
  then Some (take (Z.to_nat (REPORT_SIZE - 1)) text ++ String Ascii.zero EmptyString)%string
  else None.

(** The rows of the tools [l], the bound ones reading the clock in turn from
    the tick [t] on. *)
Fixpoint tool_rows (s : SharedMemory) (clock : nat -> Z) (t : nat) (l : list Z)
  : list string :=
  match l with
  | [] => []
  | i :: l' =>
      if current_user (tools s i) =? -1
      then free_tool_row s i :: tool_rows s clock t l'
      else busy_tool_row s i (clock t) :: tool_rows s clock (S t) l'
  end.

(** The number of bound tools among [l]. *)
Definition bound_tools (s : SharedMemory) (l : list Z) : nat :=
  List.length (filter (fun i => negb (current_user (tools s i) =? -1)) l).

(** The lines of a report, in the order in which they are written, for the
    text [average] that [%.2f] gives for the average share. *)
Definition report_lines (average : string) (w : World) : list string :=
  let s := shm w in
  let (wait_list, wait_count) := collect_waiting s (clock w (ticks w)) in
  [ report_header s; ("average share: " ++ average ++ newline)%string;
    ("waiting list:" ++ newline)%string;
    ("customer   duration  share" ++ newline)%string;
    ("---------------------------" ++ newline)%string ]
  ++ List.map (fun i => wait_row (sort_wait_list wait_count wait_list i))
       (range wait_count)
  ++ [ (newline ++ "Tools:" ++ newline)%string;
       ("id   totaluse currentuser share duration" ++ newline)%string;
       ("--------------" ++ newline)%string ]
  ++ tool_rows s (clock w) (S (ticks w)) (range (num_tools s)).

(** ** hw1.c: the socket thread of an agent *)

(** The C string that starts a buffer: the bytes before the first zero. *)
Fixpoint c_string (bytes : string) : string :=
  match bytes with
  | EmptyString => EmptyString
  | String c rest =>
      if Ascii.eqb c Ascii.zero then EmptyString else String c (c_string rest)
  end.

(** The delimiters [" \r\n"] of the two [strtok] calls. *)
Definition is_delim (c : ascii) : bool :=
  Ascii.eqb c Ascii.Space
  || Ascii.eqb c (Ascii.ascii_of_nat 13)
  || Ascii.eqb c (Ascii.ascii_of_nat 10).

Fixpoint skip_delims (s : string) : string :=
  match s with
  | EmptyString => EmptyString
  | String c rest => if is_delim c then skip_delims rest else s
  end.

(** The token that starts [s], and what follows the delimiter that ends
    it. *)
Fixpoint scan_token (s : string) : string * string :=
  match s with
  | EmptyString => (EmptyString, EmptyString)
  | String c rest =>
      if is_delim c then (EmptyString, rest)
      else let (token, after) := scan_token rest in (String c token, after)
  end.

(** [strtok]: the next token of [s] and the position saved for the next
    call, or [None] for the null pointer when only delimiters are left. *)
Definition strtok (s : string) : option (string * string) :=
  match skip_delims s with
  | EmptyString => None
  | String c rest => Some (scan_token (String c rest))
  end.

(** [isspace] in the C locale. *)
Definition isspace (c : ascii) : bool :=
  let n := Z.of_nat (Ascii.nat_of_ascii c) in
  (n =? 32) || ((9 <=? n) && (n <=? 13)).

Fixpoint skip_space (s : string) : string :=
  match s with
  | EmptyString => EmptyString
  | String c rest => if isspace c then skip_space rest else s
  end.

Definition digit_value (c : ascii) : option Z :=
  let n := Z.of_nat (Ascii.nat_of_ascii c) in
  if (48 <=? n) && (n <=? 57) then Some (n - 48) else None.

(** The value of the decimal digits that start [s], after [acc]. *)
Fixpoint digits_value (s : string) (acc : Z) : Z :=
  match s with
  | EmptyString => acc
  | String c rest =>
      match digit_value c with
      | Some v => digits_value rest (acc * 10 + v)
      | None => acc
      end
  end.

(** [atoi] of the C library: white space, an optional sign, decimal digits;
    [None] when the value is no [int], where the C standard leaves the
    behaviour undefined. *)
Definition atoi (s : string) : option Z :=
  let s := skip_space s in
  let (negative, s) :=
    match s with
    | String c rest =>
        if Ascii.eqb c "-"%char then (true, rest)
        else if Ascii.eqb c "+"%char then (false, rest)
        else (false, s)
    | EmptyString => (false, s)
    end in
  let v := digits_value s 0 in
  let r := if negative then - v else v in
  if (INT_MIN <=? r) && (r <=? INT_MAX) then Some r else None.

(** How one turn of the loop of [agent_socket_thread] ends. *)
Inductive Turn : Type :=
  | Continue (reply : option string)  (* next [recv]; [reply] was sent *)
  | Break                             (* the thread returns *)
  | Undefined.                        (* no defined behaviour *)

(** One turn of the loop.  [received] stands for the call of [recv]: [None]
    for an error, and else the bytes delivered, at most [BUFFER_SIZE - 1]
    of them, none when the peer has closed the connection. *)
Definition socket_turn (customer_idx : Z) (received : option string) : M Turn :=
  let n := match received with None => -1 | Some bytes => strlen bytes end in
  if n <=? 0 then ret Break
  else
    let buffer := match received with None => EmptyString | Some bytes => c_string bytes end in
    match strtok buffer with
    | None => ret (Continue None)
    | Some (cmd, saved) =>
        if String.eqb cmd "REQUEST" then
          match strtok saved with
          | Some (duration_str, _) =>
              match atoi duration_str with
              | None => ret Undefined
              | Some duration =>
                  if 0 <? duration then
                    handle_request customer_idx duration ;; ret (Continue None)
                  else ret (Continue None)
              end
          | None => ret (Continue None)
          end
        else if String.eqb cmd "REST" then
          handle_rest customer_idx ;; ret (Continue None)
        else if String.eqb cmd "REPORT" then
          reply <- handle_report ;;
          ret (match reply with
               | Some text => Continue (Some text)
               | None => Undefined
               end)
        else if String.eqb cmd "QUIT" then ret Break
        else ret (Continue None)
    end.

(** [agent_socket_thread] for the successive results of [recv]: the replies
    sent, and whether the thread has returned ([Some true]), still waits in
    [recv] ([Some false]) or has left defined behaviour ([None]). *)
Fixpoint agent_socket_thread (customer_idx : Z) (received : list (option string))
  : M (list string * option bool) :=
  match received with
  | [] => ret ([], Some false)
  | r :: later =>
      turn <- socket_turn customer_idx r ;;
      match turn with
      | Break => ret ([], Some true)
      | Undefined => ret ([], None)
      | Continue reply =>
          rest <- agent_socket_thread customer_idx later ;;
          ret (match reply with Some text => [text] | None => [] end ++ fst rest,
               snd rest)
      end
  end.

(** ** Statements about the report and the socket thread *)

(** The customers that [handle_report] lists as waiting. *)
Definition is_waiting (s : SharedMemory) (i : Z) : bool :=
  is_allocated (customers s i)
  && CustomerState_eqb (state (customers s i)) CUSTOMER_STATE_WAITING.

(** The entry that [handle_report] makes for the customer in slot [i]. *)
Definition wait_entry (s : SharedMemory) (now : Z) (i : Z) : Wait.Entry :=
  let c := customers s i in
  Wait.mkEntry (customer_id c) (to_int (now - wait_start c))
    (double_to_int (share c)).

Definition by_share (a b : Wait.Entry) : Prop := Wait.share a <= Wait.share b.


(** A character that is neither a delimiter of [strtok] nor the zero
    byte. *)
Definition plain (c : ascii) : bool :=
  negb (is_delim c) && negb (Ascii.eqb c Ascii.zero).

Fixpoint all_plain (s : string) : bool :=
  match s with
  | EmptyString => true
  | String c rest => plain c && all_plain rest
  end.

(** A word as [strtok] returns it: not empty, of plain characters. *)
Definition is_token (s : string) : bool :=
  match s with
  | EmptyString => false
  | String _ _ => all_plain s
  end.

(** Two tools; customer 4242 (slot 1023) holds tool 0 and tool 1 is free. *)
Definition w_second_free : World :=
  exec (handle_request 1023 50)
    (exec (_ <- allocate_customer 4242 ;; ret tt) (server 100 500 2)).


(** ** Statements about the processes together *)

(** A step that leaves the free stack and the customer count alone and
    writes no customer that is Deleted. *)
Record quiet (s s' : SharedMemory) : Prop := mkQuiet {
  qt_count : free_customer_count s' = free_customer_count s;
  qt_slots : free_customer_slots s' = free_customer_slots s;
  qt_total : total_customers s' = total_customers s;
  qt_deleted : forall c, state (customers s c) = CUSTOMER_STATE_DELETED ->
      state (customers s' c) = CUSTOMER_STATE_DELETED /\
      (is_allocated (customers s c) = false ->
       is_allocated (customers s' c) = false)
}.

(** ** The processes together *)

(** What one process does between a lock and an unlock of [global_mutex]:
    the critical sections of [agent_process] and of its two threads, and an
    iteration of [tool_process]. *)
Inductive Action : Type :=
  | Connect (pid : Z)
  | Command (customer_idx : Z) (received : option string)
  | Notify (customer_idx : Z) (buffer : string)
  | Release (customer_idx : Z)
  | Deallocate (customer_idx : Z)
  | Tick (tool_id : Z).

Definition perform (a : Action) : M unit :=
  match a with
  | Connect pid => _ <- allocate_customer pid ;; ret tt
  | Command customer_idx received => _ <- socket_turn customer_idx received ;; ret tt
  | Notify customer_idx buffer => _ <- agent_notify_step customer_idx buffer ;; ret tt
  | Release customer_idx => agent_release customer_idx
  | Deallocate customer_idx => deallocate_customer customer_idx
  | Tick tool_id => _ <- tool_process_tick tool_id ;; ret tt
  end.

(** The first word of the received bytes is [REQUEST]. *)
Definition requests (received : option string) : bool :=
  match received with
  | None => false
  | Some bytes =>
      match strtok (c_string bytes) with
      | Some (cmd, _) => String.eqb cmd "REQUEST"
      | None => false
      end
  end.

(** The actions considered in a state: the customer is a slot of the table
    and the tool one of the [num_tools] tools, a command has a defined
    behaviour, and [REQUEST] comes from a customer that is Resting or
    Waiting. *)
Definition allowed (a : Action) (w : World) : bool :=
  match a with
  | Connect _ => true
  | Command idx received =>
      (0 <=? idx) && (idx <? MAX_CUSTOMERS)
      && match fst (socket_turn idx received w) with
         | Undefined => false
         | _ => true
         end
      && (negb (requests received)
          || match state (customers (shm w) idx) with
             | CUSTOMER_STATE_RESTING | CUSTOMER_STATE_WAITING => true
             | _ => false
             end)
  | Notify idx _ | Release idx | Deallocate idx =>
      (0 <=? idx) && (idx <? MAX_CUSTOMERS)
  | Tick t => (0 <=? t) && (t <? num_tools (shm w))
  end.

(** The world after the actions [acts], one after the other, when each is
    allowed in the state it finds. *)
Fixpoint run (acts : list Action) (w : World) : option World :=
  match acts with
  | [] => Some w
  | a :: rest => if allowed a w then run rest (exec (perform a) w) else None
  end.

(** The actions with a defined behaviour: as [allowed], but a customer may
    send [REQUEST] in any state. *)
Definition admitted (a : Action) (w : World) : bool :=
  match a with
  | Connect _ => true
  | Command idx received =>
      (0 <=? idx) && (idx <? MAX_CUSTOMERS)
      && match fst (socket_turn idx received w) with
         | Undefined => false
         | _ => true
         end
  | Notify idx _ | Release idx | Deallocate idx =>
      (0 <=? idx) && (idx <? MAX_CUSTOMERS)
  | Tick t => (0 <=? t) && (t <? num_tools (shm w))
  end.

Fixpoint steps (acts : list Action) (w : World) : option World :=
  match acts with
  | [] => Some w
  | a :: rest => if admitted a w then steps rest (exec (perform a) w) else None
  end.

(** Two customers and one tool: both connect and ask for the tool, the tool
    runner preempts the first for the second, reports are asked for, the
    first customer rests and disconnects, and a third customer connects. *)
Definition session : list Action :=
  [ Connect 4242; Connect 4343;
    Command 1023 (Some ("REQUEST 2000" ++ newline)%string);
    Command 1022 (Some ("REQUEST 1000" ++ newline)%string);
    Tick 0;
    Command 1022 (Some ("REPORT" ++ newline)%string);
    Notify 1023 EmptyString;
    Tick 0;
    Command 1023 (Some ("REST" ++ newline)%string);
    Command 1023 (Some ("QUIT" ++ newline)%string);
    Release 1023; Deallocate 1023;
    Connect 4444;
    Command 1021 (Some ("REQUEST 10" ++ newline)%string);
    Tick 0 ].

Definition w_session : World :=
  fold_left (fun w a => exec (perform a) w) session
    (exec (setup_shared_memory 100 500 1)
       (boot (clock_of [0; 10; 20; 700; 710; 720; 730; 1500]))).

(** ** Statements about the event slot *)

(** The fields of a customer that [agent_notify_thread] reads are the same
    in [c] and in [c']. *)
Record same_slot (c c' : Customer) : Prop := mkSameSlot {
  ss_allocated : is_allocated c' = is_allocated c;
  ss_pending : event_pending c' = event_pending c;
  ss_type : event_type c' = event_type c;
  ss_tool : event_tool_id c' = event_tool_id c;
  ss_id : customer_id c' = customer_id c;
  ss_share : share c' = share c
}.

(** The line of the event in the slot of a customer, as the scheduler
    prints it. *)
Definition slot_line (c : Customer) : string :=
  event_line (event_type c) (customer_id c) (double_to_int (share c)) (event_tool_id c).

(** The tools carry their index as [tool_id], and the [current_tool] of a
    customer is -1 or one of the tools. *)
Record wired (s : SharedMemory) : Prop := mkWired {
  wd_ids : forall t, 0 <= t < num_tools s -> tool_id (tools s t) = t;
  wd_bound : forall c, current_tool (customers s c) = -1 \/
                       0 <= current_tool (customers s c) < num_tools s
}.

(** What a step that prints the lines [out] does to the slot of a
    customer: it leaves the slot alone, or it leaves nothing to forward, or
    the slot holds an event whose line is one of [out]. *)
Definition slot_step (out : list string) (c c' : Customer) : Prop :=
  same_slot c c'
  \/ is_allocated c' && event_pending c' = false
  \/ (event_type c' <> EVENT_NONE /\ In (slot_line c') out).

(** A step from [w] to [w'] that writes the event slots only together with
    the lines it prints. *)
Record relay (w w' : World) : Prop := mkRelay {
  rl_tools : num_tools (shm w') = num_tools (shm w);
  rl_ids : forall t, tool_id (tools (shm w') t) = tool_id (tools (shm w) t);
  rl_bound : forall c,
      current_tool (customers (shm w') c) = current_tool (customers (shm w) c)
      \/ current_tool (customers (shm w') c) = -1
      \/ 0 <= current_tool (customers (shm w') c) < num_tools (shm w);
  rl_log : exists out, stdout w' = stdout w ++ out /\
      forall c, slot_step out (customers (shm w) c) (customers (shm w') c)
}.

(** The loop of [agent_notify_thread] for at most [n] rounds, from the
    buffer [buffer]: the lines sent before the thread waits or exits. *)
Fixpoint forwarded (n : nat) (idx : Z) (buffer : string) (w : World) : list string :=
  match n with
  | O => []
  | S n' =>
      match agent_notify_step idx buffer w with
      | (NotifySends line, w') => line :: forwarded n' idx line w'
      | _ => []
      end
  end.

(** The reading of the forwarding rule under which no event is lost: every
    event line that the scheduler prints for the customer of slot [idx]
    between [w] and [w'] is sent by the forwarder when it runs from [w']. *)
Definition every_event_forwarded (w w' : World) (idx : Z) : Prop :=
  forall ev s t,
    let line := event_line ev (customer_id (customers (shm w') idx)) s t in
    In line (skipn (List.length (stdout w)) (stdout w')) ->
    exists n, In line (forwarded n idx EmptyString w').

(** Three customers and one tool: 4242 is served 50 ms, 4343 connects with
    share 50 and is served 3 ms, and 4444 connects with the average share
    103/2. *)
Definition relay_clock : nat -> Z := clock_of [0; 10; 60; 60; 70; 73; 73; 80].

Definition relay_before : list Action :=
  [ Connect 4242;
    Command 1023 (Some ("REQUEST 50" ++ newline)%string);
    Tick 0;
    Connect 4343;
    Command 1022 (Some ("REQUEST 3" ++ newline)%string);
    Tick 0;
    Connect 4444 ].

(** Then 4444 asks for the tool. *)
Definition relay_after : list Action :=
  [ Command 1021 (Some ("REQUEST 100" ++ newline)%string) ].

Definition w_average : World :=
  fold_left (fun w a => exec (perform a) w) relay_before
    (exec (setup_shared_memory 100 500 1) (boot relay_clock)).

Definition w_asked : World :=
  fold_left (fun w a => exec (perform a) w) relay_after w_average.

(** ** More scenarios *)

(** Customer 4242 (slot 1023) takes the only tool at time 10 for the
    longest request, [INT_MAX] ms, and nobody else asks for it; the next
    clock reading comes [2 ^ 31] ms later. *)
Definition w_overdue : World :=
  exec (handle_request 1023 2147483647)
    (exec (_ <- allocate_customer 4242 ;; ret tt)
       (exec (setup_shared_memory 100 500 1)
          (boot (clock_of [0; 10; 2147483658])))).


(** Two customers and one tool: 4242 (slot 1023) holds the tool and 4343
    (slot 1022) waits. *)
Definition queued : list Action :=
  [ Connect 4242; Connect 4343;
    Command 1023 (Some ("REQUEST 2000" ++ newline)%string);
    Command 1022 (Some ("REQUEST 1000" ++ newline)%string) ].

Definition w_queued : World :=
  fold_left (fun w a => exec (perform a) w) queued
    (exec (setup_shared_memory 100 500 1) (boot clock10)).

(** Then the holder's slot is deallocated: it goes on top of the free
    stack, above the slots that were never used. *)
Definition w_vacated : World :=
  fold_left (fun w a => exec (perform a) w) (queued ++ [Deallocate 1023])
    (exec (setup_shared_memory 100 500 1) (boot clock10)).

(** * Part II: properties *)

(** ** Ranges, arrays, comparisons *)

Lemma in_range n x : In x (range n) <-> 0 <= x < n.
Proof.
  unfold range. rewrite in_map_iff. split.
  - intros [k [E H]]. apply in_seq in H. lia.
  - intros H. exists (Z.to_nat x). split; [lia|]. apply in_seq. lia.
Qed.

Lemma range_NoDup n : NoDup (range n).
Proof.
  unfold range. apply Injective_map_NoDup; [|apply seq_NoDup].
  intros a b. apply Nat2Z.inj.
Qed.

Lemma range_length n : 0 <= n -> Z.of_nat (List.length (range n)) = n.
Proof. intros H. unfold range. rewrite length_map, length_seq. lia. Qed.

Lemma range_succ n : 0 <= n -> range (n + 1) = range n ++ [n].
Proof.
  intros H. unfold range.
  replace (Z.to_nat (n + 1)) with (S (Z.to_nat n)) by lia.
  rewrite seq_S, map_app. simpl. rewrite Z2Nat.id by assumption. reflexivity.
Qed.

(** A loop invariant [P i acc], holding before iteration [i], holds after
    the loop [for (i = 0; i < n; i++)]. *)
Lemma fold_range_inv {A : Type} (f : A -> Z -> A) (P : Z -> A -> Prop) n a :
  0 <= n -> P 0 a ->
  (forall i acc, 0 <= i < n -> P i acc -> P (i + 1) (f acc i)) ->
  P n (fold_left f (range n) a).
Proof.
  intros Hn H0 Hstep.
  assert (G : forall k : nat, Z.of_nat k <= n ->
              P (Z.of_nat k) (fold_left f (range (Z.of_nat k)) a)).
  { induction k as [|k IH]; intros Hk.
    - exact H0.
    - replace (Z.of_nat (S k)) with (Z.of_nat k + 1) by lia.
      rewrite range_succ by lia. rewrite fold_left_app. simpl.
      apply Hstep; [lia | apply IH; lia]. }
  specialize (G (Z.to_nat n)). rewrite Z2Nat.id in G by assumption.
  apply G. lia.
Qed.

Lemma forallb_range f n :
  forallb f (range n) = true <-> forall x, 0 <= x < n -> f x = true.
Proof.
  rewrite forallb_forall. split; intros H x Hx; apply H; apply in_range; exact Hx.
Qed.

Lemma upd_eq {A} (f : Z -> A) i v : upd f i v i = v.
Proof. unfold upd. now rewrite Z.eqb_refl. Qed.

Lemma upd_ne {A} (f : Z -> A) i j v : j <> i -> upd f i v j = f j.
Proof. unfold upd. intros H. destruct (Z.eqb_spec j i); [contradiction | reflexivity]. Qed.

Lemma Qltb_true a b : Qltb a b = true <-> (a < b)%Q.
Proof.
  unfold Qltb. rewrite negb_true_iff. split; intros H.
  - apply Qnot_le_lt. intros Hle. apply Qle_bool_iff in Hle. congruence.
  - destruct (Qle_bool b a) eqn:E; [|reflexivity].
    apply Qle_bool_iff in E. exfalso. apply (Qlt_not_le _ _ H E).
Qed.

Lemma Qltb_false a b : Qltb a b = false <-> (b <= a)%Q.
Proof.
  unfold Qltb. rewrite negb_false_iff. apply Qle_bool_iff.
Qed.

(** ** Facts about heap.c *)

Module HeapFacts.
Import Heap.

(** *** Arithmetic of positions and comparisons *)

Lemma heap_parent_div p : 1 <= p -> heap_parent p = (p - 1) / 2.
Proof. intros H. unfold heap_parent. apply Z.quot_div_nonneg; lia. Qed.

Lemma heap_parent_bounds p : 1 <= p -> 0 <= heap_parent p < p.
Proof.
  intros H. rewrite heap_parent_div by assumption.
  split; [apply Z.div_pos; lia | apply Z.div_lt_upper_bound; lia].
Qed.

Lemma heap_parent_child p i :
  1 <= p -> (heap_parent p = i <-> p = heap_left i \/ p = heap_right i).
Proof.
  intros H. rewrite heap_parent_div by assumption. unfold heap_left, heap_right.
  pose proof (Z.div_mod (p - 1) 2 ltac:(lia)) as E.
  pose proof (Z.mod_pos_bound (p - 1) 2 ltac:(lia)) as B.
  split; intros; lia.
Qed.

(** *** Swapping two positions *)

Ltac upd_cases :=
  unfold upd in *;
  repeat match goal with
  | |- context [Z.eqb ?a ?b] => destruct (Z.eqb_spec a b)
  | H : context [Z.eqb ?a ?b] |- _ => destruct (Z.eqb_spec a b)
  end.

Lemma backmap_inj h p r :
  backmap h -> 0 <= p < heap_size h -> 0 <= r < heap_size h ->
  HEAP_ARRAY h p = HEAP_ARRAY h r -> p = r.
Proof.
  intros B Hp Hr E.
  destruct (bm_pos h B p Hp) as [_ Ep]. destruct (bm_pos h B r Hr) as [_ Er].
  rewrite E in Ep. congruence.
Qed.

Lemma in_heap_index h n :
  backmap h -> (in_heap h n <-> 0 <= n < MAX_NODES /\ heap_index (GLB h n) <> NIL).
Proof.
  intros B. split.
  - intros [p [Hp E]]. destruct (bm_pos h B p Hp) as [R I]. subst n.
    split; [exact R|]. rewrite I. unfold NIL. lia.
  - intros [R I]. destruct (bm_node h B n R I) as [Hp E].
    exists (heap_index (GLB h n)). split; assumption.
Qed.

Lemma heap_swap_size i j h : heap_size (heap_swap i j h) = heap_size h.
Proof. reflexivity. Qed.

Lemma heap_swap_keys i j h : same_keys h (heap_swap i j h).
Proof.
  intros n. unfold heap_swap, set_heap_index, set_HEAP_ARRAY, set_GLB. simpl.
  upd_cases; simpl; congruence.
Qed.

Lemma heap_swap_array i j h p :
  HEAP_ARRAY (heap_swap i j h) p =
  if p =? j then HEAP_ARRAY h i else if p =? i then HEAP_ARRAY h j else HEAP_ARRAY h p.
Proof. reflexivity. Qed.

Lemma heap_swap_index i j h n :
  heap_index (GLB (heap_swap i j h) n) =
  if n =? HEAP_ARRAY h j then i
  else if n =? HEAP_ARRAY h i then j else heap_index (GLB h n).
Proof.
  unfold heap_swap, set_heap_index, set_HEAP_ARRAY, set_GLB. simpl.
  upd_cases; subst; simpl; reflexivity.
Qed.

Lemma heap_swap_backmap i j h :
  backmap h -> 0 <= i < heap_size h -> 0 <= j < heap_size h ->
  backmap (heap_swap i j h).
Proof.
  intros B Hi Hj.
  destruct (bm_pos h B i Hi) as [Ri Ii]. destruct (bm_pos h B j Hj) as [Rj Ij].
  constructor.
  - rewrite heap_swap_size. apply (bm_size h B).
  - intros p Hp. rewrite heap_swap_size in Hp.
    destruct (bm_pos h B p Hp) as [Rp Ip].
    rewrite heap_swap_index, !heap_swap_array.
    destruct (Z.eqb_spec p j) as [->|Npj].
    + split; [exact Ri|].
      destruct (Z.eqb_spec (HEAP_ARRAY h i) (HEAP_ARRAY h j)) as [E|N].
      * apply (backmap_inj h i j B Hi Hj E).
      * rewrite Z.eqb_refl. reflexivity.
    + destruct (Z.eqb_spec p i) as [->|Npi].
      * split; [exact Rj|]. rewrite Z.eqb_refl. reflexivity.
      * split; [exact Rp|].
        destruct (Z.eqb_spec (HEAP_ARRAY h p) (HEAP_ARRAY h j)) as [E|N].
        { exfalso. apply Npj. apply (backmap_inj h p j B Hp Hj E). }
        destruct (Z.eqb_spec (HEAP_ARRAY h p) (HEAP_ARRAY h i)) as [E|N'].
        { exfalso. apply Npi. apply (backmap_inj h p i B Hp Hi E). }
        exact Ip.
  - intros n Rn. rewrite heap_swap_size, heap_swap_index.
    destruct (Z.eqb_spec n (HEAP_ARRAY h j)) as [->|Nj].
    + intros _. split; [exact Hi|]. rewrite heap_swap_array.
      destruct (Z.eqb_spec i j) as [->|N]; [reflexivity|].
      rewrite Z.eqb_refl. reflexivity.
    + destruct (Z.eqb_spec n (HEAP_ARRAY h i)) as [->|Ni].
      * intros _. split; [exact Hj|]. rewrite heap_swap_array.
        rewrite Z.eqb_refl. reflexivity.
      * intros I. destruct (bm_node h B n Rn I) as [Hq Eq].
        split; [exact Hq|]. rewrite heap_swap_array.
        destruct (Z.eqb_spec (heap_index (GLB h n)) j) as [E|N].
        { exfalso. apply Nj. rewrite <- Eq, E. reflexivity. }
        destruct (Z.eqb_spec (heap_index (GLB h n)) i) as [E|N'].
        { exfalso. apply Ni. rewrite <- Eq, E. reflexivity. }
        exact Eq.
Qed.

Lemma heap_swap_in_heap i j h n :
  0 <= i < heap_size h -> 0 <= j < heap_size h ->
  (in_heap (heap_swap i j h) n <-> in_heap h n).
Proof.
  intros Hi Hj. unfold in_heap. rewrite heap_swap_size. split.
  - intros [p [Hp E]]. rewrite heap_swap_array in E.
    destruct (Z.eqb_spec p j); [exists i; split; assumption|].
    destruct (Z.eqb_spec p i); [exists j; split; assumption|].
    exists p; split; assumption.
  - intros [p [Hp E]].
    destruct (Z.eq_dec p i) as [->|Ni].
    + exists j. split; [exact Hj|]. rewrite heap_swap_array, Z.eqb_refl. exact E.
    + destruct (Z.eq_dec p j) as [->|Nj].
      * exists i. split; [exact Hi|]. rewrite heap_swap_array.
        destruct (Z.eqb_spec i j); [congruence|]. rewrite Z.eqb_refl. exact E.
      * exists p. split; [exact Hp|]. rewrite heap_swap_array.
        destruct (Z.eqb_spec p j); [contradiction|].
        destruct (Z.eqb_spec p i); [contradiction|]. exact E.
Qed.

Lemma heap_swap_outside i j h :
  0 <= i < heap_size h -> 0 <= j < heap_size h ->
  same_outside h (heap_swap i j h).
Proof.
  intros Hi Hj n Hn.
  unfold heap_swap, set_heap_index, set_HEAP_ARRAY, set_GLB. simpl.
  assert (n <> HEAP_ARRAY h i) by (intros ->; apply Hn; exists i; auto).
  assert (n <> HEAP_ARRAY h j) by (intros ->; apply Hn; exists j; auto).
  rewrite !upd_ne by assumption. reflexivity.
Qed.

(** [key_at] after a swap, in terms of the keys before it. *)
Lemma heap_swap_key_at i j h p :
  key_at (heap_swap i j h) p =
  if p =? j then key_at h i else if p =? i then key_at h j else key_at h p.
Proof.
  unfold key_at. rewrite heap_swap_keys, heap_swap_array.
  destruct (p =? j); [reflexivity|]. destruct (p =? i); reflexivity.
Qed.

(** *** Restoring the order: [bubble_up] and [min_heapify] *)

Lemma repaired_refl h : backmap h -> min_heap h -> repaired h h.
Proof.
  intros B M. constructor; try assumption; try reflexivity.
  all: intros n; try reflexivity; intros _; reflexivity.
Qed.

Lemma repaired_swap i j h h' :
  0 <= i < heap_size h -> 0 <= j < heap_size h ->
  repaired (heap_swap i j h) h' -> repaired h h'.
Proof.
  intros Hi Hj [B M S K I O]. constructor; try assumption.
  - intros n. rewrite K. apply heap_swap_keys.
  - intros n. rewrite I. apply heap_swap_in_heap; assumption.
  - intros n Hn. rewrite O.
    + apply heap_swap_outside; assumption.
    + rewrite heap_swap_in_heap; assumption.
Qed.

Ltac eqb_cases :=
  repeat match goal with
  | |- context [Z.eqb ?a ?b] => destruct (Z.eqb_spec a b)
  end.

Lemma bubble_up_loop_spec fuel : forall i h,
  backmap h -> 0 <= i < heap_size h -> (Z.to_nat i <= fuel)%nat -> up_ok h i ->
  repaired h (bubble_up_loop fuel i h).
Proof.
  induction fuel as [|fuel IH]; intros i h B Hi F [U1 U2].
  - simpl. apply repaired_refl; [assumption|].
    intros p Hp. apply U1; [assumption | lia].
  - simpl.
    destruct (Z.ltb_spec 0 i) as [Pi|Pi]; simpl.
    2:{ apply repaired_refl; [assumption|]. intros p Hp. apply U1; [assumption | lia]. }
    destruct (Qltb (key_at h i) (key_at h (heap_parent i))) eqn:C.
    2:{ apply repaired_refl; [assumption|]. intros p Hp.
        destruct (Z.eq_dec p i) as [->|N]; [|apply U1; assumption].
        apply Qltb_false. exact C. }
    apply Qltb_true in C.
    pose proof (heap_parent_bounds i ltac:(lia)) as Bj.
    set (j := heap_parent i) in *.
    apply (repaired_swap i j); [lia | lia |].
    apply IH.
    + apply heap_swap_backmap; [assumption | lia | lia].
    + rewrite heap_swap_size. lia.
    + lia.
    + split.
      * intros p Hp Npj. rewrite heap_swap_size in Hp.
        pose proof (heap_parent_bounds p ltac:(lia)) as Bp.
        rewrite !heap_swap_key_at.
        destruct (Z.eq_dec p i) as [->|Npi].
        { fold j. eqb_cases; try lia. apply Qlt_le_weak. exact C. }
        destruct (Z.eq_dec (heap_parent p) j) as [E|N1].
        { rewrite E. eqb_cases; try lia.
          apply Qle_trans with (key_at h j); [apply Qlt_le_weak; exact C|].
          rewrite <- E. apply U1; assumption. }
        destruct (Z.eq_dec (heap_parent p) i) as [E|N2].
        { rewrite E. eqb_cases; try lia. apply U2; assumption. }
        eqb_cases; try lia. apply U1; assumption.
      * intros Pj c Hc Ec. rewrite heap_swap_size in Hc.
        pose proof (heap_parent_bounds j ltac:(lia)) as Bjj.
        pose proof (heap_parent_bounds c ltac:(lia)) as Bc.
        rewrite !heap_swap_key_at.
        assert (Lj : (key_at h (heap_parent j) <= key_at h j)%Q)
          by (apply U1; lia).
        destruct (Z.eq_dec c i) as [->|Nci].
        { eqb_cases; try lia. exact Lj. }
        eqb_cases; try lia.
        apply Qle_trans with (key_at h j); [exact Lj|].
        rewrite <- Ec. apply U1; [lia | assumption].
Qed.

Lemma bubble_up_loop_fuel f1 : forall f2 i h,
  (Z.to_nat i <= f1)%nat -> (Z.to_nat i <= f2)%nat ->
  bubble_up_loop f1 i h = bubble_up_loop f2 i h.
Proof.
  induction f1 as [|f1 IH]; intros [|f2] i h F1 F2; simpl; try reflexivity.
  - destruct (Z.ltb_spec 0 i); [lia | reflexivity].
  - destruct (Z.ltb_spec 0 i); [lia | reflexivity].
  - destruct (Z.ltb_spec 0 i) as [Pi|Pi]; [|reflexivity]. simpl.
    destruct (Qltb _ _); [|reflexivity].
    pose proof (heap_parent_bounds i ltac:(lia)).
    apply IH; lia.
Qed.

(** More fuel than [i] changes nothing: the loop has already stopped. *)
Lemma bubble_up_fuel fuel i h :
  (Z.to_nat i <= fuel)%nat -> bubble_up_loop fuel i h = bubble_up i h.
Proof. intros F. apply bubble_up_loop_fuel; [exact F | lia]. Qed.

Lemma bubble_up_spec i h :
  backmap h -> 0 <= i < heap_size h -> up_ok h i -> repaired h (bubble_up i h).
Proof.
  intros. apply bubble_up_loop_spec; [assumption | assumption | lia | assumption].
Qed.

Lemma smallest_of_spec i h :
  let s := smallest_of i h in
  (s = i \/ (s = heap_left i /\ heap_left i < heap_size h)
         \/ (s = heap_right i /\ heap_right i < heap_size h)) /\
  (key_at h s <= key_at h i)%Q /\
  (heap_left i < heap_size h -> (key_at h s <= key_at h (heap_left i))%Q) /\
  (heap_right i < heap_size h -> (key_at h s <= key_at h (heap_right i))%Q).
Proof.
  unfold smallest_of.
  destruct (Z.ltb_spec (heap_left i) (heap_size h)) as [L|L]; simpl;
  [destruct (Qltb (key_at h (heap_left i)) (key_at h i)) eqn:CL;
   [apply Qltb_true in CL | apply Qltb_false in CL] |];
  (destruct (Z.ltb_spec (heap_right i) (heap_size h)) as [R|R]; simpl;
   [match goal with |- context [Qltb ?a ?b] =>
      destruct (Qltb a b) eqn:CR; [apply Qltb_true in CR | apply Qltb_false in CR] end |]);
  repeat split; intros; try lia; try lra; auto with zarith.
Qed.

Lemma min_heapify_rec_spec fuel : forall i h,
  backmap h -> 0 <= i < heap_size h -> (Z.to_nat (heap_size h - i) <= fuel)%nat ->
  down_ok h i -> repaired h (min_heapify_rec fuel i h).
Proof.
  induction fuel as [|fuel IH]; intros i h B Hi F [D1 D2]; [lia|].
  simpl.
  destruct (smallest_of_spec i h) as [Hs [Ki [Kl Kr]]].
  set (s := smallest_of i h) in *.
  assert (Hch : forall p, 0 < p < heap_size h -> heap_parent p = i ->
                 (key_at h s <= key_at h p)%Q).
  { intros p Hp E. apply heap_parent_child in E; [|lia].
    destruct E as [->| ->]; [apply Kl | apply Kr]; lia. }
  destruct (Z.eqb_spec s i) as [E|N]; simpl.
  - apply repaired_refl; [assumption|]. intros p Hp.
    destruct (Z.eq_dec (heap_parent p) i) as [Ep|Np]; [|apply D1; assumption].
    rewrite Ep, <- E. apply Hch; assumption.
  - assert (Bs : i < s < heap_size h /\ heap_parent s = i).
    { unfold heap_left, heap_right in Hs.
      destruct Hs as [Hs|[[Hs Hl]|[Hs Hr]]]; [contradiction | |];
      (split; [lia|]; apply heap_parent_child; [lia|];
       unfold heap_left, heap_right; lia). }
    destruct Bs as [Bs Ps].
    apply (repaired_swap i s); [lia | lia |].
    apply IH.
    + apply heap_swap_backmap; [assumption | lia | lia].
    + rewrite heap_swap_size. lia.
    + rewrite heap_swap_size. lia.
    + split.
      * intros p Hp Nps. rewrite heap_swap_size in Hp.
        pose proof (heap_parent_bounds p ltac:(lia)) as Bp.
        rewrite !heap_swap_key_at.
        destruct (Z.eq_dec p s) as [->|Np].
        { rewrite Ps. eqb_cases; try lia. exact Ki. }
        destruct (Z.eq_dec p i) as [->|Npi].
        { eqb_cases; try lia. apply D2; [lia | lia | exact Ps]. }
        destruct (Z.eq_dec (heap_parent p) i) as [E|N1].
        { rewrite E. eqb_cases; try lia. apply Hch; assumption. }
        eqb_cases; try lia. apply D1; assumption.
      * intros _ c Hc Ec. rewrite heap_swap_size in Hc.
        pose proof (heap_parent_bounds c ltac:(lia)) as Bc.
        rewrite Ps, !heap_swap_key_at.
        eqb_cases; try lia.
        rewrite <- Ec. apply D1; [assumption | lia].
Qed.

Lemma min_heapify_rec_fuel f1 : forall f2 i h,
  0 <= i ->
  (Z.to_nat (heap_size h - i) <= f1)%nat -> (Z.to_nat (heap_size h - i) <= f2)%nat ->
  min_heapify_rec f1 i h = min_heapify_rec f2 i h.
Proof.
  induction f1 as [|f1 IH]; intros [|f2] i h Hi F1 F2; simpl; try reflexivity;
    destruct (smallest_of_spec i h) as [Hs _]; unfold heap_left, heap_right in Hs;
    (destruct (Z.eqb_spec (smallest_of i h) i) as [Es|Ns]; [reflexivity|]); simpl.
  - lia.
  - lia.
  - apply IH; rewrite ?heap_swap_size; lia.
Qed.

(** More fuel than [heap_size - i] changes nothing. *)
Lemma min_heapify_fuel fuel i h :
  0 <= i -> (Z.to_nat (heap_size h - i) <= fuel)%nat ->
  min_heapify_rec fuel i h = min_heapify i h.
Proof. intros Hi F. apply min_heapify_rec_fuel; [exact Hi | exact F | lia]. Qed.

Lemma min_heapify_spec i h :
  backmap h -> 0 <= i < heap_size h -> down_ok h i -> repaired h (min_heapify i h).
Proof.
  intros. apply min_heapify_rec_spec; [assumption | assumption | lia | assumption].
Qed.

(** *** Cutting the last position *)

Lemma drop_last_backmap n h :
  backmap h -> 0 < heap_size h -> HEAP_ARRAY h (heap_size h - 1) = n ->
  backmap (drop_last n h).
Proof.
  intros B S El. pose proof (bm_size h B) as Sz.
  constructor.
  - simpl. lia.
  - intros p Hp. simpl in Hp. simpl.
    destruct (bm_pos h B p ltac:(lia)) as [R I]. split; [exact R|].
    rewrite upd_ne; [exact I|].
    intros E. rewrite <- El in E.
    apply (backmap_inj h p (heap_size h - 1) B) in E; lia.
  - intros m Rm. simpl.
    unfold upd. destruct (Z.eqb_spec m n) as [E|N]; simpl.
    + intros C. contradiction.
    + intros I. destruct (bm_node h B m Rm I) as [Hq Eq].
      split; [|exact Eq].
      assert (heap_index (GLB h m) <> heap_size h - 1); [|lia].
      intros C. rewrite C, El in Eq. congruence.
Qed.

Lemma drop_last_in_heap n h m :
  backmap h -> 0 < heap_size h -> HEAP_ARRAY h (heap_size h - 1) = n ->
  (in_heap (drop_last n h) m <-> in_heap h m /\ m <> n).
Proof.
  intros B S El. unfold in_heap. simpl. split.
  - intros [p [Hp E]]. split; [exists p; split; [lia | exact E]|].
    intros C. rewrite <- El, <- E in C.
    apply (backmap_inj h p (heap_size h - 1) B) in C; lia.
  - intros [[p [Hp E]] N]. exists p. split; [|exact E].
    assert (p <> heap_size h - 1); [|lia].
    intros C. rewrite C, El in E. congruence.
Qed.

Lemma drop_last_key_at n h p : key_at (drop_last n h) p = key_at h p.
Proof.
  unfold key_at. simpl.
  unfold upd. destruct (Z.eqb_spec (HEAP_ARRAY h p) n) as [->|N]; reflexivity.
Qed.

Lemma cut_last i h :
  HEAP_ARRAY (heap_swap i (heap_size h - 1) h) (heap_size h - 1) = HEAP_ARRAY h i.
Proof. rewrite heap_swap_array, Z.eqb_refl. reflexivity. Qed.

Lemma cut_key_at i h p :
  key_at (cut i h) p = key_at (heap_swap i (heap_size h - 1) h) p.
Proof. apply drop_last_key_at. Qed.

Lemma cut_backmap i h :
  backmap h -> 0 <= i < heap_size h -> backmap (cut i h).
Proof.
  intros B Hi. apply drop_last_backmap.
  - apply heap_swap_backmap; [assumption | assumption | lia].
  - rewrite heap_swap_size. lia.
  - rewrite heap_swap_size. apply cut_last.
Qed.

Lemma cut_in_heap i h m :
  backmap h -> 0 <= i < heap_size h ->
  (in_heap (cut i h) m <-> in_heap h m /\ m <> HEAP_ARRAY h i).
Proof.
  intros B Hi. unfold cut. rewrite drop_last_in_heap.
  - rewrite heap_swap_in_heap by lia. reflexivity.
  - apply heap_swap_backmap; [assumption | assumption | lia].
  - rewrite heap_swap_size. lia.
  - rewrite heap_swap_size. apply cut_last.
Qed.

Lemma cut_outside i h :
  0 <= i < heap_size h -> same_outside h (cut i h).
Proof.
  intros Hi n Hn. unfold cut, drop_last, set_heap_index, set_GLB.
  cbn [GLB set_heap_size].
  rewrite upd_ne by (intros ->; apply Hn; exists i; auto).
  apply heap_swap_outside; [assumption | lia | assumption].
Qed.

Lemma cut_keys i h : same_keys h (cut i h).
Proof.
  intros n. unfold cut, drop_last, set_heap_index, set_GLB.
  cbn [GLB set_heap_size].
  unfold upd at 1. destruct (Z.eqb_spec n (HEAP_ARRAY h i)) as [->|N];
    cbn [key]; apply heap_swap_keys.
Qed.

(** Leaving the repair step aside, [heap_delete] computes [cut]. *)
Lemma heap_delete_eq n h :
  backmap h -> 0 <= n < MAX_NODES -> heap_index (GLB h n) <> NIL ->
  heap_delete n h =
  (0,
   let i := heap_index (GLB h n) in
   let h := cut i h in
   if i <? heap_size h then
     if (0 <? i) && Qltb (key_at h i) (key_at h (heap_parent i))
     then bubble_up i h else min_heapify i h
   else h,
   []).
Proof.
  intros B R I. unfold heap_delete.
  destruct (Z.ltb_spec n 0); [lia|]. destruct (Z.geb_spec n MAX_NODES); [lia|].
  destruct (Z.eqb_spec (heap_index (GLB h n)) NIL); [contradiction|]. simpl.
  destruct (bm_node h B n R I) as [_ E].
  unfold cut. rewrite E. reflexivity.
Qed.

Lemma repaired_cut i h h' :
  backmap h -> 0 <= i < heap_size h ->
  repaired (cut i h) h' -> removed (HEAP_ARRAY h i) h h'.
Proof.
  intros B Hi [B' M' S' K' I' O'].
  destruct (bm_pos h B i Hi) as [Ri _].
  constructor; try assumption.
  - intros n. rewrite K'. apply cut_keys.
  - intros m. rewrite I'. apply cut_in_heap; assumption.
  - destruct (Z.eq_dec (heap_index (GLB h' (HEAP_ARRAY h i))) NIL) as [E|N];
      [exact E | exfalso].
    assert (in_heap h' (HEAP_ARRAY h i)) as C
      by (apply in_heap_index; [assumption | split; assumption]).
    apply I' in C. apply cut_in_heap in C; [|assumption|assumption].
    destruct C as [_ C]. apply C. reflexivity.
  - intros m Hm. rewrite O'.
    + apply cut_outside; assumption.
    + intros C. apply cut_in_heap in C; [|assumption|assumption]. tauto.
Qed.

(** Removing position [i] and repairing at [i] the way [heap_delete] does. *)
Lemma cut_repair i h :
  backmap h -> min_heap h -> 0 <= i < heap_size h ->
  let h1 := cut i h in
  repaired h1
    (if i <? heap_size h1 then
       if (0 <? i) && Qltb (key_at h1 i) (key_at h1 (heap_parent i))
       then bubble_up i h1 else min_heapify i h1
     else h1).
Proof.
  intros B M Hi h1.
  pose proof (cut_backmap i h B Hi) as B1. fold h1 in B1.
  assert (S1 : heap_size h1 = heap_size h - 1) by reflexivity.
  assert (K1 : forall p, 0 <= p < heap_size h1 -> p <> i -> key_at h1 p = key_at h p).
  { intros p Hp N. unfold h1. rewrite cut_key_at, heap_swap_key_at.
    eqb_cases; try lia. reflexivity. }
  assert (Ord : forall p, 0 < p < heap_size h1 -> p <> i -> heap_parent p <> i ->
                  (key_at h1 (heap_parent p) <= key_at h1 p)%Q).
  { intros p Hp N1 N2. pose proof (heap_parent_bounds p ltac:(lia)).
    rewrite !K1 by lia. apply M. lia. }
  assert (Gr : 0 < i -> forall c, 0 < c < heap_size h1 -> heap_parent c = i ->
                 (key_at h1 (heap_parent i) <= key_at h1 c)%Q).
  { intros Pi c Hc Ec. pose proof (heap_parent_bounds i ltac:(lia)).
    pose proof (heap_parent_bounds c ltac:(lia)).
    rewrite !K1 by lia.
    apply Qle_trans with (key_at h i); [apply M; lia|].
    rewrite <- Ec. apply M. lia. }
  destruct (Z.ltb_spec i (heap_size h1)) as [Li|Li].
  2:{ apply repaired_refl; [assumption|]. intros p Hp.
      apply Ord; [assumption | lia |].
      pose proof (heap_parent_bounds p ltac:(lia)). lia. }
  destruct (Z.ltb_spec 0 i) as [Pi|Pi]; simpl.
  - destruct (Qltb (key_at h1 i) (key_at h1 (heap_parent i))) eqn:C.
    + apply Qltb_true in C. apply bubble_up_spec; [assumption | lia |].
      split; [|exact Gr].
      intros p Hp N. destruct (Z.eq_dec (heap_parent p) i) as [E|N2].
      * rewrite E. apply Qle_trans with (key_at h1 (heap_parent i));
          [apply Qlt_le_weak; exact C | apply Gr; assumption].
      * apply Ord; assumption.
    + apply Qltb_false in C. apply min_heapify_spec; [assumption | lia |].
      split; [|exact Gr].
      intros p Hp N. destruct (Z.eq_dec p i) as [->|N1]; [exact C|].
      apply Ord; assumption.
  - apply min_heapify_spec; [assumption | lia |].
    split; [|exact Gr].
    intros p Hp N. apply Ord; [assumption | lia | assumption].
Qed.

(** *** The public operations *)

Lemma heap_delete_removed n h :
  backmap h -> min_heap h -> 0 <= n < MAX_NODES -> heap_index (GLB h n) <> NIL ->
  exists h', heap_delete n h = (0, h', []) /\ removed n h h'.
Proof.
  intros B M R I. rewrite heap_delete_eq by assumption.
  destruct (bm_node h B n R I) as [Hi E].
  eexists. split; [reflexivity|].
  rewrite <- E at 1. apply repaired_cut; [assumption | assumption |].
  apply cut_repair; assumption.
Qed.

(** The root holds a minimal key. *)
Lemma root_minimal h :
  min_heap h -> forall p, 0 <= p < heap_size h -> (key_at h 0 <= key_at h p)%Q.
Proof.
  intros M p Hp.
  assert (G : forall k : nat, forall p, 0 <= p < heap_size h -> (Z.to_nat p <= k)%nat ->
              (key_at h 0 <= key_at h p)%Q).
  { induction k as [|k IH]; intros r Hr Fr.
    - replace r with 0 by lia. apply Qle_refl.
    - destruct (Z.eq_dec r 0) as [->|N]; [apply Qle_refl|].
      pose proof (heap_parent_bounds r ltac:(lia)).
      apply Qle_trans with (key_at h (heap_parent r)); [apply IH; lia | apply M; lia]. }
  apply (G (Z.to_nat p)); [assumption | lia].
Qed.

Lemma heap_pop_removed h :
  backmap h -> min_heap h -> 0 < heap_size h ->
  exists h', heap_pop h = (HEAP_ARRAY h 0, h', []) /\
             removed (HEAP_ARRAY h 0) h h' /\
             forall m, in_heap h m ->
               (key (GLB h (HEAP_ARRAY h 0)) <= key (GLB h m))%Q.
Proof.
  intros B M S. unfold heap_pop.
  destruct (Z.leb_spec (heap_size h) 0); [lia|].
  eexists. split; [reflexivity|]. split.
  - apply repaired_cut; [assumption | lia |].
    pose proof (cut_repair 0 h B M ltac:(lia)) as C. simpl in C.
    exact C.
  - intros m [p [Hp E]]. subst m. apply (root_minimal h M p Hp).
Qed.

Lemma heap_insert_inserted n h :
  backmap h -> min_heap h -> 0 <= n < MAX_NODES -> heap_index (GLB h n) = NIL ->
  heap_size h < MAX_NODES ->
  exists h' out, heap_insert n h = (0, h', out) /\ inserted n h h'.
Proof.
  intros B M R I S. unfold heap_insert.
  destruct (Z.geb_spec (heap_size h) MAX_NODES); [lia|].
  destruct (Z.ltb_spec n 0); [lia|]. destruct (Z.geb_spec n MAX_NODES); [lia|]. simpl.
  rewrite I. simpl.
  eexists. eexists. split; [reflexivity|].
  pose proof (bm_size h B) as Sz.
  assert (Nin : ~ in_heap h n).
  { intros C. apply in_heap_index in C; [|assumption]. tauto. }
  set (h1 := set_heap_size (heap_size h + 1)
               (set_heap_index n (heap_size h)
                  (set_HEAP_ARRAY (upd (HEAP_ARRAY h) (heap_size h) n) h))).
  assert (A1 : forall p, HEAP_ARRAY h1 p =
                 if p =? heap_size h then n else HEAP_ARRAY h p) by reflexivity.
  assert (G1 : forall m, heap_index (GLB h1 m) =
                 if m =? n then heap_size h else heap_index (GLB h m)).
  { intros m. unfold h1. simpl. unfold upd. destruct (m =? n); reflexivity. }
  assert (Kk : forall m, key (GLB h1 m) = key (GLB h m)).
  { intros m. unfold h1. simpl. unfold upd.
    destruct (Z.eqb_spec m n) as [->|N]; reflexivity. }
  assert (Go : forall m, m <> n -> GLB h1 m = GLB h m).
  { intros m N. unfold h1. simpl. apply upd_ne. exact N. }
  assert (S1 : heap_size h1 = heap_size h + 1) by reflexivity.
  clearbody h1.
  assert (B1 : backmap h1).
  { constructor.
    - lia.
    - intros p Hp. rewrite G1, A1.
      destruct (Z.eqb_spec p (heap_size h)) as [->|N].
      + split; [exact R|]. rewrite Z.eqb_refl. reflexivity.
      + destruct (bm_pos h B p ltac:(lia)) as [Rp Ip]. split; [exact Rp|].
        destruct (Z.eqb_spec (HEAP_ARRAY h p) n) as [C|C]; [|exact Ip].
        exfalso. apply Nin. exists p. split; [lia | exact C].
    - intros m Rm. rewrite G1, A1.
      destruct (Z.eqb_spec m n) as [->|N].
      + intros _. split; [lia|]. rewrite Z.eqb_refl. reflexivity.
      + intros Im. destruct (bm_node h B m Rm Im) as [Hq Eq].
        split; [lia|].
        destruct (Z.eqb_spec (heap_index (GLB h m)) (heap_size h)); [lia | exact Eq]. }
  assert (K1 : forall p, 0 <= p < heap_size h -> key_at h1 p = key_at h p).
  { intros p Hp. unfold key_at. rewrite Kk, A1.
    destruct (Z.eqb_spec p (heap_size h)); [lia | reflexivity]. }
  assert (U : up_ok h1 (heap_size h)).
  { split.
    - intros p Hp N. pose proof (heap_parent_bounds p ltac:(lia)).
      rewrite !K1 by lia. apply M. lia.
    - intros _ c Hc Ec. apply heap_parent_child in Ec; [|lia].
      unfold heap_left, heap_right in Ec. lia. }
  destruct (bubble_up_spec (heap_size h) h1 B1 ltac:(lia) U)
    as [B' M' S' K' I' O'].
  assert (In1 : forall m, in_heap h1 m <-> in_heap h m \/ m = n).
  { intros m. unfold in_heap. rewrite S1. split.
    - intros [p [Hp E]]. rewrite A1 in E.
      destruct (Z.eqb_spec p (heap_size h)); [right; congruence|].
      left. exists p. split; [lia | exact E].
    - intros [[p [Hp E]] | ->].
      + exists p. split; [lia|]. rewrite A1.
        destruct (Z.eqb_spec p (heap_size h)); [lia | exact E].
      + exists (heap_size h). split; [lia|]. rewrite A1, Z.eqb_refl. reflexivity. }
  constructor; try assumption.
  - rewrite S'. exact S1.
  - intros m. rewrite K'. apply Kk.
  - intros m. rewrite I'. apply In1.
  - intros m Hm N. rewrite O'.
    + apply Go. exact N.
    + rewrite In1. tauto.
Qed.

(** Writing the key of a node that is not queued disturbs nothing. *)
Lemma set_key_absent n k h :
  backmap h -> min_heap h -> ~ in_heap h n ->
  backmap (set_key n k h) /\ min_heap (set_key n k h) /\
  (forall m, in_heap (set_key n k h) m <-> in_heap h m).
Proof.
  intros B M Nin.
  assert (I : forall m, heap_index (GLB (set_key n k h) m) = heap_index (GLB h m)).
  { intros m. simpl. unfold upd. destruct (Z.eqb_spec m n) as [->|]; reflexivity. }
  assert (K : forall p, 0 <= p < heap_size h -> key_at (set_key n k h) p = key_at h p).
  { intros p Hp. unfold key_at. simpl. rewrite upd_ne; [reflexivity|].
    intros E. apply Nin. exists p. split; assumption. }
  split; [|split].
  - constructor.
    + apply (bm_size h B).
    + intros p Hp. rewrite I. apply (bm_pos h B p Hp).
    + intros m Rm. rewrite I. apply (bm_node h B m Rm).
  - intros p Hp. simpl in Hp. pose proof (heap_parent_bounds p ltac:(lia)).
    rewrite !K by lia. apply M. exact Hp.
  - intros m. reflexivity.
Qed.

(** A well-formed heap that misses a node of the table has room for it. *)
Lemma heap_room n h :
  backmap h -> 0 <= n < MAX_NODES -> ~ in_heap h n -> heap_size h < MAX_NODES.
Proof.
  intros B R Nin. pose proof (bm_size h B) as Sz.
  destruct (Z.lt_ge_cases (heap_size h) MAX_NODES) as [L|G]; [exact L | exfalso].
  assert (E : heap_size h = MAX_NODES) by lia.
  set (l := List.map (HEAP_ARRAY h) (range (heap_size h))).
  assert (ND : NoDup l).
  { apply NoDup_map_NoDup_ForallPairs; [|apply range_NoDup].
    intros a b Ha Hb Eab. apply in_range in Ha, Hb.
    apply (backmap_inj h a b B Ha Hb Eab). }
  assert (Inc : incl l (range MAX_NODES)).
  { intros m Hm. apply in_map_iff in Hm. destruct Hm as [p [Ep Hp]].
    apply in_range in Hp. apply in_range. subst m. apply (bm_pos h B p Hp). }
  assert (Len : (List.length (range MAX_NODES) <= List.length l)%nat).
  { unfold l. rewrite length_map.
    pose proof (range_length (heap_size h) ltac:(lia)).
    pose proof (range_length MAX_NODES ltac:(unfold MAX_NODES; lia)). lia. }
  pose proof (NoDup_length_incl ND Len Inc) as Inc'.
  assert (Hn : In n l) by (apply Inc', in_range; exact R).
  apply in_map_iff in Hn. destruct Hn as [p [Ep Hp]]. apply in_range in Hp.
  apply Nin. exists p. split; assumption.
Qed.

Lemma backmapb_sound h : backmapb h = true -> backmap h.
Proof.
  unfold backmapb. rewrite !andb_true_iff, !forallb_range.
  intros [[[S1 S2] P] N]. constructor.
  - lia.
  - intros p Hp. specialize (P p Hp). rewrite !andb_true_iff in P. lia.
  - intros n Hn I. specialize (N n Hn).
    rewrite orb_true_iff, !andb_true_iff in N. lia.
Qed.

Lemma min_heapb_sound h : min_heapb h = true -> min_heap h.
Proof.
  unfold min_heapb. rewrite forallb_range. intros H p Hp.
  specialize (H p ltac:(lia)). rewrite orb_true_iff in H.
  destruct H as [H|H]; [lia | apply Qle_bool_iff; exact H].
Qed.

Example demo_heap_layout :
  List.map (HEAP_ARRAY demo_heap) (range (heap_size demo_heap)) = [4; 2; 6; 1; 5; 3].
Proof. vm_compute. reflexivity. Qed.

Example demo_heap_delete :
  let h' := snd (fst (heap_delete 2 demo_heap)) in
  List.map (HEAP_ARRAY h') (range (heap_size h')) = [4; 5; 6; 1; 3].
Proof. vm_compute. reflexivity. Qed.

(** C7. [heap_delete] removes a node by identity, through the node's own
    [heap_index].  On a heap that satisfies the back-map and min-heap
    invariants and holds the node [id], it returns 0 and leaves a heap in
    which [id] has [heap_index = NIL] and is absent, every other node is
    present exactly when it was, no key has changed, the size is one less,
    and both invariants hold again.  When [id] is not in the heap it returns
    -1 and the heap is the one it was given. *)
Theorem heap_delete_by_identity (h : heap) (id : Z) :
  backmap h -> min_heap h ->
  (in_heap h id ->
     exists h', heap_delete id h = (0, h', []) /\
       heap_index (GLB h' id) = NIL /\
       ~ in_heap h' id /\
       (forall m, m <> id -> (in_heap h' m <-> in_heap h m)) /\
       (forall m, key (GLB h' m) = key (GLB h m)) /\
       heap_size h' = heap_size h - 1 /\
       backmap h' /\ min_heap h') /\
  (~ in_heap h id -> exists out, heap_delete id h = (-1, h, out)).
Proof.
  intros B M. split.
  - intros Hin. apply in_heap_index in Hin; [|assumption]. destruct Hin as [R I].
    destruct (heap_delete_removed id h B M R I) as [h' [E Rm]].
    destruct Rm as [B' M' S' K' I' X' O'].
    exists h'.
    split; [exact E|]. split; [exact X'|].
    split; [intros C; apply I' in C; tauto|].
    split; [intros m N; rewrite I'; tauto|].
    split; [exact K'|]. split; [exact S'|]. split; assumption.
  - intros Nin. unfold heap_delete.
    destruct (Z.ltb_spec id 0); [eexists; reflexivity|].
    destruct (Z.geb_spec id MAX_NODES); [eexists; reflexivity|]. simpl.
    destruct (Z.eqb_spec (heap_index (GLB h id)) NIL); [eexists; reflexivity|].
    exfalso. apply Nin. apply in_heap_index; [assumption|]. split; [lia | assumption].
Qed.

Lemma heap_delete_by_identity_witness :
  (exists h', heap_delete 2 demo_heap = (0, h', []) /\
     heap_index (GLB h' 2) = NIL /\
     ~ in_heap h' 2 /\
     (forall m, m <> 2 -> (in_heap h' m <-> in_heap demo_heap m)) /\
     (forall m, key (GLB h' m) = key (GLB demo_heap m)) /\
     heap_size h' = heap_size demo_heap - 1 /\
     backmap h' /\ min_heap h') /\
  (exists out, heap_delete 7 demo_heap = (-1, demo_heap, out)).
Proof.
  assert (B : backmap demo_heap) by (apply backmapb_sound; vm_compute; reflexivity).
  assert (M : min_heap demo_heap) by (apply min_heapb_sound; vm_compute; reflexivity).
  split.
  - apply (heap_delete_by_identity demo_heap 2 B M).
    exists 1. split; [|reflexivity].
    replace (heap_size demo_heap) with 6 by reflexivity. lia.
  - apply (heap_delete_by_identity demo_heap 7 B M).
    intros C. apply in_heap_index in C; [|exact B].
    destruct C as [_ C]. apply C. reflexivity.
Defined.

(** C10. [heap_insert] does not reject a node whose key is 0.0: on a well
    formed heap with room, for a node in range that is not queued, it prints
    the "does not appear to be initialized" line, returns 0 and leaves the
    node in a heap that is well formed and ordered.  Whatever the heap, the
    result is -1 exactly when the heap is full, the index is out of range or
    the node's [heap_index] is not NIL, and it is 0 otherwise. *)
Theorem heap_insert_zero_key (h : heap) (n : Z) :
  (backmap h -> min_heap h ->
   (key (GLB h n) == 0)%Q ->
   heap_size h < MAX_NODES -> 0 <= n < MAX_NODES -> heap_index (GLB h n) = NIL ->
   exists h', heap_insert n h = (0, h', [msg_uninit n]) /\
     in_heap h' n /\ backmap h' /\ min_heap h' /\
     heap_size h' = heap_size h + 1 /\
     (forall m, in_heap h' m <-> in_heap h m \/ m = n) /\
     (forall m, key (GLB h' m) = key (GLB h m))) /\
  (fst (fst (heap_insert n h)) = -1 <->
     MAX_NODES <= heap_size h \/ n < 0 \/ MAX_NODES <= n \/
     heap_index (GLB h n) <> NIL) /\
  (fst (fst (heap_insert n h)) = -1 \/ fst (fst (heap_insert n h)) = 0).
Proof.
  split; [|split].
  - intros B M K S R I.
    destruct (heap_insert_inserted n h B M R I S) as [h' [out [E Ins]]].
    assert (out = [msg_uninit n]) as ->.
    { revert E. unfold heap_insert.
      destruct (Z.geb_spec (heap_size h) MAX_NODES); [lia|].
      destruct (Z.ltb_spec n 0); [lia|].
      destruct (Z.geb_spec n MAX_NODES); [lia|]. simpl.
      rewrite I. simpl.
      apply Qeq_bool_iff in K. rewrite K. intros E. congruence. }
    destruct Ins as [B' M' S' K' I' O'].
    exists h'.
    split; [exact E|]. split; [apply I'; right; reflexivity|].
    split; [exact B'|]. split; [exact M'|]. split; [exact S'|].
    split; [exact I' | exact K'].
  - unfold heap_insert.
    destruct (Z.geb_spec (heap_size h) MAX_NODES); simpl; [split; [lia | reflexivity]|].
    destruct (Z.ltb_spec n 0); simpl; [split; [lia | reflexivity]|].
    destruct (Z.geb_spec n MAX_NODES); simpl; [split; [lia | reflexivity]|].
    destruct (Z.eqb_spec (heap_index (GLB h n)) NIL); simpl.
    + split; [discriminate | lia].
    + split; [tauto | reflexivity].
  - unfold heap_insert.
    destruct (heap_size h >=? MAX_NODES); [left; reflexivity|].
    destruct ((n <? 0) || (n >=? MAX_NODES)); [left; reflexivity|].
    destruct (negb (heap_index (GLB h n) =? NIL)); [left | right]; reflexivity.
Qed.

Lemma heap_insert_zero_key_witness :
  exists h', heap_insert 1023 empty_heap = (0, h', [msg_uninit 1023]) /\
     in_heap h' 1023 /\ backmap h' /\ min_heap h' /\
     heap_size h' = heap_size empty_heap + 1 /\
     (forall m, in_heap h' m <-> in_heap empty_heap m \/ m = 1023) /\
     (forall m, key (GLB h' m) = key (GLB empty_heap m)).
Proof.
  apply (heap_insert_zero_key empty_heap 1023).
  - apply backmapb_sound. vm_compute. reflexivity.
  - apply min_heapb_sound. vm_compute. reflexivity.
  - reflexivity.
  - reflexivity.
  - split; [discriminate | reflexivity].
  - reflexivity.
Defined.

(** X4. [heap_pop] on a heap that satisfies both invariants: from a non-empty
    heap it returns a node of least key, and leaves the heap without that
    node, one smaller, with both invariants restored; from an empty heap it
    returns [NIL], prints, and leaves the heap as it was. *)
Theorem heap_pop_minimum (h : heap) :
  backmap h -> min_heap h ->
  (0 < heap_size h ->
   exists n h', heap_pop h = (n, h', []) /\
     in_heap h n /\
     (forall m, in_heap h m -> (key (GLB h n) <= key (GLB h m))%Q) /\
     backmap h' /\ min_heap h' /\
     heap_size h' = heap_size h - 1 /\
     (forall m, in_heap h' m <-> in_heap h m /\ m <> n)) /\
  (heap_size h <= 0 -> heap_pop h = (NIL, h, [msg_empty])).
Proof.
  intros B M. split.
  - intros S. destruct (heap_pop_removed h B M S) as [h' [E [R L]]].
    exists (HEAP_ARRAY h 0), h'. destruct R.
    split; [exact E|]. split; [exists 0; split; [lia | reflexivity]|].
    split; [exact L|]. split; [assumption|]. split; [assumption|].
    split; assumption.
  - intros S. unfold heap_pop.
    destruct (Z.leb_spec (heap_size h) 0); [reflexivity | lia].
Qed.

Lemma heap_pop_minimum_witness :
  (0 < heap_size demo_heap ->
   exists n h', heap_pop demo_heap = (n, h', []) /\
     in_heap demo_heap n /\
     (forall m, in_heap demo_heap m ->
        (key (GLB demo_heap n) <= key (GLB demo_heap m))%Q) /\
     backmap h' /\ min_heap h' /\
     heap_size h' = heap_size demo_heap - 1 /\
     (forall m, in_heap h' m <-> in_heap demo_heap m /\ m <> n)) /\
  (heap_size demo_heap <= 0 -> heap_pop demo_heap = (NIL, demo_heap, [msg_empty])).
Proof.
  apply (heap_pop_minimum demo_heap).
  - apply backmapb_sound. vm_compute. reflexivity.
  - apply min_heapb_sound. vm_compute. reflexivity.
Defined.

(** *** Round trips and repairs *)

Lemma absent_index h n :
  backmap h -> 0 <= n < MAX_NODES -> heap_index (GLB h n) = NIL -> ~ in_heap h n.
Proof.
  intros B R E I. apply (in_heap_index h n B) in I. destruct I as [_ I]. contradiction.
Qed.

(** X5. Insert then delete is a round trip.  On a heap that satisfies both
    invariants, a node in range that is not queued is always accepted by
    [heap_insert] (by counting, the heap cannot be full), and [heap_delete]
    of the same node then gives back a heap of the size it had, with the
    same nodes and keys and both invariants. *)
Theorem heap_insert_then_delete (h : heap) (n : Z) :
  backmap h -> min_heap h -> 0 <= n < MAX_NODES -> heap_index (GLB h n) = NIL ->
  exists h1 out h2,
    heap_insert n h = (0, h1, out) /\ in_heap h1 n /\
    heap_delete n h1 = (0, h2, []) /\
    backmap h2 /\ min_heap h2 /\
    heap_size h2 = heap_size h /\
    (forall m, in_heap h2 m <-> in_heap h m) /\
    (forall m, key (GLB h2 m) = key (GLB h m)) /\
    heap_index (GLB h2 n) = NIL.
Proof.
  intros B M R E.
  pose proof (absent_index h n B R E) as A.
  pose proof (heap_room n h B R A) as Room.
  destruct (heap_insert_inserted n h B M R E Room) as [h1 [out [E1 I1]]].
  destruct I1 as [B1 M1 S1 K1 In1 O1].
  assert (N1 : in_heap h1 n) by (apply In1; right; reflexivity).
  assert (X1 : heap_index (GLB h1 n) <> NIL).
  { apply (in_heap_index h1 n B1) in N1. tauto. }
  destruct (heap_delete_removed n h1 B1 M1 R X1) as [h2 [E2 R2]].
  destruct R2 as [B2 M2 S2 K2 In2 X2 O2].
  exists h1, out, h2.
  split; [exact E1|]. split; [exact N1|]. split; [exact E2|].
  split; [exact B2|]. split; [exact M2|]. split; [lia|].
  split.
  - intros m. rewrite In2, In1. split.
    + intros [[H|H] N]; [exact H | contradiction].
    + intros H. split; [left; exact H|]. intros ->. contradiction.
  - split; [|exact X2]. intros m. rewrite K2. apply K1.
Qed.

Lemma heap_insert_then_delete_witness :
  exists h1 out h2,
    heap_insert 7 demo_heap = (0, h1, out) /\ in_heap h1 7 /\
    heap_delete 7 h1 = (0, h2, []) /\
    backmap h2 /\ min_heap h2 /\
    heap_size h2 = heap_size demo_heap /\
    (forall m, in_heap h2 m <-> in_heap demo_heap m) /\
    (forall m, key (GLB h2 m) = key (GLB demo_heap m)) /\
    heap_index (GLB h2 7) = NIL.
Proof.
  apply (heap_insert_then_delete demo_heap 7).
  - apply backmapb_sound. vm_compute. reflexivity.
  - apply min_heapb_sound. vm_compute. reflexivity.
  - unfold MAX_NODES. lia.
  - reflexivity.
Defined.

Lemma pop_all_spec fuel : forall h,
  backmap h -> min_heap h -> heap_size h = Z.of_nat fuel ->
  heap_size (snd (pop_all fuel h)) = 0 /\
  Z.of_nat (List.length (fst (pop_all fuel h))) = heap_size h /\
  backmap (snd (pop_all fuel h)) /\
  NoDup (fst (pop_all fuel h)) /\
  (forall n, In n (fst (pop_all fuel h)) <-> in_heap h n) /\
  StronglySorted (fun a b => (key (GLB h a) <= key (GLB h b))%Q) (fst (pop_all fuel h)) /\
  (forall n, in_heap h n -> heap_index (GLB (snd (pop_all fuel h)) n) = NIL) /\
  (forall n, ~ in_heap h n -> GLB (snd (pop_all fuel h)) n = GLB h n).
Proof.
  induction fuel as [|fuel IH]; intros h B M S.
  - simpl. split; [exact S|]. split; [lia|]. split; [exact B|]. split; [constructor|].
    split; [|split; [constructor|]].
    + intros n. split; [intros []|]. intros [p [Hp _]]. lia.
    + split; [intros n [p [Hp _]]; lia | reflexivity].
  - cbn [pop_all].
    destruct (Z.ltb_spec 0 (heap_size h)) as [P|P]; [|lia].
    destruct (heap_pop_removed h B M P) as [h1 [E [R L]]].
    rewrite E. destruct R as [B1 M1 S1 K1 In1 X1 O1].
    specialize (IH h1 B1 M1 ltac:(lia)).
    destruct (pop_all fuel h1) as [l h2]. cbn [fst snd] in *.
    destruct IH as [Z2 [Len [B2 [ND [Mem [Srt [Idx Out]]]]]]].
    split; [exact Z2|]. split; [cbn [List.length]; lia|]. split; [exact B2|].
    split.
    { constructor; [|exact ND]. intros I. apply Mem, In1 in I. destruct I as [_ I].
      apply I. reflexivity. }
    split.
    { intros n. simpl. rewrite Mem, In1. split.
      - intros [<-|[I _]]; [exists 0; split; [lia|reflexivity] | exact I].
      - intros I. destruct (Z.eq_dec (HEAP_ARRAY h 0) n) as [Q|Q]; [left; exact Q|].
        right. split; [exact I | congruence]. }
    split.
    { constructor.
      - clear - Srt K1. induction Srt as [|a l Ha IH Hall]; constructor.
        + exact IH.
        + clear - Hall K1. induction Hall as [|b l Hb Hall IH]; constructor.
          * rewrite <- !K1. exact Hb.
          * exact IH.
      - apply Forall_forall. intros m I. apply L. apply Mem, In1 in I. tauto. }
    split.
    { intros n I.
      destruct (Z.eq_dec n (HEAP_ARRAY h 0)) as [->|Q].
      - rewrite Out; [exact X1|]. intros C. apply In1 in C. tauto.
      - apply Idx. apply In1. split; assumption. }
    intros n NI.
    rewrite Out; [apply O1; exact NI | intros C; apply In1 in C; tauto].
Qed.

(** X6. Popping a heap that satisfies both invariants until it is empty
    gives every queued node exactly once, in non-decreasing key order, and
    leaves each of them with [heap_index = NIL]. *)
Theorem pop_all_sorted (h : heap) :
  backmap h -> min_heap h ->
  let l := fst (pop_all (Z.to_nat (heap_size h)) h) in
  let h' := snd (pop_all (Z.to_nat (heap_size h)) h) in
  heap_size h' = 0 /\
  Z.of_nat (List.length l) = heap_size h /\
  NoDup l /\
  (forall n, In n l <-> in_heap h n) /\
  StronglySorted (fun a b => (key (GLB h a) <= key (GLB h b))%Q) l /\
  (forall n, in_heap h n -> heap_index (GLB h' n) = NIL).
Proof.
  intros B M l h'.
  destruct (pop_all_spec (Z.to_nat (heap_size h)) h B M) as [Z2 [Len [B2 [ND [Mem [Srt [Idx Out]]]]]]].
  { destruct B. lia. }
  repeat (split; [assumption|]). assumption.
Qed.

Example demo_heap_pop_all :
  fst (pop_all 6 demo_heap) = [4; 2; 5; 1; 6; 3].
Proof. vm_compute. reflexivity. Qed.

Lemma pop_all_sorted_witness :
  let l := fst (pop_all (Z.to_nat (heap_size demo_heap)) demo_heap) in
  let h' := snd (pop_all (Z.to_nat (heap_size demo_heap)) demo_heap) in
  heap_size h' = 0 /\
  Z.of_nat (List.length l) = heap_size demo_heap /\
  NoDup l /\
  (forall n, In n l <-> in_heap demo_heap n) /\
  StronglySorted (fun a b => (key (GLB demo_heap a) <= key (GLB demo_heap b))%Q) l /\
  (forall n, in_heap demo_heap n -> heap_index (GLB h' n) = NIL).
Proof.
  apply (pop_all_sorted demo_heap).
  - apply backmapb_sound. vm_compute. reflexivity.
  - apply min_heapb_sound. vm_compute. reflexivity.
Defined.

(** X7. [heap_parent] undoes [heap_left] and [heap_right]; a position above
    0 is the left or the right child of its parent, which lies below it;
    and [heap_parent 0] is 0, not -1, since C's division truncates. *)
Theorem heap_parent_of_children (i : Z) :
  0 <= i ->
  heap_parent (heap_left i) = i /\ heap_parent (heap_right i) = i /\
  i < heap_left i < heap_right i /\
  (1 <= i -> 0 <= heap_parent i < i /\
             (i = heap_left (heap_parent i) \/ i = heap_right (heap_parent i))) /\
  heap_parent 0 = 0.
Proof.
  intros H.
  split; [apply heap_parent_child; [unfold heap_left; lia | left; reflexivity]|].
  split; [apply heap_parent_child; [unfold heap_right; lia | right; reflexivity]|].
  split; [unfold heap_left, heap_right; lia|].
  split; [|reflexivity].
  intros P. split; [apply heap_parent_bounds; exact P|].
  apply heap_parent_child; [exact P | reflexivity].
Qed.

Lemma heap_parent_of_children_witness :
  heap_parent (heap_left 3) = 3 /\ heap_parent (heap_right 3) = 3 /\
  3 < heap_left 3 < heap_right 3 /\
  (1 <= 3 -> 0 <= heap_parent 3 < 3 /\
             (3 = heap_left (heap_parent 3) \/ 3 = heap_right (heap_parent 3))) /\
  heap_parent 0 = 0.
Proof. apply (heap_parent_of_children 3). lia. Defined.

Lemma small_position p : 0 < p < 6 -> p = 1 \/ p = 2 \/ p = 3 \/ p = 4 \/ p = 5.
Proof. lia. Qed.

(** X8. [bubble_up i], on a well-formed heap whose order fails at most
    between position [i] and its parent, leaves a heap with both invariants
    and the same size, nodes and keys; its loop ends within [i] iterations. *)
Theorem bubble_up_restores_order (h : heap) (i : Z) :
  backmap h -> 0 <= i < heap_size h -> up_ok h i ->
  let h' := bubble_up i h in
  backmap h' /\ min_heap h' /\ heap_size h' = heap_size h /\
  (forall n, in_heap h' n <-> in_heap h n) /\
  (forall n, key (GLB h' n) = key (GLB h n)) /\
  (forall fuel, (Z.to_nat i <= fuel)%nat -> bubble_up_loop fuel i h = h').
Proof.
  intros B R U h'.
  destruct (bubble_up_spec i h B R U) as [B' M' S' K' In' O'].
  fold h' in B', M', S', K', In'.
  repeat (split; [assumption|]).
  intros fuel F. apply bubble_up_fuel. exact F.
Qed.

Lemma bubble_up_restores_order_witness :
  let h' := bubble_up 5 demo_heap_low in
  backmap h' /\ min_heap h' /\ heap_size h' = heap_size demo_heap_low /\
  (forall n, in_heap h' n <-> in_heap demo_heap_low n) /\
  (forall n, key (GLB h' n) = key (GLB demo_heap_low n)) /\
  (forall fuel, (Z.to_nat 5 <= fuel)%nat -> bubble_up_loop fuel 5 demo_heap_low = h').
Proof.
  apply (bubble_up_restores_order demo_heap_low 5).
  - apply backmapb_sound. vm_compute. reflexivity.
  - vm_compute. split; [discriminate | reflexivity].
  - split.
    + intros p Hp Np. change (heap_size demo_heap_low) with 6 in Hp.
      destruct (small_position p Hp) as [->|[->|[->|[->| ->]]]];
        try (vm_compute; discriminate). contradiction.
    + intros _ c Hc Pc. change (heap_size demo_heap_low) with 6 in Hc.
      destruct (small_position c Hc) as [->|[->|[->|[->| ->]]]]; vm_compute in Pc;
        discriminate Pc.
Defined.

Example demo_heap_low_repaired :
  List.map (HEAP_ARRAY (bubble_up 5 demo_heap_low)) (range 6) = [3; 2; 4; 1; 5; 6].
Proof. vm_compute. reflexivity. Qed.

(** X9. [min_heapify i], on a well-formed heap whose order fails at most
    between position [i] and its children, leaves a heap with both
    invariants and the same size, nodes and keys; its recursion ends within
    [heap_size - i] calls. *)
Theorem min_heapify_restores_order (h : heap) (i : Z) :
  backmap h -> 0 <= i < heap_size h -> down_ok h i ->
  let h' := min_heapify i h in
  backmap h' /\ min_heap h' /\ heap_size h' = heap_size h /\
  (forall n, in_heap h' n <-> in_heap h n) /\
  (forall n, key (GLB h' n) = key (GLB h n)) /\
  (forall fuel, (Z.to_nat (heap_size h - i) <= fuel)%nat -> min_heapify_rec fuel i h = h').
Proof.
  intros B R D h'.
  destruct (min_heapify_spec i h B R D) as [B' M' S' K' In' O'].
  fold h' in B', M', S', K', In'.
  repeat (split; [assumption|]).
  intros fuel F. apply min_heapify_fuel; [lia | exact F].
Qed.

Lemma min_heapify_restores_order_witness :
  let h' := min_heapify 0 demo_heap_high in
  backmap h' /\ min_heap h' /\ heap_size h' = heap_size demo_heap_high /\
  (forall n, in_heap h' n <-> in_heap demo_heap_high n) /\
  (forall n, key (GLB h' n) = key (GLB demo_heap_high n)) /\
  (forall fuel, (Z.to_nat (heap_size demo_heap_high - 0) <= fuel)%nat ->
     min_heapify_rec fuel 0 demo_heap_high = h').
Proof.
  apply (min_heapify_restores_order demo_heap_high 0).
  - apply backmapb_sound. vm_compute. reflexivity.
  - vm_compute. split; [discriminate | reflexivity].
  - split.
    + intros p Hp Np. change (heap_size demo_heap_high) with 6 in Hp.
      destruct (small_position p Hp) as [->|[->|[->|[->| ->]]]];
        try (vm_compute; discriminate); exfalso; apply Np; reflexivity.
    + intros C. lia.
Defined.

Example demo_heap_high_repaired :
  List.map (HEAP_ARRAY (min_heapify 0 demo_heap_high)) (range 6) = [2; 5; 6; 1; 4; 3].
Proof. vm_compute. reflexivity. Qed.

End HeapFacts.

(** ** The effect of each step *)

Lemma exec_bind {A B : Type} (m : M A) (k : A -> M B) (w : World) :
  exec (bind m k) w = exec (k (fst (m w))) (exec m w).
Proof. unfold exec, bind. destruct (m w). reflexivity. Qed.

Lemma exec_ret {A : Type} (a : A) (w : World) : exec (ret a) w = w.
Proof. reflexivity. Qed.

Lemma exec_modify f w :
  exec (modify f) w = mkWorld (f (shm w)) (stdout w) (clock w) (ticks w).
Proof. reflexivity. Qed.

Lemma set_heap_same s : set_heap (heap s) s = s.
Proof. destruct s. reflexivity. Qed.

Lemma world_eta w : mkWorld (shm w) (stdout w) (clock w) (ticks w) = w.
Proof. destruct w. reflexivity. Qed.

Lemma remove_customer_from_tool_exec w x ev :
  exec (remove_customer_from_tool x ev) w =
  if current_tool (customers (shm w) x) =? -1 then w
  else mkWorld (unbound_shm x ev (clock w (ticks w)) (shm w))
         (stdout w ++ [unbound_line x ev (clock w (ticks w)) (shm w)])
         (clock w) (S (ticks w)).
Proof.
  unfold exec, remove_customer_from_tool, bind, get_shm, modify, ret, printf,
    get_current_time_ms, pthread_cond_signal.
  cbn [shm stdout clock ticks fst snd].
  destruct (current_tool (customers (shm w) x) =? -1); [reflexivity|].
  cbn [shm stdout clock ticks fst snd].
  unfold unbound_shm, unbound_line. f_equal. f_equal. f_equal.
  unfold on_customer, on_tool. cbn. rewrite !upd_eq. cbn.
  destruct ev; reflexivity.
Qed.

Ltac field_cases :=
  unfold on_customer, on_tool; cbn; unfold upd;
  repeat match goal with
  | |- context [Z.eqb ?a ?a] => rewrite (Z.eqb_refl a); cbn
  | |- context [Z.eqb ?a ?b] => destruct (Z.eqb_spec a b); subst; cbn
  end;
  try reflexivity; try contradiction.

Section UnboundFields.
Variables (x : Z) (ev : EventType) (now : Z) (s : SharedMemory).
Let s' := unbound_shm x ev now s.

Lemma unbound_heap : heap s' = heap s.
Proof. reflexivity. Qed.

Lemma unbound_state c : state (customers s' c) = state (customers s c).
Proof.
  unfold s', unbound_shm. field_cases.
Qed.

Lemma unbound_share c :
  share (customers s' c) =
  if c =? x
  then (share (customers s x) + inject_Z (to_int (now - session_start (customers s x))))%Q
  else share (customers s c).
Proof.
  unfold s', unbound_shm. field_cases.
Qed.

Lemma unbound_current_tool c :
  current_tool (customers s' c) = if c =? x then -1 else current_tool (customers s c).
Proof.
  unfold s', unbound_shm. field_cases.
Qed.

Lemma unbound_customer_id c : customer_id (customers s' c) = customer_id (customers s c).
Proof.
  unfold s', unbound_shm. field_cases.
Qed.

Lemma unbound_current_user t :
  current_user (tools s' t) =
  if t =? current_tool (customers s x) then -1 else current_user (tools s t).
Proof.
  unfold s', unbound_shm. field_cases.
Qed.

Lemma unbound_params :
  num_tools s' = num_tools s /\ param_q s' = param_q s /\ param_Q s' = param_Q s /\
  waiting_count s' = waiting_count s /\ resting_customers s' = resting_customers s /\
  total_customers s' = total_customers s.
Proof. repeat split. Qed.
End UnboundFields.

Lemma assign_tool_to_customer_exec w x tool :
  let w1 := exec (when (CustomerState_eqb (state (customers (shm w) x))
                          CUSTOMER_STATE_WAITING) (leave_queue x)) w in
  exec (assign_tool_to_customer x tool) w =
  mkWorld (bound_shm x tool (clock w1 (ticks w1)) (shm w1))
    (stdout w1 ++ [bound_line x tool (shm w1)]) (clock w1) (S (ticks w1)).
Proof.
  intros w1. unfold assign_tool_to_customer.
  rewrite exec_bind. cbn [get_shm fst]. change (exec get_shm w) with w.
  rewrite exec_bind. fold w1.
  unfold exec, bind, get_shm, modify, ret, printf, get_current_time_ms,
    pthread_cond_signal.
  cbn [shm stdout clock ticks fst snd].
  unfold bound_shm, bound_line. f_equal. f_equal. f_equal.
  unfold on_customer, on_tool. cbn. rewrite !upd_eq. reflexivity.
Qed.

Section BoundFields.
Variables (x tool now : Z) (s : SharedMemory).
Let s' := bound_shm x tool now s.

Lemma bound_heap : heap s' = heap s.
Proof. reflexivity. Qed.

Lemma bound_state c :
  state (customers s' c) = if c =? x then CUSTOMER_STATE_USING else state (customers s c).
Proof.
  unfold s', bound_shm. field_cases.
Qed.

Lemma bound_share c : share (customers s' c) = share (customers s c).
Proof.
  unfold s', bound_shm. field_cases.
Qed.

Lemma bound_current_tool c :
  current_tool (customers s' c) = if c =? x then tool else current_tool (customers s c).
Proof.
  unfold s', bound_shm. field_cases.
Qed.

Lemma bound_current_user t :
  current_user (tools s' t) = if t =? tool then x else current_user (tools s t).
Proof.
  unfold s', bound_shm. field_cases.
Qed.
End BoundFields.

Lemma max_customers_nodes : MAX_CUSTOMERS = Heap.MAX_NODES.
Proof. reflexivity. Qed.

Lemma set_waiting_count_same s : set_waiting_count (waiting_count s) s = s.
Proof. destruct s. reflexivity. Qed.

Lemma removed_left_queue x h h' : Heap.removed x h h' -> left_queue x h h'.
Proof. intros [B M S K I X O]. constructor; assumption. Qed.

Lemma left_queue_absent x h :
  Heap.backmap h -> Heap.min_heap h -> ~ Heap.in_heap h x -> left_queue x h h.
Proof.
  intros B M N. constructor; try assumption.
  - intros m. reflexivity.
  - intros m. split; [|tauto]. intros H. split; [exact H|]. intros ->. contradiction.
Qed.

Lemma leave_queue_exec w x :
  Heap.backmap (hp w) -> Heap.min_heap (hp w) -> 0 <= x < MAX_CUSTOMERS ->
  exists h', left_queue x (hp w) h' /\
    exec (leave_queue x) w =
    mkWorld (set_waiting_count (waiting_count (shm w) - 1) (set_heap h' (shm w)))
      (stdout w) (clock w) (ticks w).
Proof.
  intros B M R. rewrite max_customers_nodes in R. unfold hp in *.
  unfold leave_queue, exec, bind, get_shm, when, heap_delete, call_heap, modify, ret.
  cbn [shm stdout clock ticks fst snd].
  destruct (Z.eqb_spec (Heap.heap_index (Heap.GLB (heap (shm w)) x)) NIL) as [E|N];
    cbn [negb].
  - exists (heap (shm w)). split.
    + apply left_queue_absent; [assumption | assumption |].
      intros C. apply HeapFacts.in_heap_index in C; [|assumption]. tauto.
    + cbn. rewrite set_heap_same. reflexivity.
  - destruct (HeapFacts.heap_delete_removed x (heap (shm w)) B M R N) as [h' [E Rm]].
    exists h'. split; [apply removed_left_queue; exact Rm|].
    rewrite E. cbn. rewrite app_nil_r. reflexivity.
Qed.

Lemma enqueue_waiting_exec w x :
  Heap.backmap (hp w) -> Heap.min_heap (hp w) -> 0 <= x < MAX_CUSTOMERS ->
  ~ Heap.in_heap (hp w) x ->
  exists h' out, joined_queue x (share (customers (shm w) x)) (hp w) h' /\
    exec (enqueue_waiting x) w =
    mkWorld
      (set_waiting_count (waiting_count (shm w) + 1)
         (set_heap h'
            (on_customer x (fun c => set_wait_start (clock w (ticks w))
                                       (set_state CUSTOMER_STATE_WAITING c)) (shm w))))
      (stdout w ++ out) (clock w) (S (ticks w)).
Proof.
  intros B M R Nin. rewrite max_customers_nodes in R. unfold hp in *.
  set (k := share (customers (shm w) x)).
  destruct (HeapFacts.set_key_absent x k (heap (shm w)) B M Nin) as [B1 [M1 I1]].
  assert (N1 : Heap.heap_index (Heap.GLB (Heap.set_key x k (heap (shm w))) x) = Heap.NIL).
  { simpl. rewrite upd_eq. simpl.
    destruct (Z.eq_dec (Heap.heap_index (Heap.GLB (heap (shm w)) x)) Heap.NIL) as [E|N];
      [exact E | exfalso].
    apply Nin. apply HeapFacts.in_heap_index; [assumption | split; assumption]. }
  assert (S1 : Heap.heap_size (Heap.set_key x k (heap (shm w))) < Heap.MAX_NODES).
  { apply (HeapFacts.heap_room x); [assumption | assumption |]. rewrite I1. exact Nin. }
  destruct (HeapFacts.heap_insert_inserted x _ B1 M1 R N1 S1) as [h' [out [E Ins]]].
  exists h', out. split.
  - destruct Ins as [B' M' S' K' I' O']. constructor; try assumption.
    + rewrite K'. simpl. rewrite upd_eq. reflexivity.
    + intros m N. rewrite K'. simpl. rewrite upd_ne by assumption. reflexivity.
  - unfold enqueue_waiting, exec, bind, get_shm, heap_insert, call_heap, modify, ret,
      get_current_time_ms.
    cbn [shm stdout clock ticks fst snd].
    replace (share (customers (on_customer x _ (shm w)) x)) with k
      by (unfold on_customer; cbn; rewrite upd_eq; reflexivity).
    change (heap (set_heap ?h ?s)) with h.
    change (heap (on_customer ?a ?b ?s)) with (heap s).
    rewrite E. reflexivity.
Qed.

Lemma assign_next_from_queue_empty w tool :
  Heap.heap_size (hp w) <= 0 -> exec (assign_next_from_queue tool) w = w.
Proof.
  intros H. unfold assign_next_from_queue, exec, bind, get_shm. cbn [fst snd].
  unfold hp in H. destruct (Z.leb_spec (Heap.heap_size (heap (shm w))) 0); [reflexivity | lia].
Qed.

Lemma assign_next_from_queue_exec w tool :
  Heap.backmap (hp w) -> Heap.min_heap (hp w) -> 0 < Heap.heap_size (hp w) ->
  let m := Heap.HEAP_ARRAY (hp w) 0 in
  exists h', Heap.removed m (hp w) h' /\
    (forall c, Heap.in_heap (hp w) c ->
       (Heap.key (Heap.GLB (hp w) m) <= Heap.key (Heap.GLB (hp w) c))%Q) /\
    exec (assign_next_from_queue tool) w =
    exec (assign_tool_to_customer m tool)
      (mkWorld (set_heap h' (shm w)) (stdout w) (clock w) (ticks w)).
Proof.
  intros B M S m. unfold hp in *.
  destruct (HeapFacts.heap_pop_removed (heap (shm w)) B M S) as [h' [E [Rm Min]]].
  exists h'. split; [exact Rm|]. split; [exact Min|].
  destruct (Heap.bm_pos _ B 0 ltac:(lia)) as [R0 _]. fold m in R0.
  unfold assign_next_from_queue, exec, bind, get_shm, heap_pop, call_heap, when.
  cbn [shm stdout clock ticks fst snd].
  destruct (Z.leb_spec (Heap.heap_size (heap (shm w))) 0); [lia|].
  rewrite E. fold m. cbn [fst snd].
  destruct (Z.eqb_spec m NIL) as [C|_]; [unfold NIL in C; lia|].
  destruct (Z.leb_spec 0 m); [|lia]. cbn [negb andb].
  rewrite app_nil_r. reflexivity.
Qed.

(** [assign_tool_to_customer], with the customer first leaving the queue
    when it is waiting. *)
Lemma assign_tool_to_customer_spec w x tool :
  Heap.backmap (hp w) -> Heap.min_heap (hp w) -> 0 <= x < MAX_CUSTOMERS ->
  exists h' wc,
    exec (assign_tool_to_customer x tool) w =
    mkWorld (bound_shm x tool (clock w (ticks w))
               (set_waiting_count wc (set_heap h' (shm w))))
      (stdout w ++ [bound_line x tool (shm w)]) (clock w) (S (ticks w)) /\
    (state (customers (shm w) x) = CUSTOMER_STATE_WAITING ->
       left_queue x (hp w) h' /\ wc = waiting_count (shm w) - 1) /\
    (state (customers (shm w) x) <> CUSTOMER_STATE_WAITING ->
       h' = hp w /\ wc = waiting_count (shm w)).
Proof.
  intros B M R. rewrite assign_tool_to_customer_exec.
  destruct (state (customers (shm w) x)) eqn:St; cbn [CustomerState_eqb when].
  2:{ destruct (leave_queue_exec w x B M R) as [h' [L E]].
      exists h', (waiting_count (shm w) - 1). rewrite E. cbn [shm stdout clock ticks].
      split; [reflexivity|]. split; [intros _; split; [exact L | reflexivity]|].
      intros C. contradiction. }
  all: exists (hp w), (waiting_count (shm w)); rewrite exec_ret;
    unfold hp; rewrite set_heap_same, set_waiting_count_same;
    (split; [reflexivity|]); (split; [discriminate|]); intros _; split; reflexivity.
Qed.

(** ** Customers: allocation *)

(** [allocate_customer], when a slot is free, gives the new customer the
    quotient of the two counters [total_share] and [total_customers], both
    read before the arrival is counted, and the share 0 when
    [total_customers] is 0; the arrival is then added to [total_customers]
    and its share to [total_share]. *)
Theorem allocate_customer_initial_share (w : World) (id : Z) :
  0 < free_customer_count (shm w) ->
  let idx := fst (allocate_customer id w) in
  let s' := shm (exec (allocate_customer id) w) in
  idx = free_customer_slots (shm w) (free_customer_count (shm w) - 1) /\
  (0 < total_customers (shm w) ->
     share (customers s' idx) =
     (total_share (shm w) / inject_Z (total_customers (shm w)))%Q) /\
  (total_customers (shm w) = 0 -> share (customers s' idx) = 0%Q) /\
  state (customers s' idx) = CUSTOMER_STATE_RESTING /\
  total_customers s' = total_customers (shm w) + 1 /\
  total_share s' = (total_share (shm w) + share (customers s' idx))%Q.
Proof.
  intros F. unfold exec, allocate_customer, bind, get_shm, modify, ret. simpl.
  destruct (Z.leb_spec (free_customer_count (shm w)) 0) as [L|L]; [lia|]. simpl.
  rewrite upd_eq. simpl.
  split; [reflexivity|]. split; [|split].
  - intros P. destruct (Z.ltb_spec 0 (total_customers (shm w))); [reflexivity | lia].
  - intros E. rewrite E. reflexivity.
  - repeat split.
Qed.

Example first_customer_share :
  let w := exec (allocate_customer 4242) (server 100 500 2) in
  fst (allocate_customer 4242 (server 100 500 2)) = 1023 /\
  share (customers (shm w) 1023) = 0%Q /\ total_customers (shm w) = 1.
Proof. vm_compute. repeat split. Qed.

Lemma allocate_customer_initial_share_witness :
  let w := server 100 500 2 in
  let idx := fst (allocate_customer 4242 w) in
  let s' := shm (exec (allocate_customer 4242) w) in
  idx = free_customer_slots (shm w) (free_customer_count (shm w) - 1) /\
  (0 < total_customers (shm w) ->
     share (customers s' idx) =
     (total_share (shm w) / inject_Z (total_customers (shm w)))%Q) /\
  (total_customers (shm w) = 0 -> share (customers s' idx) = 0%Q) /\
  state (customers s' idx) = CUSTOMER_STATE_RESTING /\
  total_customers s' = total_customers (shm w) + 1 /\
  total_share s' = (total_share (shm w) + share (customers s' idx))%Q.
Proof.
  apply (allocate_customer_initial_share (server 100 500 2) 4242).
  vm_compute. reflexivity.
Defined.

(** ** Share accounting *)



Example w_using_log :
  stdout w_using = [event_line EVENT_TOOL_ASSIGNED 4242 0 0] /\
  current_user (tools (shm w_using) 0) = 1023 /\
  state (customers (shm w_using) 1023) = CUSTOMER_STATE_USING.
Proof. vm_compute. repeat split. Qed.



Example overdue_accounts :
  let w := w_overdue in
  let w' := exec (remove_customer_from_tool 1023 EVENT_TOOL_COMPLETED) w in
  clock w (ticks w) - session_start (customers (shm w) 1023) = 2147483648 /\
  share (customers (shm w') 1023) = (-2147483648 # 1)%Q /\
  total_usage (tools (shm w') 0) = -2147483648 /\
  stdout w' = stdout w ++ [event_line EVENT_TOOL_COMPLETED 4242 (-2147483648) 0].
Proof. vm_compute. repeat split. Qed.

(** ** Event lines on the socket and on the standard output *)

Lemma leave_queue_customers (b : bool) w x :
  customers (shm (exec (when b (leave_queue x)) w)) = customers (shm w).
Proof.
  destruct b; [|reflexivity].
  unfold leave_queue, when, exec, bind, get_shm, heap_delete, call_heap, modify, ret.
  cbn [shm stdout clock ticks fst snd].
  destruct (negb _); [|reflexivity].
  destruct (Heap.heap_delete x (heap (shm w))) as [[r h'] out]. reflexivity.
Qed.

Lemma bound_customer x tool now s :
  customers (bound_shm x tool now s) x =
  set_event_tool_id tool
    (set_event_type EVENT_TOOL_ASSIGNED
       (set_event_pending true
          (set_session_start now
             (set_current_tool tool (set_state CUSTOMER_STATE_USING (customers s x)))))).
Proof. unfold bound_shm. field_cases. Qed.

Lemma unbound_customer x ev now s :
  customers (unbound_shm x ev now s) x =
  set_event_tool_id (tool_id (tools s (current_tool (customers s x))))
    (set_event_type ev
       (set_event_pending true
          (set_current_tool (-1)
             (set_share
                (share (customers s x)
                 + inject_Z (to_int (now - session_start (customers s x))))%Q
                (customers s x))))).
Proof. unfold unbound_shm. field_cases. Qed.

(** Right after an event, the line the event forwarder sends is the line
    the scheduler printed.  Right after [assign_tool_to_customer], and right after
    [remove_customer_from_tool] on a bound customer (with [tool_id] of the
    tool equal to its index, as [setup_shared_memory] leaves it), one step
    of [agent_notify_thread] for an allocated customer sends exactly the last
    line of the standard output, and in that line the share is the
    customer's share truncated by [(int)]. *)
Theorem forwarded_line_is_logged_line
    (w : World) (idx tool : Z) (ev : EventType) (buffer : string) :
  let c := customers (shm w) idx in
  is_allocated c = true ->
  (let w' := exec (assign_tool_to_customer idx tool) w in
   let c' := customers (shm w') idx in
   fst (agent_notify_step idx buffer w') = NotifySends (last (stdout w') EmptyString) /\
   last (stdout w') EmptyString =
     event_line EVENT_TOOL_ASSIGNED (customer_id c') (double_to_int (share c')) tool) /\
  (current_tool c <> -1 ->
   tool_id (tools (shm w) (current_tool c)) = current_tool c ->
   ev = EVENT_TOOL_REMOVED \/ ev = EVENT_TOOL_COMPLETED ->
   let w' := exec (remove_customer_from_tool idx ev) w in
   let c' := customers (shm w') idx in
   fst (agent_notify_step idx buffer w') = NotifySends (last (stdout w') EmptyString) /\
   last (stdout w') EmptyString =
     event_line ev (customer_id c') (double_to_int (share c')) (current_tool c)).
Proof.
  intros c A. split.
  - intros w' c'. subst c'. subst w'. rewrite assign_tool_to_customer_exec.
    cbn [shm stdout]. rewrite last_last.
    unfold agent_notify_step, bind, get_shm, modify, ret. cbn [shm fst snd].
    rewrite bound_customer. unfold bound_line. rewrite leave_queue_customers.
    fold c. cbn. rewrite A. cbn. split; reflexivity.
  - intros T I E w' c'. subst c'. subst w'. rewrite remove_customer_from_tool_exec.
    fold c. destruct (Z.eqb_spec (current_tool c) (-1)) as [C|_]; [contradiction|].
    cbn [shm stdout]. rewrite last_last.
    unfold agent_notify_step, bind, get_shm, modify, ret. cbn [shm fst snd].
    rewrite unbound_customer. unfold unbound_line. fold c. cbn. rewrite A, I. cbn.
    destruct E as [-> | ->]; split; reflexivity.
Qed.

Lemma forwarded_line_is_logged_line_witness :
  (let w' := exec (assign_tool_to_customer 1023 0) w_connected in
   let c' := customers (shm w') 1023 in
   fst (agent_notify_step 1023 EmptyString w')
     = NotifySends (last (stdout w') EmptyString) /\
   last (stdout w') EmptyString =
     event_line EVENT_TOOL_ASSIGNED (customer_id c') (double_to_int (share c')) 0) /\
  (let c := customers (shm w_using) 1023 in
   let w' := exec (remove_customer_from_tool 1023 EVENT_TOOL_COMPLETED) w_using in
   let c' := customers (shm w') 1023 in
   fst (agent_notify_step 1023 EmptyString w')
     = NotifySends (last (stdout w') EmptyString) /\
   last (stdout w') EmptyString =
     event_line EVENT_TOOL_COMPLETED (customer_id c') (double_to_int (share c'))
       (current_tool c)).
Proof.
  split.
  - apply (forwarded_line_is_logged_line w_connected 1023 0 EVENT_TOOL_COMPLETED
             EmptyString).
    vm_compute. reflexivity.
  - apply (forwarded_line_is_logged_line w_using 1023 0 EVENT_TOOL_COMPLETED
             EmptyString).
    + vm_compute. reflexivity.
    + vm_compute. discriminate.
    + vm_compute. reflexivity.
    + right. reflexivity.
Defined.

Example forwarded_leaves_line :
  let w' := exec (remove_customer_from_tool 1023 EVENT_TOOL_COMPLETED) w_using in
  fst (agent_notify_step 1023 EmptyString w')
    = NotifySends (event_line EVENT_TOOL_COMPLETED 4242 10 0) /\
  stdout w' = [event_line EVENT_TOOL_ASSIGNED 4242 0 0;
               event_line EVENT_TOOL_COMPLETED 4242 10 0].
Proof. vm_compute. split; reflexivity. Qed.

(** ** REST *)

Lemma handle_rest_resting w idx :
  state (customers (shm w) idx) = CUSTOMER_STATE_RESTING ->
  exec (handle_rest idx) w = w.
Proof.
  intros St. unfold handle_rest, exec, bind, get_shm. cbn [fst snd].
  rewrite St. reflexivity.
Qed.

Lemma handle_rest_deleted w idx :
  state (customers (shm w) idx) = CUSTOMER_STATE_DELETED ->
  exec (handle_rest idx) w = w.
Proof.
  intros St. unfold handle_rest, exec, bind, get_shm. cbn [fst snd].
  rewrite St. reflexivity.
Qed.

Lemma handle_rest_state w idx :
  state (customers (shm w) idx) <> CUSTOMER_STATE_DELETED ->
  state (customers (shm (exec (handle_rest idx) w)) idx) = CUSTOMER_STATE_RESTING.
Proof.
  intros N. destruct (state (customers (shm w) idx)) eqn:St.
  - rewrite handle_rest_resting; assumption.
  - unfold handle_rest. rewrite exec_bind. cbn [get_shm fst].
    change (exec get_shm w) with w. rewrite St.
    rewrite !exec_bind, !exec_modify. cbn [shm].
    unfold on_customer. cbn. rewrite upd_eq. reflexivity.
  - unfold handle_rest. rewrite exec_bind. cbn [get_shm fst].
    change (exec get_shm w) with w. rewrite St.
    rewrite !exec_bind, !exec_modify. cbn [shm].
    unfold on_customer. cbn. rewrite upd_eq. reflexivity.
  - contradiction.
Qed.

(** C6. REST is idempotent: a second [handle_rest] for the same customer
    changes nothing at all, counters, queue and customer included; on a
    Resting customer [handle_rest] is a no-op. *)
Theorem handle_rest_idempotent (w : World) (idx : Z) :
  exec (handle_rest idx) (exec (handle_rest idx) w) = exec (handle_rest idx) w /\
  (state (customers (shm w) idx) = CUSTOMER_STATE_RESTING ->
   exec (handle_rest idx) w = w).
Proof.
  split; [|apply handle_rest_resting].
  destruct (state (customers (shm w) idx)) eqn:St.
  - rewrite (handle_rest_resting w idx St). apply handle_rest_resting. exact St.
  - apply handle_rest_resting. apply handle_rest_state. congruence.
  - apply handle_rest_resting. apply handle_rest_state. congruence.
  - rewrite (handle_rest_deleted w idx St). apply handle_rest_deleted. exact St.
Qed.

Lemma handle_rest_idempotent_witness :
  exec (handle_rest 1023) (exec (handle_rest 1023) w_using)
    = exec (handle_rest 1023) w_using /\
  exec (handle_rest 1023) w_connected = w_connected.
Proof.
  split.
  - apply (proj1 (handle_rest_idempotent w_using 1023)).
  - apply (proj2 (handle_rest_idempotent w_connected 1023)). vm_compute. reflexivity.
Defined.

Example rest_after_use_counters :
  let w := exec (handle_rest 1023) w_using in
  resting_customers (shm w_using) = 0 /\ resting_customers (shm w) = 1 /\
  resting_customers (shm (exec (handle_rest 1023) w)) = 1 /\
  current_user (tools (shm w) 0) = -1.
Proof. vm_compute. repeat split. Qed.

(** ** Disconnection *)

(** X3. [deallocate_customer] after [agent_release] returns at its first test:
    [agent_release] has cleared [is_allocated]. *)
Lemma deallocate_after_release w idx :
  exec (agent_disconnect idx) w = exec (agent_release idx) w.
Proof.
  unfold agent_disconnect. rewrite exec_bind.
  set (w1 := exec (agent_release idx) w).
  assert (A : is_allocated (customers (shm w1) idx) = false).
  { unfold w1, agent_release. rewrite !exec_bind, exec_modify. cbn [shm].
    unfold on_customer. cbn. rewrite upd_eq. reflexivity. }
  unfold deallocate_customer, exec, bind, get_shm. cbn [fst snd].
  rewrite A. reflexivity.
Qed.

(** C9 (the code departs from the claim).  On the disconnection path of
    [agent_process] the counters are not updated: after customer 4242 has
    left with share 50, [total_customers] is still 1 and [total_share] still
    50, its slot is not returned to the free list, and the next customer to
    connect starts with share 50, the departed customer's service. *)
Theorem disconnect_keeps_departed_share :
  share (customers (shm w_served) 1023) = 50%Q /\
  total_customers (shm w_served) = 1 /\
  total_customers (shm w_departed) = 1 /\
  total_share (shm w_departed) = 50%Q /\
  is_allocated (customers (shm w_departed) 1023) = false /\
  free_customer_count (shm w_departed) = 1023 /\
  share (customers (shm w_newcomer) 1022) = (50 / 1)%Q /\
  total_customers (shm w_newcomer) = 2.
Proof. vm_compute. repeat split. Qed.

(** C4 (the code departs from the claim).  After the only customer has
    disconnected no slot of the table is allocated, and the counters, which
    the disconnection has not updated, still hold one customer with share
    50: the newcomer's share is their quotient, 50, where the average over
    the customers allocated at its arrival, none, is 0. *)
Theorem newcomer_share_counts_departed :
  forallb (fun c => negb (is_allocated (customers (shm w_departed) c)))
    (range MAX_CUSTOMERS) = true /\
  total_customers (shm w_departed) = 1 /\
  total_share (shm w_departed) = 50%Q /\
  fst (allocate_customer 4343 w_departed) = 1022 /\
  share (customers (shm w_newcomer) 1022) = (50 / 1)%Q /\
  ~ (share (customers (shm w_newcomer) 1022) == 0)%Q.
Proof. vm_compute. repeat split. discriminate. Qed.

(** ** REQUEST: choosing whom to preempt *)

Lemma selected_unique s a b : selected s a -> selected s b -> a = b.
Proof.
  intros [Ra [Ba Ha]] [Rb [Bb Hb]].
  destruct (Ha b Rb Bb) as [L1 T1]. destruct (Hb a Ra Ba) as [L2 T2].
  assert (E : current_usage (tools s a) = current_usage (tools s b)) by lia.
  specialize (T1 (eq_sym E)). specialize (T2 E). lia.
Qed.

Lemma max_usage_tool_spec s :
  usage_nonneg s ->
  (fst (max_usage_tool s) = -1 /\
   forall t, 0 <= t < num_tools s -> current_user (tools s t) = -1) \/
  selected s (fst (max_usage_tool s)).
Proof.
  intros U. unfold max_usage_tool.
  destruct (Z.le_gt_cases 0 (num_tools s)) as [Hn|Hn].
  2:{ left. unfold range. replace (Z.to_nat (num_tools s)) with O by lia.
      split; [reflexivity | intros; lia]. }
  set (f := fun (acc : Z * Z) i =>
              let (candidate, max_usage) := acc in
              if negb (current_user (tools s i) =? -1) then
                let usage := current_usage (tools s i) in
                if (max_usage <? usage)
                   || ((usage =? max_usage) && ((candidate =? -1) || (i <? candidate)))
                then (i, usage) else acc
              else acc).
  set (P := fun (n : Z) (acc : Z * Z) =>
    (fst acc = -1 /\ snd acc = 0 /\
     forall t, 0 <= t < n -> current_user (tools s t) = -1) \/
    (0 <= fst acc < n /\ current_user (tools s (fst acc)) <> -1 /\
     snd acc = current_usage (tools s (fst acc)) /\
     forall i, 0 <= i < n -> current_user (tools s i) <> -1 ->
       current_usage (tools s i) <= snd acc /\
       (current_usage (tools s i) = snd acc -> fst acc <= i))).
  assert (G : P (num_tools s) (fold_left f (range (num_tools s)) (-1, 0))).
  { apply fold_range_inv; [exact Hn | |].
    - left. split; [reflexivity|]. split; [reflexivity | intros; lia].
    - intros i [cand mx] Hi HP. unfold P in *. simpl in HP. unfold f.
      destruct (Z.eqb_spec (current_user (tools s i)) (-1)) as [Fr|Bd]; simpl.
      + destruct HP as [[E1 [E2 Hfree]] | [Rc [Bc [Em Hall]]]].
        * left. split; [exact E1|]. split; [exact E2|].
          intros t Ht. destruct (Z.eq_dec t i) as [->|]; [exact Fr | apply Hfree; lia].
        * right. cbn [fst snd]. split; [lia|]. split; [exact Bc|]. split; [exact Em|].
          intros t Ht Bt. destruct (Z.eq_dec t i) as [->|]; [contradiction|].
          apply Hall; [lia | exact Bt].
      + pose proof (U i Hi Bd) as Ui.
        destruct HP as [[E1 [E2 Hfree]] | [Rc [Bc [Em Hall]]]].
        * subst cand mx. right.
          replace ((0 <? current_usage (tools s i))
                   || ((current_usage (tools s i) =? 0) && ((-1 =? -1) || (i <? -1))))
            with true.
          2:{ symmetry. apply orb_true_iff.
              destruct (Z.eq_dec (current_usage (tools s i)) 0) as [E|N].
              - right. rewrite E. reflexivity.
              - left. apply Z.ltb_lt. lia. }
          cbn [fst snd]. split; [lia|]. split; [exact Bd|]. split; [reflexivity|].
          intros t Ht Bt. destruct (Z.eq_dec t i) as [->|]; [lia|].
          exfalso. apply Bt. apply Hfree. lia.
        * destruct (Z.ltb_spec mx (current_usage (tools s i))) as [Lt|Ge]; simpl.
          { right. cbn [fst snd]. split; [lia|]. split; [exact Bd|]. split; [reflexivity|].
            intros t Ht Bt. destruct (Z.eq_dec t i) as [->|]; [lia|].
            destruct (Hall t ltac:(lia) Bt). lia. }
          replace ((current_usage (tools s i) =? mx) && ((cand =? -1) || (i <? cand)))
            with false.
          2:{ symmetry. apply andb_false_iff. right. apply orb_false_iff.
              split; [apply Z.eqb_neq | apply Z.ltb_ge]; lia. }
          right. cbn [fst snd]. split; [lia|]. split; [exact Bc|]. split; [exact Em|].
          intros t Ht Bt. destruct (Z.eq_dec t i) as [->|]; [lia|].
          apply Hall; [lia | exact Bt]. }
  fold f. destruct G as [[E1 [E2 Hfree]] | [Rc [Bc [Em Hall]]]].
  - left. split; assumption.
  - right. split; [exact Rc|]. split; [exact Bc|].
    intros i Hi Bi. rewrite <- Em. apply Hall; assumption.
Qed.

Lemma find_preemption_candidate_selected s new_share sel :
  usage_nonneg s -> selected s sel ->
  find_preemption_candidate new_share s =
  if Qltb (share (customers s (current_user (tools s sel)))) new_share then -1
  else if current_usage (tools s sel) <? param_q s then -1 else sel.
Proof.
  intros U Sel. unfold find_preemption_candidate.
  destruct (max_usage_tool_spec s U) as [[E F] | Sel'].
  - exfalso. destruct Sel as [R [B _]]. apply B. apply F. exact R.
  - rewrite (selected_unique s _ _ Sel' Sel).
    destruct Sel as [R _]. destruct (Z.eqb_spec sel (-1)); [lia | reflexivity].
Qed.

Lemma find_preemption_candidate_unbound s new_share :
  usage_nonneg s ->
  (forall t, 0 <= t < num_tools s -> current_user (tools s t) = -1) ->
  find_preemption_candidate new_share s = -1.
Proof.
  intros U F. unfold find_preemption_candidate.
  destruct (max_usage_tool_spec s U) as [[E _] | [R [B _]]].
  - rewrite E. reflexivity.
  - exfalso. apply B. apply F. exact R.
Qed.

Lemma CustomerState_eqb_eq a b : CustomerState_eqb a b = true <-> a = b.
Proof. destruct a, b; simpl; split; intros H; try reflexivity; discriminate. Qed.

Lemma sched_invb_sound s : sched_invb s = true -> sched_inv s.
Proof.
  unfold sched_invb. rewrite !andb_true_iff, !forallb_range.
  intros [[[B M] Qu] T].
  apply HeapFacts.backmapb_sound in B. apply HeapFacts.min_heapb_sound in M.
  constructor; try assumption.
  - intros c Hc. specialize (Qu c Hc). apply Bool.eqb_prop in Qu.
    rewrite HeapFacts.in_heap_index by assumption. rewrite <- CustomerState_eqb_eq, <- Qu.
    rewrite negb_true_iff, Z.eqb_neq. rewrite max_customers_nodes in Hc. tauto.
  - intros t Ht Bt. specialize (T t Ht). cbv zeta in T.
    rewrite orb_true_iff, !andb_true_iff, CustomerState_eqb_eq in T.
    destruct T as [T|T]; [lia|]. repeat split; try lia. tauto.
Qed.

Lemma usage_nonnegb_sound s : usage_nonnegb s = true -> usage_nonneg s.
Proof.
  unfold usage_nonnegb. rewrite forallb_range. intros H t Ht Bt.
  specialize (H t Ht). rewrite orb_true_iff in H. lia.
Qed.

Lemma handle_request_exec w idx d :
  exec (handle_request idx d) w =
  exec (request_placement idx)
    (exec (modify (on_customer idx (fun c =>
             set_remaining_duration d (set_request_duration d c))))
       (exec (request_entry idx (state (customers (shm w) idx))) w)).
Proof.
  change (handle_request idx d) with
    (s <- get_shm ;;
     request_entry idx (state (customers s idx)) ;;
     modify (on_customer idx (fun c =>
       set_remaining_duration d (set_request_duration d c))) ;;
     request_placement idx).
  rewrite !exec_bind. reflexivity.
Qed.

Lemma placement_free w idx :
  find_free_tool (shm w) <> -1 ->
  exec (request_placement idx) w =
  exec (assign_tool_to_customer idx (find_free_tool (shm w))) w.
Proof.
  intros F. unfold request_placement.
  rewrite exec_bind. cbn [get_shm fst]. change (exec get_shm w) with w.
  cbv beta zeta. rewrite exec_bind.
  destruct (Z.eqb_spec (find_free_tool (shm w)) (-1)); [contradiction|].
  reflexivity.
Qed.

Lemma placement_preempt w idx :
  find_free_tool (shm w) = -1 ->
  let tool := find_preemption_candidate (share (customers (shm w) idx)) (shm w) in
  let old_user := current_user (tools (shm w) tool) in
  tool <> -1 ->
  exec (request_placement idx) w =
  exec (assign_tool_to_customer idx tool)
    (exec (enqueue_waiting old_user)
       (exec (remove_customer_from_tool old_user EVENT_TOOL_REMOVED) w)).
Proof.
  intros F tool old_user T. unfold request_placement.
  rewrite exec_bind. cbn [get_shm fst]. change (exec get_shm w) with w.
  cbv beta zeta. rewrite exec_bind. rewrite F, Z.eqb_refl. cbn [negb].
  fold tool. destruct (Z.eqb_spec tool (-1)); [contradiction|]. cbn [negb].
  fold old_user. rewrite !exec_bind. reflexivity.
Qed.

Lemma placement_enqueue w idx :
  find_free_tool (shm w) = -1 ->
  find_preemption_candidate (share (customers (shm w) idx)) (shm w) = -1 ->
  exec (request_placement idx) w = exec (enqueue_waiting idx) w.
Proof.
  intros F T. unfold request_placement.
  rewrite exec_bind. cbn [get_shm fst]. change (exec get_shm w) with w.
  cbv beta zeta. rewrite exec_bind. rewrite F, Z.eqb_refl. cbn [negb].
  rewrite T, Z.eqb_refl. cbn [negb].
  rewrite !exec_bind. cbn [get_shm fst].
  set (w1 := exec (enqueue_waiting idx) w). change (exec get_shm w1) with w1.
  unfold when, pthread_cond_signal, pthread_cond_broadcast.
  repeat match goal with
  | |- context [if ?b then _ else _] => destruct b
  end; reflexivity.
Qed.

(** The searches read only the tools, the shares and [q]. *)
Lemma find_free_tool_ext s s' :
  tools s' = tools s -> num_tools s' = num_tools s ->
  find_free_tool s' = find_free_tool s.
Proof. intros T N. unfold find_free_tool. rewrite T, N. reflexivity. Qed.

Lemma find_preemption_candidate_ext s s' k :
  tools s' = tools s -> num_tools s' = num_tools s -> param_q s' = param_q s ->
  (forall c, share (customers s' c) = share (customers s c)) ->
  find_preemption_candidate k s' = find_preemption_candidate k s.
Proof.
  intros T N P S. unfold find_preemption_candidate, max_usage_tool.
  rewrite T, N, P, S. reflexivity.
Qed.

Lemma request_entry_spec w idx d :
  sched_inv (shm w) -> 0 <= idx < MAX_CUSTOMERS ->
  state (customers (shm w) idx) <> CUSTOMER_STATE_USING ->
  entered idx w
    (exec (modify (on_customer idx (fun c =>
             set_remaining_duration d (set_request_duration d c))))
       (exec (request_entry idx (state (customers (shm w) idx))) w)).
Proof.
  intros [B M Qu T] R St.
  assert (F : forall w1 : World,
    left_queue idx (hp w) (hp w1) -> ~ Heap.in_heap (hp w1) idx ->
    customers (shm w1) = customers (shm w) -> tools (shm w1) = tools (shm w) ->
    num_tools (shm w1) = num_tools (shm w) -> param_q (shm w1) = param_q (shm w) ->
    stdout w1 = stdout w -> clock w1 = clock w -> ticks w1 = ticks w ->
    entered idx w
      (exec (modify (on_customer idx (fun c =>
               set_remaining_duration d (set_request_duration d c)))) w1)).
  { intros w1 L A C T1 N1 Q1 O1 C1 K1. rewrite exec_modify.
    constructor; cbn [shm stdout clock ticks]; try assumption;
      unfold hp, on_customer; cbn; try assumption;
      intros c; unfold upd; (destruct (Z.eqb_spec c idx) as [->|]; cbn);
      rewrite C; reflexivity. }
  destruct (state (customers (shm w) idx)) eqn:E; cbn [request_entry].
  - rewrite exec_modify. apply F; try reflexivity.
    + apply left_queue_absent; [assumption | assumption |].
      intros C. apply Qu in C; [congruence | exact R].
    + intros C. apply Qu in C; [congruence | exact R].
  - destruct (leave_queue_exec w idx B M R) as [h' [L X]]. rewrite X.
    apply F; try reflexivity.
    + exact L.
    + unfold hp. cbn. intros C. apply (lq_in _ _ _ L) in C. tauto.
  - contradiction.
  - rewrite exec_ret. apply F; try reflexivity.
    + apply left_queue_absent; [assumption | assumption |].
      intros C. apply Qu in C; [congruence | exact R].
    + intros C. apply Qu in C; [congruence | exact R].
Qed.

(** A holder is unbound and put back in the queue: the sequence common to
    the preemptions of [handle_request] and of [tool_process]. *)
Lemma unbind_and_enqueue w H tool :
  Heap.backmap (hp w) -> Heap.min_heap (hp w) -> 0 <= H < MAX_CUSTOMERS ->
  ~ Heap.in_heap (hp w) H ->
  current_tool (customers (shm w) H) = tool -> tool <> -1 ->
  let now := clock w (ticks w) in
  let s3 := unbound_shm H EVENT_TOOL_REMOVED now (shm w) in
  exists h4 out,
    joined_queue H (share (customers s3 H)) (hp w) h4 /\
    exec (enqueue_waiting H) (exec (remove_customer_from_tool H EVENT_TOOL_REMOVED) w) =
    mkWorld
      (set_waiting_count (waiting_count (shm w) + 1)
         (set_heap h4
            (on_customer H (fun c => set_wait_start (clock w (S (ticks w)))
                                       (set_state CUSTOMER_STATE_WAITING c)) s3)))
      ((stdout w ++ [unbound_line H EVENT_TOOL_REMOVED now (shm w)]) ++ out)
      (clock w) (S (S (ticks w))).
Proof.
  intros B M R Nin T Tn now s3.
  rewrite remove_customer_from_tool_exec. rewrite T.
  destruct (Z.eqb_spec tool (-1)); [contradiction|].
  fold now. fold s3.
  set (w3 := mkWorld s3 (stdout w ++ [unbound_line H EVENT_TOOL_REMOVED now (shm w)])
               (clock w) (S (ticks w))).
  destruct (enqueue_waiting_exec w3 H B M R Nin) as [h4 [out [J E]]].
  assert (Hh : hp w3 = hp w) by reflexivity.
  rewrite Hh in J. change (shm w3) with s3 in J.
  exists h4, out. split; [exact J|]. rewrite E. reflexivity.
Qed.

Lemma enqueued_customers wc h x f s c :
  customers (set_waiting_count wc (set_heap h (on_customer x f s))) c =
  if c =? x then f (customers s x) else customers s c.
Proof. reflexivity. Qed.

(** C1. [handle_request] for a Resting or Waiting customer that finds no
    free tool.  Let [sel] be the bound tool of largest [current_usage],
    smallest index first, and [H] its holder.  If [H.share >= requester.share]
    and [current_usage >= q], then [H] is removed (the TOOL_REMOVED line is
    printed), is Waiting and queued under its share, and the requester is
    Using, bound to [sel]; otherwise the requester is Waiting and queued
    under its share, and every tool keeps its holder. *)
Theorem handle_request_preempts_iff (w : World) (idx d sel : Z) :
  sched_inv (shm w) -> usage_nonneg (shm w) ->
  0 <= idx < MAX_CUSTOMERS ->
  state (customers (shm w) idx) = CUSTOMER_STATE_RESTING \/
  state (customers (shm w) idx) = CUSTOMER_STATE_WAITING ->
  find_free_tool (shm w) = -1 ->
  selected (shm w) sel ->
  let s := shm w in
  let H := current_user (tools s sel) in
  let s' := shm (exec (handle_request idx d) w) in
  let out' := stdout (exec (handle_request idx d) w) in
  let usage := to_int (clock w (ticks w) - session_start (customers s H)) in
  ((share (customers s idx) <= share (customers s H))%Q /\
   param_q s <= current_usage (tools s sel) ->
     (exists out, out' = stdout w
        ++ [event_line EVENT_TOOL_REMOVED (customer_id (customers s H))
              (double_to_int (share (customers s' H))) sel]
        ++ out
        ++ [event_line EVENT_TOOL_ASSIGNED (customer_id (customers s idx))
              (double_to_int (share (customers s idx))) sel]) /\
     share (customers s' H) = (share (customers s H) + inject_Z usage)%Q /\
     state (customers s' H) = CUSTOMER_STATE_WAITING /\
     current_tool (customers s' H) = -1 /\
     Heap.in_heap (heap s') H /\
     Heap.key (Heap.GLB (heap s') H) = share (customers s' H) /\
     current_user (tools s' sel) = idx /\
     state (customers s' idx) = CUSTOMER_STATE_USING /\
     current_tool (customers s' idx) = sel /\
     ~ Heap.in_heap (heap s') idx) /\
  (~ ((share (customers s idx) <= share (customers s H))%Q /\
      param_q s <= current_usage (tools s sel)) ->
     state (customers s' idx) = CUSTOMER_STATE_WAITING /\
     Heap.in_heap (heap s') idx /\
     Heap.key (Heap.GLB (heap s') idx) = share (customers s idx) /\
     tools s' = tools s /\
     state (customers s' H) = CUSTOMER_STATE_USING /\
     ~ Heap.in_heap (heap s') H).
Proof.
  intros Inv U R St F Sel s H s' out' usage.
  assert (StU : state (customers s idx) <> CUSTOMER_STATE_USING)
    by (destruct St as [E|E]; unfold s; rewrite E; discriminate).
  pose proof (request_entry_spec w idx d Inv R StU) as En.
  subst s' out'. rewrite handle_request_exec.
  set (w2 := exec _ (exec (request_entry idx _) w)) in *.
  destruct En as [Lq Abs Et En_ Eq Est Esh Etl Eid Ess Eo Ec Ek].
  destruct Inv as [B M Qu T].
  destruct Sel as [Rs [Bs Hs]].
  destruct (T sel Rs Bs) as [RH [StH TH]]. fold s in RH, StH, TH. fold H in RH, StH, TH.
  assert (Rs' : 0 <= sel < num_tools s /\ current_user (tools s sel) <> -1 /\
                forall i, 0 <= i < num_tools s -> current_user (tools s i) <> -1 ->
                  current_usage (tools s i) <= current_usage (tools s sel) /\
                  (current_usage (tools s i) = current_usage (tools s sel) -> sel <= i))
    by (split; [exact Rs | split; [exact Bs | exact Hs]]).
  assert (NH : H <> idx) by (intros C; apply StU; rewrite <- C; exact StH).
  assert (AbsH : ~ Heap.in_heap (hp w2) H).
  { intros C. apply (lq_in _ _ _ Lq) in C. destruct C as [C _].
    apply Qu in C; [|exact RH]. fold s in C. congruence. }
  assert (F2 : find_free_tool (shm w2) = -1)
    by (rewrite (find_free_tool_ext _ _ Et En_); exact F).
  assert (C2 : find_preemption_candidate (share (customers (shm w2) idx)) (shm w2) =
               if Qltb (share (customers s H)) (share (customers s idx)) then -1
               else if current_usage (tools s sel) <? param_q s then -1 else sel).
  { rewrite Esh, (find_preemption_candidate_ext _ _ _ Et En_ Eq Esh).
    apply (find_preemption_candidate_selected s _ sel U Rs'). }
  split.
  - intros [Sh Qq].
    assert (C2' : find_preemption_candidate (share (customers (shm w2) idx)) (shm w2) = sel).
    { rewrite C2. apply Qltb_false in Sh. rewrite Sh.
      destruct (Z.ltb_spec (current_usage (tools s sel)) (param_q s)); [lia | reflexivity]. }
    pose proof (placement_preempt w2 idx F2) as P. cbv zeta in P.
    rewrite C2' in P. rewrite Et in P. fold s in P. fold H in P.
    rewrite (P ltac:(lia)). clear P.
    assert (TH2 : current_tool (customers (shm w2) H) = sel) by (rewrite Etl; exact TH).
    destruct (unbind_and_enqueue w2 H sel (lq_backmap _ _ _ Lq) (lq_min _ _ _ Lq)
                RH AbsH TH2 ltac:(lia)) as [h4 [out [J E4]]].
    rewrite E4. clear E4.
    set (s3 := unbound_shm H EVENT_TOOL_REMOVED (clock w2 (ticks w2)) (shm w2)) in *.
    set (s4 := set_waiting_count _ (set_heap h4 (on_customer H _ s3))).
    set (w4 := mkWorld s4 _ _ _).
    assert (C4 : forall c, customers s4 c =
                   if c =? H
                   then set_wait_start (clock w2 (S (ticks w2)))
                          (set_state CUSTOMER_STATE_WAITING (customers s3 H))
                   else customers s3 c) by (intros c; apply enqueued_customers).
    assert (St4 : forall c, state (customers s4 c) =
                    if c =? H then CUSTOMER_STATE_WAITING else state (customers s c)).
    { intros c. rewrite C4. destruct (Z.eqb_spec c H); [reflexivity|].
      unfold s3. rewrite unbound_state. apply Est. }
    assert (Sh4 : forall c, share (customers s4 c) = share (customers s3 c)).
    { intros c. rewrite C4. destruct (Z.eqb_spec c H) as [->|]; reflexivity. }
    assert (Tl4 : forall c, current_tool (customers s4 c) = current_tool (customers s3 c)).
    { intros c. rewrite C4. destruct (Z.eqb_spec c H) as [->|]; reflexivity. }
    assert (Id4 : forall c, customer_id (customers s4 c) = customer_id (customers s c)).
    { intros c. rewrite C4. destruct (Z.eqb_spec c H) as [->|]; cbn [customer_id set_wait_start set_state];
        unfold s3; rewrite unbound_customer_id; apply Eid. }
    assert (B4 : Heap.backmap (hp w4)) by exact (jq_backmap _ _ _ _ J).
    assert (M4 : Heap.min_heap (hp w4)) by exact (jq_min _ _ _ _ J).
    destruct (assign_tool_to_customer_spec w4 idx sel B4 M4 R) as [h5 [wc [E5 [W5 N5]]]].
    rewrite E5. clear E5. cbn [shm stdout].
    change (shm w4) with s4 in *. change (hp w4) with h4 in *.
    assert (L5 : forall m, Heap.in_heap h5 m <-> Heap.in_heap h4 m /\ m <> idx).
    { destruct (state (customers s4 idx)) eqn:E; try (
        destruct (N5 ltac:(discriminate)) as [-> _]; intros m; split; [|tauto];
        intros Hm; split; [exact Hm|]; intros ->;
        apply (jq_in _ _ _ _ J) in Hm; destruct Hm as [Hm|Hm]; [contradiction | congruence]).
      destruct (W5 eq_refl) as [L _]. apply (lq_in _ _ _ L). }
    assert (K5 : forall m, Heap.key (Heap.GLB h5 m) = Heap.key (Heap.GLB h4 m)).
    { destruct (state (customers s4 idx)) eqn:E; try (
        destruct (N5 ltac:(discriminate)) as [-> _]; reflexivity).
      destruct (W5 eq_refl) as [L _]. apply (lq_keys _ _ _ L). }
    assert (ShH : share (customers s3 H) = (share (customers s H) + inject_Z usage)%Q).
    { unfold s3. rewrite unbound_share, Z.eqb_refl, Esh, Ess, Ec, Ek. reflexivity. }
    rewrite ?bound_share, ?bound_state, ?bound_current_tool, ?bound_current_user,
      ?bound_heap.
    destruct (Z.eqb_spec H idx) as [C|_]; [contradiction|].
    rewrite !Z.eqb_refl.
    change (heap (set_waiting_count wc (set_heap h5 s4))) with h5.
    change (customers (set_waiting_count wc (set_heap h5 s4))) with (customers s4).
    rewrite Sh4, St4, Tl4, Z.eqb_refl, ShH.
    split.
    { exists out. unfold w4. cbn [stdout]. rewrite Eo. unfold unbound_line, bound_line.
      rewrite Id4, Sh4. fold s3.
      replace (share (customers s3 idx)) with (share (customers s idx))
        by (unfold s3; rewrite unbound_share; destruct (Z.eqb_spec idx H);
            [congruence | symmetry; apply Esh]).
      rewrite Eid, Esh, Ess, Ec, Ek, TH2. fold s. fold usage.
      rewrite <- !app_assoc. reflexivity. }
    split; [reflexivity|]. split; [reflexivity|].
    split; [unfold s3; rewrite unbound_current_tool, Z.eqb_refl; reflexivity|].
    split; [apply L5; split; [apply (jq_in _ _ _ _ J); right; reflexivity | exact NH]|].
    split; [rewrite K5, (jq_key _ _ _ _ J); exact ShH|].
    split; [reflexivity|]. split; [reflexivity|]. split; [reflexivity|].
    intros C. apply L5 in C. tauto.
  - intros Ncond.
    assert (C2' : find_preemption_candidate (share (customers (shm w2) idx)) (shm w2) = -1).
    { rewrite C2. destruct (Qltb (share (customers s H)) (share (customers s idx))) eqn:E1;
        [reflexivity|].
      destruct (Z.ltb_spec (current_usage (tools s sel)) (param_q s)); [reflexivity|].
      exfalso. apply Ncond. apply Qltb_false in E1. split; assumption. }
    rewrite (placement_enqueue w2 idx F2 C2').
    destruct (enqueue_waiting_exec w2 idx (lq_backmap _ _ _ Lq) (lq_min _ _ _ Lq) R Abs)
      as [h4 [out [J E4]]].
    rewrite E4. clear E4. cbn [shm].
    set (s4 := set_waiting_count _ (set_heap h4 (on_customer idx _ (shm w2)))).
    assert (C4 : forall c, customers s4 c =
                   if c =? idx
                   then set_wait_start (clock w2 (ticks w2))
                          (set_state CUSTOMER_STATE_WAITING (customers (shm w2) idx))
                   else customers (shm w2) c) by (intros c; apply enqueued_customers).
    change (heap s4) with h4. change (tools s4) with (tools (shm w2)).
    rewrite !C4, Z.eqb_refl.
    destruct (Z.eqb_spec H idx) as [C|_]; [contradiction|].
    cbn [state set_wait_start set_state]. unfold hp in J.
    split; [reflexivity|].
    split; [apply (jq_in _ _ _ _ J); right; reflexivity|].
    split; [rewrite (jq_key _ _ _ _ J); apply Esh|].
    split; [exact Et|].
    split; [rewrite Est; exact StH|].
    intros C. apply (jq_in _ _ _ _ J) in C. destruct C as [C|C]; [contradiction | congruence].
Qed.

Lemma selectedb_sound s t : selectedb s t = true -> selected s t.
Proof.
  unfold selectedb. rewrite !andb_true_iff, negb_true_iff, forallb_range.
  intros [[[R1 R2] B] F]. split; [lia|]. split; [lia|].
  intros i Hi Bi. specialize (F i Hi).
  rewrite orb_true_iff, andb_true_iff, orb_true_iff, negb_true_iff in F.
  destruct F as [F|[F1 F2]]; [lia|]. split; [lia|]. intros E. lia.
Qed.

Example w_busy_state :
  current_user (tools (shm w_busy) 0) = 1023 /\
  current_usage (tools (shm w_busy) 0) = 150 /\
  state (customers (shm w_busy) 1022) = CUSTOMER_STATE_RESTING /\
  find_free_tool (shm w_busy) = -1.
Proof. vm_compute. repeat split. Qed.

Lemma handle_request_preempts_iff_witness :
  let w := w_busy in
  let idx := 1022 in
  let sel := 0 in
  let s := shm w in
  let H := current_user (tools s sel) in
  let s' := shm (exec (handle_request idx 1000) w) in
  let out' := stdout (exec (handle_request idx 1000) w) in
  let usage := to_int (clock w (ticks w) - session_start (customers s H)) in
  ((share (customers s idx) <= share (customers s H))%Q /\
   param_q s <= current_usage (tools s sel) ->
     (exists out, out' = stdout w
        ++ [event_line EVENT_TOOL_REMOVED (customer_id (customers s H))
              (double_to_int (share (customers s' H))) sel]
        ++ out
        ++ [event_line EVENT_TOOL_ASSIGNED (customer_id (customers s idx))
              (double_to_int (share (customers s idx))) sel]) /\
     share (customers s' H) = (share (customers s H) + inject_Z usage)%Q /\
     state (customers s' H) = CUSTOMER_STATE_WAITING /\
     current_tool (customers s' H) = -1 /\
     Heap.in_heap (heap s') H /\
     Heap.key (Heap.GLB (heap s') H) = share (customers s' H) /\
     current_user (tools s' sel) = idx /\
     state (customers s' idx) = CUSTOMER_STATE_USING /\
     current_tool (customers s' idx) = sel /\
     ~ Heap.in_heap (heap s') idx) /\
  (~ ((share (customers s idx) <= share (customers s H))%Q /\
      param_q s <= current_usage (tools s sel)) ->
     state (customers s' idx) = CUSTOMER_STATE_WAITING /\
     Heap.in_heap (heap s') idx /\
     Heap.key (Heap.GLB (heap s') idx) = share (customers s idx) /\
     tools s' = tools s /\
     state (customers s' H) = CUSTOMER_STATE_USING /\
     ~ Heap.in_heap (heap s') H).
Proof.
  apply (handle_request_preempts_iff w_busy 1022 1000 0).
  - apply sched_invb_sound. vm_compute. reflexivity.
  - apply usage_nonnegb_sound. vm_compute. reflexivity.
  - unfold MAX_CUSTOMERS. lia.
  - left. vm_compute. reflexivity.
  - vm_compute. reflexivity.
  - apply selectedb_sound. vm_compute. reflexivity.
Defined.

Example request_preempts_holder :
  let w' := exec (handle_request 1022 1000) w_busy in
  stdout w' = [event_line EVENT_TOOL_ASSIGNED 4242 0 0;
               event_line EVENT_TOOL_REMOVED 4242 160 0;
               event_line EVENT_TOOL_ASSIGNED 4343 0 0] /\
  current_user (tools (shm w') 0) = 1022 /\
  state (customers (shm w') 1023) = CUSTOMER_STATE_WAITING /\
  Heap.HEAP_ARRAY (heap (shm w')) 0 = 1023 /\
  Heap.key (Heap.GLB (heap (shm w')) 1023) = 160%Q.
Proof. vm_compute. repeat split. Qed.

(** ** The tool runner at the [Q] threshold *)


Lemma preempt_holder_exec w t H :
  exec (preempt_holder t H) w =
  exec (assign_next_from_queue t)
    (exec (enqueue_waiting H)
       (exec (remove_customer_from_tool H EVENT_TOOL_REMOVED) w)).
Proof. unfold preempt_holder. rewrite !exec_bind. reflexivity. Qed.


Example w_starved_state :
  current_user (tools (shm w_starved) 0) = 1023 /\
  share (customers (shm w_starved) 1023) = 0%Q /\
  state (customers (shm w_starved) 1022) = CUSTOMER_STATE_WAITING /\
  Heap.heap_size (heap (shm w_starved)) = 1 /\
  Heap.key (Heap.GLB (heap (shm w_starved)) 1022) = 5000%Q.
Proof. vm_compute. repeat split. Qed.

(** At [w_starved] the holder is removed with share 500, enters the queue
    below the waiter's 5000, is popped at once and is Using the tool again:
    it does not end the tick Waiting. *)
Lemma holder_ends_waiting_fails : ~ holder_ends_waiting w_starved 0.
Proof.
  unfold holder_ends_waiting. intros C.
  assert (C' : state (customers (shm (exec (tool_process_tick 0) w_starved))
                        (current_user (tools (shm w_starved) 0)))
               = CUSTOMER_STATE_WAITING).
  { apply C.
    - vm_compute. reflexivity.
    - vm_compute. discriminate.
    - vm_compute. reflexivity.
    - vm_compute. discriminate.
    - vm_compute. reflexivity. }
  vm_compute in C'. discriminate.
Qed.

Example starved_tick_log :
  let w' := exec (tool_process_tick 0) w_starved in
  skipn 3 (stdout w') = [event_line EVENT_TOOL_REMOVED 4242 500 0;
                         event_line EVENT_TOOL_ASSIGNED 4242 500 0] /\
  current_user (tools (shm w') 0) = 1023 /\
  state (customers (shm w') 1023) = CUSTOMER_STATE_USING /\
  state (customers (shm w') 1022) = CUSTOMER_STATE_WAITING.
Proof. vm_compute. repeat split. Qed.

(** C2 (the code departs from the claim).  At [w_starved] the holder of
    tool 0, customer 4242 in slot 1023, has used the tool for [Q = 500] ms
    of the 2000 it asked for, and customer 4343 waits with key 5000.  The
    tick removes the holder with share 500, inserts it in the queue, pops
    the least key, which is the holder's, and binds the tool to the holder
    again: the holder does not end the tick Waiting and the waiter is not
    bound. *)
Theorem forced_preemption_rebinds_holder :
  let w := w_starved in
  let s := shm w in
  let s' := shm (exec (tool_process_tick 0) w) in
  (current_user (tools s 0) = 1023 /\
   to_int (clock w (ticks w) - tool_session_start (tools s 0)) = 500 /\
   param_Q s = 500 /\
   request_duration (customers s 1023) = 2000 /\
   List.map (Heap.HEAP_ARRAY (heap s)) (range (Heap.heap_size (heap s))) = [1022] /\
   Heap.key (Heap.GLB (heap s) 1022) = 5000%Q) /\
  (skipn 3 (stdout (exec (tool_process_tick 0) w))
   = [event_line EVENT_TOOL_REMOVED 4242 500 0;
      event_line EVENT_TOOL_ASSIGNED 4242 500 0] /\
   current_user (tools s' 0) = 1023 /\
   state (customers s' 1023) = CUSTOMER_STATE_USING /\
   (share (customers s' 1023) == 500)%Q /\
   state (customers s' 1022) = CUSTOMER_STATE_WAITING /\
   List.map (Heap.HEAP_ARRAY (heap s')) (range (Heap.heap_size (heap s'))) = [1022]).
Proof. vm_compute. repeat split. Qed.


(** ** The variant scheduler *)

Example variant_waiting_state :
  sched_invb (shm Variant.w_waiting) = true /\
  state (customers (shm Variant.w_waiting) 1022) = CUSTOMER_STATE_WAITING /\
  is_allocated (customers (shm Variant.w_waiting) 1022) = true /\
  current_user (tools (shm Variant.w_waiting) 0) = 1023 /\
  current_usage (tools (shm Variant.w_waiting) 0) = 150 /\
  List.map (Heap.HEAP_ARRAY (heap (shm Variant.w_waiting)))
    (range (Heap.heap_size (heap (shm Variant.w_waiting)))) = [1022].
Proof. vm_compute. repeat split. Qed.

(** C3 (the variant departs from the claim).  In a state where the
    invariant holds, the Waiting customer in slot 1022 sends REQUEST again
    and preempts the holder.  With [handle_request] of code/hw1.c it leaves
    the queue and the invariant holds afterwards; with [handle_request] of
    test_extract/hw1/hw1.c it is Using the tool and still in the queue, at
    the root, because [1022 < heap_size] is false. *)
Theorem variant_request_leaves_user_queued :
  let w := Variant.w_waiting in
  let w1 := exec (handle_request 1022 1000) w in
  let w2 := exec (Variant.handle_request 1022 1000) w in
  (sched_invb (shm w) = true /\
   state (customers (shm w1) 1022) = CUSTOMER_STATE_USING /\
   List.map (Heap.HEAP_ARRAY (heap (shm w1))) (range (Heap.heap_size (heap (shm w1))))
     = [1023] /\
   sched_invb (shm w1) = true) /\
  (state (customers (shm w2) 1022) = CUSTOMER_STATE_USING /\
   is_allocated (customers (shm w2) 1022) = true /\
   current_user (tools (shm w2) 0) = 1022 /\
   List.map (Heap.HEAP_ARRAY (heap (shm w2))) (range (Heap.heap_size (heap (shm w2))))
     = [1022; 1023] /\
   Heap.heap_index (Heap.GLB (heap (shm w2)) 1022) = 0 /\
   waiting_count (shm w2) = 2).
Proof. vm_compute. repeat split. Qed.

(** ** REQUEST keeps the invariants (code/hw1.c) *)

Lemma find_free_tool_spec s :
  find_free_tool s <> -1 ->
  0 <= find_free_tool s < num_tools s /\ current_user (tools s (find_free_tool s)) = -1.
Proof.
  unfold find_free_tool.
  destruct (Z.le_gt_cases 0 (num_tools s)) as [Hn|Hn].
  2:{ unfold range. replace (Z.to_nat (num_tools s)) with O by lia.
      simpl. intros C. contradiction. }
  set (f := fun (acc : Z * Z) i =>
              let (best_tool, min_usage) := acc in
              if current_user (tools s i) =? -1 then
                if (total_usage (tools s i) <? min_usage)
                   || ((total_usage (tools s i) =? min_usage)
                       && ((best_tool =? -1) || (i <? best_tool)))
                then (i, total_usage (tools s i)) else acc
              else acc).
  set (P := fun (n : Z) (acc : Z * Z) =>
    fst acc = -1 \/ (0 <= fst acc < n /\ current_user (tools s (fst acc)) = -1)).
  assert (G : P (num_tools s) (fold_left f (range (num_tools s)) (-1, LLONG_MAX))).
  { apply fold_range_inv; [exact Hn | left; reflexivity |].
    intros i [b mu] Hi HP. unfold P in *. cbn [fst] in HP. unfold f.
    destruct (Z.eqb_spec (current_user (tools s i)) (-1)) as [Fr|Bd].
    - destruct (_ || _); cbn [fst].
      + right. split; [lia | exact Fr].
      + destruct HP as [HP|[HP1 HP2]]; [left; exact HP | right; split; [lia | exact HP2]].
    - cbn [fst]. destruct HP as [HP|[HP1 HP2]]; [left; exact HP | right; split; [lia | exact HP2]]. }
  intros N. destruct G as [G|G]; [contradiction | exact G].
Qed.

Lemma max_usage_tool_range s :
  fst (max_usage_tool s) = -1 \/
  (0 <= fst (max_usage_tool s) < num_tools s /\
   current_user (tools s (fst (max_usage_tool s))) <> -1).
Proof.
  unfold max_usage_tool.
  destruct (Z.le_gt_cases 0 (num_tools s)) as [Hn|Hn].
  2:{ unfold range. replace (Z.to_nat (num_tools s)) with O by lia. left. reflexivity. }
  set (f := fun (acc : Z * Z) i =>
              let (candidate, max_usage) := acc in
              if negb (current_user (tools s i) =? -1) then
                let usage := current_usage (tools s i) in
                if (max_usage <? usage)
                   || ((usage =? max_usage) && ((candidate =? -1) || (i <? candidate)))
                then (i, usage) else acc
              else acc).
  set (P := fun (n : Z) (acc : Z * Z) =>
    fst acc = -1 \/ (0 <= fst acc < n /\ current_user (tools s (fst acc)) <> -1)).
  assert (G : P (num_tools s) (fold_left f (range (num_tools s)) (-1, 0))).
  { apply fold_range_inv; [exact Hn | left; reflexivity |].
    intros i [b mu] Hi HP. unfold P in *. cbn [fst] in HP. unfold f.
    destruct (Z.eqb_spec (current_user (tools s i)) (-1)) as [Fr|Bd]; cbn [negb].
    - cbn [fst]. destruct HP as [HP|[HP1 HP2]]; [left; exact HP | right; split; [lia | exact HP2]].
    - cbv zeta. destruct (_ || _); cbn [fst].
      + right. split; [lia | exact Bd].
      + destruct HP as [HP|[HP1 HP2]]; [left; exact HP | right; split; [lia | exact HP2]]. }
  exact G.
Qed.

Lemma find_preemption_candidate_range s k :
  find_preemption_candidate k s <> -1 ->
  0 <= find_preemption_candidate k s < num_tools s /\
  current_user (tools s (find_preemption_candidate k s)) <> -1.
Proof.
  unfold find_preemption_candidate.
  destruct (max_usage_tool_range s) as [E|R].
  - rewrite E. cbn. intros C. contradiction.
  - destruct (Z.eqb_spec (fst (max_usage_tool s)) (-1)); [intros C; contradiction|].
    destruct (Qltb _ _); [intros C; contradiction|].
    destruct (_ <? _); [intros C; contradiction|].
    intros _. exact R.
Qed.

Lemma enqueued_tools wc h x f s :
  tools (set_waiting_count wc (set_heap h (on_customer x f s))) = tools s.
Proof. reflexivity. Qed.

(** [handle_request] and [sched_inv], for a requester that holds no tool. *)
Lemma handle_request_sched_inv (w : World) (idx d : Z) :
  sched_inv (shm w) -> 0 <= idx < MAX_CUSTOMERS ->
  state (customers (shm w) idx) = CUSTOMER_STATE_RESTING \/
  state (customers (shm w) idx) = CUSTOMER_STATE_WAITING ->
  sched_inv (shm (exec (handle_request idx d) w)).
Proof.
  intros Inv R St. set (s := shm w).
  assert (StU : state (customers s idx) <> CUSTOMER_STATE_USING)
    by (destruct St as [E|E]; unfold s; rewrite E; discriminate).
  pose proof (request_entry_spec w idx d Inv R StU) as En.
  rewrite handle_request_exec.
  set (w2 := exec _ (exec (request_entry idx _) w)) in *.
  destruct En as [Lq Abs Et En_ Eq Est Esh Etl Eid Ess Eo Ec Ek].
  destruct Inv as [B M Qu T]. fold s in B, M, Qu, T.
  assert (B2 := lq_backmap _ _ _ Lq). assert (M2 := lq_min _ _ _ Lq).
  assert (In2 : forall c, Heap.in_heap (hp w2) c <-> Heap.in_heap (heap s) c /\ c <> idx)
    by exact (lq_in _ _ _ Lq).
  (* a holder is neither the requester nor queued *)
  assert (Hold : forall t, 0 <= t < num_tools s -> current_user (tools s t) <> -1 ->
            current_user (tools s t) <> idx /\
            ~ Heap.in_heap (hp w2) (current_user (tools s t))).
  { intros t Rt Bt. destruct (T t Rt Bt) as [Ru [Su Tu]]. split.
    - intros C. apply StU. rewrite <- C. exact Su.
    - intros C. apply In2 in C. destruct C as [C _]. apply Qu in C; [congruence | exact Ru]. }
  destruct (Z.eq_dec (find_free_tool (shm w2)) (-1)) as [F2|F2].
  2:{ (* a free tool *)
    rewrite (placement_free w2 idx F2).
    rewrite (find_free_tool_ext _ _ Et En_) in *. fold s in F2 |- *.
    destruct (find_free_tool_spec s F2) as [Rf Ff].
    set (f := find_free_tool s) in *.
    destruct (assign_tool_to_customer_spec w2 idx f B2 M2 R) as [h5 [wc [E5 [W5 N5]]]].
    rewrite E5. clear E5. cbn [shm].
    assert (L5 : left_queue idx (hp w2) h5).
    { destruct (state (customers (shm w2) idx)) eqn:E; try (
        destruct (N5 ltac:(discriminate)) as [-> _];
        apply left_queue_absent; assumption).
      destruct (W5 eq_refl) as [L _]. exact L. }
    constructor.
    - rewrite bound_heap. exact (lq_backmap _ _ _ L5).
    - rewrite bound_heap. exact (lq_min _ _ _ L5).
    - intros c Rc. rewrite bound_heap, bound_state.
      change (heap (set_waiting_count wc (set_heap h5 (shm w2)))) with h5.
      change (customers (set_waiting_count wc (set_heap h5 (shm w2))))
        with (customers (shm w2)).
      rewrite (lq_in _ _ _ L5), In2, Est. fold s.
      destruct (Z.eqb_spec c idx) as [->|N].
      + split; [tauto | discriminate].
      + rewrite <- (Qu c Rc). tauto.
    - intros t Rt. rewrite !bound_current_user, bound_state, bound_current_tool.
      change (tools (set_waiting_count wc (set_heap h5 (shm w2)))) with (tools (shm w2)).
      change (customers (set_waiting_count wc (set_heap h5 (shm w2))))
        with (customers (shm w2)).
      change (num_tools (bound_shm _ _ _ _)) with (num_tools (shm w2)) in Rt.
      rewrite En_ in Rt. rewrite Et, Est, Etl. fold s.
      destruct (Z.eqb_spec t f) as [->|N].
      + intros _. rewrite Z.eqb_refl. split; [exact R|]. split; reflexivity.
      + intros Bt. destruct (T t Rt Bt) as [Ru [Su Tu]].
        destruct (Hold t Rt Bt) as [Nu _].
        destruct (Z.eqb_spec (current_user (tools s t)) idx); [contradiction|].
        split; [exact Ru|]. split; assumption. }
  set (k := share (customers (shm w2) idx)).
  destruct (Z.eq_dec (find_preemption_candidate k (shm w2)) (-1)) as [C2|C2].
  - (* the requester is queued *)
    rewrite (placement_enqueue w2 idx F2 C2).
    destruct (enqueue_waiting_exec w2 idx B2 M2 R Abs) as [h4 [out [J E4]]].
    rewrite E4. clear E4. cbn [shm].
    set (s4 := set_waiting_count _ (set_heap h4 (on_customer idx _ (shm w2)))).
    assert (C4 : forall c, customers s4 c =
                   if c =? idx
                   then set_wait_start (clock w2 (ticks w2))
                          (set_state CUSTOMER_STATE_WAITING (customers (shm w2) idx))
                   else customers (shm w2) c) by (intros c; apply enqueued_customers).
    constructor.
    + exact (jq_backmap _ _ _ _ J).
    + exact (jq_min _ _ _ _ J).
    + intros c Rc. change (heap s4) with h4. rewrite C4, (jq_in _ _ _ _ J), In2.
      destruct (Z.eqb_spec c idx) as [->|N].
      * cbn [state set_wait_start set_state]. tauto.
      * rewrite Est. fold s. rewrite <- (Qu c Rc). tauto.
    + intros t Rt. change (tools s4) with (tools (shm w2)).
      change (num_tools s4) with (num_tools (shm w2)) in Rt.
      rewrite En_ in Rt. rewrite Et. fold s. intros Bt.
      destruct (T t Rt Bt) as [Ru [Su Tu]]. destruct (Hold t Rt Bt) as [Nu _].
      rewrite !C4. destruct (Z.eqb_spec (current_user (tools s t)) idx); [contradiction|].
      rewrite Est, Etl. split; [exact Ru|]. split; assumption.
  - (* the holder of the candidate is preempted *)
    pose proof (placement_preempt w2 idx F2) as P. cbv zeta in P. fold k in P.
    rewrite (P C2). clear P.
    destruct (find_preemption_candidate_range (shm w2) k C2) as [Rs Bs].
    set (sel := find_preemption_candidate k (shm w2)) in *.
    rewrite En_ in Rs. rewrite Et in Bs |- *. fold s in Rs, Bs |- *.
    set (H := current_user (tools s sel)) in *.
    destruct (T sel Rs Bs) as [RH [StH TH]]. fold H in RH, StH, TH.
    destruct (Hold sel Rs Bs) as [NH AbsH]. fold H in NH, AbsH.
    assert (TH2 : current_tool (customers (shm w2) H) = sel) by (rewrite Etl; exact TH).
    destruct (unbind_and_enqueue w2 H sel B2 M2 RH AbsH TH2 ltac:(lia)) as [h4 [out [J E4]]].
    rewrite E4. clear E4.
    set (s3 := unbound_shm H EVENT_TOOL_REMOVED (clock w2 (ticks w2)) (shm w2)) in *.
    set (s4 := set_waiting_count _ (set_heap h4 (on_customer H _ s3))).
    set (w4 := mkWorld s4 _ _ _).
    assert (C4 : forall c, customers s4 c =
                   if c =? H
                   then set_wait_start (clock w2 (S (ticks w2)))
                          (set_state CUSTOMER_STATE_WAITING (customers s3 H))
                   else customers s3 c) by (intros c; apply enqueued_customers).
    assert (St4 : forall c, state (customers s4 c) =
                    if c =? H then CUSTOMER_STATE_WAITING else state (customers s c)).
    { intros c. rewrite C4. destruct (Z.eqb_spec c H); [reflexivity|].
      unfold s3. rewrite unbound_state. apply Est. }
    assert (Tl4 : forall c, current_tool (customers s4 c) =
                    if c =? H then -1 else current_tool (customers s c)).
    { intros c. rewrite C4.
      destruct (Z.eqb_spec c H) as [->|N]; cbn [current_tool set_wait_start set_state];
        unfold s3; rewrite unbound_current_tool;
        [rewrite Z.eqb_refl; reflexivity|].
      destruct (Z.eqb_spec c H); [contradiction | apply Etl]. }
    assert (Us4 : forall t, current_user (tools s4 t) =
                    if t =? sel then -1 else current_user (tools s t)).
    { intros t. unfold s4. rewrite enqueued_tools. unfold s3.
      rewrite unbound_current_user, TH2, Et. reflexivity. }
    assert (B4 : Heap.backmap (hp w4)) by exact (jq_backmap _ _ _ _ J).
    assert (M4 : Heap.min_heap (hp w4)) by exact (jq_min _ _ _ _ J).
    destruct (assign_tool_to_customer_spec w4 idx sel B4 M4 R) as [h5 [wc [E5 [W5 N5]]]].
    rewrite E5. clear E5. cbn [shm].
    change (shm w4) with s4 in *. change (hp w4) with h4 in *.
    assert (Abs4 : ~ Heap.in_heap h4 idx).
    { intros C. apply (jq_in _ _ _ _ J) in C. destruct C as [C|C]; [contradiction | congruence]. }
    assert (L5 : left_queue idx h4 h5).
    { destruct (state (customers s4 idx)) eqn:E; try (
        destruct (N5 ltac:(discriminate)) as [-> _];
        apply left_queue_absent; assumption).
      destruct (W5 eq_refl) as [L _]. exact L. }
    constructor.
    + rewrite bound_heap. exact (lq_backmap _ _ _ L5).
    + rewrite bound_heap. exact (lq_min _ _ _ L5).
    + intros c Rc. rewrite bound_heap, bound_state.
      change (heap (set_waiting_count wc (set_heap h5 s4))) with h5.
      change (customers (set_waiting_count wc (set_heap h5 s4))) with (customers s4).
      rewrite (lq_in _ _ _ L5), (jq_in _ _ _ _ J), In2, St4.
      destruct (Z.eqb_spec c idx) as [->|N]; [split; [tauto | discriminate]|].
      destruct (Z.eqb_spec c H) as [->|N']; [tauto|].
      rewrite <- (Qu c Rc). tauto.
    + intros t Rt. rewrite !bound_current_user, bound_state, bound_current_tool.
      change (tools (set_waiting_count wc (set_heap h5 s4))) with (tools s4).
      change (customers (set_waiting_count wc (set_heap h5 s4))) with (customers s4).
      change (num_tools (bound_shm _ _ _ _)) with (num_tools (shm w2)) in Rt.
      rewrite En_ in Rt. fold s in Rt. rewrite Us4, St4, Tl4.
      destruct (Z.eqb_spec t sel) as [->|N].
      * intros _. rewrite Z.eqb_refl. split; [exact R|]. split; reflexivity.
      * intros Bt. destruct (T t Rt Bt) as [Ru [Su Tu]].
        destruct (Hold t Rt Bt) as [Nu _].
        destruct (Z.eqb_spec (current_user (tools s t)) idx); [contradiction|].
        destruct (Z.eqb_spec (current_user (tools s t)) H) as [E|_].
        { exfalso. apply N. rewrite <- Tu, E. exact TH. }
        split; [exact Ru|]. split; assumption.
Qed.

(** X2. [handle_request] of code/hw1.c, for a Resting or Waiting customer,
    preserves [sched_inv]: afterwards the queue is well formed and ordered,
    a customer is queued iff it is Waiting, and every holder is Using and
    points back to its tool. *)
Theorem handle_request_keeps_invariants (w : World) (idx d : Z) :
  sched_inv (shm w) -> 0 <= idx < MAX_CUSTOMERS ->
  state (customers (shm w) idx) = CUSTOMER_STATE_RESTING \/
  state (customers (shm w) idx) = CUSTOMER_STATE_WAITING ->
  sched_inv (shm (exec (handle_request idx d) w)).
Proof. exact (handle_request_sched_inv w idx d). Qed.

Lemma handle_request_keeps_invariants_witness :
  sched_inv (shm (exec (handle_request 1022 1000) w_busy)) /\
  sched_inv (shm (exec (handle_request 1022 1000) Variant.w_waiting)).
Proof.
  split.
  - apply (handle_request_keeps_invariants w_busy 1022 1000).
    + apply sched_invb_sound. vm_compute. reflexivity.
    + unfold MAX_CUSTOMERS. lia.
    + left. vm_compute. reflexivity.
  - apply (handle_request_keeps_invariants Variant.w_waiting 1022 1000).
    + apply sched_invb_sound. vm_compute. reflexivity.
    + unfold MAX_CUSTOMERS. lia.
    + right. vm_compute. reflexivity.
Defined.

(** ** Deallocation *)

(** Whatever the queue holds, [leave_queue] changes only the queue and
    [waiting_count], and may print. *)
Lemma leave_queue_frame w x :
  exists h' out,
    exec (leave_queue x) w =
    mkWorld (set_waiting_count (waiting_count (shm w) - 1) (set_heap h' (shm w)))
      (stdout w ++ out) (clock w) (ticks w).
Proof.
  unfold leave_queue, when, exec, bind, get_shm, heap_delete, call_heap, modify, ret.
  cbn [shm stdout clock ticks fst snd].
  destruct (negb _).
  - destruct (Heap.heap_delete x (heap (shm w))) as [[r h'] out].
    exists h', out. reflexivity.
  - exists (heap (shm w)), []. rewrite set_heap_same, app_nil_r. reflexivity.
Qed.

Lemma allocate_customer_exec w id :
  0 < free_customer_count (shm w) ->
  let s := shm w in
  let count := free_customer_count s - 1 in
  let idx := free_customer_slots s count in
  let new_share :=
    if 0 <? total_customers s
    then (total_share s / inject_Z (total_customers s))%Q else 0%Q in
  allocate_customer id w =
  (idx,
   mkWorld
     (set_total_share (total_share s + new_share)%Q
        (set_resting_customers (resting_customers s + 1)
           (set_total_customers (total_customers s + 1)
              (set_customers
                 (upd (customers s) idx
                    (mkCustomer id true CUSTOMER_STATE_RESTING new_share 0 0 (-1) 0 0 idx
                       false EVENT_NONE (event_tool_id (customers s idx))))
                 (set_free_customer_count count s)))))
     (stdout w) (clock w) (ticks w)).
Proof.
  intros P. cbv zeta.
  unfold allocate_customer, bind, get_shm, modify, ret.
  destruct (Z.leb_spec (free_customer_count (shm w)) 0); [lia|]. reflexivity.
Qed.

(** X1. [deallocate_customer], entered for an allocated customer, takes
    the customer out of [total_customers] and its share out of
    [total_share], marks the slot Deleted and pushes it on the free stack;
    [allocate_customer] then hands out the same slot, and the newcomer
    starts with the average share of the customers that remain (0 when none
    remains). *)
Theorem deallocate_customer_counters (w : World) (idx id : Z) :
  is_allocated (customers (shm w) idx) = true ->
  let s := shm w in
  let w' := exec (deallocate_customer idx) w in
  let s' := shm w' in
  total_customers s' = total_customers s - 1 /\
  total_share s' = (total_share s - share (customers s idx))%Q /\
  is_allocated (customers s' idx) = false /\
  state (customers s' idx) = CUSTOMER_STATE_DELETED /\
  free_customer_count s' = free_customer_count s + 1 /\
  free_customer_slots s' (free_customer_count s) = idx /\
  (0 <= free_customer_count s ->
     fst (allocate_customer id w') = idx /\
     share (customers (shm (exec (allocate_customer id) w')) idx) =
       if 0 <? total_customers s - 1
       then ((total_share s - share (customers s idx))
             / inject_Z (total_customers s - 1))%Q
       else 0%Q).
Proof.
  intros A s w' s'.
  assert (F : total_customers s' = total_customers s - 1 /\
              total_share s' = (total_share s - share (customers s idx))%Q /\
              is_allocated (customers s' idx) = false /\
              state (customers s' idx) = CUSTOMER_STATE_DELETED /\
              free_customer_count s' = free_customer_count s + 1 /\
              free_customer_slots s' (free_customer_count s) = idx).
  { subst s' w'. unfold deallocate_customer.
    rewrite exec_bind. cbn [get_shm fst]. change (exec get_shm w) with w.
    cbv beta zeta. rewrite A. cbn [negb]. fold s.
    rewrite !exec_bind, !exec_modify.
    set (w1 := exec (match state (customers s idx) with
                     | CUSTOMER_STATE_RESTING => _
                     | CUSTOMER_STATE_WAITING => _
                     | CUSTOMER_STATE_USING => _
                     | CUSTOMER_STATE_DELETED => _
                     end) w).
    assert (Fr : customers (shm w1) = customers s /\
                 total_customers (shm w1) = total_customers s /\
                 total_share (shm w1) = total_share s /\
                 free_customer_count (shm w1) = free_customer_count s /\
                 free_customer_slots (shm w1) = free_customer_slots s).
    { unfold w1. destruct (state (customers s idx)).
      - rewrite exec_modify. repeat split.
      - destruct (leave_queue_frame w idx) as [h' [out E]]. rewrite E. repeat split.
      - unfold when. destruct (_ && _); [rewrite exec_modify|rewrite exec_ret]; repeat split.
      - rewrite exec_ret. repeat split. }
    destruct Fr as [Fc [Ft [Fs [Fn Fl]]]].
    cbn [shm]. unfold on_customer.
    cbn [total_customers total_share customers free_customer_count free_customer_slots
         set_free_customer_count set_free_customer_slots set_customers set_total_share
         set_total_customers].
    rewrite !upd_eq, Fc, Ft, Fs, Fn. repeat split. apply upd_eq. }
  destruct F as [F1 [F2 [F3 [F4 [F5 F6]]]]].
  repeat (split; [assumption|]).
  intros P.
  pose proof (allocate_customer_exec w' id) as E. cbv zeta in E. fold s' in E.
  rewrite F5 in E. specialize (E ltac:(lia)).
  replace (free_customer_count s + 1 - 1) with (free_customer_count s) in E by lia.
  rewrite F6, F1, F2 in E.
  unfold exec. rewrite E. cbn [fst snd shm]. split; [reflexivity|].
  cbn [customers set_total_share set_resting_customers set_total_customers set_customers].
  rewrite upd_eq. reflexivity.
Qed.

Lemma deallocate_customer_counters_witness :
  let w := w_using in
  let idx := 1023 in
  let id := 4343 in
  let s := shm w in
  let w' := exec (deallocate_customer idx) w in
  let s' := shm w' in
  total_customers s' = total_customers s - 1 /\
  total_share s' = (total_share s - share (customers s idx))%Q /\
  is_allocated (customers s' idx) = false /\
  state (customers s' idx) = CUSTOMER_STATE_DELETED /\
  free_customer_count s' = free_customer_count s + 1 /\
  free_customer_slots s' (free_customer_count s) = idx /\
  (0 <= free_customer_count s ->
     fst (allocate_customer id w') = idx /\
     share (customers (shm (exec (allocate_customer id) w')) idx) =
       if 0 <? total_customers s - 1
       then ((total_share s - share (customers s idx))
             / inject_Z (total_customers s - 1))%Q
       else 0%Q).
Proof.
  apply (deallocate_customer_counters w_using 1023 4343). vm_compute. reflexivity.
Defined.

(** ** Choosing a tool *)

(** X10. [find_free_tool] returns -1 exactly when every tool is bound;
    otherwise it returns a free tool of least [total_usage], the one of
    least index among those.  ([total_usage] is a [long long]: it does not
    exceed [LLONG_MAX].) *)
Theorem find_free_tool_least_used (s : SharedMemory) :
  (forall t, 0 <= t < num_tools s -> current_user (tools s t) = -1 ->
     total_usage (tools s t) <= LLONG_MAX) ->
  let r := find_free_tool s in
  (r = -1 <-> forall t, 0 <= t < num_tools s -> current_user (tools s t) <> -1) /\
  (r <> -1 ->
     0 <= r < num_tools s /\ current_user (tools s r) = -1 /\
     forall t, 0 <= t < num_tools s -> current_user (tools s t) = -1 ->
       total_usage (tools s r) <= total_usage (tools s t) /\
       (total_usage (tools s t) = total_usage (tools s r) -> r <= t)).
Proof.
  intros Hmax r.
  destruct (Z.le_gt_cases 0 (num_tools s)) as [Hn|Hn].
  2:{ assert (E : r = -1).
      { unfold r, find_free_tool, range.
        replace (Z.to_nat (num_tools s)) with O by lia. reflexivity. }
      rewrite E. split; [|intros C; contradiction].
      split; [intros _ t Ht; lia | reflexivity]. }
  set (f := fun (acc : Z * Z) i =>
              let (best_tool, min_usage) := acc in
              if current_user (tools s i) =? -1 then
                if (total_usage (tools s i) <? min_usage)
                   || ((total_usage (tools s i) =? min_usage)
                       && ((best_tool =? -1) || (i <? best_tool)))
                then (i, total_usage (tools s i))
                else acc
              else acc).
  set (P := fun (n : Z) (acc : Z * Z) =>
              (fst acc = -1 /\ snd acc = LLONG_MAX /\
               forall t, 0 <= t < n -> current_user (tools s t) <> -1) \/
              (0 <= fst acc < n /\ current_user (tools s (fst acc)) = -1 /\
               snd acc = total_usage (tools s (fst acc)) /\
               forall t, 0 <= t < n -> current_user (tools s t) = -1 ->
                 snd acc <= total_usage (tools s t) /\
                 (total_usage (tools s t) = snd acc -> fst acc <= t))).
  assert (I : P (num_tools s) (fold_left f (range (num_tools s)) (-1, LLONG_MAX))).
  { apply fold_range_inv; [exact Hn | |].
    - left. cbn. repeat split; try reflexivity. intros t Ht. lia.
    - intros i [b mu] Hi HP. unfold f.
      destruct (Z.eqb_spec (current_user (tools s i)) (-1)) as [Fr|Bd].
      + destruct HP as [[Eb [Em All]]|[Rb [Fb [Em All]]]]; cbn [fst snd] in *.
        * subst b mu. pose proof (Hmax i Hi Fr) as Le.
          replace ((total_usage (tools s i) <? LLONG_MAX)
                   || ((total_usage (tools s i) =? LLONG_MAX) && ((-1 =? -1) || (i <? -1))))
            with true.
          2:{ symmetry. apply orb_true_iff.
              destruct (Z.ltb_spec (total_usage (tools s i)) LLONG_MAX); [left; reflexivity|].
              right. apply andb_true_iff. split; [apply Z.eqb_eq; lia | reflexivity]. }
          right. cbn [fst snd]. split; [lia|]. split; [exact Fr|]. split; [reflexivity|].
          intros t Ht Ft. assert (t = i).
          { destruct (Z.eq_dec t i); [assumption|]. exfalso. apply (All t); [lia | exact Ft]. }
          subst t. split; [lia | intros _; lia].
        * destruct (Z.ltb_spec (total_usage (tools s i)) mu) as [Lt|Ge].
          { cbn [orb]. right. cbn [fst snd]. split; [lia|]. split; [exact Fr|].
            split; [reflexivity|]. intros t Ht Ft.
            destruct (Z.eq_dec t i) as [->|Ne]; [split; [lia | intros _; lia]|].
            destruct (All t ltac:(lia) Ft) as [A1 A2]. split; [lia | intros E; lia]. }
          { cbn [orb].
            replace ((total_usage (tools s i) =? mu) && ((b =? -1) || (i <? b))) with false.
            2:{ symmetry. apply andb_false_iff. right. apply orb_false_iff.
                split; [apply Z.eqb_neq; lia | apply Z.ltb_ge; lia]. }
            right. cbn [fst snd]. split; [lia|]. split; [exact Fb|]. split; [exact Em|].
            intros t Ht Ft.
            destruct (Z.eq_dec t i) as [->|Ne]; [split; [lia | intros _; lia]|].
            apply All; [lia | exact Ft]. }
      + destruct HP as [[Eb [Em All]]|[Rb [Fb [Em All]]]]; cbn [fst snd] in *.
        * left. cbn [fst snd]. split; [exact Eb|]. split; [exact Em|].
          intros t Ht. destruct (Z.eq_dec t i) as [->|Ne]; [exact Bd | apply All; lia].
        * right. cbn [fst snd]. split; [lia|]. split; [exact Fb|]. split; [exact Em|].
          intros t Ht Ft. destruct (Z.eq_dec t i) as [->|Ne]; [contradiction | apply All; [lia | exact Ft]]. }
  fold f in I. change (fst (fold_left f (range (num_tools s)) (-1, LLONG_MAX))) with r in I.
  unfold P in I. clear P.
  destruct (fold_left f (range (num_tools s)) (-1, LLONG_MAX)) as [b mu] eqn:E.
  assert (Er : r = b) by (unfold r, find_free_tool; fold f; rewrite E; reflexivity).
  cbn [fst snd] in I. rewrite Er. clear Er E.
  destruct I as [[Eb [Em All]]|[Rb [Fb [Em All]]]].
  - split; [split; [intros _; exact All | intros _; exact Eb]|]. intros C; contradiction.
  - split.
    + split; [intros C; lia|]. intros A. exfalso. apply (A b Rb Fb).
    + intros _. split; [exact Rb|]. split; [exact Fb|]. rewrite <- Em. exact All.
Qed.

Lemma find_free_tool_least_used_witness :
  let s := shm (server 100 500 2) in
  let r := find_free_tool s in
  (r = -1 <-> forall t, 0 <= t < num_tools s -> current_user (tools s t) <> -1) /\
  (r <> -1 ->
     0 <= r < num_tools s /\ current_user (tools s r) = -1 /\
     forall t, 0 <= t < num_tools s -> current_user (tools s t) = -1 ->
       total_usage (tools s r) <= total_usage (tools s t) /\
       (total_usage (tools s t) = total_usage (tools s r) -> r <= t)).
Proof.
  intros s. apply (find_free_tool_least_used s).
  intros t Ht _. change (num_tools s) with 2 in Ht.
  assert (E : t = 0 \/ t = 1) by lia.
  destruct E as [-> | ->]; vm_compute; discriminate.
Defined.

(** X11. [find_max_share_tool_above_q] returns -1 exactly when no bound
    tool has [current_usage >= q] and a holder of share at least -1.0, its
    starting maximum; otherwise it returns such a tool whose holder has the
    largest share, the one of least index among those. *)
Theorem find_max_share_tool_above_q_spec (s : SharedMemory) :
  let r := find_max_share_tool_above_q s in
  let holder_share t := share (customers s (current_user (tools s t))) in
  (r = -1 <-> forall t, ~ above_q s t) /\
  (r <> -1 ->
     above_q s r /\
     forall t, above_q s t ->
       (holder_share t <= holder_share r)%Q /\
       ((holder_share t == holder_share r)%Q -> r <= t)).
Proof.
  intros r hs.
  destruct (Z.le_gt_cases 0 (num_tools s)) as [Hn|Hn].
  2:{ assert (E : r = -1).
      { unfold r, find_max_share_tool_above_q, range.
        replace (Z.to_nat (num_tools s)) with O by lia. reflexivity. }
      rewrite E. split; [|intros C; contradiction].
      split; [intros _ t [Ht _]; lia | reflexivity]. }
  set (f := fun (acc : Z * Q) i =>
              let (max_tool, max_share) := acc in
              let user_idx := current_user (tools s i) in
              if negb (user_idx =? -1) then
                let c := customers s user_idx in
                if param_q s <=? current_usage (tools s i) then
                  if Qltb max_share (share c)
                     || (Qeq_bool (share c) max_share
                         && ((max_tool =? -1) || (i <? max_tool)))
                  then (i, share c)
                  else acc
                else acc
              else acc).
  set (el := fun (n t : Z) =>
               0 <= t < n /\ current_user (tools s t) <> -1 /\
               param_q s <= current_usage (tools s t) /\ (-1 <= hs t)%Q).
  set (P := fun (n : Z) (acc : Z * Q) =>
              (fst acc = -1 /\ (snd acc == -1)%Q /\ forall t, ~ el n t) \/
              (el n (fst acc) /\ (snd acc == hs (fst acc))%Q /\
               forall t, el n t ->
                 (hs t <= snd acc)%Q /\ ((hs t == snd acc)%Q -> fst acc <= t))).
  assert (I : P (num_tools s) (fold_left f (range (num_tools s)) (-1, (-1)%Q))).
  { apply fold_range_inv; [exact Hn | |].
    - left. cbn [fst snd]. split; [reflexivity|]. split; [reflexivity|].
      intros t [Ht _]. lia.
    - intros i [b mx] Hi HP. unfold f. cbv zeta.
      assert (Mono : forall t, el i t -> el (i + 1) t).
      { intros t [A B]. split; [lia | exact B]. }
      assert (Inv : forall t, el (i + 1) t -> t <> i -> el i t).
      { intros t [A B] N. split; [lia | exact B]. }
      destruct (Z.eqb_spec (current_user (tools s i)) (-1)) as [Fr|Bd]; cbn [negb].
      { destruct HP as [[Eb [Em All]]|[Eb [Em All]]]; cbn [fst snd] in *.
        - left. cbn [fst snd]. split; [exact Eb|]. split; [exact Em|].
          intros t Et. destruct (Z.eq_dec t i) as [->|N].
          + destruct Et as [_ [C _]]. contradiction.
          + apply (All t). apply Inv; assumption.
        - right. cbn [fst snd]. split; [apply Mono; exact Eb|]. split; [exact Em|].
          intros t Et. destruct (Z.eq_dec t i) as [->|N].
          + destruct Et as [_ [C _]]. contradiction.
          + apply All. apply Inv; assumption. }
      destruct (Z.leb_spec (param_q s) (current_usage (tools s i))) as [Ab|Bl].
      2:{ destruct HP as [[Eb [Em All]]|[Eb [Em All]]]; cbn [fst snd] in *.
        - left. cbn [fst snd]. split; [exact Eb|]. split; [exact Em|].
          intros t Et. destruct (Z.eq_dec t i) as [->|N].
          + destruct Et as [_ [_ [C _]]]. lia.
          + apply (All t). apply Inv; assumption.
        - right. cbn [fst snd]. split; [apply Mono; exact Eb|]. split; [exact Em|].
          intros t Et. destruct (Z.eq_dec t i) as [->|N].
          + destruct Et as [_ [_ [C _]]]. lia.
          + apply All. apply Inv; assumption. }
      change (share (customers s (current_user (tools s i)))) with (hs i).
      destruct (Qltb mx (hs i)) eqn:Lt; cbn [orb].
      { apply Qltb_true in Lt.
        right. cbn [fst snd].
        assert (Ei : el (i + 1) i).
        { split; [lia|]. split; [exact Bd|]. split; [exact Ab|].
          destruct HP as [[_ [Em _]]|[[_ [_ [_ G]]] [Em _]]]; cbn [fst snd] in *.
          - rewrite <- Em. apply Qlt_le_weak. exact Lt.
          - apply Qle_trans with mx; [rewrite Em; exact G | apply Qlt_le_weak; exact Lt]. }
        split; [exact Ei|]. split; [reflexivity|].
        intros t Et. destruct (Z.eq_dec t i) as [->|N].
        - split; [apply Qle_refl | intros _; lia].
        - apply Inv in Et; [|exact N].
          destruct HP as [[_ [_ All]]|[_ [_ All]]]; cbn [fst snd] in *.
          + exfalso. apply (All t Et).
          + destruct (All t Et) as [A1 A2]. split.
            * apply Qle_trans with mx; [exact A1 | apply Qlt_le_weak; exact Lt].
            * intros E. exfalso. rewrite E in A1.
              apply (Qlt_irrefl mx). apply Qlt_le_trans with (hs i); assumption. }
      apply Qltb_false in Lt.
      destruct HP as [[Eb [Em All]]|[Eb [Em All]]]; cbn [fst snd] in *.
      { subst b. cbn [Z.eqb orb]. rewrite andb_true_r.
        destruct (Qeq_bool (hs i) mx) eqn:Eq.
        - apply Qeq_bool_iff in Eq. right. cbn [fst snd].
          assert (Ei : el (i + 1) i).
          { split; [lia|]. split; [exact Bd|]. split; [exact Ab|].
            rewrite Eq, Em. apply Qle_refl. }
          split; [exact Ei|]. split; [reflexivity|].
          intros t Et. destruct (Z.eq_dec t i) as [->|N].
          + split; [apply Qle_refl | intros _; lia].
          + exfalso. apply (All t). apply Inv; assumption.
        - left. cbn [fst snd]. split; [reflexivity|]. split; [exact Em|].
          intros t Et. destruct (Z.eq_dec t i) as [->|N].
          + destruct Et as [_ [_ [_ G]]].
            apply Qeq_bool_neq in Eq. apply Eq.
            apply Qle_antisym; [exact Lt | rewrite Em; exact G].
          + apply (All t). apply Inv; assumption. }
      assert (Bi : b <> -1 /\ b < i) by (destruct Eb as [R _]; lia).
      replace (Qeq_bool (hs i) mx && ((b =? -1) || (i <? b))) with false.
      2:{ symmetry. apply andb_false_iff. right. apply orb_false_iff.
          split; [apply Z.eqb_neq; lia | apply Z.ltb_ge; lia]. }
      right. cbn [fst snd]. split; [apply Mono; exact Eb|]. split; [exact Em|].
      intros t Et. destruct (Z.eq_dec t i) as [->|N].
      + split; [exact Lt | intros _; lia].
      + apply All. apply Inv; assumption. }
  fold f in I.
  destruct (fold_left f (range (num_tools s)) (-1, (-1)%Q)) as [b mx] eqn:E.
  assert (Er : r = b) by (unfold r, find_max_share_tool_above_q; fold f; rewrite E; reflexivity).
  unfold P in I. cbn [fst snd] in I. rewrite Er. clear Er E.
  assert (EL : forall t, el (num_tools s) t <-> above_q s t) by (intros t; reflexivity).
  destruct I as [[Eb [Em All]]|[Eb [Em All]]].
  - split; [|intros C; contradiction].
    split; [intros _ t Et; apply (All t), EL; exact Et | intros _; exact Eb].
  - assert (Nb : b <> -1) by (destruct Eb as [R _]; lia).
    split.
    + split; [intros C; contradiction|]. intros A. exfalso. apply (A b), EL. exact Eb.
    + intros _. split; [apply EL; exact Eb|].
      intros t Et. apply EL in Et. destruct (All t Et) as [A1 A2].
      split; [rewrite <- Em; exact A1 | intros Q; apply A2; rewrite Em; exact Q].
Qed.

(** ** Customers in transit *)

Lemma sched_loose s : sched_inv s <-> loose_inv none_in_transit s.
Proof.
  split.
  - intros [B M Q T]. constructor; try assumption.
    + intros c Hc _. apply Q. exact Hc.
    + intros c [].
    + intros t Ht Bt. destruct (T t Ht Bt) as [A [U C]].
      split; [exact A|]. split; [intros []|]. split; assumption.
  - intros [B M Q A T]. constructor; try assumption.
    + intros c Hc. apply Q; [exact Hc | intros []].
    + intros t Ht Bt. destruct (T t Ht Bt) as [R [_ [U C]]].
      split; [exact R|]. split; assumption.
Qed.

Lemma loose_ext T T' s :
  (forall c, T c <-> T' c) -> loose_inv T s -> loose_inv T' s.
Proof.
  intros E [B M Q A Tl]. constructor; try assumption.
  - intros c Hc N. apply Q; [exact Hc | rewrite E; exact N].
  - intros c Tc. apply A. apply E. exact Tc.
  - intros t Ht Bt. destruct (Tl t Ht Bt) as [R [N [U C]]].
    split; [exact R|]. split; [rewrite <- E; exact N|]. split; assumption.
Qed.

(** Writes that leave the queue, the holders, and the [state] and
    [current_tool] of every customer outside [T] as they are. *)
Lemma loose_frame T s s' :
  heap s' = heap s -> num_tools s' = num_tools s ->
  (forall t, current_user (tools s' t) = current_user (tools s t)) ->
  (forall c, ~ T c -> state (customers s' c) = state (customers s c)) ->
  (forall c, ~ T c -> current_tool (customers s' c) = current_tool (customers s c)) ->
  loose_inv T s -> loose_inv T s'.
Proof.
  intros Eh En Eu Es Ec [B M Q A Tl]. constructor; rewrite ?Eh; try assumption.
  - intros c Hc N. rewrite Es by exact N. apply Q; assumption.
  - intros t Ht Bt. rewrite En in Ht. rewrite Eu in Bt. rewrite Eu.
    destruct (Tl t Ht Bt) as [R [N [U C]]].
    rewrite Es, Ec by exact N.
    split; [exact R|]. split; [exact N|]. split; assumption.
Qed.

Lemma loose_enter T s x :
  loose_inv T s -> ~ Heap.in_heap (heap s) x ->
  (forall t, 0 <= t < num_tools s -> current_user (tools s t) <> -1 ->
     current_user (tools s t) <> x) ->
  loose_inv (with_transit T x) s.
Proof.
  intros [B M Q A Tl] NI NH. constructor; try assumption.
  - intros c Hc N. apply Q; [exact Hc|]. intros Tc. apply N. left. exact Tc.
  - intros c [Tc| ->]; [apply A; exact Tc | exact NI].
  - intros t Ht Bt. destruct (Tl t Ht Bt) as [R [N [U C]]].
    split; [exact R|]. split; [|split; assumption].
    intros [Tc|E]; [contradiction | apply (NH t Ht Bt E)].
Qed.

Lemma loose_release T s x :
  loose_inv (with_transit T x) s -> ~ T x ->
  state (customers s x) <> CUSTOMER_STATE_WAITING -> loose_inv T s.
Proof.
  intros [B M Q A Tl] NT NW. constructor; try assumption.
  - intros c Hc N. destruct (Z.eq_dec c x) as [->|Ne].
    + split; [intros I; exfalso; apply (A x); [right; reflexivity | exact I]|].
      intros W. contradiction.
    + apply Q; [exact Hc|]. intros [Tc|E]; contradiction.
  - intros c Tc. apply A. left. exact Tc.
  - intros t Ht Bt. destruct (Tl t Ht Bt) as [R [N [U C]]].
    split; [exact R|]. split; [|split; assumption].
    intros Tc. apply N. left. exact Tc.
Qed.

Lemma loose_unbind T w x ev :
  loose_inv T (shm w) -> ~ Heap.in_heap (hp w) x ->
  loose_inv (with_transit T x) (shm (exec (remove_customer_from_tool x ev) w)).
Proof.
  intros L NI. pose proof L as [B M Q A Tl].
  rewrite remove_customer_from_tool_exec.
  destruct (Z.eqb_spec (current_tool (customers (shm w) x)) (-1)) as [E|E].
  - apply loose_enter; [exact L | exact NI|].
    intros t Ht Bt C.
    destruct (Tl t Ht Bt) as [_ [_ [_ Ct]]]. rewrite C in Ct. lia.
  - cbn [shm]. set (now := clock w (ticks w)).
    constructor.
    + rewrite unbound_heap. exact B.
    + rewrite unbound_heap. exact M.
    + intros c Hc N. rewrite unbound_heap, unbound_state. apply Q; [exact Hc|].
      intros Tc. apply N. left. exact Tc.
    + intros c [Tc| ->]; rewrite unbound_heap; [apply A; exact Tc | exact NI].
    + intros t Ht. rewrite unbound_current_user.
      destruct (Z.eqb_spec t (current_tool (customers (shm w) x))) as [Et|Et];
        [intros C; contradiction|].
      intros Bt. destruct (Tl t Ht Bt) as [R [N [U C]]].
      assert (Nx : current_user (tools (shm w) t) <> x).
      { intros X. rewrite X in C. apply Et. symmetry. exact C. }
      split; [exact R|]. split; [intros [Tc|X]; contradiction|].
      rewrite unbound_state, unbound_current_tool.
      destruct (Z.eqb_spec (current_user (tools (shm w) t)) x); [contradiction|].
      split; assumption.
Qed.

Lemma transit_absent_index T s x :
  loose_inv (with_transit T x) s -> ~ Heap.in_heap (heap s) x.
Proof. intros L. apply (li_absent _ _ L). right. reflexivity. Qed.

Lemma loose_enqueue T w x :
  loose_inv (with_transit T x) (shm w) -> ~ T x -> 0 <= x < MAX_CUSTOMERS ->
  loose_inv T (shm (exec (enqueue_waiting x) w)).
Proof.
  intros L NT Hx. pose proof (transit_absent_index _ _ _ L) as NI.
  destruct L as [B M Q A Tl].
  destruct (enqueue_waiting_exec w x B M Hx NI) as [h' [out [J E]]].
  rewrite E. cbn [shm]. destruct J as [B' M' In' K' Ks'].
  constructor; cbn [heap set_waiting_count set_heap]; try assumption.
  - intros c Hc N. rewrite In', enqueued_customers.
    destruct (Z.eqb_spec c x) as [->|Ne].
    + cbn. split; [reflexivity | intros _; right; reflexivity].
    + rewrite <- Q; [|exact Hc | intros [Tc|X]; contradiction].
      split; [intros [I|X]; [exact I | contradiction] | intros I; left; exact I].
  - intros c Tc I. apply In' in I. destruct I as [I| ->]; [|contradiction].
    apply (A c); [left; exact Tc | exact I].
  - intros t Ht. rewrite enqueued_tools. intros Bt.
    destruct (Tl t Ht Bt) as [R [N [U C]]].
    assert (Nx : current_user (tools (shm w) t) <> x).
    { intros X. apply N. right. exact X. }
    split; [exact R|]. split; [intros Tc; apply N; left; exact Tc|].
    rewrite enqueued_customers.
    destruct (Z.eqb_spec (current_user (tools (shm w) t)) x); [contradiction|].
    split; assumption.
Qed.

Lemma loose_bind T w x tool :
  loose_inv (with_transit T x) (shm w) -> ~ T x -> 0 <= x < MAX_CUSTOMERS ->
  loose_inv T (shm (exec (assign_tool_to_customer x tool) w)).
Proof.
  intros L NT Hx. pose proof (transit_absent_index _ _ _ L) as NI.
  destruct L as [B M Q A Tl].
  destruct (assign_tool_to_customer_spec w x tool B M Hx) as [h' [wc [E [W NW]]]].
  rewrite E. cbn [shm].
  assert (LQ : left_queue x (hp w) h').
  { destruct (CustomerState_eqb (state (customers (shm w) x)) CUSTOMER_STATE_WAITING) eqn:S.
    - apply CustomerState_eqb_eq in S. apply W. exact S.
    - destruct NW as [Eh _].
      + intros C. apply CustomerState_eqb_eq in C. congruence.
      + rewrite Eh. apply left_queue_absent; assumption. }
  destruct LQ as [B' M' K' In'].
  set (s1 := set_waiting_count wc (set_heap h' (shm w))).
  assert (H1 : heap s1 = h') by reflexivity.
  assert (C1 : customers s1 = customers (shm w)) by reflexivity.
  assert (T1 : tools s1 = tools (shm w)) by reflexivity.
  assert (N1 : num_tools s1 = num_tools (shm w)) by reflexivity.
  constructor; rewrite ?bound_heap, ?H1; try assumption.
  - intros c Hc N. rewrite bound_state, In', C1.
    destruct (Z.eqb_spec c x) as [->|Ne].
    + split; [intros [_ X]; contradiction | discriminate].
    + rewrite <- Q; [|exact Hc | intros [Tc|X]; contradiction].
      split; [intros [I _]; exact I | intros I; split; assumption].
  - intros c Tc I. apply In' in I. destruct I as [I _].
    apply (A c); [left; exact Tc | exact I].
  - intros t Ht. rewrite bound_current_user, bound_state, bound_current_tool, T1, C1.
    destruct (Z.eqb_spec t tool) as [->|Nt].
    + intros _. rewrite Z.eqb_refl. repeat split; try assumption; lia.
    + intros Bt. destruct (Tl t Ht Bt) as [R [N [U C]]].
      assert (Nx : current_user (tools (shm w) t) <> x).
      { intros X. apply N. right. exact X. }
      destruct (Z.eqb_spec (current_user (tools (shm w) t)) x); [contradiction|].
      split; [exact R|]. split; [intros Tc; apply N; left; exact Tc|]. split; assumption.
Qed.

Lemma loose_leave T w x :
  loose_inv T (shm w) -> 0 <= x < MAX_CUSTOMERS ->
  state (customers (shm w) x) = CUSTOMER_STATE_WAITING ->
  loose_inv (with_transit T x) (shm (exec (leave_queue x) w)).
Proof.
  intros L Hx W. destruct L as [B M Q A Tl].
  destruct (leave_queue_exec w x B M Hx) as [h' [[B' M' K' In'] E]].
  rewrite E. cbn [shm].
  constructor; cbn [heap set_waiting_count set_heap]; try assumption.
  - intros c Hc N. rewrite In'.
    change (customers (set_waiting_count (waiting_count (shm w) - 1) (set_heap h' (shm w))))
      with (customers (shm w)).
    rewrite <- Q; [|exact Hc | intros Tc; apply N; left; exact Tc].
    split; [intros [I _]; exact I|]. intros I. split; [exact I|].
    intros X. apply N. right. exact X.
  - intros c [Tc| ->] I; apply In' in I; destruct I as [I X].
    + apply (A c Tc I).
    + apply X. reflexivity.
  - intros t Ht Bt.
    change (tools (set_waiting_count (waiting_count (shm w) - 1) (set_heap h' (shm w))))
      with (tools (shm w)) in *.
    change (customers (set_waiting_count (waiting_count (shm w) - 1) (set_heap h' (shm w))))
      with (customers (shm w)).
    destruct (Tl t Ht Bt) as [R [N [U C]]].
    split; [exact R|]. split; [|split; assumption].
    intros [Tc|X]; [contradiction|]. rewrite X in U. congruence.
Qed.

Lemma loose_pop T w tool :
  loose_inv T (shm w) ->
  loose_inv T (shm (exec (assign_next_from_queue tool) w)).
Proof.
  intros L.
  destruct (Z.le_gt_cases (Heap.heap_size (hp w)) 0) as [Em|Ne].
  { rewrite assign_next_from_queue_empty by exact Em. exact L. }
  pose proof L as [B M Q A Tl].
  destruct (assign_next_from_queue_exec w tool B M ltac:(lia)) as [h' [R [_ E]]].
  rewrite E. set (m := Heap.HEAP_ARRAY (hp w) 0) in *.
  assert (Im : Heap.in_heap (hp w) m) by (exists 0; split; [lia | reflexivity]).
  assert (Hm : 0 <= m < MAX_CUSTOMERS).
  { rewrite max_customers_nodes. destruct B as [_ P _]. apply (P 0).
    unfold hp in Ne. lia. }
  assert (NTm : ~ T m) by (intros Tm; apply (A m Tm Im)).
  assert (Wm : state (customers (shm w) m) = CUSTOMER_STATE_WAITING).
  { apply Q; assumption. }
  destruct R as [B' M' S' K' In' X' O'].
  apply loose_bind; [|exact NTm | exact Hm].
  cbn [shm]. constructor; cbn [heap set_heap]; try assumption.
  - intros c Hc N. rewrite In'.
    change (customers (set_heap h' (shm w))) with (customers (shm w)).
    rewrite <- Q; [|exact Hc | intros Tc; apply N; left; exact Tc].
    split; [intros [I _]; exact I|]. intros I. split; [exact I|].
    intros X. apply N. right. exact X.
  - intros c [Tc| ->] I; apply In' in I; destruct I as [I X].
    + apply (A c Tc I).
    + apply X. reflexivity.
  - intros t Ht Bt.
    change (tools (set_heap h' (shm w))) with (tools (shm w)) in *.
    change (customers (set_heap h' (shm w))) with (customers (shm w)).
    destruct (Tl t Ht Bt) as [Rr [N [U C]]].
    split; [exact Rr|]. split; [|split; assumption].
    intros [Tc|X]; [contradiction|]. rewrite X in U. congruence.
Qed.

(** ** REST and the tool runner keep the invariants *)

Lemma sched_not_queued s x :
  sched_inv s -> 0 <= x < MAX_CUSTOMERS ->
  state (customers s x) <> CUSTOMER_STATE_WAITING -> ~ Heap.in_heap (heap s) x.
Proof. intros [_ _ Q _] Hx N I. apply N. apply Q; assumption. Qed.

Lemma loose_set_state T s x st :
  loose_inv (with_transit T x) s ->
  loose_inv (with_transit T x) (on_customer x (set_state st) s).
Proof.
  apply loose_frame; try reflexivity.
  - intros c N. unfold on_customer. cbn. unfold upd.
    destruct (Z.eqb_spec c x) as [->|Ne]; [|reflexivity].
    exfalso. apply N. right. reflexivity.
  - intros c N. unfold on_customer. cbn. unfold upd.
    destruct (Z.eqb_spec c x) as [->|Ne]; reflexivity.
Qed.

Lemma on_customer_state_eq x st s :
  state (customers (on_customer x (set_state st) s) x) = st.
Proof. unfold on_customer. cbn. rewrite upd_eq. reflexivity. Qed.

Lemma loose_settle T s x st :
  loose_inv (with_transit T x) s -> ~ T x -> st <> CUSTOMER_STATE_WAITING ->
  loose_inv T (on_customer x (set_state st) s).
Proof.
  intros L NT NW. apply (loose_release T _ x); [apply loose_set_state; exact L | exact NT|].
  rewrite on_customer_state_eq. exact NW.
Qed.

(** [handle_rest] and [sched_inv]. *)
Lemma handle_rest_sched_inv (w : World) (idx : Z) :
  sched_inv (shm w) -> 0 <= idx < MAX_CUSTOMERS ->
  sched_inv (shm (exec (handle_rest idx) w)).
Proof.
  intros I Hx. unfold handle_rest. rewrite exec_bind.
  cbn [get_shm fst]. change (exec get_shm w) with w.
  destruct (state (customers (shm w) idx)) eqn:S; try exact I.
  - (* Waiting *)
    rewrite !exec_bind, !exec_modify. cbn [shm].
    apply sched_loose.
    apply (loose_frame none_in_transit
             (on_customer idx (set_state CUSTOMER_STATE_RESTING)
                (shm (exec (leave_queue idx) w)))); try reflexivity.
    apply loose_settle; [|intros [] | discriminate].
    apply loose_leave; [apply sched_loose; exact I | exact Hx | exact S].
  - (* Using *)
    rewrite !exec_bind, !exec_modify. cbn [shm].
    apply sched_loose.
    set (w1 := exec (remove_customer_from_tool idx EVENT_TOOL_COMPLETED) w).
    assert (L1 : loose_inv (with_transit none_in_transit idx) (shm w1)).
    { apply loose_unbind; [apply sched_loose; exact I|].
      apply sched_not_queued; [exact I | exact Hx | rewrite S; discriminate]. }
    set (w2 := exec (when (negb (current_tool (customers (shm w) idx) =? -1))
                       (assign_next_from_queue (current_tool (customers (shm w) idx)))) w1).
    assert (L2 : loose_inv (with_transit none_in_transit idx) (shm w2)).
    { unfold w2. destruct (negb _); [apply loose_pop; exact L1 | exact L1]. }
    apply (loose_frame none_in_transit
             (on_customer idx (set_state CUSTOMER_STATE_RESTING) (shm w2))); try reflexivity.
    apply loose_settle; [exact L2 | intros [] | discriminate].
Qed.

(** X12. [handle_rest] keeps [sched_inv], whatever the state of the
    customer: afterwards the queue is well formed and ordered, a customer is
    queued iff it is Waiting, and every holder is Using and points back to
    its tool. *)
Theorem handle_rest_keeps_invariants (w : World) (idx : Z) :
  sched_inv (shm w) -> 0 <= idx < MAX_CUSTOMERS ->
  sched_inv (shm (exec (handle_rest idx) w)).
Proof. exact (handle_rest_sched_inv w idx). Qed.

Lemma handle_rest_keeps_invariants_witness :
  sched_inv (shm (exec (handle_rest 1023) w_using)).
Proof.
  apply (handle_rest_keeps_invariants w_using 1023).
  - apply sched_invb_sound. vm_compute. reflexivity.
  - unfold MAX_CUSTOMERS. lia.
Defined.

Lemma tool_process_tick_exec w t :
  let s := shm w in
  let user := current_user (tools s t) in
  let elapsed := to_int (clock w (ticks w) - tool_session_start (tools s t)) in
  exec (tool_process_tick t) w =
  if server_should_exit s then w
  else if user =? -1 then w
  else exec (tick_action t user elapsed) (ticked t w).
Proof.
  intros s user elapsed.
  unfold tool_process_tick. rewrite exec_bind. cbn [get_shm fst].
  change (exec get_shm w) with w. cbv beta zeta. fold s.
  destruct (server_should_exit s); [reflexivity|].
  rewrite exec_bind. rewrite exec_ret. fold user.
  destruct (Z.eqb_spec user (-1)); [reflexivity|].
  rewrite exec_bind. cbn [get_current_time_ms fst]. fold elapsed.
  rewrite !exec_bind. cbn [get_shm fst].
  unfold get_current_time_ms at 1 2 3. unfold exec at 3 4 5 6 7 8. cbn [snd].
  rewrite !exec_modify. cbn [shm stdout clock ticks modify snd exec].
  change (shm (exec get_current_time_ms w)) with (shm w).
  unfold tick_action. unfold bind at 1. unfold get_shm at 1.
  reflexivity.
Qed.

Lemma loose_preempt T w t H :
  loose_inv T (shm w) -> ~ T H -> 0 <= H < MAX_CUSTOMERS ->
  ~ Heap.in_heap (hp w) H ->
  loose_inv T (shm (exec (preempt_holder t H) w)).
Proof.
  intros L NT RH NI. rewrite preempt_holder_exec.
  apply loose_pop. apply loose_enqueue; [|exact NT | exact RH].
  apply loose_unbind; assumption.
Qed.

(** One iteration of [tool_process] and [sched_inv]. *)
Lemma tool_process_tick_sched_inv (w : World) (t : Z) :
  sched_inv (shm w) -> 0 <= t < num_tools (shm w) ->
  sched_inv (shm (exec (tool_process_tick t) w)).
Proof.
  intros I Rt. rewrite tool_process_tick_exec. cbv zeta.
  destruct (server_should_exit (shm w)); [exact I|].
  destruct (Z.eqb_spec (current_user (tools (shm w) t)) (-1)) as [Fr|Bd]; [exact I|].
  set (H := current_user (tools (shm w) t)) in *.
  set (elapsed := to_int _).
  destruct (si_tools _ I t Rt Bd) as [RH [UH CH]]. fold H in RH, UH, CH.
  assert (NI : ~ Heap.in_heap (heap (shm w)) H).
  { apply sched_not_queued; [exact I | exact RH | rewrite UH; discriminate]. }
  set (w1 := ticked t w).
  assert (L1 : loose_inv none_in_transit (shm w1)).
  { apply (loose_frame none_in_transit (shm w)); [reflexivity | reflexivity | | | |
      apply sched_loose; exact I].
    - intros u. unfold w1, ticked. cbn [shm]. unfold on_customer, on_tool. cbn. unfold upd.
      destruct (Z.eqb_spec u t) as [->|]; reflexivity.
    - intros c _. unfold w1, ticked. cbn [shm]. unfold on_customer, on_tool. cbn. unfold upd.
      fold H. destruct (Z.eqb_spec c H) as [->|]; reflexivity.
    - intros c _. unfold w1, ticked. cbn [shm]. unfold on_customer, on_tool. cbn. unfold upd.
      fold H. destruct (Z.eqb_spec c H) as [->|]; reflexivity. }
  assert (NI1 : ~ Heap.in_heap (hp w1) H) by exact NI.
  assert (P : loose_inv none_in_transit (shm (exec (preempt_holder t H) w1))).
  { apply loose_preempt; [exact L1 | intros [] | exact RH | exact NI1]. }
  apply sched_loose. unfold tick_action. rewrite exec_bind.
  cbn [get_shm fst]. change (exec get_shm w1) with w1.
  destruct (remaining_duration (customers (shm w1) H) <=? 0).
  - rewrite !exec_bind, !exec_modify. cbn [shm].
    set (w2 := exec (remove_customer_from_tool H EVENT_TOOL_COMPLETED) w1).
    assert (L2 : loose_inv (with_transit none_in_transit H) (shm w2)).
    { apply loose_unbind; assumption. }
    apply loose_pop. cbn [shm].
    apply (loose_frame none_in_transit
             (on_customer H (set_state CUSTOMER_STATE_RESTING) (shm w2))); try reflexivity.
    apply loose_settle; [exact L2 | intros [] | discriminate].
  - destruct (param_Q (shm w1) <=? elapsed).
    + destruct (0 <? Heap.heap_size (heap (shm w1))); [exact P | exact L1].
    + destruct ((param_q (shm w1) <=? elapsed) && (0 <? Heap.heap_size (heap (shm w1))));
        [|exact L1].
      cbv zeta.
      destruct ((0 <=? Heap.HEAP_ARRAY (heap (shm w1)) 0)
                && (Heap.HEAP_ARRAY (heap (shm w1)) 0 <? MAX_CUSTOMERS)); [|exact L1].
      cbn [when].
      destruct (Qltb _ _); [exact P | exact L1].
Qed.

(** X13. One iteration of [tool_process] keeps [sched_inv], in each of its
    branches: server exit, idle tool, completion, preemption at [Q],
    preemption at [q], and no action. *)
Theorem tool_process_tick_keeps_invariants (w : World) (t : Z) :
  sched_inv (shm w) -> 0 <= t < num_tools (shm w) ->
  sched_inv (shm (exec (tool_process_tick t) w)).
Proof. exact (tool_process_tick_sched_inv w t). Qed.

Lemma tool_process_tick_keeps_invariants_witness :
  sched_inv (shm (exec (tool_process_tick 0) w_starved)).
Proof.
  apply (tool_process_tick_keeps_invariants w_starved 0).
  - apply sched_invb_sound. vm_compute. reflexivity.
  - vm_compute. split; [discriminate | reflexivity].
Defined.

Lemma bound_total_usage x tool now s t :
  total_usage (tools (bound_shm x tool now s) t) = total_usage (tools s t).
Proof. unfold bound_shm. field_cases. Qed.

Lemma bound_remaining x tool now s c :
  remaining_duration (customers (bound_shm x tool now s) c)
  = remaining_duration (customers s c).
Proof. unfold bound_shm. field_cases. Qed.

Lemma unbound_other x ev now s c :
  c <> x -> customers (unbound_shm x ev now s) c = customers s c.
Proof.
  intros N. unfold unbound_shm, on_customer. cbn. unfold upd.
  destruct (Z.eqb_spec c x); [contradiction | reflexivity].
Qed.

Lemma unbound_total_usage x ev now s t :
  total_usage (tools (unbound_shm x ev now s) t) =
  if t =? current_tool (customers s x)
  then total_usage (tools s t) + to_int (now - session_start (customers s x))
  else total_usage (tools s t).
Proof. unfold unbound_shm. field_cases. Qed.

(** X14. A tick that finds the holder's request complete
    ([request_duration <= elapsed]): the holder [H] leaves the tool (the
    "leaves" line carries its updated share), is Resting with
    [remaining_duration = 0], and its usage is added to its share, to
    [total_share] and to the tool's [total_usage].  With an empty queue the
    tool is then free; otherwise it goes to the customer at the root of the
    queue, which has the least key, is Using and leaves the queue. *)
Theorem tool_tick_completion (w : World) (t : Z) :
  sched_inv (shm w) -> 0 <= t < num_tools (shm w) ->
  let s := shm w in
  let H := current_user (tools s t) in
  let elapsed := to_int (clock w (ticks w) - tool_session_start (tools s t)) in
  server_should_exit s = false -> H <> -1 ->
  request_duration (customers s H) <= elapsed ->
  let w' := exec (tool_process_tick t) w in
  let s' := shm w' in
  let usage := to_int (clock w (S (ticks w)) - session_start (customers s H)) in
  let left_line :=
    event_line EVENT_TOOL_COMPLETED (customer_id (customers s H))
      (double_to_int (share (customers s' H))) t in
  state (customers s' H) = CUSTOMER_STATE_RESTING /\
  current_tool (customers s' H) = -1 /\
  remaining_duration (customers s' H) = 0 /\
  share (customers s' H) = (share (customers s H) + inject_Z usage)%Q /\
  total_share s' = (total_share s + inject_Z usage)%Q /\
  total_usage (tools s' t) = total_usage (tools s t) + usage /\
  resting_customers s' = resting_customers s + 1 /\
  ~ Heap.in_heap (heap s') H /\
  (Heap.heap_size (heap s) <= 0 ->
     current_user (tools s' t) = -1 /\ heap s' = heap s /\
     stdout w' = stdout w ++ [left_line]) /\
  (0 < Heap.heap_size (heap s) ->
     let m := Heap.HEAP_ARRAY (heap s) 0 in
     current_user (tools s' t) = m /\
     (forall c, Heap.in_heap (heap s) c ->
        (Heap.key (Heap.GLB (heap s) m) <= Heap.key (Heap.GLB (heap s) c))%Q) /\
     state (customers s' m) = CUSTOMER_STATE_USING /\
     current_tool (customers s' m) = t /\
     (forall c, Heap.in_heap (heap s') c <-> Heap.in_heap (heap s) c /\ c <> m) /\
     stdout w' = stdout w ++
       [left_line;
        event_line EVENT_TOOL_ASSIGNED (customer_id (customers s m))
          (double_to_int (share (customers s m))) t]).
Proof.
  intros Inv Rt s H elapsed X Bd Done w' s' usage left_line.
  pose proof Inv as [B M Qu T].
  destruct (T t Rt Bd) as [RH [StH TH]]. fold s in RH, StH, TH. fold H in RH, StH, TH.
  assert (Nin : ~ Heap.in_heap (heap s) H).
  { intros C. apply Qu in C; [|exact RH]. fold s in C. congruence. }
  subst left_line s' w'. rewrite tool_process_tick_exec. cbv zeta. fold s. rewrite X.
  fold H. destruct (Z.eqb_spec H (-1)) as [|_]; [contradiction|]. fold elapsed.
  set (w1 := ticked t w).
  assert (C1 : forall c, customers (shm w1) c =
                 if c =? H
                 then set_remaining_duration
                        (if request_duration (customers s H) - elapsed <? 0 then 0
                         else request_duration (customers s H) - elapsed)
                        (customers s H)
                 else customers s c) by reflexivity.
  assert (T1 : forall u, tools (shm w1) u =
                 if u =? t then set_current_usage elapsed (tools s t) else tools s u)
    by reflexivity.
  assert (R1 : remaining_duration (customers (shm w1) H) = 0).
  { rewrite C1, Z.eqb_refl. cbn [remaining_duration set_remaining_duration].
    destruct (Z.ltb_spec (request_duration (customers s H) - elapsed) 0); lia. }
  unfold tick_action. rewrite exec_bind. cbn [get_shm fst].
  change (exec get_shm w1) with w1. rewrite R1. cbn [Z.leb Z.compare].
  rewrite !exec_bind, !exec_modify. cbn [shm stdout clock ticks].
  rewrite remove_customer_from_tool_exec.
  assert (TH1 : current_tool (customers (shm w1) H) = t)
    by (rewrite C1, Z.eqb_refl; exact TH).
  rewrite TH1. destruct (Z.eqb_spec t (-1)) as [|_]; [lia|].
  cbn [shm stdout clock ticks].
  change (clock w1) with (clock w). change (ticks w1) with (S (ticks w)).
  set (s2 := unbound_shm H EVENT_TOOL_COMPLETED (clock w (S (ticks w))) (shm w1)).
  set (s3 := set_resting_customers _
               (on_customer H (set_state CUSTOMER_STATE_RESTING) s2)).
  set (line := unbound_line H EVENT_TOOL_COMPLETED (clock w (S (ticks w))) (shm w1)).
  set (w3 := mkWorld s3 _ _ _).
  assert (C3 : forall c, customers s3 c =
                 if c =? H then set_state CUSTOMER_STATE_RESTING (customers s2 H)
                 else customers s2 c).
  { intros c. unfold s3, on_customer. cbn. reflexivity. }
  assert (Sh2 : share (customers s2 H) = (share (customers s H) + inject_Z usage)%Q).
  { unfold s2. rewrite unbound_share, Z.eqb_refl, !C1, Z.eqb_refl. reflexivity. }
  assert (Ln : line = event_line EVENT_TOOL_COMPLETED (customer_id (customers s H))
                        (double_to_int (share (customers s H) + inject_Z usage)%Q) t).
  { unfold line, unbound_line. rewrite !C1, Z.eqb_refl.
    cbn [customer_id share session_start current_tool set_remaining_duration unbind_event].
    rewrite TH. reflexivity. }
  assert (F3 : state (customers s3 H) = CUSTOMER_STATE_RESTING /\
               current_tool (customers s3 H) = -1 /\
               remaining_duration (customers s3 H) = 0 /\
               share (customers s3 H) = (share (customers s H) + inject_Z usage)%Q /\
               total_share s3 = (total_share s + inject_Z usage)%Q /\
               total_usage (tools s3 t) = total_usage (tools s t) + usage /\
               resting_customers s3 = resting_customers s + 1 /\
               current_user (tools s3 t) = -1 /\ heap s3 = heap s).
  { rewrite C3, Z.eqb_refl. cbn [state current_tool remaining_duration share set_state].
    split; [reflexivity|].
    split; [unfold s2; rewrite unbound_current_tool, Z.eqb_refl; reflexivity|].
    split.
    { unfold s2. rewrite unbound_customer.
      cbn [remaining_duration set_event_tool_id set_event_type set_event_pending
             set_current_tool set_share]. exact R1. }
    split; [exact Sh2|].
    split.
    { change (total_share s3) with
        (total_share (shm w1)
         + inject_Z (to_int (clock w (S (ticks w)) - session_start (customers (shm w1) H))))%Q.
      rewrite C1, Z.eqb_refl. reflexivity. }
    split.
    { change (tools s3) with (tools s2). unfold s2.
      rewrite unbound_total_usage, TH1, Z.eqb_refl, T1, Z.eqb_refl, C1, Z.eqb_refl.
      reflexivity. }
    split; [reflexivity|].
    split; [|reflexivity].
    change (tools s3) with (tools s2). unfold s2. rewrite unbound_current_user, TH1, Z.eqb_refl.
    reflexivity. }
  destruct F3 as [F1 [F2 [F3 [F4 [F5 [F6 [F7 [F8 F9]]]]]]]].
  destruct (Z.le_gt_cases (Heap.heap_size (heap s)) 0) as [Em|Ne].
  - rewrite assign_next_from_queue_empty by exact Em.
    change (shm w3) with s3. change (stdout w3) with (stdout w ++ [line]). rewrite F4.
    split; [exact F1|]. split; [exact F2|]. split; [exact F3|]. split; [reflexivity|].
    split; [exact F5|]. split; [exact F6|]. split; [exact F7|]. split; [exact Nin|].
    split; [|intros C; lia].
    intros _. split; [exact F8|]. split; [exact F9|]. rewrite Ln. reflexivity.
  - assert (B3 : Heap.backmap (hp w3)) by exact B.
    assert (M3 : Heap.min_heap (hp w3)) by exact M.
    assert (S3 : 0 < Heap.heap_size (hp w3)) by (change (0 < Heap.heap_size (heap s)); lia).
    destruct (assign_next_from_queue_exec w3 t B3 M3 S3) as [h5 [Rm [Min E5]]].
    rewrite E5. clear E5.
    assert (Eh : hp w3 = heap s) by exact F9. rewrite Eh in *.
    set (m := Heap.HEAP_ARRAY (heap s) 0) in *.
    assert (Sz : 0 <= 0 < Heap.heap_size (heap (shm w))) by (fold s; lia).
    destruct (Heap.bm_pos _ B 0 Sz) as [Rm0 _]. fold s in Rm0. fold m in Rm0.
    rewrite <- max_customers_nodes in Rm0.
    assert (InM : Heap.in_heap (heap s) m) by (exists 0; split; [lia | reflexivity]).
    assert (NmH : m <> H) by (intros C; rewrite C in InM; contradiction).
    assert (Wm : state (customers s m) = CUSTOMER_STATE_WAITING) by (apply Qu; assumption).
    set (w5 := mkWorld (set_heap h5 (shm w3)) _ _ _).
    assert (B5 : Heap.backmap (hp w5)) by exact (Heap.rm_backmap _ _ _ Rm).
    assert (M5 : Heap.min_heap (hp w5)) by exact (Heap.rm_min _ _ _ Rm).
    destruct (assign_tool_to_customer_spec w5 m t B5 M5 Rm0) as [h6 [wc [E6 [W6 N6]]]].
    rewrite E6. clear E6. cbn [shm stdout].
    change (hp w5) with h5 in *. change (customers (shm w5)) with (customers s3) in *.
    assert (Cm : customers s3 m = customers s m).
    { rewrite C3. destruct (Z.eqb_spec m H); [contradiction|].
      unfold s2. rewrite unbound_other by assumption. rewrite C1.
      destruct (Z.eqb_spec m H); [contradiction|]. reflexivity. }
    assert (L6 : forall c, Heap.in_heap h6 c <-> Heap.in_heap (heap s) c /\ c <> m).
    { intros c. rewrite Cm, Wm in W6. destruct (W6 eq_refl) as [L _].
      rewrite (lq_in _ _ _ L), (Heap.rm_in _ _ _ Rm). tauto. }
    rewrite ?bound_current_user, ?bound_share, ?bound_state, ?bound_current_tool, ?bound_heap.
    rewrite !Z.eqb_refl.
    destruct (Z.eqb_spec H m) as [C|_]; [congruence|].
    change (heap (set_waiting_count wc (set_heap h6 (shm w5)))) with h6.
    change (customers (set_waiting_count wc (set_heap h6 (shm w5)))) with (customers s3).
    change (total_share (bound_shm m t (clock w5 (ticks w5))
              (set_waiting_count wc (set_heap h6 (shm w5))))) with (total_share s3).
    change (resting_customers (bound_shm m t (clock w5 (ticks w5))
              (set_waiting_count wc (set_heap h6 (shm w5))))) with (resting_customers s3).
    rewrite F4.
    split; [exact F1|]. split; [exact F2|].
    split; [rewrite bound_remaining; exact F3|].
    split; [reflexivity|]. split; [exact F5|].
    split; [rewrite bound_total_usage; exact F6|].
    split; [exact F7|].
    split; [intros C; apply L6 in C; destruct C as [C _]; contradiction|].
    split; [intros C; lia|].
    intros _. split; [reflexivity|]. split; [exact Min|].
    split; [reflexivity|]. split; [reflexivity|]. split; [exact L6|].
    unfold w5, w3. cbn [stdout shm]. unfold bound_line.
    change (customers (set_heap h5 s3)) with (customers s3). rewrite Cm, Ln.
    rewrite <- app_assoc. reflexivity.
Qed.

Example serving_tick_log :
  stdout (exec (tool_process_tick 0) w_serving) =
    [event_line EVENT_TOOL_ASSIGNED 4242 0 0; event_line EVENT_TOOL_COMPLETED 4242 50 0].
Proof. vm_compute. reflexivity. Qed.

Lemma tool_tick_completion_witness :
  let w := w_serving in
  let t := 0 in
  let s := shm w in
  let H := current_user (tools s t) in
  let w' := exec (tool_process_tick t) w in
  let s' := shm w' in
  let usage := to_int (clock w (S (ticks w)) - session_start (customers s H)) in
  let left_line :=
    event_line EVENT_TOOL_COMPLETED (customer_id (customers s H))
      (double_to_int (share (customers s' H))) t in
  state (customers s' H) = CUSTOMER_STATE_RESTING /\
  current_tool (customers s' H) = -1 /\
  remaining_duration (customers s' H) = 0 /\
  share (customers s' H) = (share (customers s H) + inject_Z usage)%Q /\
  total_share s' = (total_share s + inject_Z usage)%Q /\
  total_usage (tools s' t) = total_usage (tools s t) + usage /\
  resting_customers s' = resting_customers s + 1 /\
  ~ Heap.in_heap (heap s') H /\
  (Heap.heap_size (heap s) <= 0 ->
     current_user (tools s' t) = -1 /\ heap s' = heap s /\
     stdout w' = stdout w ++ [left_line]) /\
  (0 < Heap.heap_size (heap s) ->
     let m := Heap.HEAP_ARRAY (heap s) 0 in
     current_user (tools s' t) = m /\
     (forall c, Heap.in_heap (heap s) c ->
        (Heap.key (Heap.GLB (heap s) m) <= Heap.key (Heap.GLB (heap s) c))%Q) /\
     state (customers s' m) = CUSTOMER_STATE_USING /\
     current_tool (customers s' m) = t /\
     (forall c, Heap.in_heap (heap s') c <-> Heap.in_heap (heap s) c /\ c <> m) /\
     stdout w' = stdout w ++
       [left_line;
        event_line EVENT_TOOL_ASSIGNED (customer_id (customers s m))
          (double_to_int (share (customers s m))) t]).
Proof.
  apply (tool_tick_completion w_serving 0).
  - apply sched_invb_sound. vm_compute. reflexivity.
  - vm_compute. split; [discriminate | reflexivity].
  - vm_compute. reflexivity.
  - vm_compute. discriminate.
  - vm_compute. discriminate.
Defined.

(** ** The customer table *)

(** A stack of [n] distinct values below [N] that misses a value below [N]
    is not full. *)
Lemma stack_room (f : Z -> Z) (n N x : Z) :
  0 <= n <= N ->
  (forall i, 0 <= i < n -> 0 <= f i < N) ->
  (forall i j, 0 <= i < n -> 0 <= j < n -> f i = f j -> i = j) ->
  0 <= x < N -> (forall i, 0 <= i < n -> f i <> x) -> n < N.
Proof.
  intros Hn R Inj Hx Miss.
  destruct (Z.lt_ge_cases n N) as [L|G]; [exact L | exfalso].
  assert (E : n = N) by lia.
  set (l := List.map f (range n)).
  assert (ND : NoDup l).
  { apply NoDup_map_NoDup_ForallPairs; [|apply range_NoDup].
    intros a b Ha Hb Eab. apply in_range in Ha, Hb. apply Inj; assumption. }
  assert (Inc : incl l (range N)).
  { intros m Hm. apply in_map_iff in Hm. destruct Hm as [p [Ep Hp]].
    apply in_range in Hp. apply in_range. subst m. apply R. exact Hp. }
  assert (Len : (List.length (range N) <= List.length l)%nat).
  { unfold l. rewrite length_map.
    pose proof (range_length n ltac:(lia)). pose proof (range_length N ltac:(lia)). lia. }
  pose proof (NoDup_length_incl ND Len Inc) as Inc'.
  assert (Hin : In x l) by (apply Inc', in_range; exact Hx).
  apply in_map_iff in Hin. destruct Hin as [p [Ep Hp]]. apply in_range in Hp.
  apply (Miss p Hp Ep).
Qed.

Lemma setup_customers w q Q k c :
  0 <= c < MAX_CUSTOMERS ->
  customers (shm (exec (setup_shared_memory q Q k) w)) c =
  mkCustomer (-1) false CUSTOMER_STATE_DELETED 0 0 0 (-1) 0 0 (-1) false EVENT_NONE 0.
Proof.
  intros Hc. unfold setup_shared_memory, exec, bind, get_current_time_ms, modify.
  cbn [snd fst shm customers].
  destruct (Z.leb_spec 0 c); [|lia]. destruct (Z.ltb_spec c MAX_CUSTOMERS); [|lia].
  reflexivity.
Qed.

Lemma setup_table_inv w q Q k :
  table_inv (shm (exec (setup_shared_memory q Q k) w)).
Proof.
  set (s := shm (exec (setup_shared_memory q Q k) w)).
  assert (Fs : forall i, 0 <= i < MAX_CUSTOMERS -> free_customer_slots s i = i).
  { intros c Hc. unfold s, setup_shared_memory, exec, bind, get_current_time_ms, modify.
    cbn [snd fst shm free_customer_slots].
    destruct (Z.leb_spec 0 c); [|lia]. destruct (Z.ltb_spec c MAX_CUSTOMERS); [|lia].
    reflexivity. }
  assert (Fc : free_customer_count s = MAX_CUSTOMERS) by reflexivity.
  constructor.
  - rewrite Fc. unfold MAX_CUSTOMERS. lia.
  - intros i Hi. rewrite Fc in Hi. rewrite Fs by exact Hi.
    unfold s. rewrite setup_customers by exact Hi. repeat split; lia.
  - intros i j Hi Hj. rewrite Fc in Hi, Hj. rewrite !Fs by assumption. trivial.
  - reflexivity.
Qed.

(** The state that [setup_shared_memory] leaves. *)
Lemma setup_shared_memory_spec (w : World) (q Q k : Z) :
  0 < k <= MAX_TOOLS ->
  let s := shm (exec (setup_shared_memory q Q k) w) in
  sched_inv s /\ table_inv s /\
  num_tools s = k /\ param_q s = q /\ param_Q s = Q /\
  total_customers s = 0 /\ resting_customers s = 0 /\ waiting_count s = 0 /\
  total_share s = 0%Q /\ Heap.heap_size (heap s) = 0 /\
  (forall t, 0 <= t < k ->
     current_user (tools s t) = -1 /\ tool_id (tools s t) = t /\
     total_usage (tools s t) = 0).
Proof.
  intros Hk s.
  assert (Cs : forall c, 0 <= c < MAX_CUSTOMERS ->
            customers s c = mkCustomer (-1) false CUSTOMER_STATE_DELETED 0 0 0 (-1) 0 0 (-1)
                              false EVENT_NONE 0)
    by (intros c Hc; apply setup_customers; exact Hc).
  assert (Ts : forall t, 0 <= t < k -> tools s t = mkToolInfo t 0 (-1) 0 0 0).
  { intros t Ht. unfold s, setup_shared_memory, exec, bind, get_current_time_ms, modify.
    cbn [snd fst shm tools].
    destruct (Z.leb_spec 0 t); [|lia]. destruct (Z.ltb_spec t k); [|lia].
    reflexivity. }
  assert (Gs : forall n, 0 <= n < MAX_CUSTOMERS ->
            Heap.GLB (heap s) n = Heap.mkNode 0 Heap.NIL).
  { intros c Hc. unfold s, setup_shared_memory, exec, bind, get_current_time_ms, modify.
    cbn [snd fst shm heap Heap.GLB].
    destruct (Z.leb_spec 0 c); [|lia]. destruct (Z.ltb_spec c MAX_CUSTOMERS); [|lia].
    reflexivity. }
  assert (Hs : Heap.heap_size (heap s) = 0) by reflexivity.
  assert (Nt : num_tools s = k) by reflexivity.
  split.
  { constructor.
    - constructor.
      + rewrite Hs. unfold Heap.MAX_NODES. lia.
      + intros p Hp. rewrite Hs in Hp. lia.
      + intros n Hn C. rewrite <- max_customers_nodes in Hn. rewrite Gs in C by exact Hn.
        exfalso. apply C. reflexivity.
    - intros p Hp. rewrite Hs in Hp. lia.
    - intros c Hc. rewrite Cs by exact Hc. cbn [state]. split; [|discriminate].
      intros [p [Hp _]]. rewrite Hs in Hp. lia.
    - intros t Ht. rewrite Nt in Ht. rewrite Ts by exact Ht. cbn [current_user].
      intros C. exfalso. apply C. reflexivity. }
  split; [apply setup_table_inv|].
  repeat (split; [reflexivity|]).
  intros t Ht. rewrite Ts by exact Ht. repeat split.
Qed.

(** X15. [setup_shared_memory], for the [k] that [main] accepts, leaves a
    state in which [sched_inv] and [table_inv] hold: the queue is empty, all
    the [MAX_CUSTOMERS] slots are free, the counters are 0, and each of the
    [k] tools is free with [tool_id] equal to its index. *)
Theorem setup_establishes_invariants (w : World) (q Q k : Z) :
  0 < k <= MAX_TOOLS ->
  let s := shm (exec (setup_shared_memory q Q k) w) in
  sched_inv s /\ table_inv s /\
  num_tools s = k /\ param_q s = q /\ param_Q s = Q /\
  total_customers s = 0 /\ resting_customers s = 0 /\ waiting_count s = 0 /\
  total_share s = 0%Q /\ Heap.heap_size (heap s) = 0 /\
  (forall t, 0 <= t < k ->
     current_user (tools s t) = -1 /\ tool_id (tools s t) = t /\
     total_usage (tools s t) = 0).
Proof. exact (setup_shared_memory_spec w q Q k). Qed.

Lemma setup_establishes_invariants_witness :
  let s := shm (exec (setup_shared_memory 100 500 1) (boot clock10)) in
  sched_inv s /\ table_inv s /\
  num_tools s = 1 /\ param_q s = 100 /\ param_Q s = 500 /\
  total_customers s = 0 /\ resting_customers s = 0 /\ waiting_count s = 0 /\
  total_share s = 0%Q /\ Heap.heap_size (heap s) = 0 /\
  (forall t, 0 <= t < 1 ->
     current_user (tools s t) = -1 /\ tool_id (tools s t) = t /\
     total_usage (tools s t) = 0).
Proof.
  apply (setup_establishes_invariants (boot clock10) 100 500 1).
  unfold MAX_TOOLS. lia.
Defined.

Lemma allocate_customer_full w id :
  free_customer_count (shm w) <= 0 -> allocate_customer id w = (-1, w).
Proof.
  intros F. unfold allocate_customer, bind, get_shm, ret.
  destruct (Z.leb_spec (free_customer_count (shm w)) 0); [reflexivity | lia].
Qed.

Lemma allocate_customer_table_inv w id :
  table_inv (shm w) -> table_inv (shm (exec (allocate_customer id) w)).
Proof.
  intros Tb.
  destruct (Z.le_gt_cases (free_customer_count (shm w)) 0) as [Full|Free].
  { unfold exec. rewrite allocate_customer_full by exact Full. exact Tb. }
  pose proof (allocate_customer_exec w id ltac:(lia)) as E. cbv zeta in E.
  unfold exec. rewrite E. cbn [fst snd shm]. clear E.
  set (s := shm w) in *.
  set (count := free_customer_count s - 1).
  set (idx := free_customer_slots s count).
  set (new_share := if 0 <? total_customers s then _ else _).
  set (c' := mkCustomer id true CUSTOMER_STATE_RESTING new_share 0 0 (-1) 0 0 idx
               false EVENT_NONE (event_tool_id (customers s idx))).
  set (s' := set_total_share _ _).
  destruct Tb as [Tc Ts Td Tt].
  assert (Cs : forall c, customers s' c = if c =? idx then c' else customers s c)
    by reflexivity.
  constructor.
  - change (free_customer_count s') with count. unfold count. lia.
  - change (free_customer_count s') with count.
    change (free_customer_slots s') with (free_customer_slots s).
    intros i Hi. destruct (Ts i ltac:(unfold count in Hi; lia)) as [R [A D]].
    split; [exact R|]. rewrite Cs.
    destruct (Z.eqb_spec (free_customer_slots s i) idx) as [C|_]; [|split; assumption].
    exfalso. unfold idx in C. apply Td in C; unfold count in *; lia.
  - change (free_customer_count s') with count.
    change (free_customer_slots s') with (free_customer_slots s).
    intros i j Hi Hj. apply Td; unfold count in *; lia.
  - change (free_customer_count s') with count.
    change (total_customers s') with (total_customers s + 1). unfold count. lia.
Qed.

(** [allocate_customer] in a state where the invariants hold. *)
Lemma allocate_customer_spec (w : World) (id : Z) :
  sched_inv (shm w) -> table_inv (shm w) ->
  let idx := fst (allocate_customer id w) in
  let s' := shm (exec (allocate_customer id) w) in
  (free_customer_count (shm w) <= 0 -> idx = -1 /\ exec (allocate_customer id) w = w) /\
  (0 < free_customer_count (shm w) ->
     0 <= idx < MAX_CUSTOMERS /\
     is_allocated (customers (shm w) idx) = false /\
     is_allocated (customers s' idx) = true /\
     customer_id (customers s' idx) = id /\
     state (customers s' idx) = CUSTOMER_STATE_RESTING /\
     current_tool (customers s' idx) = -1 /\
     event_pending (customers s' idx) = false /\
     ~ Heap.in_heap (heap s') idx /\
     (forall c, c <> idx -> customers s' c = customers (shm w) c) /\
     resting_customers s' = resting_customers (shm w) + 1 /\
     free_customer_count s' = free_customer_count (shm w) - 1) /\
  sched_inv s' /\ table_inv s'.
Proof.
  intros I Tb idx s'.
  pose proof (allocate_customer_table_inv w id Tb) as Tb'.
  destruct (Z.le_gt_cases (free_customer_count (shm w)) 0) as [Full|Free].
  - pose proof (allocate_customer_full w id Full) as E.
    unfold idx, s', exec. rewrite E. cbn [fst snd].
    split; [intros _; split; reflexivity|]. split; [intros C; lia|]. split; assumption.
  - pose proof (allocate_customer_exec w id ltac:(lia)) as E. cbv zeta in E.
    unfold idx, s', exec in *. rewrite E in *. cbn [fst snd shm] in *. clear E idx s'.
    set (s := shm w) in *.
    set (count := free_customer_count s - 1).
    set (idx := free_customer_slots s count).
    set (new_share := if 0 <? total_customers s then _ else _).
    set (c' := mkCustomer id true CUSTOMER_STATE_RESTING new_share 0 0 (-1) 0 0 idx
                 false EVENT_NONE (event_tool_id (customers s idx))).
    set (s' := set_total_share _ _).
    destruct Tb as [Tc Ts Td Tt].
    destruct (Ts count ltac:(unfold count; lia)) as [Ri [Ai Di]]. fold idx in Ri, Ai, Di.
    assert (Cs : forall c, customers s' c = if c =? idx then c' else customers s c)
      by reflexivity.
    assert (NI : ~ Heap.in_heap (heap s) idx).
    { apply sched_not_queued; [exact I | exact Ri | rewrite Di; discriminate]. }
    split; [intros C; lia|].
    split.
    { intros _. split; [exact Ri|]. split; [exact Ai|].
      rewrite (Cs idx), Z.eqb_refl. cbn [is_allocated customer_id state current_tool event_pending c'].
      repeat (split; [reflexivity|]). split; [exact NI|].
      split; [|split; reflexivity].
      intros c Nc. rewrite Cs. destruct (Z.eqb_spec c idx); [contradiction | reflexivity]. }
    split.
    { apply sched_loose.
      apply (loose_release none_in_transit s' idx); [|intros [] |].
      - apply (loose_frame (with_transit none_in_transit idx) s); try reflexivity.
        + intros c N. rewrite Cs. destruct (Z.eqb_spec c idx) as [->|]; [|reflexivity].
          exfalso. apply N. right. reflexivity.
        + intros c N. rewrite Cs. destruct (Z.eqb_spec c idx) as [->|]; [|reflexivity].
          exfalso. apply N. right. reflexivity.
        + apply loose_enter; [apply sched_loose; exact I | exact NI|].
          intros t Ht Bt C. destruct (si_tools _ I t Ht Bt) as [_ [U _]].
          fold s in U. rewrite C, Di in U. discriminate.
      - rewrite Cs, Z.eqb_refl. discriminate. }
    exact Tb'.
Qed.

(** X16. [allocate_customer] with no free slot returns -1 and changes
    nothing.  Otherwise it pops the free stack: the slot returned is the
    entry on top, [free_customer_slots[free_customer_count - 1]], the
    entries of the stack are left as they are and the count goes down by
    one.  That slot was unallocated; it is now allocated, Resting, with the
    given id, no tool and no pending event, and is not queued; no other
    customer is touched.  [sched_inv] and [table_inv] hold afterwards. *)
Theorem allocate_customer_keeps_invariants (w : World) (id : Z) :
  sched_inv (shm w) -> table_inv (shm w) ->
  let idx := fst (allocate_customer id w) in
  let s' := shm (exec (allocate_customer id) w) in
  (free_customer_count (shm w) <= 0 -> idx = -1 /\ exec (allocate_customer id) w = w) /\
  (0 < free_customer_count (shm w) ->
     idx = free_customer_slots (shm w) (free_customer_count (shm w) - 1) /\
     free_customer_slots s' = free_customer_slots (shm w) /\
     free_customer_count s' = free_customer_count (shm w) - 1 /\
     0 <= idx < MAX_CUSTOMERS /\
     is_allocated (customers (shm w) idx) = false /\
     is_allocated (customers s' idx) = true /\
     customer_id (customers s' idx) = id /\
     state (customers s' idx) = CUSTOMER_STATE_RESTING /\
     current_tool (customers s' idx) = -1 /\
     event_pending (customers s' idx) = false /\
     ~ Heap.in_heap (heap s') idx /\
     (forall c, c <> idx -> customers s' c = customers (shm w) c) /\
     resting_customers s' = resting_customers (shm w) + 1) /\
  sched_inv s' /\ table_inv s'.
Proof.
  intros I Tb idx s'.
  destruct (allocate_customer_spec w id I Tb) as [F [P R]].
  split; [exact F|]. split; [|exact R].
  intros Free. destruct (P Free) as [P1 [P2 [P3 [P4 [P5 [P6 [P7 [P8 [P9 [P10 P11]]]]]]]]]].
  pose proof (allocate_customer_exec w id Free) as E. cbv zeta in E.
  split; [unfold idx; rewrite E; reflexivity|].
  split; [unfold s', exec; rewrite E; reflexivity|].
  split; [exact P11|].
  repeat (split; [assumption|]). exact P10.
Qed.

Lemma loose_free_tool T s x :
  loose_inv T s -> ~ Heap.in_heap (heap s) x ->
  loose_inv (with_transit T x)
    (on_tool (current_tool (customers s x))
       (fun t => set_current_usage 0 (set_current_user (-1) t)) s).
Proof.
  intros [B M Q A Tl] NI.
  set (ct := current_tool (customers s x)).
  assert (Ut : forall t, current_user (tools (on_tool ct
                (fun t => set_current_usage 0 (set_current_user (-1) t)) s) t) =
               if t =? ct then -1 else current_user (tools s t)).
  { intros t. unfold on_tool. cbn. unfold upd. destruct (t =? ct); reflexivity. }
  constructor; try assumption.
  - intros c Hc N. apply Q; [exact Hc|]. intros Tc. apply N. left. exact Tc.
  - intros c [Tc| ->]; [apply A; exact Tc | exact NI].
  - intros t Ht. rewrite Ut. destruct (Z.eqb_spec t ct) as [E|Ne]; [intros C; contradiction|].
    intros Bt. destruct (Tl t Ht Bt) as [R [N [U C]]].
    split; [exact R|]. split; [|split; assumption].
    intros [Tc|X]; [contradiction|]. apply Ne. rewrite <- C, X. reflexivity.
Qed.

Lemma loose_holds_nothing T s x :
  loose_inv T s -> ~ Heap.in_heap (heap s) x ->
  ~ (0 <= current_tool (customers s x) < num_tools s) ->
  loose_inv (with_transit T x) s.
Proof.
  intros L NI Out. apply loose_enter; [exact L | exact NI|].
  intros t Ht Bt C. destruct (li_tools _ _ L t Ht Bt) as [_ [_ [_ Ct]]].
  rewrite C in Ct. apply Out. rewrite Ct. exact Ht.
Qed.

(** [deallocate_customer] for an allocated customer. *)
Lemma deallocate_customer_spec (w : World) (idx : Z) :
  sched_inv (shm w) -> table_inv (shm w) ->
  0 <= idx < MAX_CUSTOMERS -> is_allocated (customers (shm w) idx) = true ->
  let s' := shm (exec (deallocate_customer idx) w) in
  sched_inv s' /\ table_inv s' /\
  ~ Heap.in_heap (heap s') idx /\
  (forall t, 0 <= t < num_tools s' -> current_user (tools s' t) <> idx) /\
  (forall c, c <> idx -> customers s' c = customers (shm w) c) /\
  free_customer_count (shm w) < MAX_CUSTOMERS /\
  free_customer_count s' = free_customer_count (shm w) + 1 /\
  (forall i, free_customer_slots s' i =
     if i =? free_customer_count (shm w) then idx else free_customer_slots (shm w) i) /\
  total_customers s' = total_customers (shm w) - 1 /\
  is_allocated (customers s' idx) = false /\
  state (customers s' idx) = CUSTOMER_STATE_DELETED.
Proof.
  intros I Tb Hx Al s'. subst s'. unfold deallocate_customer.
  rewrite exec_bind. cbn [get_shm fst]. change (exec get_shm w) with w.
  cbv beta zeta. rewrite Al. cbn [negb].
  set (s := shm w) in *.
  rewrite !exec_bind, !exec_modify.
  set (w1 := exec (match state (customers s idx) with
                   | CUSTOMER_STATE_RESTING => _
                   | CUSTOMER_STATE_WAITING => _
                   | CUSTOMER_STATE_USING => _
                   | CUSTOMER_STATE_DELETED => _
                   end) w).
  assert (Fr : customers (shm w1) = customers s /\
               total_customers (shm w1) = total_customers s /\
               free_customer_count (shm w1) = free_customer_count s /\
               free_customer_slots (shm w1) = free_customer_slots s /\
               num_tools (shm w1) = num_tools s).
  { unfold w1. destruct (state (customers s idx)).
    - rewrite exec_modify. repeat split.
    - destruct (leave_queue_frame w idx) as [h' [out E]]. rewrite E. repeat split.
    - unfold when. destruct (_ && _); [rewrite exec_modify|rewrite exec_ret]; repeat split.
    - rewrite exec_ret. repeat split. }
  destruct Fr as [Fc [Ft [Fn [Fl Fk]]]].
  assert (L1 : loose_inv (with_transit none_in_transit idx) (shm w1)).
  { unfold w1. unfold s in *. destruct (state (customers (shm w) idx)) eqn:S.
    - rewrite exec_modify. cbn [shm].
      apply (loose_frame _ (shm w)); try reflexivity.
      apply loose_enter; [apply sched_loose; exact I | |].
      + apply sched_not_queued; [exact I | exact Hx | rewrite S; discriminate].
      + intros t Ht Bt C. destruct (si_tools _ I t Ht Bt) as [_ [U _]].
        rewrite C, S in U. discriminate.
    - apply loose_leave; [apply sched_loose; exact I | exact Hx | exact S].
    - assert (NI : ~ Heap.in_heap (heap (shm w)) idx).
      { apply sched_not_queued; [exact I | exact Hx | rewrite S; discriminate]. }
      unfold when.
      destruct ((0 <=? current_tool (customers (shm w) idx))
                && (current_tool (customers (shm w) idx) <? num_tools (shm w))) eqn:G.
      + rewrite exec_modify. cbn [shm].
        apply loose_free_tool; [apply sched_loose; exact I | exact NI].
      + rewrite exec_ret. apply loose_holds_nothing; [apply sched_loose; exact I | exact NI|].
        intros [G1 G2]. apply andb_false_iff in G. destruct G as [G|G].
        * apply Z.leb_gt in G. lia.
        * apply Z.ltb_ge in G. lia.
    - rewrite exec_ret.
      apply loose_enter; [apply sched_loose; exact I | |].
      + apply sched_not_queued; [exact I | exact Hx | rewrite S; discriminate].
      + intros t Ht Bt C. destruct (si_tools _ I t Ht Bt) as [_ [U _]].
        rewrite C, S in U. discriminate. }
  cbn [shm].
  set (s2 := set_total_share _ (set_total_customers _ (shm w1))).
  set (s3 := on_customer idx _ s2).
  set (s4 := set_free_customer_count _ _).
  assert (C4 : forall c, customers s4 c =
                 if c =? idx
                 then set_current_tool (-1)
                        (set_customer_id (-1)
                           (set_state CUSTOMER_STATE_DELETED
                              (set_is_allocated false (customers s idx))))
                 else customers s c).
  { intros c. unfold s4, s3, on_customer. cbn. unfold upd. rewrite Fc.
    destruct (c =? idx); reflexivity. }
  assert (L4 : loose_inv none_in_transit s4).
  { apply (loose_release none_in_transit s4 idx); [|intros [] |].
    - apply (loose_frame (with_transit none_in_transit idx) (shm w1)); try reflexivity;
        [| |exact L1].
      + intros c N. rewrite C4, Fc. destruct (Z.eqb_spec c idx) as [->|]; [|reflexivity].
        exfalso. apply N. right. reflexivity.
      + intros c N. rewrite C4, Fc. destruct (Z.eqb_spec c idx) as [->|]; [|reflexivity].
        exfalso. apply N. right. reflexivity.
    - rewrite C4, Z.eqb_refl. discriminate. }
  split; [apply sched_loose; exact L4|].
  destruct Tb as [Tc Ts Td Tt]. fold s in Tc, Ts, Td, Tt.
  assert (Miss : forall i, 0 <= i < free_customer_count s -> free_customer_slots s i <> idx).
  { intros i Hi C. destruct (Ts i Hi) as [_ [A _]]. rewrite C in A. congruence. }
  assert (Room : free_customer_count s < MAX_CUSTOMERS).
  { apply (stack_room (free_customer_slots s) _ _ idx); try assumption.
    intros i Hi. apply Ts. exact Hi. }
  assert (N4 : free_customer_count s4 = free_customer_count s + 1).
  { unfold s4, s3, s2. cbn. rewrite Fn. reflexivity. }
  assert (F4 : forall i, free_customer_slots s4 i =
                 if i =? free_customer_count s then idx else free_customer_slots s i).
  { intros i. unfold s4, s3, s2. cbn. unfold upd. rewrite Fn, Fl. reflexivity. }
  split.
  { constructor.
    - rewrite N4. lia.
    - intros i Hi. rewrite N4 in Hi. rewrite F4.
      destruct (Z.eqb_spec i (free_customer_count s)) as [E|Ne].
      + split; [exact Hx|]. rewrite C4, Z.eqb_refl. split; reflexivity.
      + destruct (Ts i ltac:(lia)) as [R [A D]]. split; [exact R|].
        rewrite C4. destruct (Z.eqb_spec (free_customer_slots s i) idx) as [C|_].
        * exfalso. apply (Miss i); [lia | exact C].
        * split; assumption.
    - intros i j Hi Hj. rewrite N4 in Hi, Hj. rewrite !F4.
      destruct (Z.eqb_spec i (free_customer_count s)) as [Ei|Ni];
        destruct (Z.eqb_spec j (free_customer_count s)) as [Ej|Nj].
      + lia.
      + intros C. exfalso. apply (Miss j); [lia | symmetry; exact C].
      + intros C. exfalso. apply (Miss i); [lia | exact C].
      + apply Td; lia.
    - rewrite N4. change (total_customers s4) with (total_customers (shm w1) - 1).
      rewrite Ft. lia. }
  split; [apply (li_absent _ _ L1); right; reflexivity|].
  split.
  { intros t Ht C.
    destruct (Z.eq_dec (current_user (tools s4 t)) (-1)) as [E|E]; [lia|].
    destruct (li_tools _ _ L4 t Ht E) as [_ [_ [U _]]].
    rewrite C, C4, Z.eqb_refl in U. discriminate. }
  split.
  { intros c Nc. rewrite C4. destruct (Z.eqb_spec c idx); [contradiction | reflexivity]. }
  split; [exact Room|]. split; [exact N4|]. split; [exact F4|].
  split.
  { change (total_customers s4) with (total_customers (shm w1) - 1).
    rewrite Ft. reflexivity. }
  rewrite C4, Z.eqb_refl. split; reflexivity.
Qed.

(** X17. [deallocate_customer] of an allocated customer keeps [sched_inv]
    and [table_inv]: the customer is taken out of the queue or off its tool
    and no other customer is touched.  Its slot is pushed on the free
    stack: the stack was not full, the slot is stored at the position
    [free_customer_count], the entries below are left as they are and the
    count goes up by one; [total_customers] goes down by one and the slot is
    unallocated and Deleted. *)
Theorem deallocate_customer_keeps_invariants (w : World) (idx : Z) :
  sched_inv (shm w) -> table_inv (shm w) ->
  0 <= idx < MAX_CUSTOMERS -> is_allocated (customers (shm w) idx) = true ->
  let s' := shm (exec (deallocate_customer idx) w) in
  sched_inv s' /\ table_inv s' /\
  ~ Heap.in_heap (heap s') idx /\
  (forall t, 0 <= t < num_tools s' -> current_user (tools s' t) <> idx) /\
  (forall c, c <> idx -> customers s' c = customers (shm w) c) /\
  free_customer_count (shm w) < MAX_CUSTOMERS /\
  free_customer_count s' = free_customer_count (shm w) + 1 /\
  (forall i, free_customer_slots s' i =
     if i =? free_customer_count (shm w) then idx else free_customer_slots (shm w) i) /\
  total_customers s' = total_customers (shm w) - 1 /\
  is_allocated (customers s' idx) = false /\
  state (customers s' idx) = CUSTOMER_STATE_DELETED.
Proof. exact (deallocate_customer_spec w idx). Qed.

(** ** Disconnection, continued *)

Lemma deallocate_customer_unallocated w idx :
  is_allocated (customers (shm w) idx) = false -> exec (deallocate_customer idx) w = w.
Proof.
  intros A. unfold deallocate_customer, exec, bind, get_shm. cbn [fst snd].
  rewrite A. reflexivity.
Qed.

Lemma agent_disconnect_exec w idx :
  let c := customers (shm w) idx in
  let w1 := exec (when (CustomerState_eqb (state c) CUSTOMER_STATE_USING
                        && negb (current_tool c =? -1))
                       (remove_customer_from_tool idx EVENT_TOOL_COMPLETED ;;
                        assign_next_from_queue (current_tool c))) w in
  exec (agent_disconnect idx) w =
  mkWorld (on_customer idx (set_is_allocated false) (shm w1))
    (stdout w1) (clock w1) (ticks w1).
Proof.
  intros c w1.
  assert (R : exec (agent_release idx) w =
              mkWorld (on_customer idx (set_is_allocated false) (shm w1))
                (stdout w1) (clock w1) (ticks w1)).
  { unfold agent_release. rewrite exec_bind. cbn [get_shm fst].
    change (exec get_shm w) with w. fold c.
    rewrite !exec_bind, exec_modify. fold w1. reflexivity. }
  unfold agent_disconnect. rewrite exec_bind, R.
  apply deallocate_customer_unallocated. cbn [shm]. unfold on_customer. cbn.
  rewrite upd_eq. reflexivity.
Qed.

Lemma bound_other x tool now s c :
  c <> x -> customers (bound_shm x tool now s) c = customers s c.
Proof.
  intros N. unfold bound_shm, on_customer, on_tool. cbn. unfold upd.
  destruct (Z.eqb_spec c x); [contradiction | reflexivity].
Qed.

Lemma assign_next_frame w tool :
  Heap.backmap (hp w) -> Heap.min_heap (hp w) ->
  let w' := exec (assign_next_from_queue tool) w in
  table_kept (shm w) (shm w') /\
  (forall c, ~ Heap.in_heap (hp w) c -> customers (shm w') c = customers (shm w) c).
Proof.
  intros B M w'. subst w'.
  destruct (Z.le_gt_cases (Heap.heap_size (hp w)) 0) as [Em|Ne].
  { rewrite assign_next_from_queue_empty by exact Em.
    split; [constructor; reflexivity | reflexivity]. }
  destruct (assign_next_from_queue_exec w tool B M ltac:(lia)) as [h5 [Rm [_ E5]]].
  rewrite E5. clear E5. set (m := Heap.HEAP_ARRAY (hp w) 0) in *.
  assert (Sz : 0 <= 0 < Heap.heap_size (hp w)) by lia.
  destruct (Heap.bm_pos _ B 0 Sz) as [Rm0 _]. fold m in Rm0.
  rewrite <- max_customers_nodes in Rm0.
  set (w5 := mkWorld (set_heap h5 (shm w)) _ _ _).
  assert (B5 : Heap.backmap (hp w5)) by exact (Heap.rm_backmap _ _ _ Rm).
  assert (M5 : Heap.min_heap (hp w5)) by exact (Heap.rm_min _ _ _ Rm).
  destruct (assign_tool_to_customer_spec w5 m tool B5 M5 Rm0) as [h6 [wc [E6 _]]].
  rewrite E6. clear E6. cbn [shm].
  split; [constructor; reflexivity|].
  intros c NI. rewrite bound_other; [reflexivity|].
  intros ->. apply NI. exists 0. split; [exact Sz | reflexivity].
Qed.

(** The two critical sections that end [agent_process]. *)
Lemma agent_disconnect_spec (w : World) (idx : Z) :
  sched_inv (shm w) -> 0 <= idx < MAX_CUSTOMERS ->
  let s := shm w in
  let w' := exec (agent_disconnect idx) w in
  let s' := shm w' in
  sched_inv s' /\
  is_allocated (customers s' idx) = false /\
  state (customers s' idx) = state (customers s idx) /\
  total_customers s' = total_customers s /\
  free_customer_count s' = free_customer_count s /\
  free_customer_slots s' = free_customer_slots s /\
  (Heap.in_heap (heap s') idx <-> Heap.in_heap (heap s) idx) /\
  (state (customers s idx) <> CUSTOMER_STATE_USING ->
     w' = mkWorld (on_customer idx (set_is_allocated false) s)
            (stdout w) (clock w) (ticks w)) /\
  (state (customers s idx) = CUSTOMER_STATE_USING ->
     current_tool (customers s idx) <> -1 ->
     current_tool (customers s' idx) = -1 /\
     share (customers s' idx) =
       (share (customers s idx)
        + inject_Z (to_int (clock w (ticks w) - session_start (customers s idx))))%Q /\
     forall t, 0 <= t < num_tools s' -> current_user (tools s' t) <> idx).
Proof.
  intros I Hx s w' s'. subst s' w'. rewrite agent_disconnect_exec. cbv zeta. cbn [shm].
  fold s. set (c := customers s idx).
  set (b := CustomerState_eqb (state c) CUSTOMER_STATE_USING && negb (current_tool c =? -1)).
  set (w1 := exec (when b _) w).
  assert (A1 : forall k, customers (on_customer idx (set_is_allocated false) (shm w1)) k =
                 if k =? idx then set_is_allocated false (customers (shm w1) idx)
                 else customers (shm w1) k) by reflexivity.
  destruct b eqn:Eb.
  - (* Using with a tool *)
    apply andb_true_iff in Eb. destruct Eb as [Eu Et].
    apply CustomerState_eqb_eq in Eu. apply negb_true_iff, Z.eqb_neq in Et.
    assert (NI : ~ Heap.in_heap (heap s) idx).
    { apply sched_not_queued; [exact I | exact Hx | fold c; rewrite Eu; discriminate]. }
    set (w0 := exec (remove_customer_from_tool idx EVENT_TOOL_COMPLETED) w).
    assert (E1 : w1 = exec (assign_next_from_queue (current_tool c)) w0).
    { unfold w1, when. rewrite exec_bind. reflexivity. }
    assert (L0 : loose_inv (with_transit none_in_transit idx) (shm w0)).
    { apply loose_unbind; [apply sched_loose; exact I | exact NI]. }
    assert (E0 : w0 = mkWorld (unbound_shm idx EVENT_TOOL_COMPLETED (clock w (ticks w)) s)
                        (stdout w ++ [unbound_line idx EVENT_TOOL_COMPLETED
                                        (clock w (ticks w)) s])
                        (clock w) (S (ticks w))).
    { unfold w0. rewrite remove_customer_from_tool_exec. fold s. fold c.
      destruct (Z.eqb_spec (current_tool c) (-1)); [contradiction | reflexivity]. }
    assert (H0 : hp w0 = heap s) by (rewrite E0; reflexivity).
    destruct (assign_next_frame w0 (current_tool c)
                (li_backmap _ _ L0) (li_min _ _ L0)) as [K F].
    rewrite <- E1 in K, F.
    assert (C1 : customers (shm w1) idx = customers (shm w0) idx).
    { apply F. rewrite H0. exact NI. }
    assert (L1 : loose_inv (with_transit none_in_transit idx) (shm w1)).
    { rewrite E1. apply loose_pop. exact L0. }
    assert (S1 : state (customers (shm w1) idx) = CUSTOMER_STATE_USING).
    { rewrite C1, E0. cbn [shm]. rewrite unbound_state. exact Eu. }
    assert (L2 : loose_inv none_in_transit (on_customer idx (set_is_allocated false) (shm w1))).
    { apply (loose_frame none_in_transit (shm w1)); try reflexivity.
      - intros k _. rewrite A1. destruct (Z.eqb_spec k idx) as [->|]; reflexivity.
      - intros k _. rewrite A1. destruct (Z.eqb_spec k idx) as [->|]; reflexivity.
      - apply (loose_release none_in_transit _ idx); [exact L1 | intros [] |].
        rewrite S1. discriminate. }
    split; [apply sched_loose; exact L2|].
    rewrite !A1, !Z.eqb_refl.
    cbn [is_allocated state current_tool share set_is_allocated].
    split; [reflexivity|]. split; [rewrite S1; symmetry; exact Eu|].
    destruct K as [K1 K2 K3 K4 K5 K6].
    split; [change (total_customers (shm w1) = total_customers s);
            rewrite K1, E0; reflexivity|].
    split; [change (free_customer_count (shm w1) = free_customer_count s);
            rewrite K2, E0; reflexivity|].
    split; [change (free_customer_slots (shm w1) = free_customer_slots s);
            rewrite K3, E0; reflexivity|].
    split.
    { split; [intros C; exfalso; apply (li_absent _ _ L1 idx); [right; reflexivity | exact C]|].
      intros C. contradiction. }
    split; [intros C; fold c in C; congruence|].
    intros _ _. rewrite C1, E0. cbn [shm].
    rewrite unbound_current_tool, unbound_share, Z.eqb_refl.
    split; [reflexivity|]. split; [reflexivity|].
    intros t Ht C.
    destruct (li_tools _ _ L2 t Ht) as [_ [_ [_ Ct]]]; [rewrite C; lia|].
    rewrite C, A1, Z.eqb_refl in Ct. cbn [current_tool set_is_allocated] in Ct.
    rewrite C1, E0 in Ct. cbn [shm] in Ct. rewrite unbound_current_tool, Z.eqb_refl in Ct.
    lia.
  - (* nothing to release *)
    assert (E1 : w1 = w) by reflexivity. rewrite E1 in *. fold s.
    assert (L2 : loose_inv none_in_transit (on_customer idx (set_is_allocated false) s)).
    { apply (loose_frame none_in_transit s); try reflexivity.
      - intros k _. rewrite A1. destruct (Z.eqb_spec k idx) as [->|]; reflexivity.
      - intros k _. rewrite A1. destruct (Z.eqb_spec k idx) as [->|]; reflexivity.
      - apply sched_loose. exact I. }
    split; [apply sched_loose; exact L2|].
    rewrite !A1, !Z.eqb_refl. cbn [is_allocated state current_tool share set_is_allocated].
    do 5 (split; [reflexivity|]).
    split; [split; intros C; exact C|].
    split; [intros _; reflexivity|].
    intros Eu Et. exfalso.
    apply andb_false_iff in Eb. destruct Eb as [Eb|Eb].
    + fold c in Eu. rewrite Eu in Eb. discriminate.
    + apply negb_false_iff, Z.eqb_eq in Eb. contradiction.
Qed.

(** X18. The end of [agent_process].  [sched_inv] is kept and
    [is_allocated] is cleared, but the customer's [state] is never written,
    and [total_customers] and the free stack stay as they are.  A customer
    that is not Using is changed in nothing else: a Waiting customer stays
    in the queue.  A Using customer is taken off its tool, with its usage
    added to its share, and holds no tool afterwards. *)
Theorem agent_disconnect_effect (w : World) (idx : Z) :
  sched_inv (shm w) -> 0 <= idx < MAX_CUSTOMERS ->
  let s := shm w in
  let w' := exec (agent_disconnect idx) w in
  let s' := shm w' in
  sched_inv s' /\
  is_allocated (customers s' idx) = false /\
  state (customers s' idx) = state (customers s idx) /\
  total_customers s' = total_customers s /\
  free_customer_count s' = free_customer_count s /\
  free_customer_slots s' = free_customer_slots s /\
  (Heap.in_heap (heap s') idx <-> Heap.in_heap (heap s) idx) /\
  (state (customers s idx) <> CUSTOMER_STATE_USING ->
     w' = mkWorld (on_customer idx (set_is_allocated false) s)
            (stdout w) (clock w) (ticks w)) /\
  (state (customers s idx) = CUSTOMER_STATE_USING ->
     current_tool (customers s idx) <> -1 ->
     current_tool (customers s' idx) = -1 /\
     share (customers s' idx) =
       (share (customers s idx)
        + inject_Z (to_int (clock w (ticks w) - session_start (customers s idx))))%Q /\
     forall t, 0 <= t < num_tools s' -> current_user (tools s' t) <> idx).
Proof. exact (agent_disconnect_spec w idx). Qed.

Lemma agent_disconnect_effect_witness :
  let w := w_starved in
  let idx := 1022 in
  let s := shm w in
  let w' := exec (agent_disconnect idx) w in
  let s' := shm w' in
  sched_inv s' /\
  is_allocated (customers s' idx) = false /\
  state (customers s' idx) = state (customers s idx) /\
  total_customers s' = total_customers s /\
  free_customer_count s' = free_customer_count s /\
  free_customer_slots s' = free_customer_slots s /\
  (Heap.in_heap (heap s') idx <-> Heap.in_heap (heap s) idx) /\
  (state (customers s idx) <> CUSTOMER_STATE_USING ->
     w' = mkWorld (on_customer idx (set_is_allocated false) s)
            (stdout w) (clock w) (ticks w)) /\
  (state (customers s idx) = CUSTOMER_STATE_USING ->
     current_tool (customers s idx) <> -1 ->
     current_tool (customers s' idx) = -1 /\
     share (customers s' idx) =
       (share (customers s idx)
        + inject_Z (to_int (clock w (ticks w) - session_start (customers s idx))))%Q /\
     forall t, 0 <= t < num_tools s' -> current_user (tools s' t) <> idx).
Proof.
  apply (agent_disconnect_effect w_starved 1022).
  - apply sched_invb_sound. vm_compute. reflexivity.
  - unfold MAX_CUSTOMERS. lia.
Defined.

Example disconnected_waiter_stays_queued :
  let s' := shm (exec (agent_disconnect 1022) w_starved) in
  state (customers s' 1022) = CUSTOMER_STATE_WAITING /\
  is_allocated (customers s' 1022) = false /\
  Heap.HEAP_ARRAY (heap s') 0 = 1022 /\ Heap.heap_size (heap s') = 1 /\
  total_customers s' = 2 /\ free_customer_count s' = 1022.
Proof. vm_compute. repeat split. Qed.

(** ** [waiting_count] and the size of the queue *)

Lemma leave_queue_gap w x :
  Heap.backmap (hp w) -> Heap.min_heap (hp w) -> 0 <= x < MAX_CUSTOMERS ->
  let s' := shm (exec (leave_queue x) w) in
  (Heap.in_heap (hp w) x -> queue_gap s' = queue_gap (shm w)) /\
  (~ Heap.in_heap (hp w) x -> queue_gap s' = queue_gap (shm w) - 1).
Proof.
  intros B M R s'. subst s'. rewrite max_customers_nodes in R. unfold hp in *.
  unfold leave_queue, exec, bind, get_shm, when, heap_delete, call_heap, modify, ret.
  cbn [shm stdout clock ticks fst snd].
  pose proof (HeapFacts.in_heap_index (heap (shm w)) x B) as II.
  destruct (Z.eqb_spec (Heap.heap_index (Heap.GLB (heap (shm w)) x)) NIL) as [E|N];
    cbn [negb].
  - cbn [shm snd]. unfold queue_gap. cbn.
    split; [intros C; apply II in C; destruct C as [_ C]; contradiction | intros _; lia].
  - destruct (HeapFacts.heap_delete_removed x (heap (shm w)) B M R N) as [h' [E Rm]].
    rewrite E. cbn [shm snd fst]. unfold queue_gap. cbn.
    rewrite (Heap.rm_size _ _ _ Rm).
    split; [intros _; lia|]. intros C. exfalso. apply C. apply II. split; assumption.
Qed.

Lemma enqueue_waiting_gap w x :
  Heap.backmap (hp w) -> Heap.min_heap (hp w) -> 0 <= x < MAX_CUSTOMERS ->
  ~ Heap.in_heap (hp w) x ->
  queue_gap (shm (exec (enqueue_waiting x) w)) = queue_gap (shm w).
Proof.
  intros B M R Nin. rewrite max_customers_nodes in R. unfold hp in *.
  set (k := share (customers (shm w) x)).
  destruct (HeapFacts.set_key_absent x k (heap (shm w)) B M Nin) as [B1 [M1 I1]].
  assert (N1 : Heap.heap_index (Heap.GLB (Heap.set_key x k (heap (shm w))) x) = Heap.NIL).
  { simpl. rewrite upd_eq. simpl.
    destruct (Z.eq_dec (Heap.heap_index (Heap.GLB (heap (shm w)) x)) Heap.NIL) as [E|N];
      [exact E | exfalso].
    apply Nin. apply HeapFacts.in_heap_index; [assumption | split; assumption]. }
  assert (S1 : Heap.heap_size (Heap.set_key x k (heap (shm w))) < Heap.MAX_NODES).
  { apply (HeapFacts.heap_room x); [assumption | assumption |]. rewrite I1. exact Nin. }
  destruct (HeapFacts.heap_insert_inserted x _ B1 M1 R N1 S1) as [h' [out [E Ins]]].
  unfold enqueue_waiting, exec, bind, get_shm, heap_insert, call_heap, modify, ret,
    get_current_time_ms.
  cbn [shm stdout clock ticks fst snd].
  replace (share (customers (on_customer x _ (shm w)) x)) with k
    by (unfold on_customer; cbn; rewrite upd_eq; reflexivity).
  change (heap (set_heap ?h ?s)) with h.
  change (heap (on_customer ?a ?b ?s)) with (heap s).
  rewrite E. cbn [shm snd fst]. unfold queue_gap. cbn.
  rewrite (Heap.in_size _ _ _ Ins). cbn. lia.
Qed.

Lemma unbind_gap w x ev :
  queue_gap (shm (exec (remove_customer_from_tool x ev) w)) = queue_gap (shm w).
Proof.
  rewrite remove_customer_from_tool_exec.
  destruct (current_tool (customers (shm w) x) =? -1); reflexivity.
Qed.

Lemma bind_gap w x tool :
  Heap.backmap (hp w) -> Heap.min_heap (hp w) -> 0 <= x < MAX_CUSTOMERS ->
  let s' := shm (exec (assign_tool_to_customer x tool) w) in
  (state (customers (shm w) x) = CUSTOMER_STATE_WAITING -> ~ Heap.in_heap (hp w) x ->
     queue_gap s' = queue_gap (shm w) - 1) /\
  (state (customers (shm w) x) = CUSTOMER_STATE_WAITING -> Heap.in_heap (hp w) x ->
     queue_gap s' = queue_gap (shm w)) /\
  (state (customers (shm w) x) <> CUSTOMER_STATE_WAITING ->
     queue_gap s' = queue_gap (shm w)).
Proof.
  intros B M R s'. subst s'. rewrite assign_tool_to_customer_exec. cbv zeta. cbn [shm].
  set (w1 := exec (when _ (leave_queue x)) w).
  assert (G : queue_gap (bound_shm x tool (clock w1 (ticks w1)) (shm w1))
              = queue_gap (shm w1)) by reflexivity.
  rewrite G. unfold w1.
  destruct (leave_queue_gap w x B M R) as [G1 G2].
  destruct (state (customers (shm w) x)) eqn:S; cbn [CustomerState_eqb when];
    rewrite ?exec_ret.
  2:{ split; [intros _ N; apply G2; exact N|]. split; [intros _ N; apply G1; exact N|].
      intros C. contradiction. }
  all: split; [discriminate|]; split; [discriminate | reflexivity].
Qed.

Lemma pop_gap T w tool :
  loose_inv T (shm w) ->
  queue_gap (shm (exec (assign_next_from_queue tool) w)) = queue_gap (shm w).
Proof.
  intros L.
  destruct (Z.le_gt_cases (Heap.heap_size (hp w)) 0) as [Em|Ne].
  { rewrite assign_next_from_queue_empty by exact Em. reflexivity. }
  pose proof L as [B M Q A Tl].
  destruct (assign_next_from_queue_exec w tool B M ltac:(lia)) as [h' [R [_ E]]].
  rewrite E. set (m := Heap.HEAP_ARRAY (hp w) 0) in *.
  assert (Sz : 0 <= 0 < Heap.heap_size (hp w)) by lia.
  assert (Im : Heap.in_heap (hp w) m) by (exists 0; split; [exact Sz | reflexivity]).
  assert (Hm : 0 <= m < MAX_CUSTOMERS).
  { rewrite max_customers_nodes. destruct B as [_ P _]. apply (P 0). exact Sz. }
  assert (NTm : ~ T m) by (intros Tm; apply (A m Tm Im)).
  assert (Wm : state (customers (shm w) m) = CUSTOMER_STATE_WAITING).
  { apply Q; assumption. }
  set (w5 := mkWorld (set_heap h' (shm w)) _ _ _).
  assert (B5 : Heap.backmap (hp w5)) by exact (Heap.rm_backmap _ _ _ R).
  assert (M5 : Heap.min_heap (hp w5)) by exact (Heap.rm_min _ _ _ R).
  destruct (bind_gap w5 m tool B5 M5 Hm) as [G _]. cbv zeta in G.
  rewrite G; [| exact Wm |].
  - unfold queue_gap, w5. cbn [shm heap set_heap waiting_count].
    change (waiting_count (set_heap h' (shm w))) with (waiting_count (shm w)).
    rewrite (Heap.rm_size _ _ _ R). unfold hp. lia.
  - intros C. apply (Heap.rm_in _ _ _ R) in C. destruct C as [_ C]. apply C. reflexivity.
Qed.

Lemma preempt_gap T w t H :
  loose_inv T (shm w) -> ~ T H -> 0 <= H < MAX_CUSTOMERS ->
  ~ Heap.in_heap (hp w) H ->
  queue_gap (shm (exec (preempt_holder t H) w)) = queue_gap (shm w).
Proof.
  intros L NT RH NI. rewrite preempt_holder_exec.
  set (w1 := exec (remove_customer_from_tool H EVENT_TOOL_REMOVED) w).
  assert (L1 : loose_inv (with_transit T H) (shm w1)) by (apply loose_unbind; assumption).
  set (w2 := exec (enqueue_waiting H) w1).
  assert (L2 : loose_inv T (shm w2)) by (apply loose_enqueue; assumption).
  rewrite (pop_gap T w2 t L2). unfold w2.
  rewrite enqueue_waiting_gap;
    [apply unbind_gap | exact (li_backmap _ _ L1) | exact (li_min _ _ L1) | exact RH |].
  apply (li_absent _ _ L1). right. reflexivity.
Qed.

(** X19. [handle_rest] and one iteration of [tool_process] change
    [waiting_count] by exactly as much as the size of the queue. *)
Theorem waiting_count_follows_queue (w : World) :
  sched_inv (shm w) ->
  (forall idx, 0 <= idx < MAX_CUSTOMERS ->
     queue_gap (shm (exec (handle_rest idx) w)) = queue_gap (shm w)) /\
  (forall t, 0 <= t < num_tools (shm w) ->
     queue_gap (shm (exec (tool_process_tick t) w)) = queue_gap (shm w)).
Proof.
  intros I. pose proof I as [B M Qu Tl]. split.
  - intros idx Hx. unfold handle_rest. rewrite exec_bind.
    cbn [get_shm fst]. change (exec get_shm w) with w.
    destruct (state (customers (shm w) idx)) eqn:S; try reflexivity.
    + rewrite !exec_bind, !exec_modify. cbn [shm].
      destruct (leave_queue_gap w idx B M Hx) as [G _]. cbv zeta in G.
      rewrite <- G; [reflexivity|]. apply Qu; assumption.
    + rewrite !exec_bind, !exec_modify. cbn [shm].
      set (w1 := exec (remove_customer_from_tool idx EVENT_TOOL_COMPLETED) w).
      assert (L1 : loose_inv (with_transit none_in_transit idx) (shm w1)).
      { apply loose_unbind; [apply sched_loose; exact I|].
        apply sched_not_queued; [exact I | exact Hx | rewrite S; discriminate]. }
      set (w2 := exec (when _ (assign_next_from_queue _)) w1).
      assert (G2 : queue_gap (shm w2) = queue_gap (shm w1)).
      { unfold w2. destruct (negb _); [|reflexivity]. apply (pop_gap _ _ _ L1). }
      change (queue_gap (shm w2) = queue_gap (shm w)). rewrite G2. apply unbind_gap.
  - intros t Rt. rewrite tool_process_tick_exec. cbv zeta.
    destruct (server_should_exit (shm w)); [reflexivity|].
    destruct (Z.eqb_spec (current_user (tools (shm w) t)) (-1)) as [Fr|Bd]; [reflexivity|].
    set (H := current_user (tools (shm w) t)) in *.
    set (elapsed := to_int _).
    destruct (Tl t Rt Bd) as [RH [UH CH]]. fold H in RH, UH, CH.
    assert (NI : ~ Heap.in_heap (heap (shm w)) H).
    { apply sched_not_queued; [exact I | exact RH | rewrite UH; discriminate]. }
    set (w1 := ticked t w).
    assert (L1 : loose_inv none_in_transit (shm w1)).
    { apply (loose_frame none_in_transit (shm w)); [reflexivity | reflexivity | | | |
        apply sched_loose; exact I].
      - intros u. unfold w1, ticked. cbn [shm]. unfold on_customer, on_tool. cbn. unfold upd.
        destruct (Z.eqb_spec u t) as [->|]; reflexivity.
      - intros c _. unfold w1, ticked. cbn [shm]. unfold on_customer, on_tool. cbn. unfold upd.
        fold H. destruct (Z.eqb_spec c H) as [->|]; reflexivity.
      - intros c _. unfold w1, ticked. cbn [shm]. unfold on_customer, on_tool. cbn. unfold upd.
        fold H. destruct (Z.eqb_spec c H) as [->|]; reflexivity. }
    assert (G1 : queue_gap (shm w1) = queue_gap (shm w)) by reflexivity.
    assert (NI1 : ~ Heap.in_heap (hp w1) H) by exact NI.
    assert (P : queue_gap (shm (exec (preempt_holder t H) w1)) = queue_gap (shm w)).
    { rewrite <- G1. apply (preempt_gap none_in_transit); [exact L1 | intros [] | exact RH | exact NI1]. }
    unfold tick_action. rewrite exec_bind.
    cbn [get_shm fst]. change (exec get_shm w1) with w1.
    destruct (remaining_duration (customers (shm w1) H) <=? 0).
    + rewrite !exec_bind, !exec_modify. cbn [shm].
      set (w2 := exec (remove_customer_from_tool H EVENT_TOOL_COMPLETED) w1).
      assert (L2 : loose_inv (with_transit none_in_transit H) (shm w2)).
      { apply loose_unbind; assumption. }
      set (s3 := set_resting_customers _ _).
      set (w3 := mkWorld s3 _ _ _).
      assert (L3 : loose_inv (with_transit none_in_transit H) (shm w3)).
      { apply (loose_frame _ (on_customer H (set_state CUSTOMER_STATE_RESTING) (shm w2)));
          try reflexivity.
        apply loose_set_state. exact L2. }
      rewrite (pop_gap _ w3 t L3).
      change (queue_gap (shm w2) = queue_gap (shm w)). rewrite <- G1. apply unbind_gap.
    + destruct (param_Q (shm w1) <=? elapsed).
      * destruct (0 <? Heap.heap_size (heap (shm w1))); [exact P | exact G1].
      * destruct ((param_q (shm w1) <=? elapsed) && (0 <? Heap.heap_size (heap (shm w1))));
          [|exact G1].
        cbv zeta.
        destruct ((0 <=? Heap.HEAP_ARRAY (heap (shm w1)) 0)
                  && (Heap.HEAP_ARRAY (heap (shm w1)) 0 <? MAX_CUSTOMERS)); [|exact G1].
        cbn [when].
        destruct (Qltb _ _); [exact P | exact G1].
Qed.

Lemma waiting_count_follows_queue_witness :
  (forall idx, 0 <= idx < MAX_CUSTOMERS ->
     queue_gap (shm (exec (handle_rest idx) w_starved)) = queue_gap (shm w_starved)) /\
  (forall t, 0 <= t < num_tools (shm w_starved) ->
     queue_gap (shm (exec (tool_process_tick t) w_starved)) = queue_gap (shm w_starved)).
Proof.
  apply (waiting_count_follows_queue w_starved).
  apply sched_invb_sound. vm_compute. reflexivity.
Defined.

(** X20. [handle_request] of a Resting customer changes [waiting_count]
    by as much as the size of the queue.  For a Waiting customer that is
    given a tool, [waiting_count] is decremented twice, once when the
    customer leaves the queue and once more in [assign_tool_to_customer],
    which still finds it Waiting: [waiting_count] falls one below where the
    size of the queue puts it.  If it is queued again the two agree. *)
Theorem handle_request_queue_gap (w : World) (idx d : Z) :
  sched_inv (shm w) -> 0 <= idx < MAX_CUSTOMERS ->
  let s := shm w in
  let s' := shm (exec (handle_request idx d) w) in
  (state (customers s idx) = CUSTOMER_STATE_RESTING -> queue_gap s' = queue_gap s) /\
  (state (customers s idx) = CUSTOMER_STATE_WAITING ->
     (state (customers s' idx) = CUSTOMER_STATE_USING /\ queue_gap s' = queue_gap s - 1) \/
     (state (customers s' idx) = CUSTOMER_STATE_WAITING /\ queue_gap s' = queue_gap s)).
Proof.
  intros I Hx s s'. subst s'. pose proof I as [B M Qu Tl].
  rewrite handle_request_exec.
  set (w1 := exec (request_entry idx (state (customers (shm w) idx))) w).
  set (w2 := exec (modify _) w1).
  assert (E2 : shm w2 = on_customer idx (fun c =>
                 set_remaining_duration d (set_request_duration d c)) (shm w1)).
  { unfold w2. rewrite exec_modify. reflexivity. }
  assert (St2 : forall c, state (customers (shm w2) c) = state (customers (shm w1) c)).
  { intros c. rewrite E2. unfold on_customer. cbn. unfold upd.
    destruct (Z.eqb_spec c idx) as [->|]; reflexivity. }
  assert (Ct2 : forall c, current_tool (customers (shm w2) c)
                          = current_tool (customers (shm w1) c)).
  { intros c. rewrite E2. unfold on_customer. cbn. unfold upd.
    destruct (Z.eqb_spec c idx) as [->|]; reflexivity. }
  assert (G2 : queue_gap (shm w2) = queue_gap (shm w1)) by (rewrite E2; reflexivity).
  assert (Main : forall st, state (customers s idx) = st ->
            (st = CUSTOMER_STATE_RESTING \/ st = CUSTOMER_STATE_WAITING) ->
            loose_inv (with_transit none_in_transit idx) (shm w2) /\
            queue_gap (shm w2) = queue_gap s /\
            state (customers (shm w2) idx) = st).
  { intros st S Hst. unfold s in S.
    assert (L1 : loose_inv (with_transit none_in_transit idx) (shm w1) /\
                 queue_gap (shm w1) = queue_gap s /\
                 state (customers (shm w1) idx) = st).
    { unfold w1. rewrite S. destruct Hst as [-> | ->]; cbn [request_entry].
      - rewrite exec_modify. cbn [shm]. split; [|split; [reflexivity | exact S]].
        apply (loose_frame _ (shm w)); try reflexivity.
        apply loose_enter; [apply sched_loose; exact I | |].
        + apply sched_not_queued; [exact I | exact Hx | rewrite S; discriminate].
        + intros t Ht Bt C. destruct (Tl t Ht Bt) as [_ [U _]].
          rewrite C, S in U. discriminate.
      - split; [apply loose_leave; [apply sched_loose; exact I | exact Hx | exact S]|].
        destruct (leave_queue_gap w idx B M Hx) as [G _]. cbv zeta in G.
        split; [apply G; apply Qu; assumption|].
        rewrite <- S. 
        pose proof (leave_queue_customers true w idx) as K. cbn [when] in K.
        rewrite K. reflexivity. }
    destruct L1 as [L1 [G1 S1]].
    split; [|split; [rewrite G2; exact G1 | rewrite St2; exact S1]].
    apply (loose_frame _ (shm w1)); [rewrite E2; reflexivity | rewrite E2; reflexivity | | | |
      exact L1].
    - intros t. rewrite E2. reflexivity.
    - intros c _. apply St2.
    - intros c _. apply Ct2. }
  assert (Place : forall st,
            (st = CUSTOMER_STATE_RESTING \/ st = CUSTOMER_STATE_WAITING) ->
            loose_inv (with_transit none_in_transit idx) (shm w2) ->
            state (customers (shm w2) idx) = st ->
            let s' := shm (exec (request_placement idx) w2) in
            (state (customers s' idx) = CUSTOMER_STATE_USING /\
             queue_gap s' = queue_gap (shm w2)
                            - (if CustomerState_eqb st CUSTOMER_STATE_WAITING then 1 else 0)) \/
            (state (customers s' idx) = CUSTOMER_STATE_WAITING /\
             queue_gap s' = queue_gap (shm w2))).
  { intros st Hst L2 S2 s'. subst s'.
    pose proof (li_backmap _ _ L2) as B2. pose proof (li_min _ _ L2) as M2.
    assert (NI2 : ~ Heap.in_heap (hp w2) idx) by (apply (li_absent _ _ L2); right; reflexivity).
    assert (BindGap : forall w3, Heap.backmap (hp w3) -> Heap.min_heap (hp w3) ->
              ~ Heap.in_heap (hp w3) idx -> state (customers (shm w3) idx) = st ->
              forall tool,
              queue_gap (shm (exec (assign_tool_to_customer idx tool) w3)) =
              queue_gap (shm w3)
              - (if CustomerState_eqb st CUSTOMER_STATE_WAITING then 1 else 0)).
    { intros w3 B3 M3 NI3 S3 tool.
      destruct (bind_gap w3 idx tool B3 M3 Hx) as [Ga [_ Gc]]. cbv zeta in Ga, Gc.
      destruct Hst as [-> | ->]; cbn [CustomerState_eqb].
      - rewrite Gc; [lia | rewrite S3; discriminate].
      - apply Ga; assumption. }
    assert (BindState : forall w3 tool,
              state (customers (shm (exec (assign_tool_to_customer idx tool) w3)) idx)
              = CUSTOMER_STATE_USING).
    { intros w3 tool. rewrite assign_tool_to_customer_exec. cbv zeta. cbn [shm].
      rewrite bound_state, Z.eqb_refl. reflexivity. }
    destruct (Z.eq_dec (find_free_tool (shm w2)) (-1)) as [NoFree|Free].
    2:{ rewrite placement_free by exact Free. left.
        split; [apply BindState | apply BindGap; assumption]. }
    set (tool := find_preemption_candidate (share (customers (shm w2) idx)) (shm w2)).
    destruct (Z.eq_dec tool (-1)) as [NoCand|Cand].
    2:{ rewrite (placement_preempt w2 idx NoFree Cand). fold tool.
        set (H := current_user (tools (shm w2) tool)).
        destruct (find_preemption_candidate_range _ _ Cand) as [Rt Bt].
        fold tool in Rt, Bt. fold H in Bt.
        destruct (li_tools _ _ L2 tool Rt Bt) as [RH [NT [UH CH]]]. fold H in RH, NT, UH, CH.
        assert (NH : H <> idx) by (intros C; apply NT; right; exact C).
        assert (NIH : ~ Heap.in_heap (hp w2) H).
        { intros C. apply (li_queue _ _ L2 H RH NT) in C. congruence. }
        set (w3 := exec (remove_customer_from_tool H EVENT_TOOL_REMOVED) w2).
        assert (L3 : loose_inv (with_transit (with_transit none_in_transit idx) H) (shm w3)).
        { apply loose_unbind; assumption. }
        set (w4 := exec (enqueue_waiting H) w3).
        assert (L4 : loose_inv (with_transit none_in_transit idx) (shm w4)).
        { apply loose_enqueue; [exact L3 | | exact RH].
          intros [[]|C]. contradiction. }
        assert (G4 : queue_gap (shm w4) = queue_gap (shm w2)).
        { unfold w4. rewrite enqueue_waiting_gap;
            [apply unbind_gap | exact (li_backmap _ _ L3) | exact (li_min _ _ L3) | exact RH|].
          apply (li_absent _ _ L3). right. reflexivity. }
        assert (S4 : state (customers (shm w4) idx) = st).
        { assert (E3 : state (customers (shm w3) idx) = st).
          { unfold w3. rewrite remove_customer_from_tool_exec.
            destruct (_ =? -1); [exact S2|]. cbn [shm]. rewrite unbound_state. exact S2. }
          destruct (enqueue_waiting_exec w3 H (li_backmap _ _ L3) (li_min _ _ L3) RH)
            as [h' [out [_ E]]].
          { apply (li_absent _ _ L3). right. reflexivity. }
          unfold w4. rewrite E. cbn [shm]. rewrite enqueued_customers.
          destruct (Z.eqb_spec idx H) as [C|_]; [congruence | exact E3]. }
        left. split; [apply BindState|].
        rewrite BindGap; [rewrite G4; reflexivity | exact (li_backmap _ _ L4)
                          | exact (li_min _ _ L4) | | exact S4].
        apply (li_absent _ _ L4). right. reflexivity. }
    rewrite (placement_enqueue w2 idx NoFree NoCand). right.
    split; [|apply enqueue_waiting_gap; assumption].
    destruct (enqueue_waiting_exec w2 idx B2 M2 Hx NI2) as [h' [out [_ E]]].
    rewrite E. cbn [shm]. rewrite enqueued_customers, Z.eqb_refl. reflexivity. }
  split.
  - intros S. destruct (Main _ S (or_introl eq_refl)) as [L2 [G S2]].
    destruct (Place _ (or_introl eq_refl) L2 S2) as [[_ P]|[_ P]];
      cbn [CustomerState_eqb] in P; rewrite P, G; lia.
  - intros S. destruct (Main _ S (or_intror eq_refl)) as [L2 [G S2]].
    destruct (Place _ (or_intror eq_refl) L2 S2) as [[U P]|[U P]];
      cbn [CustomerState_eqb] in P; [left | right]; (split; [exact U | rewrite P, G; reflexivity]).
Qed.

Lemma handle_request_queue_gap_witness :
  let w := Variant.w_waiting in
  let idx := 1022 in
  let d := 1000 in
  let s := shm w in
  let s' := shm (exec (handle_request idx d) w) in
  (state (customers s idx) = CUSTOMER_STATE_RESTING -> queue_gap s' = queue_gap s) /\
  (state (customers s idx) = CUSTOMER_STATE_WAITING ->
     (state (customers s' idx) = CUSTOMER_STATE_USING /\ queue_gap s' = queue_gap s - 1) \/
     (state (customers s' idx) = CUSTOMER_STATE_WAITING /\ queue_gap s' = queue_gap s)).
Proof.
  apply (handle_request_queue_gap Variant.w_waiting 1022 1000).
  - apply sched_invb_sound. vm_compute. reflexivity.
  - unfold MAX_CUSTOMERS. lia.
Defined.

Example waiting_request_gap :
  let w' := exec (handle_request 1022 1000) Variant.w_waiting in
  queue_gap (shm Variant.w_waiting) = 0 /\
  waiting_count (shm w') = 0 /\ Heap.heap_size (heap (shm w')) = 1 /\
  queue_gap (shm w') = -1.
Proof. vm_compute. repeat split. Qed.

(** ** The event forwarder *)

(** X21. One round of [agent_notify_thread].  It exits when the customer
    is not allocated and waits when no event is pending.  A pending event
    is sent once: the line is formatted from the event slot, only
    [event_pending] is cleared, and the next round waits.  When the pending
    event is [EVENT_NONE] no line is formatted and the buffer is sent as it
    is. *)
Theorem agent_notify_delivers_once (w : World) (idx : Z) (buffer : string) :
  let c := customers (shm w) idx in
  (is_allocated c = false -> agent_notify_step idx buffer w = (NotifyExits, w)) /\
  (is_allocated c = true -> event_pending c = false ->
     agent_notify_step idx buffer w = (NotifyWaits, w)) /\
  (is_allocated c = true -> event_pending c = true ->
     let w' := exec (agent_notify_step idx buffer) w in
     fst (agent_notify_step idx buffer w) =
       NotifySends
         (match event_type c with
          | EVENT_NONE => buffer
          | ev => event_line ev (customer_id c) (double_to_int (share c)) (event_tool_id c)
          end) /\
     w' = mkWorld (on_customer idx (set_event_pending false) (shm w))
            (stdout w) (clock w) (ticks w) /\
     forall buffer', agent_notify_step idx buffer' w' = (NotifyWaits, w')).
Proof.
  intros c.
  assert (G : forall b, agent_notify_step idx b w =
            if negb (event_pending c) && is_allocated c then (NotifyWaits, w)
            else if negb (is_allocated c) then (NotifyExits, w)
            else if event_pending c then
              (NotifySends
                 (match event_type c with
                  | EVENT_NONE => b
                  | ev => event_line ev (customer_id c) (double_to_int (share c))
                            (event_tool_id c)
                  end),
               mkWorld (on_customer idx (set_event_pending false) (shm w))
                 (stdout w) (clock w) (ticks w))
            else (NotifyExits, w)).
  { intros b. unfold agent_notify_step, bind, get_shm, modify, ret. fold c.
    destruct (negb (event_pending c) && is_allocated c); [reflexivity|].
    destruct (negb (is_allocated c)); [reflexivity|].
    destruct (event_pending c); [|reflexivity].
    destruct (event_type c); reflexivity. }
  split; [|split].
  - intros A. rewrite G, A. destruct (event_pending c); reflexivity.
  - intros A P. rewrite G, A, P. reflexivity.
  - intros A P w'. subst w'. unfold exec. rewrite G, A, P. cbn [negb andb fst snd].
    split; [reflexivity|]. split; [reflexivity|].
    intros b'. unfold agent_notify_step, bind, get_shm, modify, ret. cbn [shm].
    unfold on_customer. cbn [customers set_customers]. rewrite upd_eq.
    cbn [event_pending is_allocated set_event_pending]. fold c. rewrite A. reflexivity.
Qed.


(** ** The report *)

Lemma range_from_nil lo hi : hi <= lo -> range_from lo hi = [].
Proof.
  intros H. unfold range_from, range.
  replace (Z.to_nat (hi - lo)) with 0%nat by lia. reflexivity.
Qed.

Lemma range_from_cons lo hi :
  lo < hi -> range_from lo hi = lo :: range_from (lo + 1) hi.
Proof.
  intros H. unfold range_from, range.
  replace (Z.to_nat (hi - lo)) with (S (Z.to_nat (hi - (lo + 1)))) by lia.
  cbn [List.seq List.map]. f_equal; [lia|].
  rewrite <- seq_shift. rewrite !map_map.
  apply map_ext. intros k. lia.
Qed.

Lemma range_from_zero n : range_from 0 n = range n.
Proof.
  unfold range_from. rewrite Z.sub_0_r.
  rewrite <- (map_id (range n)) at 2. apply map_ext. intros k. lia.
Qed.

Lemma in_range_from lo hi x : In x (range_from lo hi) <-> lo <= x < hi.
Proof.
  unfold range_from. rewrite in_map_iff. split.
  - intros [k [E K]]. apply in_range in K. lia.
  - intros H. exists (x - lo). split; [lia | apply in_range; lia].
Qed.

Lemma range_from_app lo mid hi :
  lo <= mid <= hi -> range_from lo hi = range_from lo mid ++ range_from mid hi.
Proof.
  intros [H1 H2].
  remember (Z.to_nat (mid - lo)) as k eqn:K.
  revert lo H1 K. induction k as [|k IH]; intros lo H1 K.
  - assert (lo = mid) by lia. subst lo.
    rewrite (range_from_nil mid mid) by lia. reflexivity.
  - rewrite (range_from_cons lo hi) by lia.
    rewrite (range_from_cons lo mid) by lia.
    cbn [app]. f_equal. apply IH; lia.
Qed.

Lemma fold_range_from_inv {A : Type} (f : A -> Z -> A) (P : Z -> A -> Prop)
      lo hi a :
  lo <= hi -> P lo a ->
  (forall j acc, lo <= j < hi -> P j acc -> P (j + 1) (f acc j)) ->
  P hi (fold_left f (range_from lo hi) a).
Proof.
  intros H H0 Hstep.
  remember (Z.to_nat (hi - lo)) as k eqn:K.
  revert lo a H H0 Hstep K. induction k as [|k IH]; intros lo a H H0 Hstep K.
  - assert (lo = hi) by lia. subst lo.
    rewrite range_from_nil by lia. exact H0.
  - rewrite range_from_cons by lia. cbn [fold_left].
    apply IH; [lia | apply Hstep; [lia | exact H0] | | lia].
    intros j acc Hj. apply Hstep. lia.
Qed.

(** The first loop gathers the entries of the waiting customers, in slot
    order, from position [n] on. *)
Lemma collect_waiting_fold s now
      (step : (Z -> Wait.Entry) * Z -> Z -> (Z -> Wait.Entry) * Z) l wl n :
  (forall wl n i,
      step (wl, n) i
      = if is_waiting s i then (upd wl n (wait_entry s now i), n + 1)
        else (wl, n)) ->
  let r := fold_left step l (wl, n) in
  snd r = n + Z.of_nat (List.length (filter (is_waiting s) l))
  /\ (forall k, k < n -> fst r k = wl k)
  /\ List.map (fst r) (range_from n (snd r))
     = List.map (wait_entry s now) (filter (is_waiting s) l).
Proof.
  intros Hstep.
  revert wl n. induction l as [|x l IH]; intros wl n; cbn zeta.
  - cbn. split; [lia|]. split; [reflexivity|].
    rewrite range_from_nil by lia. reflexivity.
  - cbn [fold_left filter]. rewrite Hstep.
    destruct (is_waiting s x).
    + specialize (IH (upd wl n (wait_entry s now x)) (n + 1)).
      cbn zeta in IH. destruct IH as [I1 [I2 I3]].
      split; [rewrite I1; cbn [List.length]; lia|].
      split.
      * intros k Hk. rewrite I2 by lia. apply upd_ne. lia.
      * rewrite range_from_cons by (rewrite I1; lia).
        cbn [List.map]. f_equal.
        -- rewrite I2 by lia. rewrite upd_eq. reflexivity.
        -- exact I3.
    + apply IH.
Qed.

Lemma collect_waiting_entries s now :
  let r := collect_waiting s now in
  snd r = Z.of_nat (List.length (filter (is_waiting s) (range MAX_CUSTOMERS)))
  /\ List.map (fst r) (range (snd r))
     = List.map (wait_entry s now) (filter (is_waiting s) (range MAX_CUSTOMERS)).
Proof.
  cbn zeta. unfold collect_waiting.
  match goal with
  | |- context [fold_left ?f ?l (?wl, ?n)] =>
      generalize (collect_waiting_fold s now f l wl n
                    (fun _ _ _ => eq_refl));
      generalize (fold_left f l (wl, n))
  end.
  cbn zeta. intros r [C1 [_ C3]].
  split; [rewrite C1; apply Z.add_0_l|].
  rewrite <- range_from_zero. exact C3.
Qed.

Lemma Permutation_exchange {A : Type} (a b : A) l1 l2 l3 :
  Permutation (l1 ++ b :: l2 ++ a :: l3) (l1 ++ a :: l2 ++ b :: l3).
Proof.
  apply Permutation_app_head.
  change (Permutation ([b] ++ l2 ++ [a] ++ l3) ([a] ++ l2 ++ [b] ++ l3)).
  rewrite !app_assoc.
  apply Permutation_app_tail.
  rewrite <- !app_assoc.
  rewrite (Permutation_app_comm [b] (l2 ++ [a])).
  rewrite (Permutation_app_comm [a] (l2 ++ [b])).
  rewrite <- !app_assoc.
  apply Permutation_app_head. apply perm_swap.
Qed.

(** Exchanging two entries of the array gives the same entries. *)
Lemma exchange_entries {A : Type} (f : Z -> A) i j n :
  0 <= i -> i < j -> j < n ->
  Permutation (List.map (upd (upd f i (f j)) j (f i)) (range n))
              (List.map f (range n)).
Proof.
  intros Hi Hij Hjn.
  rewrite <- range_from_zero.
  rewrite (range_from_app 0 i n) by lia.
  rewrite (range_from_cons i n) by lia.
  rewrite (range_from_app (i + 1) j n) by lia.
  rewrite (range_from_cons j n) by lia.
  rewrite !map_app. cbn [List.map]. rewrite !map_app. cbn [List.map].
  rewrite upd_eq. rewrite (upd_ne _ j i) by lia. rewrite upd_eq.
  assert (E : forall lo hi, (forall x, lo <= x < hi -> x <> i /\ x <> j) ->
              List.map (upd (upd f i (f j)) j (f i)) (range_from lo hi)
              = List.map f (range_from lo hi)).
  { intros lo hi H. apply map_ext_in. intros x Hx.
    apply in_range_from in Hx. destruct (H x Hx) as [X1 X2].
    rewrite !upd_ne by assumption. reflexivity. }
  rewrite !E by (intros; lia).
  apply Permutation_exchange.
Qed.

(** The inner loop at [i] brings a smallest entry of the positions from
    [i] on to the position [i]. *)
Lemma sort_inner_spec i n (wl : Z -> Wait.Entry) :
  0 <= i -> i < n ->
  let wl' := sort_inner i n wl in
  Permutation (List.map wl' (range n)) (List.map wl (range n))
  /\ (forall k, k < i \/ n <= k -> wl' k = wl k)
  /\ (forall k, i < k < n -> by_share (wl' i) (wl' k))
  /\ (forall k, i <= k < n -> exists k', i <= k' < n /\ wl' k = wl k').
Proof.
  intros Hi Hin. cbn zeta. unfold sort_inner.
  apply (fold_range_from_inv
           (fun wait_list j =>
              if Wait.share (wait_list j) <? Wait.share (wait_list i)
              then let tmp := wait_list i in
                   upd (upd wait_list i (wait_list j)) j tmp
              else wait_list)
           (fun m wl' =>
              Permutation (List.map wl' (range n)) (List.map wl (range n))
              /\ (forall k, k < i \/ n <= k -> wl' k = wl k)
              /\ (forall k, i < k < m -> by_share (wl' i) (wl' k))
              /\ (forall k, i <= k < n -> exists k', i <= k' < n /\ wl' k = wl k'))).
  - lia.
  - split; [apply Permutation_refl|]. split; [reflexivity|].
    split; [intros k Hk; lia|].
    intros k Hk. exists k. split; [exact Hk | reflexivity].
  - intros j acc Hj [P1 [P2 [P3 P4]]].
    destruct (Wait.share (acc j) <? Wait.share (acc i)) eqn:C; cbn zeta.
    + apply Z.ltb_lt in C.
      split; [|split; [|split]].
      * eapply Permutation_trans; [|exact P1].
        apply exchange_entries; lia.
      * intros k Hk. rewrite !upd_ne by lia. apply P2. exact Hk.
      * intros k Hk. rewrite (upd_ne _ j i) by lia. rewrite upd_eq.
        destruct (Z.eq_dec k j) as [->|Nk].
        -- rewrite upd_eq. unfold by_share. lia.
        -- rewrite !upd_ne by lia.
           assert (B := P3 k ltac:(lia)). unfold by_share in *. lia.
      * intros k Hk.
        destruct (Z.eq_dec k j) as [->|Nj].
        -- rewrite upd_eq. apply P4. lia.
        -- rewrite (upd_ne _ j k) by lia.
           destruct (Z.eq_dec k i) as [->|Ni].
           ++ rewrite upd_eq. apply P4. lia.
           ++ rewrite upd_ne by lia. apply P4. exact Hk.
    + apply Z.ltb_ge in C.
      split; [exact P1|]. split; [exact P2|]. split; [|exact P4].
      intros k Hk. destruct (Z.eq_dec k j) as [->|Nk].
      * exact C.
      * apply P3. lia.
Qed.

(** The two loops order the first [n] entries by share and keep them. *)
Lemma sort_wait_list_spec n (wl : Z -> Wait.Entry) :
  let wl' := sort_wait_list n wl in
  Permutation (List.map wl' (range n)) (List.map wl (range n))
  /\ (forall k, k < 0 \/ n <= k -> wl' k = wl k)
  /\ (forall a b, 0 <= a -> a < b -> b < n -> by_share (wl' a) (wl' b)).
Proof.
  cbn zeta. unfold sort_wait_list.
  destruct (Z_le_gt_dec n 1) as [Small|Big].
  { assert (E : range (n - 1) = []).
    { unfold range. replace (Z.to_nat (n - 1)) with 0%nat by lia. reflexivity. }
    rewrite E. cbn [fold_left].
    split; [apply Permutation_refl|]. split; [reflexivity|]. intros; lia. }
  assert (G :
    (fun m wl' =>
       Permutation (List.map wl' (range n)) (List.map wl (range n))
       /\ (forall k, k < 0 \/ n <= k -> wl' k = wl k)
       /\ (forall a b, 0 <= a < m -> a < b < n -> by_share (wl' a) (wl' b)))
      (n - 1)
      (fold_left (fun wait_list i => sort_inner i n wait_list)
         (range (n - 1)) wl)).
  { apply fold_range_inv.
    - lia.
    - split; [apply Permutation_refl|]. split; [reflexivity|]. intros; lia.
    - intros i acc Hi [P1 [P2 P3]].
      destruct (sort_inner_spec i n acc) as [S1 [S2 [S3 S4]]]; [lia | lia |].
      split; [eapply Permutation_trans; [exact S1 | exact P1]|].
      split.
      + intros k Hk. rewrite S2 by lia. apply P2. exact Hk.
      + intros a b Ha Hb.
        destruct (Z.eq_dec a i) as [->|Na].
        * apply S3. lia.
        * rewrite (S2 a) by lia.
          destruct (Z_lt_ge_dec b i) as [Lb|Gb].
          -- rewrite (S2 b) by lia. apply P3; lia.
          -- destruct (S4 b) as [k' [K1 K2]]; [lia|].
             rewrite K2. apply P3; lia. }
  destruct G as [G1 [G2 G3]].
  split; [exact G1|]. split; [exact G2|].
  intros a b Ha Hab Hb. apply G3; lia.
Qed.

Lemma sorted_range_from {A : Type} (R : A -> A -> Prop) (f : Z -> A) lo hi :
  (forall a b, lo <= a -> a < b -> b < hi -> R (f a) (f b)) ->
  StronglySorted R (List.map f (range_from lo hi)).
Proof.
  intros H.
  remember (Z.to_nat (hi - lo)) as k eqn:K.
  revert lo H K. induction k as [|k IH]; intros lo H K.
  - rewrite range_from_nil by lia. constructor.
  - rewrite range_from_cons by lia. cbn [List.map]. constructor.
    + apply IH; [|lia]. intros a b Ha Hab Hb. apply H; lia.
    + apply Forall_forall. intros e He.
      apply in_map_iff in He. destruct He as [x [<- Hx]].
      apply in_range_from in Hx. apply H; lia.
Qed.

(** X22. The waiting list of a report holds one entry for every allocated
    customer in the Waiting state, with the customer's id, the time waited
    so far and the share cut to an integer, and the entries come in the
    order of their shares, the smallest first. *)
Theorem report_waiting_list_sorted (s : SharedMemory) (now : Z) :
  let (wait_list, wait_count) := collect_waiting s now in
  let rows := List.map (sort_wait_list wait_count wait_list) (range wait_count) in
  Permutation rows
    (List.map (wait_entry s now) (filter (is_waiting s) (range MAX_CUSTOMERS)))
  /\ StronglySorted by_share rows.
Proof.
  destruct (collect_waiting_entries s now) as [C1 C2].
  destruct (collect_waiting s now) as [wait_list wait_count].
  cbn [fst snd] in C1, C2. cbn zeta.
  destruct (sort_wait_list_spec wait_count wait_list) as [S1 [_ S3]].
  split.
  - rewrite <- C2. exact S1.
  - rewrite <- range_from_zero. apply sorted_range_from.
    intros a b Ha Hab Hb. apply S3; assumption.
Qed.

Lemma strlen_append a b : strlen (a ++ b) = strlen a + strlen b.
Proof.
  unfold strlen. induction a as [|c a IH]; cbn [String.append String.length].
  - lia.
  - lia.
Qed.

Lemma append_assoc (a b c : string) : ((a ++ b) ++ c = a ++ (b ++ c))%string.
Proof.
  induction a as [|x a IH]; cbn [String.append]; [reflexivity|].
  now rewrite IH.
Qed.

Lemma append_empty_r (a : string) : (a ++ EmptyString = a)%string.
Proof.
  induction a as [|x a IH]; cbn [String.append]; [reflexivity|].
  now rewrite IH.
Qed.

Lemma take_length n s : (String.length (take n s) <= n)%nat.
Proof.
  revert s. induction n as [|n IH]; intros [|c s]; cbn [take String.length]; try lia.
  specialize (IH s). lia.
Qed.

Lemma take_all n s : (String.length s <= n)%nat -> take n s = s.
Proof.
  revert s. induction n as [|n IH]; intros [|c s]; cbn [take String.length];
    intros H; try reflexivity; try lia.
  rewrite IH by lia. reflexivity.
Qed.

Lemma take_length_exact n s :
  (n <= String.length s)%nat -> String.length (take n s) = n.
Proof.
  revert s. induction n as [|n IH]; intros [|c s]; cbn [take String.length];
    intros H; try reflexivity; try lia.
  rewrite IH by lia. reflexivity.
Qed.

Lemma take_append n a b :
  (take n (a ++ b) = take n a ++ take (n - String.length a) b)%string.
Proof.
  revert n. induction a as [|c a IH]; intros n.
  - cbn [String.append String.length]. rewrite Nat.sub_0_r.
    destruct n; reflexivity.
  - destruct n as [|n]; cbn [String.append String.length take Nat.sub].
    + destruct b; reflexivity.
    + rewrite IH. reflexivity.
Qed.

Lemma join_app l1 l2 : join (l1 ++ l2) = (join l1 ++ join l2)%string.
Proof.
  unfold join. induction l1 as [|x l1 IH]; cbn [app fold_right String.append].
  - reflexivity.
  - rewrite IH. symmetry. apply append_assoc.
Qed.

Lemma snprintf_fit done t :
  strlen done <= REPORT_SIZE ->
  snprintf t (Some (mkReportBuffer (take (Z.to_nat (REPORT_SIZE - 1)) done)
                      (strlen done)))
  = Some (mkReportBuffer (take (Z.to_nat (REPORT_SIZE - 1)) (done ++ t))
            (strlen (done ++ t))).
Proof.
  intros Hd. unfold snprintf. cbn [offset written].
  destruct (REPORT_SIZE <? strlen done) eqn:C; [apply Z.ltb_lt in C; lia|].
  rewrite take_append. rewrite strlen_append.
  f_equal. f_equal. f_equal. f_equal. unfold strlen. lia.
Qed.

(** Once the offset is past the end of the buffer nothing defined is
    sent, whatever is written afterwards. *)
Lemma snprintf_past_end l b :
  (b = None \/
   exists r, b = Some r /\ REPORT_SIZE < offset r
             /\ strlen (written r) < REPORT_SIZE) ->
  send (fold_left (fun b t => snprintf t b) l b) = None.
Proof.
  revert b. induction l as [|x l IHl]; intros b Hb; cbn [fold_left].
  - destruct Hb as [->|[r [-> [R1 R2]]]]; [reflexivity|].
    unfold send.
    destruct (offset r =? strlen (written r)) eqn:C1;
      [apply Z.eqb_eq in C1; lia|].
    destruct (offset r =? strlen (written r) + 1) eqn:C2;
      [apply Z.eqb_eq in C2; lia|]. reflexivity.
  - apply IHl. left.
    destruct Hb as [->|[r [-> [R1 R2]]]]; [reflexivity|].
    unfold snprintf. apply Z.ltb_lt in R1. rewrite R1. reflexivity.
Qed.

(** The buffer after the texts [texts]: while they fit, their first
    [REPORT_SIZE - 1] characters and their whole length. *)
Lemma snprintf_all texts done :
  let b := fold_left (fun b t => snprintf t b) texts
             (Some (mkReportBuffer (take (Z.to_nat (REPORT_SIZE - 1)) done)
                      (strlen done))) in
  strlen done <= REPORT_SIZE ->
  let all := (done ++ join texts)%string in
  (strlen all <= REPORT_SIZE ->
   b = Some (mkReportBuffer (take (Z.to_nat (REPORT_SIZE - 1)) all) (strlen all)))
  /\ (REPORT_SIZE < strlen all -> send b = None).
Proof.
  cbn zeta. revert done. induction texts as [|t texts IH]; intros done Hd.
  - cbn [fold_left join fold_right]. rewrite append_empty_r.
    split; [reflexivity | lia].
  - cbn [fold_left]. rewrite snprintf_fit by exact Hd.
    change (join (t :: texts)) with (t ++ join texts)%string.
    rewrite <- append_assoc.
    destruct (Z_le_gt_dec (strlen (done ++ t)) REPORT_SIZE) as [Fit|Over].
    + apply IH. exact Fit.
    + assert (Long : REPORT_SIZE < strlen ((done ++ t) ++ join texts)).
      { rewrite strlen_append. unfold strlen at 2. lia. }
      split; [lia|]. intros _.
      apply snprintf_past_end. right. eexists. split; [reflexivity|].
      cbn [offset written]. split; [lia|].
      unfold strlen.
      pose proof (take_length (Z.to_nat (REPORT_SIZE - 1)) (done ++ t)).
      unfold REPORT_SIZE, BUFFER_SIZE in *. lia.
Qed.

(** What [send] transmits once the texts have gone through [snprintf]. *)
Lemma snprintf_all_sent texts :
  send (fold_left (fun b t => snprintf t b) texts
          (Some (mkReportBuffer EmptyString 0)))
  = sent texts.
Proof.
  destruct (snprintf_all texts EmptyString) as [F O].
  { unfold REPORT_SIZE, BUFFER_SIZE. cbn. lia. }
  change (take (Z.to_nat (REPORT_SIZE - 1)) EmptyString) with EmptyString in F, O.
  change (strlen EmptyString) with 0 in F, O.
  change (EmptyString ++ join texts)%string with (join texts) in F, O.
  unfold sent. cbn zeta.
  destruct (strlen (join texts) <? REPORT_SIZE) eqn:C1.
  - apply Z.ltb_lt in C1. rewrite F by lia.
    unfold send. cbn [offset written].
    rewrite take_all by (unfold strlen in C1; lia).
    rewrite Z.eqb_refl. reflexivity.
  - apply Z.ltb_ge in C1.
    destruct (strlen (join texts) =? REPORT_SIZE) eqn:C2.
    + apply Z.eqb_eq in C2. rewrite F by lia.
      unfold send. cbn [offset written].
      assert (L : strlen (take (Z.to_nat (REPORT_SIZE - 1)) (join texts))
                  = REPORT_SIZE - 1).
      { unfold strlen. rewrite take_length_exact.
        - unfold REPORT_SIZE, BUFFER_SIZE. lia.
        - unfold strlen in C2. lia. }
      rewrite L.
      destruct (strlen (join texts) =? REPORT_SIZE - 1) eqn:C3;
        [apply Z.eqb_eq in C3; lia|].
      replace (REPORT_SIZE - 1 + 1) with REPORT_SIZE by lia.
      rewrite C2. rewrite Z.eqb_refl. reflexivity.
    + apply Z.eqb_neq in C2. apply O. lia.
Qed.

(** The last loop writes the rows of the tools and reads the clock once for
    every bound tool. *)
Lemma for_each_tool_rows s l b w :
  for_each l (fun i b => row <- tool_row s i ;; ret (snprintf row b)) b w
  = (fold_left (fun b t => snprintf t b) (tool_rows s (clock w) (ticks w) l) b,
     mkWorld (shm w) (stdout w) (clock w) (bound_tools s l + ticks w)).
Proof.
  revert b w. induction l as [|i l IH]; intros b w.
  - destruct w; reflexivity.
  - cbn [for_each tool_rows]. unfold bind at 1, tool_row, bound_tools.
    cbn [filter].
    destruct (current_user (tools s i) =? -1); cbn [negb].
    + unfold bind, ret. rewrite IH. reflexivity.
    + unfold bind, ret, get_current_time_ms. rewrite IH.
      cbn [clock ticks shm stdout fold_left List.length].
      rewrite Nat.add_succ_r. reflexivity.
Qed.

Example report_average_forty :
  report_average (set_total_share 1 (set_total_customers 40 (shm (server 100 500 1))))
  = ("average share: 0.03" ++ newline)%string /\
  fmt_f2 (nearest_double (1 # 8)) = "0.12"%string /\
  fmt_f2 (nearest_double (3 # 8)) = "0.38"%string /\
  fmt_f2 (nearest_double (2675 # 1000)) = "2.67"%string /\
  fmt_f2 (nearest_double (- 1 # 1000)) = "-0.00"%string.
Proof. vm_compute. repeat split. Qed.

Lemma nearest_double_comp x y : (x == y)%Q -> nearest_double x = nearest_double y.
Proof. intros E. unfold nearest_double. rewrite (Qred_complete x y E). reflexivity. Qed.

(** X23. A report changes nothing in the shared region and prints
    nothing; it reads the clock once, and once more for every bound tool.
    The client receives the header, the line of the average share, the
    waiting list and the tools, line after line, as long as the lines are
    shorter than the buffer of [10 * BUFFER_SIZE] bytes together; when they
    fill it exactly the last character is replaced by a zero byte, and when
    they are longer bytes outside the buffer are touched.  The digits of the
    average are [0.00] when there is no customer, and when [total_share] is
    a whole number [n] they are what [%.2f] gives for the double nearest to
    [n / total_customers]; otherwise they depend on the rounding of the
    sums behind [total_share] and are not fixed here. *)
Theorem handle_report_reply (w : World) :
  exists average : string,
    (total_customers (shm w) <= 0 -> average = "0.00"%string) /\
    (forall n, 0 < total_customers (shm w) ->
       (total_share (shm w) == inject_Z n)%Q -> Z.abs n <= 2 ^ 53 ->
       average
       = fmt_f2 (nearest_double (inject_Z n / inject_Z (total_customers (shm w))))) /\
    handle_report w
    = (sent (report_lines average w),
       mkWorld (shm w) (stdout w) (clock w)
         (bound_tools (shm w) (range (num_tools (shm w))) + S (ticks w))).
Proof.
  exists (fmt_f2 (if 0 <? total_customers (shm w)
                  then nearest_double
                         (total_share (shm w) / inject_Z (total_customers (shm w)))
                  else 0%Q)).
  split.
  { intros Z0. destruct (Z.ltb_spec 0 (total_customers (shm w))); [lia | reflexivity]. }
  split.
  { intros n P E _. destruct (Z.ltb_spec 0 (total_customers (shm w))); [|lia].
    f_equal. apply nearest_double_comp. rewrite E. reflexivity. }
  assert (A : report_average (shm w)
              = ("average share: "
                 ++ fmt_f2 (if (0 <? total_customers (shm w))%Z
                            then nearest_double
                                   (total_share (shm w)
                                    / inject_Z (total_customers (shm w)))
                            else 0%Q)
                 ++ newline)%string) by reflexivity.
  unfold handle_report, report_lines. rewrite <- A. clear A.
  unfold bind at 1, get_shm at 1. cbn zeta.
  unfold bind at 1, get_current_time_ms at 1.
  destruct (collect_waiting (shm w) (clock w (ticks w))) as [wait_list wait_count].
  unfold bind at 1. rewrite for_each_tool_rows.
  cbn [shm stdout clock ticks]. unfold ret. f_equal.
  rewrite <- snprintf_all_sent. f_equal.
  cbn [app fold_left]. rewrite !fold_left_app. cbn [fold_left].
  f_equal. f_equal. f_equal. f_equal.
  generalize (range wait_count).
  intros l.
  generalize (snprintf ("---------------------------" ++ newline)
       (snprintf ("customer   duration  share" ++ newline)
          (snprintf ("waiting list:" ++ newline)
             (snprintf (report_average (shm w))
                (snprintf (report_header (shm w))
                   (Some {| written := ""; offset := 0 |})))))).
  induction l as [|x l IH]; intros b; cbn [fold_left List.map]; [reflexivity|].
  apply IH.
Qed.

(** ** The socket thread *)

Lemma c_string_plain a b :
  all_plain a = true -> c_string (a ++ b) = (a ++ c_string b)%string.
Proof.
  induction a as [|c a IH]; cbn [all_plain String.append c_string]; intros H.
  - reflexivity.
  - apply andb_true_iff in H. destruct H as [P A].
    unfold plain in P. apply andb_true_iff in P. destruct P as [_ P].
    apply negb_true_iff in P. rewrite P. rewrite IH by exact A. reflexivity.
Qed.

Lemma c_string_delim d b :
  is_delim d = true -> c_string (String d b) = String d (c_string b).
Proof.
  intros H. cbn [c_string].
  destruct (Ascii.eqb d Ascii.zero) eqn:Z; [|reflexivity].
  apply Ascii.eqb_eq in Z. subst d. discriminate H.
Qed.

Lemma scan_token_plain t d rest :
  all_plain t = true -> is_delim d = true ->
  scan_token (t ++ String d rest) = (t, rest).
Proof.
  intros A D. induction t as [|c t IH]; cbn [String.append scan_token].
  - rewrite D. reflexivity.
  - cbn [all_plain] in A. apply andb_true_iff in A. destruct A as [P A].
    unfold plain in P. apply andb_true_iff in P. destruct P as [P _].
    apply negb_true_iff in P. rewrite P. rewrite IH by exact A. reflexivity.
Qed.

(** [strtok] on a word followed by a delimiter: the word, and the position
    after the delimiter. *)
Lemma strtok_token t d rest :
  is_token t = true -> is_delim d = true ->
  strtok (t ++ String d rest) = Some (t, rest).
Proof.
  intros T D. destruct t as [|c t]; [discriminate T|].
  cbn [is_token] in T.
  assert (P : is_delim c = false).
  { cbn [all_plain] in T. apply andb_true_iff in T. destruct T as [P _].
    unfold plain in P. apply andb_true_iff in P. destruct P as [P _].
    apply negb_true_iff in P. exact P. }
  unfold strtok. cbn [String.append skip_delims]. rewrite P.
  change (String c (t ++ String d rest)) with (String c t ++ String d rest)%string.
  rewrite scan_token_plain by assumption. reflexivity.
Qed.

Lemma strlen_token t rest : is_token t = true -> (strlen (t ++ rest) <=? 0) = false.
Proof.
  intros T. destruct t as [|c t]; [discriminate T|].
  apply Z.leb_gt. unfold strlen. cbn [String.append String.length]. lia.
Qed.

Lemma digits_value_acc u acc :
  digits_value (NilEmpty.string_of_uint u) (Z.pos acc)
  = Z.pos (Pos.of_uint_acc u acc).
Proof.
  revert acc. induction u; intros acc; cbn [NilEmpty.string_of_uint digits_value];
    try reflexivity;
    (change (digit_value _) with (Some 0) || change (digit_value _) with (Some 1)
     || change (digit_value _) with (Some 2) || change (digit_value _) with (Some 3)
     || change (digit_value _) with (Some 4) || change (digit_value _) with (Some 5)
     || change (digit_value _) with (Some 6) || change (digit_value _) with (Some 7)
     || change (digit_value _) with (Some 8) || change (digit_value _) with (Some 9));
    cbv iota; cbn [Pos.of_uint_acc];
    match goal with
    | |- digits_value _ ?a = Z.pos (Pos.of_uint_acc _ ?p) =>
        replace a with (Z.pos p) by lia
    end; apply IHu.
Qed.

Lemma digits_value_uint u :
  digits_value (NilEmpty.string_of_uint u) 0 = Z.of_N (Pos.of_uint u).
Proof.
  induction u; cbn [NilEmpty.string_of_uint digits_value Pos.of_uint];
    try reflexivity;
    (change (digit_value _) with (Some 0) || change (digit_value _) with (Some 1)
     || change (digit_value _) with (Some 2) || change (digit_value _) with (Some 3)
     || change (digit_value _) with (Some 4) || change (digit_value _) with (Some 5)
     || change (digit_value _) with (Some 6) || change (digit_value _) with (Some 7)
     || change (digit_value _) with (Some 8) || change (digit_value _) with (Some 9));
    cbv iota; try exact IHu;
    cbn [Z.of_N]; rewrite <- digits_value_acc; reflexivity.
Qed.

Lemma digits_plain u : all_plain (NilEmpty.string_of_uint u) = true.
Proof.
  induction u; cbn [NilEmpty.string_of_uint all_plain]; try reflexivity;
    rewrite IHu; reflexivity.
Qed.

(** The decimal digits of a positive number: a word that [atoi] reads
    back. *)
Lemma digits_of_positive p :
  let t := NilEmpty.string_of_uint (Pos.to_uint p) in
  is_token t = true
  /\ digits_value t 0 = Z.pos p
  /\ exists c rest, t = String c rest /\ isspace c = false
       /\ Ascii.eqb c "-"%char = false /\ Ascii.eqb c "+"%char = false.
Proof.
  cbn zeta.
  pose proof (DecimalPos.Unsigned.to_uint_nonnil p) as NN.
  split; [|split].
  - pose proof (digits_plain (Pos.to_uint p)) as A.
    destruct (Pos.to_uint p); try contradiction; exact A.
  - rewrite digits_value_uint. rewrite DecimalPos.Unsigned.of_to. reflexivity.
  - destruct (Pos.to_uint p); try contradiction;
      cbn [NilEmpty.string_of_uint]; eexists; eexists;
      (split; [reflexivity|]); repeat split; reflexivity.
Qed.

Lemma fmt_d_positive p :
  fmt_d (Z.pos p) = NilEmpty.string_of_uint (Pos.to_uint p).
Proof.
  unfold fmt_d. cbn [Z.to_int NilZero.string_of_int].
  pose proof (DecimalPos.Unsigned.to_uint_nonnil p) as NN.
  unfold NilZero.string_of_uint.
  destruct (Pos.to_uint p); try contradiction; reflexivity.
Qed.

Lemma fmt_d_negative p :
  fmt_d (Z.neg p) = String "-" (NilEmpty.string_of_uint (Pos.to_uint p)).
Proof.
  unfold fmt_d. cbn [Z.to_int NilZero.string_of_int].
  pose proof (DecimalPos.Unsigned.to_uint_nonnil p) as NN.
  unfold NilZero.string_of_uint.
  destruct (Pos.to_uint p); try contradiction; reflexivity.
Qed.

(** [atoi] reads back what [%d] prints. *)
Lemma atoi_fmt_d z : INT_MIN <= z <= INT_MAX -> atoi (fmt_d z) = Some z.
Proof.
  intros R.
  assert (In : (INT_MIN <=? z) && (z <=? INT_MAX) = true).
  { apply andb_true_iff. split; apply Z.leb_le; lia. }
  destruct z as [|p|p].
  - unfold atoi. cbn [fmt_d]. exact (eq_refl (Some 0)).
  - rewrite fmt_d_positive.
    destruct (digits_of_positive p) as [_ [V [c [rest [E [S1 [S2 S3]]]]]]].
    unfold atoi. rewrite E. cbn [skip_space]. rewrite S1, S2, S3.
    rewrite <- E. rewrite V. rewrite In. reflexivity.
  - rewrite fmt_d_negative.
    destruct (digits_of_positive p) as [_ [V _]].
    unfold atoi. cbn [skip_space].
    change (isspace "-") with false. cbv iota.
    change (Ascii.eqb "-" "-") with true. cbv iota.
    rewrite V. change (- Z.pos p) with (Z.neg p). rewrite In. reflexivity.
Qed.

Lemma fmt_d_token z : is_token (fmt_d z) = true.
Proof.
  destruct z as [|p|p].
  - reflexivity.
  - rewrite fmt_d_positive. apply digits_of_positive.
  - rewrite fmt_d_negative. cbn [is_token all_plain].
    rewrite digits_plain. reflexivity.
Qed.

Lemma is_token_plain t : is_token t = true -> all_plain t = true.
Proof. destruct t; [discriminate | intros H; exact H]. Qed.

Lemma newline_delim : is_delim (Ascii.ascii_of_nat 10) = true.
Proof. reflexivity. Qed.

Lemma space_delim : is_delim Ascii.Space = true.
Proof. reflexivity. Qed.

(** The buffer for a chunk that starts with two words. *)
Lemma two_words_buffer cmd arg rest :
  is_token cmd = true -> is_token arg = true ->
  strtok (c_string (cmd ++ " " ++ arg ++ newline ++ rest))
  = Some (cmd, (arg ++ newline ++ c_string rest)%string)
  /\ strtok (arg ++ newline ++ c_string rest) = Some (arg, c_string rest).
Proof.
  intros C A.
  rewrite c_string_plain by (apply is_token_plain; exact C).
  change (" " ++ arg ++ newline ++ rest)%string
    with (String Ascii.Space (arg ++ newline ++ rest)).
  rewrite c_string_delim by reflexivity.
  rewrite c_string_plain by (apply is_token_plain; exact A).
  change (newline ++ rest)%string with (String (Ascii.ascii_of_nat 10) rest).
  rewrite c_string_delim by reflexivity.
  split.
  - apply strtok_token; [exact C | reflexivity].
  - change (newline ++ c_string rest)%string
      with (String (Ascii.ascii_of_nat 10) (c_string rest)).
    apply strtok_token; [exact A | reflexivity].
Qed.

Lemma one_word_buffer cmd rest :
  is_token cmd = true ->
  strtok (c_string (cmd ++ newline ++ rest)) = Some (cmd, c_string rest).
Proof.
  intros C.
  rewrite c_string_plain by (apply is_token_plain; exact C).
  change (newline ++ rest)%string with (String (Ascii.ascii_of_nat 10) rest).
  rewrite c_string_delim by reflexivity.
  apply strtok_token; [exact C | reflexivity].
Qed.

(** X24. A line [REQUEST d] with a duration that [%d] has printed is read
    back exactly: for a positive [d] the turn is [handle_request] for the
    customer with the duration [d], and for [d <= 0] the line is dropped
    without any effect.  What follows the line in the same chunk plays no
    part. *)
Theorem request_line_parsed (idx d : Z) (rest : string) (w : World) :
  INT_MIN <= d <= INT_MAX ->
  socket_turn idx (Some ("REQUEST " ++ fmt_d d ++ newline ++ rest)%string) w
  = if 0 <? d then (Continue None, exec (handle_request idx d) w)
    else (Continue None, w).
Proof.
  intros R. unfold socket_turn.
  change ("REQUEST " ++ fmt_d d ++ newline ++ rest)%string
    with ("REQUEST" ++ " " ++ fmt_d d ++ newline ++ rest)%string.
  rewrite strlen_token by reflexivity.
  destruct (two_words_buffer "REQUEST" (fmt_d d) rest eq_refl (fmt_d_token d))
    as [T1 T2].
  rewrite T1. change (String.eqb "REQUEST" "REQUEST") with true. cbv iota.
  rewrite T2. rewrite atoi_fmt_d by exact R.
  destruct (0 <? d); [|reflexivity].
  unfold bind, ret, exec. destruct (handle_request idx d w) as [[] w']. reflexivity.
Qed.

Lemma request_line_parsed_witness :
  INT_MIN <= 500 <= INT_MAX /\
  socket_turn 0 (Some ("REQUEST " ++ fmt_d 500 ++ newline ++ "REPORT")%string)
    w_starved
  = (Continue None, exec (handle_request 0 500) w_starved).
Proof.
  split; [unfold INT_MIN, INT_MAX; lia|].
  exact (request_line_parsed 0 500 "REPORT" w_starved
           ltac:(unfold INT_MIN, INT_MAX; lia)).
Defined.

(** X25. Only the first command of a received chunk is carried out: what
    follows the line of a two-word command, or the line of a one-word
    command other than [REQUEST], is discarded with the buffer. *)
Theorem socket_turn_first_command (idx : Z) (cmd arg rest : string) :
  is_token cmd = true -> is_token arg = true ->
  socket_turn idx (Some (cmd ++ " " ++ arg ++ newline ++ rest)%string)
  = socket_turn idx (Some (cmd ++ " " ++ arg ++ newline)%string)
  /\ (cmd <> "REQUEST"%string ->
      socket_turn idx (Some (cmd ++ newline ++ rest)%string)
      = socket_turn idx (Some (cmd ++ newline)%string)).
Proof.
  intros C A. split.
  - unfold socket_turn.
    rewrite !strlen_token by exact C.
    destruct (two_words_buffer cmd arg rest C A) as [T1 T2].
    assert (E : (cmd ++ " " ++ arg ++ newline)%string
                = (cmd ++ " " ++ arg ++ newline ++ EmptyString)%string).
    { reflexivity. }
    destruct (two_words_buffer cmd arg EmptyString C A) as [U1 U2].
    rewrite E. rewrite T1, U1.
    destruct (String.eqb cmd "REQUEST"); [|reflexivity].
    rewrite T2, U2. reflexivity.
  - intros N. unfold socket_turn.
    rewrite !strlen_token by exact C.
    rewrite one_word_buffer by exact C.
    assert (E : (cmd ++ newline)%string = (cmd ++ newline ++ EmptyString)%string).
    { reflexivity. }
    rewrite E. rewrite one_word_buffer by exact C.
    apply String.eqb_neq in N. rewrite N. reflexivity.
Qed.

Lemma socket_turn_first_command_witness :
  socket_turn 0
    (Some ("REQUEST" ++ " " ++ "500" ++ newline ++ "REPORT" ++ newline)%string)
  = socket_turn 0 (Some ("REQUEST" ++ " " ++ "500" ++ newline)%string)
  /\ socket_turn 0 (Some ("REST" ++ newline ++ "REQUEST 500" ++ newline)%string)
     = socket_turn 0 (Some ("REST" ++ newline)%string).
Proof.
  destruct (socket_turn_first_command 0 "REQUEST" "500"
              ("REPORT" ++ newline)%string eq_refl eq_refl) as [H _].
  destruct (socket_turn_first_command 0 "REST" "x"
              ("REQUEST 500" ++ newline)%string eq_refl eq_refl) as [_ K].
  split; [exact H | apply K; discriminate].
Defined.

(** ** A request from a customer that holds a tool *)

Lemma call_heap_shm f w :
  exists h, shm (exec (call_heap f) w) = set_heap h (shm w).
Proof.
  unfold exec, call_heap. destruct (f (heap (shm w))) as [[r h] out].
  exists h. reflexivity.
Qed.

(** Queueing a customer writes its state and the queue, and leaves the tools
    and the other customers alone. *)
Lemma enqueue_waiting_frame w x :
  let s' := shm (exec (enqueue_waiting x) w) in
  tools s' = tools (shm w) /\ num_tools s' = num_tools (shm w) /\
  state (customers s' x) = CUSTOMER_STATE_WAITING /\
  current_tool (customers s' x) = current_tool (customers (shm w) x) /\
  (forall c, c <> x -> customers s' c = customers (shm w) c).
Proof.
  cbn zeta. unfold enqueue_waiting.
  rewrite exec_bind. rewrite exec_bind. rewrite exec_bind. rewrite exec_bind.
  rewrite exec_modify.
  match goal with
  | |- context [exec (heap_insert x) ?w0] =>
      destruct (call_heap_shm (Heap.heap_insert x) w0) as [h E]
  end.
  unfold heap_insert. rewrite E. clear E.
  rewrite !exec_modify.
  unfold exec, get_current_time_ms. cbn [snd fst shm].
  unfold on_customer. cbn. rewrite upd_eq. cbn.
  repeat split. intros c Hc. rewrite upd_ne by exact Hc. reflexivity.
Qed.

(** Taking a customer off its tool frees that tool only and changes no
    state. *)
Lemma remove_customer_from_tool_frame w x ev :
  current_tool (customers (shm w) x) <> -1 ->
  let s' := shm (exec (remove_customer_from_tool x ev) w) in
  num_tools s' = num_tools (shm w)
  /\ (forall t, current_user (tools s' t)
               = if t =? current_tool (customers (shm w) x) then -1
                 else current_user (tools (shm w) t))
  /\ (forall c, state (customers s' c) = state (customers (shm w) c))
  /\ (forall c, current_tool (customers s' c)
               = if c =? x then -1 else current_tool (customers (shm w) c)).
Proof.
  intros H. cbn zeta. rewrite remove_customer_from_tool_exec.
  destruct (Z.eqb_spec (current_tool (customers (shm w) x)) (-1)) as [E|_];
    [contradiction|].
  cbn [shm]. split; [reflexivity|]. split; [|split].
  - intros t. apply unbound_current_user.
  - intros c. apply unbound_state.
  - intros c. apply unbound_current_tool.
Qed.

(** Binding a customer that is not Waiting writes that customer and that
    tool only. *)
Lemma assign_tool_to_customer_frame w x tool :
  state (customers (shm w) x) <> CUSTOMER_STATE_WAITING ->
  let s' := shm (exec (assign_tool_to_customer x tool) w) in
  num_tools s' = num_tools (shm w)
  /\ (forall t, current_user (tools s' t)
               = if t =? tool then x else current_user (tools (shm w) t))
  /\ current_tool (customers s' x) = tool.
Proof.
  intros H. cbn zeta. rewrite assign_tool_to_customer_exec. cbn zeta.
  assert (E : CustomerState_eqb (state (customers (shm w) x)) CUSTOMER_STATE_WAITING
              = false).
  { destruct (state (customers (shm w) x)); try reflexivity. contradiction. }
  rewrite E. cbn [when]. rewrite exec_ret. cbn [shm].
  split; [reflexivity|]. split.
  - intros t. apply bound_current_user.
  - rewrite bound_current_tool. rewrite Z.eqb_refl. reflexivity.
Qed.

(** The search for a tool, for a requester that holds the tool [t]. *)
Lemma placement_while_using w idx t :
  (forall t, 0 <= t < num_tools (shm w) -> current_user (tools (shm w) t) <> -1 ->
     state (customers (shm w) (current_user (tools (shm w) t))) = CUSTOMER_STATE_USING
     /\ current_tool (customers (shm w) (current_user (tools (shm w) t))) = t) ->
  0 <= t < num_tools (shm w) ->
  current_user (tools (shm w) t) = idx -> idx <> -1 ->
  let s := shm w in
  let s' := shm (exec (request_placement idx) w) in
  let free := find_free_tool s in
  let victim := find_preemption_candidate (share (customers s idx)) s in
  free <> -1 \/ victim <> t ->
  current_user (tools s' t) = idx
  /\ num_tools s' = num_tools s
  /\ (state (customers s' idx) = CUSTOMER_STATE_WAITING
      \/ current_tool (customers s' idx) <> t)
  /\ (if free =? -1 then
        if victim =? -1 then state (customers s' idx) = CUSTOMER_STATE_WAITING
        else current_user (tools s' victim) = idx
             /\ current_tool (customers s' idx) = victim
      else current_user (tools s' free) = idx
           /\ current_tool (customers s' idx) = free).
Proof.
  intros T Ht Hu Hx. cbn zeta. intros Hc.
  destruct (T t Ht ltac:(rewrite Hu; exact Hx)) as [Sx Tx].
  rewrite Hu in Sx, Tx.
  assert (NW : state (customers (shm w) idx) <> CUSTOMER_STATE_WAITING)
    by (rewrite Sx; discriminate).
  destruct (Z.eqb_spec (find_free_tool (shm w)) (-1)) as [Fr|Fr].
  - destruct Hc as [Hc|Hc]; [contradiction|].
    destruct (Z.eqb_spec (find_preemption_candidate
                            (share (customers (shm w) idx)) (shm w)) (-1)) as [Vi|Vi].
    + (* the requester is queued *)
      rewrite placement_enqueue by assumption.
      destruct (enqueue_waiting_frame w idx) as [E1 [E2 [E3 _]]].
      rewrite E1. split; [exact Hu|]. split; [exact E2|].
      split; [left; exact E3 | exact E3].
    + (* another tool is preempted *)
      pose proof (placement_preempt w idx Fr) as P. cbn zeta in P.
      rewrite (P Vi). clear P.
      destruct (find_preemption_candidate_range (shm w) _ Vi) as [Rv Uv].
      destruct (T _ Rv Uv) as [Su Tu].
      revert Hc Vi Rv Uv Su Tu.
      generalize (find_preemption_candidate (share (customers (shm w) idx)) (shm w)).
      intros victim Hc Vi Rv Uv Su Tu.
      revert Uv Su Tu. generalize (current_user (tools (shm w) victim)).
      intros u Uv Su Tu.
      assert (Nu : idx <> u).
      { intros E. apply Hc. rewrite <- Tu, <- E. exact Tx. }
      destruct (remove_customer_from_tool_frame w u EVENT_TOOL_REMOVED)
        as [R1 [R2 [R3 R4]]]; [rewrite Tu; exact Vi|].
      revert R1 R2 R3 R4.
      generalize (exec (remove_customer_from_tool u EVENT_TOOL_REMOVED) w).
      intros w2 R1 R2 R3 R4.
      destruct (enqueue_waiting_frame w2 u) as [E1 [E2 [_ [_ E5]]]].
      revert E1 E2 E5. generalize (exec (enqueue_waiting u) w2).
      intros w3 E1 E2 E5.
      destruct (assign_tool_to_customer_frame w3 idx victim) as [A1 [A2 A3]].
      { rewrite E5 by exact Nu. rewrite R3, Sx. discriminate. }
      rewrite !A2, A3, Z.eqb_refl.
      assert (U3 : current_user (tools (shm w3) t) = idx).
      { rewrite E1, R2, Tu.
        destruct (Z.eqb_spec t victim) as [E|_]; [symmetry in E; contradiction | exact Hu]. }
      rewrite U3.
      split; [destruct (t =? victim); reflexivity|].
      split; [rewrite A1, E2, R1; reflexivity|].
      split; [right; exact Hc|]. split; reflexivity.
  - (* a free tool *)
    destruct (find_free_tool_spec (shm w) Fr) as [Rf Uf].
    rewrite placement_free by exact Fr.
    revert Fr Rf Uf. generalize (find_free_tool (shm w)). intros free Fr Rf Uf.
    assert (Nf : free <> t).
    { intros E. rewrite E, Hu in Uf. contradiction. }
    destruct (assign_tool_to_customer_frame w idx free NW) as [A1 [A2 A3]].
    rewrite !A2, A3, Z.eqb_refl, Hu.
    split; [destruct (t =? free); reflexivity|].
    split; [exact A1|]. split; [right; exact Nf|]. split; reflexivity.
Qed.

(** X26. [handle_request] does not look at the tool that the requester
    may hold.  When a customer that holds the tool [t] requests again, it
    stays the user of [t] unless the tool chosen for preemption is [t]
    itself: with a free tool it becomes the user of that tool as well, with
    another tool to preempt it takes that one as well, and with none it is
    put in the queue while it holds [t].  [sched_inv] is lost in each of
    the three cases. *)
Theorem request_while_using (w : World) (idx d t : Z) :
  sched_inv (shm w) -> 0 <= t < num_tools (shm w) ->
  current_user (tools (shm w) t) = idx -> idx <> -1 ->
  let s := shm w in
  let s' := shm (exec (handle_request idx d) w) in
  let free := find_free_tool s in
  let victim := find_preemption_candidate (share (customers s idx)) s in
  free <> -1 \/ victim <> t ->
  current_user (tools s' t) = idx
  /\ (if free =? -1 then
        if victim =? -1 then state (customers s' idx) = CUSTOMER_STATE_WAITING
        else current_user (tools s' victim) = idx
             /\ current_tool (customers s' idx) = victim
      else current_user (tools s' free) = idx
           /\ current_tool (customers s' idx) = free)
  /\ ~ sched_inv s'.
Proof.
  intros I Ht Hu Hx. cbn zeta. intros Hc.
  destruct (si_tools _ I t Ht ltac:(rewrite Hu; exact Hx)) as [Rx [Sx Tx]].
  rewrite Hu in Sx.
  rewrite handle_request_exec. rewrite Sx.
  unfold request_entry. rewrite exec_ret. rewrite exec_modify.
  match goal with
  | |- context [exec (request_placement idx) ?w0] =>
      assert (T1 : tools (shm w0) = tools (shm w)) by reflexivity;
      assert (N1 : num_tools (shm w0) = num_tools (shm w)) by reflexivity;
      assert (Q1 : param_q (shm w0) = param_q (shm w)) by reflexivity;
      assert (Sh1 : forall c, share (customers (shm w0) c) = share (customers (shm w) c))
        by (intros c; cbn [shm]; unfold on_customer; cbn; unfold upd;
            destruct (c =? idx) eqn:E; [apply Z.eqb_eq in E; subst c|]; reflexivity);
      assert (St1 : forall c, state (customers (shm w0) c) = state (customers (shm w) c))
        by (intros c; cbn [shm]; unfold on_customer; cbn; unfold upd;
            destruct (c =? idx) eqn:E; [apply Z.eqb_eq in E; subst c|]; reflexivity);
      assert (Ct1 : forall c, current_tool (customers (shm w0) c)
                              = current_tool (customers (shm w) c))
        by (intros c; cbn [shm]; unfold on_customer; cbn; unfold upd;
            destruct (c =? idx) eqn:E; [apply Z.eqb_eq in E; subst c|]; reflexivity);
      revert T1 N1 Q1 Sh1 St1 Ct1; generalize w0
  end.
  intros w1 T1 N1 Q1 Sh1 St1 Ct1.
  assert (F1 : find_free_tool (shm w1) = find_free_tool (shm w))
    by (apply find_free_tool_ext; assumption).
  assert (V1 : find_preemption_candidate (share (customers (shm w1) idx)) (shm w1)
               = find_preemption_candidate (share (customers (shm w) idx)) (shm w)).
  { rewrite Sh1. apply find_preemption_candidate_ext; assumption. }
  destruct (placement_while_using w1 idx t) as [P1 [P2 [P3 P4]]].
  - intros t0 H0 U0. rewrite N1 in H0. rewrite T1 in U0 |- *.
    rewrite St1, Ct1.
    destruct (si_tools _ I t0 H0 U0) as [_ [S0 T0]]. split; assumption.
  - rewrite N1. exact Ht.
  - rewrite T1. exact Hu.
  - exact Hx.
  - rewrite F1, V1. exact Hc.
  - rewrite F1, V1 in P4.
    split; [exact P1|]. split; [exact P4|].
    intros I2.
    destruct (si_tools _ I2 t ltac:(rewrite P2, N1; exact Ht)
                ltac:(rewrite P1; exact Hx)) as [_ [S2 T2]].
    rewrite P1 in S2, T2.
    destruct P3 as [D|D]; [rewrite D in S2; discriminate | contradiction].
Qed.

Lemma request_while_using_witness :
  (let s' := shm (exec (handle_request 1023 70) w_second_free) in
   current_user (tools s' 0) = 1023
   /\ (current_user (tools s' 1) = 1023 /\ current_tool (customers s' 1023) = 1)
   /\ ~ sched_inv s')
  /\ (let s' := shm (exec (handle_request 1023 70) w_using) in
      current_user (tools s' 0) = 1023
      /\ state (customers s' 1023) = CUSTOMER_STATE_WAITING
      /\ ~ sched_inv s').
Proof.
  split.
  - apply (request_while_using w_second_free 1023 70 0).
    + apply sched_invb_sound. vm_compute. reflexivity.
    + vm_compute. split; [discriminate | reflexivity].
    + vm_compute. reflexivity.
    + discriminate.
    + left. vm_compute. discriminate.
  - apply (request_while_using w_using 1023 70 0).
    + apply sched_invb_sound. vm_compute. reflexivity.
    + vm_compute. split; [discriminate | reflexivity].
    + vm_compute. reflexivity.
    + discriminate.
    + right. vm_compute. discriminate.
Defined.

(** ** A turn of the socket thread and the invariants *)

Lemma handle_report_shm w : shm (exec handle_report w) = shm w.
Proof.
  unfold handle_report, exec.
  unfold bind at 1, get_shm at 1. cbn zeta.
  unfold bind at 1, get_current_time_ms at 1.
  destruct (collect_waiting (shm w) (clock w (ticks w))) as [wait_list wait_count].
  unfold bind at 1. rewrite for_each_tool_rows. reflexivity.
Qed.

(** X27. Whatever bytes arrive from a customer that is Resting or
    Waiting, a turn of the socket thread with a defined behaviour keeps
    [sched_inv]: the only commands carried out are [handle_request],
    [handle_rest] and [handle_report] for that customer. *)
Theorem socket_turn_keeps_invariants (w : World) (idx : Z)
        (received : option string) :
  sched_inv (shm w) -> 0 <= idx < MAX_CUSTOMERS ->
  state (customers (shm w) idx) = CUSTOMER_STATE_RESTING \/
  state (customers (shm w) idx) = CUSTOMER_STATE_WAITING ->
  fst (socket_turn idx received w) <> Undefined ->
  sched_inv (shm (exec (socket_turn idx received) w)).
Proof.
  intros I Hx St. unfold socket_turn.
  destruct (_ <=? 0); [intros _; exact I|].
  destruct (strtok _) as [[cmd saved]|]; [|intros _; exact I].
  destruct (String.eqb cmd "REQUEST").
  { destruct (strtok saved) as [[duration_str after]|]; [|intros _; exact I].
    destruct (atoi duration_str) as [duration|]; [|intros D; exfalso; apply D; reflexivity].
    destruct (0 <? duration); [|intros _; exact I].
    intros _. rewrite exec_bind, exec_ret.
    apply handle_request_sched_inv; assumption. }
  destruct (String.eqb cmd "REST").
  { intros _. rewrite exec_bind, exec_ret.
    apply handle_rest_sched_inv; assumption. }
  destruct (String.eqb cmd "REPORT").
  { intros _. rewrite exec_bind, exec_ret. rewrite handle_report_shm. exact I. }
  destruct (String.eqb cmd "QUIT"); intros _; exact I.
Qed.

Lemma socket_turn_keeps_invariants_witness :
  sched_inv (shm (exec (socket_turn 1022 (Some ("REQUEST 1000" ++ newline)%string))
                   w_busy))
  /\ sched_inv (shm (exec (socket_turn 1022 (Some ("REST" ++ newline)%string))
                      w_starved)).
Proof.
  split.
  - apply (socket_turn_keeps_invariants w_busy 1022).
    + apply sched_invb_sound. vm_compute. reflexivity.
    + unfold MAX_CUSTOMERS. lia.
    + left. vm_compute. reflexivity.
    + vm_compute. discriminate.
  - apply (socket_turn_keeps_invariants w_starved 1022).
    + apply sched_invb_sound. vm_compute. reflexivity.
    + unfold MAX_CUSTOMERS. lia.
    + right. vm_compute. reflexivity.
    + vm_compute. discriminate.
Defined.

(** ** A requester that preempts itself *)

(** Binding a customer that has left the queue and the tools. *)
Lemma loose_bound T s x tool now :
  loose_inv (with_transit T x) s -> ~ T x -> 0 <= x < MAX_CUSTOMERS ->
  loose_inv T (bound_shm x tool now s).
Proof.
  intros L NT Hx. destruct L as [B M Q A Tl].
  constructor; rewrite ?bound_heap; try assumption.
  - intros c Hc N. rewrite bound_state.
    destruct (Z.eqb_spec c x) as [->|Ne].
    + split; [|discriminate].
      intros I. exfalso. apply (A x); [right; reflexivity | exact I].
    + apply Q; [exact Hc|]. intros [Tc|X]; contradiction.
  - intros c Tc. apply A. left. exact Tc.
  - intros t Ht. rewrite bound_current_user, bound_state, bound_current_tool.
    destruct (Z.eqb_spec t tool) as [->|Nt].
    + intros _. rewrite Z.eqb_refl. repeat split; try assumption; lia.
    + intros Bt. destruct (Tl t Ht Bt) as [R [N [U C]]].
      assert (Nx : current_user (tools s t) <> x).
      { intros X. apply N. right. exact X. }
      destruct (Z.eqb_spec (current_user (tools s t)) x); [contradiction|].
      split; [exact R|]. split; [intros Tc; apply N; left; exact Tc|].
      split; assumption.
Qed.

(** Binding a customer that waits in the queue: it leaves the queue
    first. *)
Lemma loose_bind_queued T w x tool :
  loose_inv T (shm w) -> ~ T x -> 0 <= x < MAX_CUSTOMERS ->
  state (customers (shm w) x) = CUSTOMER_STATE_WAITING ->
  loose_inv T (shm (exec (assign_tool_to_customer x tool) w)).
Proof.
  intros L NT Hx W.
  rewrite assign_tool_to_customer_exec. cbn zeta. rewrite W.
  cbn [CustomerState_eqb when]. cbn [shm].
  apply loose_bound; [|exact NT | exact Hx].
  apply loose_leave; assumption.
Qed.

Lemma requeued_customers wc h s :
  customers (set_waiting_count wc (set_heap h s)) = customers s.
Proof. reflexivity. Qed.

Lemma requeued_tools wc h s :
  tools (set_waiting_count wc (set_heap h s)) = tools s.
Proof. reflexivity. Qed.

Lemma requeued_heap wc h s : heap (set_waiting_count wc (set_heap h s)) = h.
Proof. reflexivity. Qed.

Lemma bound_waiting_count x tool now s :
  waiting_count (bound_shm x tool now s) = waiting_count s.
Proof. reflexivity. Qed.

(** The search for a tool, for a requester that holds the tool chosen for
    preemption. *)
Lemma placement_preempts_requester w idx t :
  sched_inv (shm w) -> 0 <= t < num_tools (shm w) ->
  current_user (tools (shm w) t) = idx -> idx <> -1 ->
  find_free_tool (shm w) = -1 ->
  find_preemption_candidate (share (customers (shm w) idx)) (shm w) = t ->
  let s := shm w in
  let s' := shm (exec (request_placement idx) w) in
  let usage := to_int (clock w (ticks w) - session_start (customers s idx)) in
  sched_inv s'
  /\ current_user (tools s' t) = idx
  /\ share (customers s' idx) = (share (customers s idx) + inject_Z usage)%Q
  /\ total_usage (tools s' t) = total_usage (tools s t) + usage
  /\ session_start (customers s' idx) = clock w (S (S (ticks w)))
  /\ remaining_duration (customers s' idx) = remaining_duration (customers s idx)
  /\ waiting_count s' = waiting_count s
  /\ num_tools s' = num_tools s
  /\ (forall c, Heap.in_heap (heap s') c <-> Heap.in_heap (heap s) c).
Proof.
  intros I Ht Hu Hx Fr Vi. cbn zeta.
  destruct (si_tools _ I t Ht ltac:(rewrite Hu; exact Hx)) as [Rx [Sx Tx]].
  rewrite Hu in Rx, Sx, Tx.
  assert (NI : ~ Heap.in_heap (hp w) idx).
  { apply sched_not_queued; [exact I | exact Rx | rewrite Sx; discriminate]. }
  assert (Nt : t <> -1) by lia.
  pose proof (placement_preempt w idx Fr) as P. cbn zeta in P.
  rewrite Vi, Hu in P. rewrite (P Nt). clear P.
  split.
  { apply sched_loose.
    destruct (enqueue_waiting_frame
                (exec (remove_customer_from_tool idx EVENT_TOOL_REMOVED) w) idx)
      as [_ [_ [W3 _]]].
    apply loose_bind_queued; [|intros [] | exact Rx | exact W3].
    apply loose_enqueue; [|intros [] | exact Rx].
    apply loose_unbind; [apply sched_loose; exact I | exact NI]. }
  destruct (unbind_and_enqueue w idx t (si_backmap _ I) (si_min _ I) Rx NI Tx Nt)
    as [h4 [out [J E]]].
  cbn zeta in J, E. rewrite E. clear E.
  match goal with
  | |- context [exec (assign_tool_to_customer idx t) ?w0] =>
      destruct (assign_tool_to_customer_spec w0 idx t) as [h' [wc [E [W _]]]];
        [exact (jq_backmap _ _ _ _ J) | exact (jq_min _ _ _ _ J) | exact Rx |]
  end.
  rewrite E. clear E. cbn [shm clock ticks].
  destruct W as [L Wc].
  { cbn [shm]. rewrite enqueued_customers, Z.eqb_refl. reflexivity. }
  cbn [shm waiting_count set_waiting_count] in Wc.
  split; [rewrite bound_current_user, Z.eqb_refl; reflexivity|].
  split.
  { rewrite bound_share.
    rewrite requeued_customers.
    rewrite enqueued_customers, Z.eqb_refl.
    cbn [share set_wait_start set_state].
    rewrite unbound_share, Z.eqb_refl. reflexivity. }
  split.
  { rewrite bound_total_usage.
    rewrite requeued_tools.
    rewrite enqueued_tools.
    rewrite unbound_total_usage, Tx, Z.eqb_refl. reflexivity. }
  split.
  { rewrite bound_customer. reflexivity. }
  split.
  { rewrite bound_remaining.
    rewrite requeued_customers.
    rewrite enqueued_customers, Z.eqb_refl.
    cbn [remaining_duration set_wait_start set_state].
    rewrite unbound_customer. reflexivity. }
  split.
  { rewrite bound_waiting_count. cbn [waiting_count set_waiting_count].
    rewrite Wc. lia. }
  split; [reflexivity|].
  intros c. rewrite bound_heap.
  rewrite requeued_heap.
  rewrite (lq_in _ _ _ L). unfold hp. cbn [shm heap set_waiting_count set_heap].
  rewrite (jq_in _ _ _ _ J). unfold hp in NI.
  split.
  - intros [[C|C] N]; [exact C | contradiction].
  - intros C. split; [left; exact C|]. intros ->. contradiction.
Qed.

(** X28. A customer that holds the tool chosen for preemption and
    requests again, with no tool free, preempts itself: it is taken off its
    tool, queued, and bound to the same tool again.  [sched_inv] is kept and
    the queue holds the same customers; the customer's share and the tool's
    total usage are charged with the time used so far, and a new session
    starts with the new duration. *)
Theorem request_preempts_requester (w : World) (idx d t : Z) :
  sched_inv (shm w) -> 0 <= t < num_tools (shm w) ->
  current_user (tools (shm w) t) = idx -> idx <> -1 ->
  let s := shm w in
  find_free_tool s = -1 ->
  find_preemption_candidate (share (customers s idx)) s = t ->
  let s' := shm (exec (handle_request idx d) w) in
  let usage := to_int (clock w (ticks w) - session_start (customers s idx)) in
  sched_inv s'
  /\ current_user (tools s' t) = idx
  /\ state (customers s' idx) = CUSTOMER_STATE_USING
  /\ current_tool (customers s' idx) = t
  /\ share (customers s' idx) = (share (customers s idx) + inject_Z usage)%Q
  /\ total_usage (tools s' t) = total_usage (tools s t) + usage
  /\ session_start (customers s' idx) = clock w (S (S (ticks w)))
  /\ remaining_duration (customers s' idx) = d
  /\ waiting_count s' = waiting_count s
  /\ (forall c, Heap.in_heap (heap s') c <-> Heap.in_heap (heap s) c).
Proof.
  intros I Ht Hu Hx. cbn zeta. intros Fr Vi.
  destruct (si_tools _ I t Ht ltac:(rewrite Hu; exact Hx)) as [Rx [Sx Tx]].
  rewrite Hu in Sx.
  rewrite handle_request_exec. rewrite Sx.
  unfold request_entry. rewrite exec_ret. rewrite exec_modify.
  match goal with
  | |- context [exec (request_placement idx) ?w0] =>
      assert (T1 : tools (shm w0) = tools (shm w)) by reflexivity;
      assert (N1 : num_tools (shm w0) = num_tools (shm w)) by reflexivity;
      assert (Q1 : param_q (shm w0) = param_q (shm w)) by reflexivity;
      assert (H1 : heap (shm w0) = heap (shm w)) by reflexivity;
      assert (W1 : waiting_count (shm w0) = waiting_count (shm w)) by reflexivity;
      assert (K1 : clock w0 = clock w) by reflexivity;
      assert (J1 : ticks w0 = ticks w) by reflexivity;
      assert (Sh1 : forall c, share (customers (shm w0) c) = share (customers (shm w) c))
        by (intros c; cbn [shm]; unfold on_customer; cbn; unfold upd;
            destruct (c =? idx) eqn:E; [apply Z.eqb_eq in E; subst c|]; reflexivity);
      assert (St1 : forall c, state (customers (shm w0) c) = state (customers (shm w) c))
        by (intros c; cbn [shm]; unfold on_customer; cbn; unfold upd;
            destruct (c =? idx) eqn:E; [apply Z.eqb_eq in E; subst c|]; reflexivity);
      assert (Ct1 : forall c, current_tool (customers (shm w0) c)
                              = current_tool (customers (shm w) c))
        by (intros c; cbn [shm]; unfold on_customer; cbn; unfold upd;
            destruct (c =? idx) eqn:E; [apply Z.eqb_eq in E; subst c|]; reflexivity);
      assert (Ss1 : session_start (customers (shm w0) idx)
                    = session_start (customers (shm w) idx))
        by (cbn [shm]; unfold on_customer; cbn; rewrite upd_eq; reflexivity);
      assert (Rd1 : remaining_duration (customers (shm w0) idx) = d)
        by (cbn [shm]; unfold on_customer; cbn; rewrite upd_eq; reflexivity);
      revert T1 N1 Q1 H1 W1 K1 J1 Sh1 St1 Ct1 Ss1 Rd1; generalize w0
  end.
  intros w1 T1 N1 Q1 H1 W1 K1 J1 Sh1 St1 Ct1 Ss1 Rd1.
  assert (I1 : sched_inv (shm w1)).
  { apply sched_loose.
    apply (loose_frame none_in_transit (shm w)); try assumption.
    - intros t0. rewrite T1. reflexivity.
    - intros c _. apply St1.
    - intros c _. apply Ct1.
    - apply sched_loose. exact I. }
  destruct (placement_preempts_requester w1 idx t I1) as [P1 [P2 [P3 [P4 [P5 [P6 [P7 [P9 P8]]]]]]]].
  - rewrite N1. exact Ht.
  - rewrite T1. exact Hu.
  - exact Hx.
  - rewrite <- Fr. apply find_free_tool_ext; assumption.
  - rewrite Sh1. rewrite <- Vi. apply find_preemption_candidate_ext; assumption.
  - destruct (si_tools _ P1 t ltac:(rewrite P9, N1; exact Ht)
                ltac:(rewrite P2; exact Hx)) as [_ [S2 T2]].
    rewrite P2 in S2, T2.
    split; [exact P1|]. split; [exact P2|]. split; [exact S2|]. split; [exact T2|].
    split; [rewrite P3, Sh1, K1, J1, Ss1; reflexivity|].
    split; [rewrite P4, T1, K1, J1, Ss1; reflexivity|].
    split; [rewrite P5, K1, J1; reflexivity|].
    split; [rewrite P6; exact Rd1|].
    split; [rewrite P7; exact W1|].
    intros c. rewrite P8, H1. reflexivity.
Qed.

Lemma request_preempts_requester_witness :
  let s' := shm (exec (handle_request 1023 70) w_busy) in
  sched_inv s'
  /\ current_user (tools s' 0) = 1023
  /\ state (customers s' 1023) = CUSTOMER_STATE_USING
  /\ current_tool (customers s' 1023) = 0
  /\ share (customers s' 1023) = (0 + inject_Z 160)%Q
  /\ total_usage (tools s' 0) = 0 + 160
  /\ session_start (customers s' 1023) = 190
  /\ remaining_duration (customers s' 1023) = 70
  /\ waiting_count s' = 0
  /\ (forall c, Heap.in_heap (heap s') c <-> Heap.in_heap (heap (shm w_busy)) c).
Proof.
  apply (request_preempts_requester w_busy 1023 70 0).
  - apply sched_invb_sound. vm_compute. reflexivity.
  - vm_compute. split; [discriminate | reflexivity].
  - vm_compute. reflexivity.
  - discriminate.
  - vm_compute. reflexivity.
  - vm_compute. reflexivity.
Defined.

(** ** The customer table under the commands and the tool runner *)

Lemma quiet_refl s : quiet s s.
Proof. constructor; try reflexivity. intros c D. split; [exact D | trivial]. Qed.

Lemma quiet_trans s1 s2 s3 : quiet s1 s2 -> quiet s2 s3 -> quiet s1 s3.
Proof.
  intros [C1 S1 T1 D1] [C2 S2 T2 D2]. constructor; try congruence.
  intros c D. destruct (D1 c D) as [E1 A1]. destruct (D2 c E1) as [E2 A2].
  split; [exact E2 | intros A; apply A2, A1, A].
Qed.

Lemma quiet_table_inv s s' : table_inv s -> quiet s s' -> table_inv s'.
Proof.
  intros [Tc Ts Td Tt] [C S T D]. constructor.
  - rewrite C. exact Tc.
  - intros i Hi. rewrite C in Hi. rewrite S.
    destruct (Ts i Hi) as [R [A E]]. destruct (D _ E) as [E' A'].
    split; [exact R|]. split; [apply A'; exact A | exact E'].
  - intros i j Hi Hj. rewrite C in Hi, Hj. rewrite S. apply Td; assumption.
  - rewrite T, C. exact Tt.
Qed.

(** A step that writes the fields [state] and [is_allocated] of no customer
    that is Deleted. *)
Lemma quiet_fields s s' :
  free_customer_count s' = free_customer_count s ->
  free_customer_slots s' = free_customer_slots s ->
  total_customers s' = total_customers s ->
  (forall c, state (customers s c) = CUSTOMER_STATE_DELETED ->
     state (customers s' c) = state (customers s c) /\
     is_allocated (customers s' c) = is_allocated (customers s c)) ->
  quiet s s'.
Proof.
  intros C S T F. constructor; try assumption.
  intros c D. destruct (F c D) as [E A]. split; [congruence | intros X; congruence].
Qed.

Lemma quiet_unbind w x ev :
  quiet (shm w) (shm (exec (remove_customer_from_tool x ev) w)).
Proof.
  rewrite remove_customer_from_tool_exec.
  destruct (current_tool (customers (shm w) x) =? -1); [apply quiet_refl|].
  cbn [shm]. apply quiet_fields; try reflexivity.
  intros c _. split; [apply unbound_state|].
  destruct (Z.eq_dec c x) as [->|N].
  - rewrite unbound_customer. reflexivity.
  - rewrite unbound_other by exact N. reflexivity.
Qed.

Lemma quiet_leave w x : quiet (shm w) (shm (exec (leave_queue x) w)).
Proof.
  destruct (leave_queue_frame w x) as [h' [out E]]. rewrite E. cbn [shm].
  apply quiet_fields; try reflexivity. intros c _. split; reflexivity.
Qed.

Lemma quiet_enqueue w x :
  state (customers (shm w) x) <> CUSTOMER_STATE_DELETED ->
  quiet (shm w) (shm (exec (enqueue_waiting x) w)).
Proof.
  intros N. unfold enqueue_waiting.
  rewrite exec_bind. rewrite exec_bind. rewrite exec_bind. rewrite exec_bind.
  rewrite exec_modify.
  match goal with
  | |- context [exec (heap_insert x) ?w0] =>
      destruct (call_heap_shm (Heap.heap_insert x) w0) as [h E]
  end.
  unfold heap_insert. rewrite E. clear E.
  rewrite !exec_modify.
  unfold exec, get_current_time_ms. cbn [snd fst shm].
  apply quiet_fields; try reflexivity.
  intros c D. unfold on_customer. cbn.
  rewrite upd_ne by (intros ->; contradiction). split; reflexivity.
Qed.

Lemma quiet_bound x tool now s :
  state (customers s x) <> CUSTOMER_STATE_DELETED ->
  quiet s (bound_shm x tool now s).
Proof.
  intros N. apply quiet_fields; try reflexivity.
  intros c D. rewrite bound_other by (intros ->; contradiction).
  split; reflexivity.
Qed.

Lemma quiet_bind w x tool :
  state (customers (shm w) x) <> CUSTOMER_STATE_DELETED ->
  quiet (shm w) (shm (exec (assign_tool_to_customer x tool) w)).
Proof.
  intros N. rewrite assign_tool_to_customer_exec. cbn zeta. cbn [shm].
  pose proof (leave_queue_customers
                (CustomerState_eqb (state (customers (shm w) x)) CUSTOMER_STATE_WAITING)
                w x) as C1.
  assert (Q1 : quiet (shm w)
                 (shm (exec (when (CustomerState_eqb (state (customers (shm w) x))
                                     CUSTOMER_STATE_WAITING) (leave_queue x)) w))).
  { destruct (CustomerState_eqb _ _); cbn [when];
      [apply quiet_leave | rewrite exec_ret; apply quiet_refl]. }
  revert C1 Q1.
  generalize (exec (when (CustomerState_eqb (state (customers (shm w) x))
                            CUSTOMER_STATE_WAITING) (leave_queue x)) w).
  intros w1 C1 Q1.
  apply (quiet_trans _ _ _ Q1). apply quiet_bound. rewrite C1. exact N.
Qed.

Lemma quiet_set_state x st s :
  state (customers s x) <> CUSTOMER_STATE_DELETED ->
  quiet s (on_customer x (set_state st) s).
Proof.
  intros N. apply quiet_fields; try reflexivity.
  intros c D. unfold on_customer. cbn.
  rewrite upd_ne by (intros ->; contradiction). split; reflexivity.
Qed.

(** In a queue that is in order every customer is Waiting. *)
Lemma loose_queued_waiting T s c :
  loose_inv T s -> Heap.in_heap (heap s) c ->
  state (customers s c) = CUSTOMER_STATE_WAITING.
Proof.
  intros [B M Q A Tl] I.
  assert (R : 0 <= c < MAX_CUSTOMERS).
  { destruct I as [p [Hp E]]. rewrite max_customers_nodes.
    destruct B as [_ P _]. destruct (P p Hp) as [R _]. rewrite E in R. exact R. }
  apply Q; [exact R | | exact I]. intros Tc. apply (A c Tc I).
Qed.

Lemma quiet_pop T w tool :
  loose_inv T (shm w) ->
  quiet (shm w) (shm (exec (assign_next_from_queue tool) w)).
Proof.
  intros L.
  destruct (Z.le_gt_cases (Heap.heap_size (hp w)) 0) as [Em|Ne].
  { rewrite assign_next_from_queue_empty by exact Em. apply quiet_refl. }
  pose proof L as [B M Q A Tl].
  destruct (assign_next_from_queue_exec w tool B M ltac:(lia)) as [h' [R [_ E]]].
  rewrite E. clear E.
  assert (Im : Heap.in_heap (hp w) (Heap.HEAP_ARRAY (hp w) 0)).
  { exists 0. split; [lia | reflexivity]. }
  pose proof (loose_queued_waiting T (shm w) _ L Im) as Wm.
  revert Wm. generalize (Heap.HEAP_ARRAY (hp w) 0). intros m Wm.
  apply (quiet_trans _ (set_heap h' (shm w))).
  - apply quiet_fields; try reflexivity. intros c _. split; reflexivity.
  - apply (quiet_bind (mkWorld (set_heap h' (shm w)) (stdout w) (clock w) (ticks w))).
    cbn [shm]. change (customers (set_heap h' (shm w))) with (customers (shm w)).
    rewrite Wm. discriminate.
Qed.

Lemma quiet_preempt T w t H :
  loose_inv T (shm w) -> ~ T H -> 0 <= H < MAX_CUSTOMERS ->
  ~ Heap.in_heap (hp w) H ->
  state (customers (shm w) H) <> CUSTOMER_STATE_DELETED ->
  quiet (shm w) (shm (exec (preempt_holder t H) w)).
Proof.
  intros L NT RH NI ND. rewrite preempt_holder_exec.
  pose proof (loose_unbind T w H EVENT_TOOL_REMOVED L NI) as L1.
  pose proof (quiet_unbind w H EVENT_TOOL_REMOVED) as Q1.
  assert (S1 : state (customers
                        (shm (exec (remove_customer_from_tool H EVENT_TOOL_REMOVED) w)) H)
               <> CUSTOMER_STATE_DELETED).
  { rewrite remove_customer_from_tool_exec.
    destruct (current_tool (customers (shm w) H) =? -1); [exact ND|].
    cbn [shm]. rewrite unbound_state. exact ND. }
  revert L1 Q1 S1.
  generalize (exec (remove_customer_from_tool H EVENT_TOOL_REMOVED) w).
  intros w1 L1 Q1 S1.
  pose proof (loose_enqueue T w1 H L1 NT RH) as L2.
  pose proof (quiet_enqueue w1 H S1) as Q2.
  revert L2 Q2. generalize (exec (enqueue_waiting H) w1). intros w2 L2 Q2.
  apply (quiet_trans _ _ _ Q1). apply (quiet_trans _ _ _ Q2).
  apply (quiet_pop T). exact L2.
Qed.

Lemma quiet_counter s s' :
  customers s' = customers s ->
  free_customer_count s' = free_customer_count s ->
  free_customer_slots s' = free_customer_slots s ->
  total_customers s' = total_customers s ->
  quiet s s'.
Proof.
  intros C F S T. apply quiet_fields; try assumption.
  intros c _. rewrite C. split; reflexivity.
Qed.

(** [handle_rest] and the customer table. *)
Lemma handle_rest_quiet w idx :
  sched_inv (shm w) -> 0 <= idx < MAX_CUSTOMERS ->
  quiet (shm w) (shm (exec (handle_rest idx) w)).
Proof.
  intros I Hx. unfold handle_rest. rewrite exec_bind.
  cbn [get_shm fst]. change (exec get_shm w) with w.
  destruct (state (customers (shm w) idx)) eqn:S;
    try (rewrite exec_ret; apply quiet_refl).
  - (* Waiting *)
    rewrite !exec_bind, !exec_modify. cbn [shm].
    pose proof (quiet_leave w idx) as Q1.
    pose proof (leave_queue_customers true w idx) as C1. cbn [when] in C1.
    revert Q1 C1. generalize (exec (leave_queue idx) w). intros w1 Q1 C1.
    apply (quiet_trans _ _ _ Q1).
    apply (quiet_trans _ (on_customer idx (set_state CUSTOMER_STATE_RESTING) (shm w1))).
    + apply quiet_set_state. rewrite C1, S. discriminate.
    + apply quiet_counter; reflexivity.
  - (* Using *)
    rewrite !exec_bind, !exec_modify. cbn [shm].
    assert (NI : ~ Heap.in_heap (hp w) idx).
    { apply sched_not_queued; [exact I | exact Hx | rewrite S; discriminate]. }
    pose proof (loose_unbind none_in_transit w idx EVENT_TOOL_COMPLETED
                  (proj1 (sched_loose _) I) NI) as L1.
    pose proof (quiet_unbind w idx EVENT_TOOL_COMPLETED) as Q1.
    assert (S1 : state (customers
                          (shm (exec (remove_customer_from_tool idx EVENT_TOOL_COMPLETED) w))
                          idx) = CUSTOMER_STATE_USING).
    { rewrite remove_customer_from_tool_exec.
      destruct (current_tool (customers (shm w) idx) =? -1); [exact S|].
      cbn [shm]. rewrite unbound_state. exact S. }
    revert L1 Q1 S1.
    generalize (exec (remove_customer_from_tool idx EVENT_TOOL_COMPLETED) w).
    intros w1 L1 Q1 S1.
    assert (Q2 : quiet (shm w1)
                   (shm (exec (when (negb (current_tool (customers (shm w) idx) =? -1))
                                 (assign_next_from_queue
                                    (current_tool (customers (shm w) idx)))) w1))).
    { destruct (negb _); cbn [when];
        [apply (quiet_pop _ _ _ L1) | rewrite exec_ret; apply quiet_refl]. }
    assert (S2 : state (customers
                   (shm (exec (when (negb (current_tool (customers (shm w) idx) =? -1))
                                 (assign_next_from_queue
                                    (current_tool (customers (shm w) idx)))) w1)) idx)
                 = CUSTOMER_STATE_USING).
    { destruct (negb _); cbn [when]; [|rewrite exec_ret; exact S1].
      destruct (assign_next_frame w1 (current_tool (customers (shm w) idx))
                  (li_backmap _ _ L1) (li_min _ _ L1)) as [_ F].
      rewrite F; [exact S1|]. apply (li_absent _ _ L1). right. reflexivity. }
    revert Q2 S2.
    generalize (exec (when (negb (current_tool (customers (shm w) idx) =? -1))
                        (assign_next_from_queue
                           (current_tool (customers (shm w) idx)))) w1).
    intros w2 Q2 S2.
    apply (quiet_trans _ _ _ Q1). apply (quiet_trans _ _ _ Q2).
    apply (quiet_trans _ (on_customer idx (set_state CUSTOMER_STATE_RESTING) (shm w2))).
    + apply quiet_set_state. rewrite S2. discriminate.
    + apply quiet_counter; reflexivity.
Qed.

(** One iteration of [tool_process] and the customer table. *)
Lemma tool_process_tick_quiet w t :
  sched_inv (shm w) -> 0 <= t < num_tools (shm w) ->
  quiet (shm w) (shm (exec (tool_process_tick t) w)).
Proof.
  intros I Rt. rewrite tool_process_tick_exec. cbv zeta.
  destruct (server_should_exit (shm w)); [apply quiet_refl|].
  destruct (Z.eqb_spec (current_user (tools (shm w) t)) (-1)) as [Fr|Bd];
    [apply quiet_refl|].
  destruct (si_tools _ I t Rt Bd) as [RH [UH CH]].
  assert (NI : ~ Heap.in_heap (heap (shm w)) (current_user (tools (shm w) t))).
  { apply sched_not_queued; [exact I | exact RH | rewrite UH; discriminate]. }
  assert (L1 : loose_inv none_in_transit (shm (ticked t w))).
  { apply (loose_frame none_in_transit (shm w)); [reflexivity | reflexivity | | | |
      apply sched_loose; exact I].
    - intros u. unfold ticked. cbn [shm]. unfold on_customer, on_tool. cbn. unfold upd.
      destruct (Z.eqb_spec u t) as [->|]; reflexivity.
    - intros c _. unfold ticked. cbn [shm]. unfold on_customer, on_tool. cbn. unfold upd.
      destruct (Z.eqb_spec c (current_user (tools (shm w) t))) as [->|]; reflexivity.
    - intros c _. unfold ticked. cbn [shm]. unfold on_customer, on_tool. cbn. unfold upd.
      destruct (Z.eqb_spec c (current_user (tools (shm w) t))) as [->|]; reflexivity. }
  assert (Q1 : quiet (shm w) (shm (ticked t w))).
  { apply quiet_fields; try reflexivity.
    intros c _. unfold ticked. cbn [shm]. unfold on_customer, on_tool. cbn. unfold upd.
    destruct (Z.eqb_spec c (current_user (tools (shm w) t))) as [->|];
      split; reflexivity. }
  assert (U1 : state (customers (shm (ticked t w)) (current_user (tools (shm w) t)))
               = CUSTOMER_STATE_USING).
  { unfold ticked. cbn [shm]. unfold on_customer, on_tool. cbn. rewrite upd_eq.
    exact UH. }
  assert (NI1 : ~ Heap.in_heap (hp (ticked t w)) (current_user (tools (shm w) t)))
    by exact NI.
  assert (E1 : to_int (clock w (ticks w) - tool_session_start (tools (shm w) t))
               = to_int (clock w (ticks w) - tool_session_start (tools (shm w) t)))
    by reflexivity.
  revert E1. generalize (to_int (clock w (ticks w) - tool_session_start (tools (shm w) t))) at 1 3.
  intros elapsed _.
  revert L1 Q1 U1 NI1. generalize (ticked t w). revert RH.
  generalize (current_user (tools (shm w) t)).
  intros H RH w1 L1 Q1 U1 NI1.
  apply (quiet_trans _ _ _ Q1).
  assert (P : quiet (shm w1) (shm (exec (preempt_holder t H) w1))).
  { apply (quiet_preempt none_in_transit);
      [exact L1 | intros [] | exact RH | exact NI1 | rewrite U1; discriminate]. }
  unfold tick_action. rewrite exec_bind.
  cbn [get_shm fst]. change (exec get_shm w1) with w1.
  destruct (remaining_duration (customers (shm w1) H) <=? 0).
  - rewrite !exec_bind, !exec_modify. cbn [shm].
    pose proof (loose_unbind none_in_transit w1 H EVENT_TOOL_COMPLETED L1 NI1) as L2.
    pose proof (quiet_unbind w1 H EVENT_TOOL_COMPLETED) as Q2.
    assert (S2 : state (customers
                          (shm (exec (remove_customer_from_tool H EVENT_TOOL_COMPLETED) w1))
                          H) = CUSTOMER_STATE_USING).
    { rewrite remove_customer_from_tool_exec.
      destruct (current_tool (customers (shm w1) H) =? -1); [exact U1|].
      cbn [shm]. rewrite unbound_state. exact U1. }
    revert L2 Q2 S2.
    generalize (exec (remove_customer_from_tool H EVENT_TOOL_COMPLETED) w1).
    intros w2 L2 Q2 S2.
    apply (quiet_trans _ _ _ Q2).
    match goal with
    | |- quiet _ (shm (exec (assign_next_from_queue t) ?w3)) =>
        apply (quiet_trans _ (shm w3))
    end.
    + cbn [shm].
      apply (quiet_trans _ (on_customer H (set_state CUSTOMER_STATE_RESTING) (shm w2))).
      * apply quiet_set_state. rewrite S2. discriminate.
      * apply quiet_counter; reflexivity.
    + apply (quiet_pop none_in_transit). cbn [shm].
      apply (loose_frame none_in_transit
               (on_customer H (set_state CUSTOMER_STATE_RESTING) (shm w2)));
        try reflexivity.
      apply loose_settle; [exact L2 | intros [] | discriminate].
  - destruct (param_Q (shm w1) <=? elapsed).
    + destruct (0 <? Heap.heap_size (heap (shm w1))); [exact P | apply quiet_refl].
    + destruct ((param_q (shm w1) <=? elapsed) && (0 <? Heap.heap_size (heap (shm w1))));
        [|apply quiet_refl].
      cbv zeta.
      destruct ((0 <=? Heap.HEAP_ARRAY (heap (shm w1)) 0)
                && (Heap.HEAP_ARRAY (heap (shm w1)) 0 <? MAX_CUSTOMERS));
        [|apply quiet_refl].
      cbn [when].
      destruct (Qltb _ _); [exact P | apply quiet_refl].
Qed.

(** [handle_request] and the customer table, for a requester that holds no
    tool. *)
Lemma handle_request_quiet w idx d :
  sched_inv (shm w) -> 0 <= idx < MAX_CUSTOMERS ->
  state (customers (shm w) idx) = CUSTOMER_STATE_RESTING \/
  state (customers (shm w) idx) = CUSTOMER_STATE_WAITING ->
  quiet (shm w) (shm (exec (handle_request idx d) w)).
Proof.
  intros I R St.
  assert (StU : state (customers (shm w) idx) <> CUSTOMER_STATE_USING)
    by (destruct St as [E|E]; rewrite E; discriminate).
  assert (StD : state (customers (shm w) idx) <> CUSTOMER_STATE_DELETED)
    by (destruct St as [E|E]; rewrite E; discriminate).
  pose proof (request_entry_spec w idx d I R StU) as En.
  rewrite handle_request_exec.
  assert (Q2 : quiet (shm w)
                 (shm (exec (modify (on_customer idx (fun c =>
                               set_remaining_duration d (set_request_duration d c))))
                         (exec (request_entry idx (state (customers (shm w) idx))) w)))).
  { rewrite exec_modify. cbn [shm].
    assert (Q1 : quiet (shm w)
                   (shm (exec (request_entry idx (state (customers (shm w) idx))) w))).
    { destruct (state (customers (shm w) idx)); cbn [request_entry];
        try (rewrite exec_ret; apply quiet_refl).
      - rewrite exec_modify. cbn [shm]. apply quiet_counter; reflexivity.
      - apply quiet_leave. }
    revert Q1. generalize (exec (request_entry idx (state (customers (shm w) idx))) w).
    intros w1 Q1. apply (quiet_trans _ _ _ Q1).
    apply quiet_fields; try reflexivity.
    intros c _. unfold on_customer. cbn. unfold upd.
    destruct (Z.eqb_spec c idx) as [->|]; split; reflexivity. }
  revert En Q2.
  generalize (exec (modify (on_customer idx (fun c =>
                      set_remaining_duration d (set_request_duration d c))))
                (exec (request_entry idx (state (customers (shm w) idx))) w)).
  intros w2 En Q2.
  apply (quiet_trans _ _ _ Q2).
  destruct En as [Lq Abs Et En_ Eq Est Esh Etl Eid Ess Eo Ec Ek].
  assert (S2 : state (customers (shm w2) idx) <> CUSTOMER_STATE_DELETED)
    by (rewrite Est; exact StD).
  destruct (Z.eq_dec (find_free_tool (shm w2)) (-1)) as [F2|F2].
  2:{ rewrite (placement_free w2 idx F2). apply quiet_bind. exact S2. }
  destruct (Z.eq_dec (find_preemption_candidate (share (customers (shm w2) idx)) (shm w2))
              (-1)) as [V2|V2].
  { rewrite (placement_enqueue w2 idx F2 V2). apply quiet_enqueue. exact S2. }
  pose proof (placement_preempt w2 idx F2) as P. cbn zeta in P. rewrite (P V2). clear P.
  destruct (find_preemption_candidate_range (shm w2) _ V2) as [Rv Uv].
  revert Rv Uv.
  generalize (find_preemption_candidate (share (customers (shm w2) idx)) (shm w2)).
  intros tool Rv Uv.
  assert (Su : state (customers (shm w2) (current_user (tools (shm w2) tool)))
               = CUSTOMER_STATE_USING).
  { rewrite En_ in Rv. rewrite Et in Uv |- *. rewrite Est.
    destruct (si_tools _ I tool Rv Uv) as [_ [Su _]]. exact Su. }
  assert (Nu : idx <> current_user (tools (shm w2) tool)).
  { intros E. rewrite <- E in Su. rewrite Est in Su. contradiction. }
  revert Su Nu. generalize (current_user (tools (shm w2) tool)). intros u Su Nu.
  pose proof (quiet_unbind w2 u EVENT_TOOL_REMOVED) as Q3.
  assert (S3 : forall c,
             state (customers (shm (exec (remove_customer_from_tool u EVENT_TOOL_REMOVED)
                                      w2)) c) = state (customers (shm w2) c)).
  { intros c. rewrite remove_customer_from_tool_exec.
    destruct (current_tool (customers (shm w2) u) =? -1); [reflexivity|].
    cbn [shm]. apply unbound_state. }
  revert Q3 S3. generalize (exec (remove_customer_from_tool u EVENT_TOOL_REMOVED) w2).
  intros w3 Q3 S3.
  assert (Q4 : quiet (shm w3) (shm (exec (enqueue_waiting u) w3))).
  { apply quiet_enqueue. rewrite S3, Su. discriminate. }
  destruct (enqueue_waiting_frame w3 u) as [_ [_ [_ [_ E5]]]].
  revert Q4 E5. generalize (exec (enqueue_waiting u) w3). intros w4 Q4 E5.
  apply (quiet_trans _ _ _ Q3). apply (quiet_trans _ _ _ Q4).
  apply quiet_bind. rewrite E5 by exact Nu. rewrite S3. exact S2.
Qed.

(** The first critical section of a disconnection and the customer
    table. *)
Lemma agent_release_quiet w idx :
  sched_inv (shm w) -> 0 <= idx < MAX_CUSTOMERS ->
  quiet (shm w) (shm (exec (agent_release idx) w)).
Proof.
  intros I Hx. unfold agent_release. rewrite exec_bind.
  cbn [get_shm fst]. change (exec get_shm w) with w. cbn zeta.
  rewrite !exec_bind. unfold pthread_cond_signal. rewrite exec_ret, exec_modify.
  cbn [shm].
  assert (Q1 : quiet (shm w)
                 (shm (exec (when (CustomerState_eqb (state (customers (shm w) idx))
                                     CUSTOMER_STATE_USING
                                   && negb (current_tool (customers (shm w) idx) =? -1))
                               (remove_customer_from_tool idx EVENT_TOOL_COMPLETED ;;
                                assign_next_from_queue
                                  (current_tool (customers (shm w) idx)))) w))).
  { destruct (CustomerState_eqb (state (customers (shm w) idx)) CUSTOMER_STATE_USING) eqn:U;
      cbn [andb when]; [|rewrite exec_ret; apply quiet_refl].
    destruct (negb _); cbn [when]; [|rewrite exec_ret; apply quiet_refl].
    apply CustomerState_eqb_eq in U.
    rewrite exec_bind.
    assert (NI : ~ Heap.in_heap (hp w) idx).
    { apply sched_not_queued; [exact I | exact Hx | rewrite U; discriminate]. }
    pose proof (loose_unbind none_in_transit w idx EVENT_TOOL_COMPLETED
                  (proj1 (sched_loose _) I) NI) as L1.
    pose proof (quiet_unbind w idx EVENT_TOOL_COMPLETED) as Q1.
    revert L1 Q1.
    generalize (exec (remove_customer_from_tool idx EVENT_TOOL_COMPLETED) w).
    intros w1 L1 Q1.
    apply (quiet_trans _ _ _ Q1). apply (quiet_pop _ _ _ L1). }
  revert Q1.
  generalize (exec (when (CustomerState_eqb (state (customers (shm w) idx))
                            CUSTOMER_STATE_USING
                          && negb (current_tool (customers (shm w) idx) =? -1))
                      (remove_customer_from_tool idx EVENT_TOOL_COMPLETED ;;
                       assign_next_from_queue
                         (current_tool (customers (shm w) idx)))) w).
  intros w1 Q1. apply (quiet_trans _ _ _ Q1).
  constructor; try reflexivity.
  intros c D. unfold on_customer. cbn. unfold upd.
  destruct (Z.eqb_spec c idx) as [->|].
  - split; [exact D | reflexivity].
  - split; [exact D | trivial].
Qed.

(** ** The invariants in the states that the processes reach *)

Lemma in_table_range idx :
  (0 <=? idx) && (idx <? MAX_CUSTOMERS) = true -> 0 <= idx < MAX_CUSTOMERS.
Proof.
  intros H. apply andb_true_iff in H. destruct H as [A B].
  apply Z.leb_le in A. apply Z.ltb_lt in B. split; assumption.
Qed.

(** A turn of the socket thread keeps both invariants, when it is not a
    request from a customer that holds a tool or has no slot. *)
Lemma socket_turn_invariants w idx received :
  sched_inv (shm w) -> table_inv (shm w) -> 0 <= idx < MAX_CUSTOMERS ->
  fst (socket_turn idx received w) <> Undefined ->
  (requests received = true ->
   state (customers (shm w) idx) = CUSTOMER_STATE_RESTING \/
   state (customers (shm w) idx) = CUSTOMER_STATE_WAITING) ->
  sched_inv (shm (exec (socket_turn idx received) w))
  /\ table_inv (shm (exec (socket_turn idx received) w)).
Proof.
  intros I Tb Hx. unfold socket_turn, requests.
  destruct received as [bytes|]; [|intros _ _; split; assumption].
  destruct (strlen bytes <=? 0); [intros _ _; split; assumption|].
  destruct (strtok (c_string bytes)) as [[cmd saved]|]; [|intros _ _; split; assumption].
  destruct (String.eqb cmd "REQUEST").
  { destruct (strtok saved) as [[duration_str after]|]; [|intros _ _; split; assumption].
    destruct (atoi duration_str) as [duration|];
      [|intros D; exfalso; apply D; reflexivity].
    destruct (0 <? duration); [|intros _ _; split; assumption].
    intros _ St. specialize (St eq_refl). rewrite exec_bind, exec_ret. split.
    - apply handle_request_sched_inv; assumption.
    - apply (quiet_table_inv (shm w)); [exact Tb|].
      apply handle_request_quiet; assumption. }
  destruct (String.eqb cmd "REST").
  { intros _ _. rewrite exec_bind, exec_ret. split.
    - apply handle_rest_sched_inv; assumption.
    - apply (quiet_table_inv (shm w)); [exact Tb|].
      apply handle_rest_quiet; assumption. }
  destruct (String.eqb cmd "REPORT").
  { intros _ _. rewrite exec_bind, exec_ret. rewrite handle_report_shm.
    split; assumption. }
  destruct (String.eqb cmd "QUIT"); intros _ _; split; assumption.
Qed.

(** A round of the notify thread writes [event_pending] only. *)
Lemma agent_notify_step_invariants w idx buffer :
  sched_inv (shm w) -> table_inv (shm w) ->
  sched_inv (shm (exec (agent_notify_step idx buffer) w))
  /\ table_inv (shm (exec (agent_notify_step idx buffer) w)).
Proof.
  intros I Tb.
  assert (G : exec (agent_notify_step idx buffer) w = w \/
              shm (exec (agent_notify_step idx buffer) w)
              = on_customer idx (set_event_pending false) (shm w)).
  { unfold agent_notify_step, exec, bind, get_shm, modify, ret.
    destruct (negb _ && _); [left; reflexivity|].
    destruct (negb _); [left; reflexivity|].
    destruct (event_pending _); [right; reflexivity | left; reflexivity]. }
  destruct G as [E|E]; rewrite E; [split; assumption|]. split.
  - apply sched_loose.
    apply (loose_frame none_in_transit (shm w)); try reflexivity.
    + intros c _. unfold on_customer. cbn. unfold upd.
      destruct (Z.eqb_spec c idx) as [->|]; reflexivity.
    + intros c _. unfold on_customer. cbn. unfold upd.
      destruct (Z.eqb_spec c idx) as [->|]; reflexivity.
    + apply sched_loose. exact I.
  - apply (quiet_table_inv (shm w)); [exact Tb|].
    apply quiet_fields; try reflexivity.
    intros c _. unfold on_customer. cbn. unfold upd.
    destruct (Z.eqb_spec c idx) as [->|]; split; reflexivity.
Qed.

(** Every allowed action keeps both invariants. *)
Lemma perform_invariants a w :
  allowed a w = true -> sched_inv (shm w) -> table_inv (shm w) ->
  sched_inv (shm (exec (perform a) w)) /\ table_inv (shm (exec (perform a) w)).
Proof.
  intros A I Tb. destruct a as [pid|idx received|idx buffer|idx|idx|t];
    cbn [perform allowed] in *.
  - rewrite exec_bind, exec_ret.
    destruct (allocate_customer_spec w pid I Tb) as [_ [_ R]]. exact R.
  - apply andb_true_iff in A. destruct A as [A G].
    apply andb_true_iff in A. destruct A as [A D].
    apply in_table_range in A.
    rewrite exec_bind, exec_ret.
    apply socket_turn_invariants; try assumption.
    + intros E. rewrite E in D. discriminate.
    + intros Rq. rewrite Rq in G. cbn [negb orb] in G.
      destruct (state (customers (shm w) idx));
        try discriminate; [left | right]; reflexivity.
  - rewrite exec_bind, exec_ret. apply agent_notify_step_invariants; assumption.
  - apply in_table_range in A. split.
    + rewrite <- deallocate_after_release.
      destruct (agent_disconnect_spec w idx I A) as [R _]. exact R.
    + apply (quiet_table_inv (shm w)); [exact Tb|].
      apply agent_release_quiet; assumption.
  - apply in_table_range in A.
    destruct (is_allocated (customers (shm w) idx)) eqn:Al.
    + destruct (deallocate_customer_spec w idx I Tb A Al) as [R1 [R2 _]].
      split; assumption.
    + rewrite deallocate_customer_unallocated by exact Al. split; assumption.
  - apply andb_true_iff in A. destruct A as [A B].
    apply Z.leb_le in A. apply Z.ltb_lt in B.
    rewrite exec_bind, exec_ret. split.
    + apply tool_process_tick_sched_inv; [exact I | lia].
    + apply (quiet_table_inv (shm w)); [exact Tb|].
      apply tool_process_tick_quiet; [exact I | lia].
Qed.

Lemma run_invariants acts w w' :
  sched_inv (shm w) -> table_inv (shm w) -> run acts w = Some w' ->
  sched_inv (shm w') /\ table_inv (shm w').
Proof.
  revert w. induction acts as [|a acts IH]; intros w I Tb; cbn [run].
  - intros E. injection E as <-. split; assumption.
  - destruct (allowed a w) eqn:A; [|discriminate].
    destruct (perform_invariants a w A I Tb) as [I' Tb'].
    apply IH; assumption.
Qed.

(** X29. In every state that the processes reach from start-up, in
    whatever order their critical sections are taken, the queue is a
    well-formed min-heap, a customer is queued iff it is Waiting, every tool
    user is Using and points back to its tool, and the free stack holds
    distinct Deleted slots with [total_customers + free_customer_count =
    MAX_CUSTOMERS]; provided no customer sends [REQUEST] while it is
    Using. *)
Theorem reachable_states_invariants (w0 : World) (q Q k : Z)
        (acts : list Action) (w : World) :
  0 < k <= MAX_TOOLS ->
  run acts (exec (setup_shared_memory q Q k) w0) = Some w ->
  sched_inv (shm w) /\ table_inv (shm w).
Proof.
  intros Hk R.
  destruct (setup_shared_memory_spec w0 q Q k Hk) as [I [Tb _]].
  exact (run_invariants acts _ w I Tb R).
Qed.

Lemma reachable_states_invariants_witness :
  sched_inv (shm w_session) /\ table_inv (shm w_session).
Proof.
  apply (reachable_states_invariants
           (boot (clock_of [0; 10; 20; 700; 710; 720; 730; 1500])) 100 500 1 session).
  - unfold MAX_TOOLS. lia.
  - vm_compute. reflexivity.
Defined.

(** ** The event slot and the log *)

Lemma notify_buffer_event_line buffer ev id s t :
  ev <> EVENT_NONE -> notify_buffer buffer ev id s t = event_line ev id s t.
Proof. destruct ev; [intros C; contradiction | | |]; reflexivity. Qed.

Lemma same_slot_refl c : same_slot c c.
Proof. constructor; reflexivity. Qed.

Lemma same_slot_trans c1 c2 c3 : same_slot c1 c2 -> same_slot c2 c3 -> same_slot c1 c3.
Proof. intros [A1 P1 T1 L1 I1 S1] [A2 P2 T2 L2 I2 S2]. constructor; congruence. Qed.

Lemma same_slot_line c c' : same_slot c c' -> slot_line c' = slot_line c.
Proof. intros [A P T L I S]. unfold slot_line. rewrite T, L, I, S. reflexivity. Qed.

Lemma slot_step_more out out' c c' :
  slot_step out c c' -> slot_step (out' ++ out) c c'.
Proof.
  intros [S|[N|[T I]]]; [left; exact S | right; left; exact N|].
  right. right. split; [exact T|]. apply in_or_app. right. exact I.
Qed.

Lemma slot_step_trans out1 out2 c1 c2 c3 :
  slot_step out1 c1 c2 -> slot_step out2 c2 c3 -> slot_step (out1 ++ out2) c1 c3.
Proof.
  intros S1 [S|[N|[T I]]].
  - destruct S1 as [S0|[N|[T I]]].
    + left. exact (same_slot_trans _ _ _ S0 S).
    + right. left. destruct S as [A P _ _ _ _]. rewrite A, P. exact N.
    + right. right. rewrite (same_slot_line _ _ S). destruct S as [_ _ Ty _ _ _].
      rewrite Ty. split; [exact T|]. apply in_or_app. left. exact I.
  - right. left. exact N.
  - right. right. split; [exact T|]. apply in_or_app. right. exact I.
Qed.

Lemma relay_refl w : relay w w.
Proof.
  constructor; try reflexivity.
  - intros c. left. reflexivity.
  - exists []. split; [rewrite app_nil_r; reflexivity|].
    intros c. left. apply same_slot_refl.
Qed.

Lemma relay_trans w1 w2 w3 : relay w1 w2 -> relay w2 w3 -> relay w1 w3.
Proof.
  intros [N1 I1 B1 [o1 [O1 L1]]] [N2 I2 B2 [o2 [O2 L2]]]. constructor.
  - congruence.
  - intros t. rewrite I2. apply I1.
  - intros c. destruct (B2 c) as [E|[E|E]].
    + rewrite E. apply B1.
    + right. left. exact E.
    + right. right. rewrite <- N1. exact E.
  - exists (o1 ++ o2). split; [rewrite O2, O1, app_assoc; reflexivity|].
    intros c. exact (slot_step_trans _ _ _ _ _ (L1 c) (L2 c)).
Qed.

Lemma relay_wired w w' : wired (shm w) -> relay w w' -> wired (shm w').
Proof.
  intros [Wi Wb] [N I B _]. constructor.
  - intros t Ht. rewrite N in Ht. rewrite I. apply Wi. exact Ht.
  - intros c. rewrite N. destruct (B c) as [E|[E|E]].
    + rewrite E. apply Wb.
    + left. exact E.
    + right. exact E.
Qed.

(** A step that writes no field of an event slot. *)
Lemma relay_frame w w' out :
  num_tools (shm w') = num_tools (shm w) ->
  (forall t, tool_id (tools (shm w') t) = tool_id (tools (shm w) t)) ->
  (forall c, current_tool (customers (shm w') c) = current_tool (customers (shm w) c)) ->
  (forall c, same_slot (customers (shm w) c) (customers (shm w') c)) ->
  stdout w' = stdout w ++ out -> relay w w'.
Proof.
  intros N I B S O. constructor; [exact N | exact I | |].
  - intros c. left. apply B.
  - exists out. split; [exact O|]. intros c. left. apply S.
Qed.

Lemma call_heap_world f w :
  exists h out, exec (call_heap f) w =
    mkWorld (set_heap h (shm w)) (stdout w ++ out) (clock w) (ticks w).
Proof.
  unfold call_heap, exec. destruct (f (heap (shm w))) as [[r h] out].
  exists h, out. reflexivity.
Qed.

Lemma relay_heap f w : relay w (exec (call_heap f) w).
Proof.
  destruct (call_heap_world f w) as [h [out E]]. rewrite E.
  apply (relay_frame _ _ out); try reflexivity.
  intros c. apply same_slot_refl.
Qed.

Lemma relay_leave w x : relay w (exec (leave_queue x) w).
Proof.
  destruct (leave_queue_frame w x) as [h' [out E]]. rewrite E.
  apply (relay_frame _ _ out); try reflexivity.
  intros c. apply same_slot_refl.
Qed.

Lemma relay_modify w f :
  num_tools (f (shm w)) = num_tools (shm w) ->
  (forall t, tool_id (tools (f (shm w)) t) = tool_id (tools (shm w) t)) ->
  (forall c, current_tool (customers (f (shm w)) c) = current_tool (customers (shm w) c)) ->
  (forall c, same_slot (customers (shm w) c) (customers (f (shm w)) c)) ->
  relay w (exec (modify f) w).
Proof.
  intros N I B S. rewrite exec_modify.
  apply (relay_frame _ _ []); try assumption. cbn [stdout]. rewrite app_nil_r. reflexivity.
Qed.

Ltac slot_frame :=
  intros; cbn; unfold on_customer, on_tool; cbn; unfold upd;
  repeat match goal with
         | |- context [?a =? ?b] => destruct (Z.eqb_spec a b); try subst
         end;
  try constructor; reflexivity.

Lemma relay_unbind w x ev :
  wired (shm w) -> ev = EVENT_TOOL_REMOVED \/ ev = EVENT_TOOL_COMPLETED ->
  relay w (exec (remove_customer_from_tool x ev) w).
Proof.
  intros [Wi Wb] Ev. rewrite remove_customer_from_tool_exec.
  destruct (Z.eqb_spec (current_tool (customers (shm w) x)) (-1)) as [E|N];
    [apply relay_refl|].
  destruct (Wb x) as [C|R]; [contradiction|].
  constructor; cbn [shm stdout].
  - reflexivity.
  - intros t. unfold unbound_shm, on_tool, on_customer. cbn. unfold upd.
    destruct (Z.eqb_spec t (current_tool (customers (shm w) x))) as [->|]; [|reflexivity].
    rewrite Z.eqb_refl. reflexivity.
  - intros c. destruct (Z.eq_dec c x) as [->|Nc].
    + right. left. rewrite unbound_customer. reflexivity.
    + left. rewrite unbound_other by exact Nc. reflexivity.
  - exists [unbound_line x ev (clock w (ticks w)) (shm w)]. split; [reflexivity|].
    intros c. destruct (Z.eq_dec c x) as [->|Nc].
    + right. right. rewrite unbound_customer. unfold slot_line. cbn.
      rewrite (Wi _ R).
      split; [destruct Ev as [-> | ->]; discriminate|]. left.
      unfold unbound_line. destruct Ev as [-> | ->]; reflexivity.
    + left. rewrite unbound_other by exact Nc. apply same_slot_refl.
Qed.

Lemma relay_bound w x tool now clk tk :
  0 <= tool < num_tools (shm w) ->
  relay w (mkWorld (bound_shm x tool now (shm w))
             (stdout w ++ [bound_line x tool (shm w)]) clk tk).
Proof.
  intros R. constructor; cbn [shm stdout].
  - reflexivity.
  - intros t. unfold bound_shm, on_tool, on_customer. cbn. unfold upd.
    destruct (Z.eqb_spec t tool) as [->|]; reflexivity.
  - intros c. destruct (Z.eq_dec c x) as [->|Nc].
    + right. right. rewrite bound_customer. cbn. exact R.
    + left. rewrite bound_other by exact Nc. reflexivity.
  - exists [bound_line x tool (shm w)]. split; [reflexivity|].
    intros c. destruct (Z.eq_dec c x) as [->|Nc].
    + right. right. rewrite bound_customer. unfold slot_line. cbn.
      split; [discriminate|]. left. reflexivity.
    + left. rewrite bound_other by exact Nc. apply same_slot_refl.
Qed.

Lemma relay_bind w x tool :
  0 <= tool < num_tools (shm w) -> relay w (exec (assign_tool_to_customer x tool) w).
Proof.
  intros R. rewrite assign_tool_to_customer_exec. cbn zeta.
  assert (Q1 : relay w (exec (when (CustomerState_eqb (state (customers (shm w) x))
                                      CUSTOMER_STATE_WAITING) (leave_queue x)) w)).
  { destruct (CustomerState_eqb _ _); cbn [when];
      [apply relay_leave | rewrite exec_ret; apply relay_refl]. }
  revert Q1.
  generalize (exec (when (CustomerState_eqb (state (customers (shm w) x))
                            CUSTOMER_STATE_WAITING) (leave_queue x)) w).
  intros w1 Q1. apply (relay_trans _ _ _ Q1). apply relay_bound.
  rewrite (rl_tools _ _ Q1). exact R.
Qed.

Lemma relay_enqueue w x : relay w (exec (enqueue_waiting x) w).
Proof.
  unfold enqueue_waiting.
  rewrite exec_bind. rewrite exec_bind. rewrite exec_bind. rewrite exec_bind.
  rewrite exec_modify.
  match goal with
  | |- context [exec (heap_insert x) ?w0] =>
      pose proof (relay_heap (Heap.heap_insert x) w0) as Q2;
      assert (Q1 : relay w w0)
  end.
  { rewrite !exec_modify. unfold exec, get_current_time_ms. cbn [snd fst shm stdout].
    apply (relay_frame _ _ []); try slot_frame. cbn [stdout]. rewrite app_nil_r. reflexivity. }
  fold (heap_insert x) in Q2. revert Q1 Q2.
  match goal with
  | |- context [exec (heap_insert x) ?w0] => generalize w0
  end.
  intros w1 Q1. generalize (exec (heap_insert x) w1). intros w2 Q2.
  apply (relay_trans _ _ _ Q1). apply (relay_trans _ _ _ Q2).
  apply (relay_frame _ _ []); try slot_frame. cbn [stdout]. rewrite app_nil_r. reflexivity.
Qed.

Lemma relay_pop w tool :
  0 <= tool < num_tools (shm w) -> relay w (exec (assign_next_from_queue tool) w).
Proof.
  intros R. unfold assign_next_from_queue. rewrite exec_bind.
  cbn [get_shm fst]. change (exec get_shm w) with w.
  destruct (Heap.heap_size (heap (shm w)) <=? 0); [rewrite exec_ret; apply relay_refl|].
  rewrite exec_bind.
  pose proof (relay_heap Heap.heap_pop w) as Q1. fold heap_pop in Q1.
  generalize (fst (heap_pop w)). revert Q1. generalize (exec heap_pop w).
  intros w1 Q1 next. apply (relay_trans _ _ _ Q1).
  destruct (negb (next =? NIL) && (0 <=? next)); cbn [when];
    [|rewrite exec_ret; apply relay_refl].
  apply relay_bind. rewrite (rl_tools _ _ Q1). exact R.
Qed.

Lemma relay_preempt w t H :
  wired (shm w) -> 0 <= t < num_tools (shm w) ->
  relay w (exec (preempt_holder t H) w).
Proof.
  intros W R. rewrite preempt_holder_exec.
  pose proof (relay_unbind w H EVENT_TOOL_REMOVED W (or_introl eq_refl)) as Q1.
  revert Q1. generalize (exec (remove_customer_from_tool H EVENT_TOOL_REMOVED) w).
  intros w1 Q1.
  pose proof (relay_enqueue w1 H) as Q2.
  revert Q2. generalize (exec (enqueue_waiting H) w1). intros w2 Q2.
  apply (relay_trans _ _ _ Q1). apply (relay_trans _ _ _ Q2). apply relay_pop.
  rewrite (rl_tools _ _ Q2), (rl_tools _ _ Q1). exact R.
Qed.

(** [handle_rest] and the event slots. *)
Lemma handle_rest_relay w idx : wired (shm w) -> relay w (exec (handle_rest idx) w).
Proof.
  intros W. unfold handle_rest. rewrite exec_bind.
  cbn [get_shm fst]. change (exec get_shm w) with w.
  destruct (state (customers (shm w) idx)); try (rewrite exec_ret; apply relay_refl).
  - rewrite !exec_bind, !exec_modify. cbn [shm stdout clock ticks].
    pose proof (relay_leave w idx) as Q1.
    revert Q1. generalize (exec (leave_queue idx) w). intros w1 Q1.
    apply (relay_trans _ _ _ Q1).
    apply (relay_frame _ _ []); try slot_frame. cbn [stdout]. rewrite app_nil_r. reflexivity.
  - rewrite !exec_bind, !exec_modify. cbn [shm stdout clock ticks].
    pose proof (relay_unbind w idx EVENT_TOOL_COMPLETED W (or_intror eq_refl)) as Q1.
    assert (Q2 : forall w1, relay w w1 ->
               relay w1 (exec (when (negb (current_tool (customers (shm w) idx) =? -1))
                                 (assign_next_from_queue
                                    (current_tool (customers (shm w) idx)))) w1)).
    { intros w1 Q. destruct (Z.eqb_spec (current_tool (customers (shm w) idx)) (-1)) as [E|N];
        cbn [negb when]; [rewrite exec_ret; apply relay_refl|].
      apply relay_pop. rewrite (rl_tools _ _ Q).
      destruct (wd_bound _ W idx) as [C|C]; [contradiction | exact C]. }
    revert Q1 Q2.
    generalize (exec (remove_customer_from_tool idx EVENT_TOOL_COMPLETED) w).
    intros w1 Q1 Q2. specialize (Q2 w1 Q1). revert Q2.
    generalize (exec (when (negb (current_tool (customers (shm w) idx) =? -1))
                        (assign_next_from_queue
                           (current_tool (customers (shm w) idx)))) w1).
    intros w2 Q2.
    apply (relay_trans _ _ _ Q1). apply (relay_trans _ _ _ Q2).
    apply (relay_frame _ _ []); try slot_frame. cbn [stdout]. rewrite app_nil_r. reflexivity.
Qed.

(** One iteration of [tool_process] and the event slots. *)
Lemma tool_process_tick_relay w t :
  wired (shm w) -> 0 <= t < num_tools (shm w) ->
  relay w (exec (tool_process_tick t) w).
Proof.
  intros W Rt. rewrite tool_process_tick_exec. cbv zeta.
  destruct (server_should_exit (shm w)); [apply relay_refl|].
  destruct (current_user (tools (shm w) t) =? -1); [apply relay_refl|].
  assert (Q1 : relay w (ticked t w)).
  { apply (relay_frame _ _ []); try (unfold ticked; slot_frame).
    unfold ticked. cbn [stdout]. rewrite app_nil_r. reflexivity. }
  generalize (to_int (clock w (ticks w) - tool_session_start (tools (shm w) t))).
  intros elapsed. revert Q1. generalize (ticked t w).
  generalize (current_user (tools (shm w) t)).
  intros H w1 Q1. apply (relay_trans _ _ _ Q1).
  pose proof (relay_wired _ _ W Q1) as W1.
  assert (R1 : 0 <= t < num_tools (shm w1)) by (rewrite (rl_tools _ _ Q1); exact Rt).
  clear Q1 W Rt.
  pose proof (relay_preempt w1 t H W1 R1) as P.
  unfold tick_action. rewrite exec_bind.
  cbn [get_shm fst]. change (exec get_shm w1) with w1.
  destruct (remaining_duration (customers (shm w1) H) <=? 0).
  - rewrite !exec_bind, !exec_modify. cbn [shm].
    pose proof (relay_unbind w1 H EVENT_TOOL_COMPLETED W1 (or_intror eq_refl)) as Q2.
    revert Q2. generalize (exec (remove_customer_from_tool H EVENT_TOOL_COMPLETED) w1).
    intros w2 Q2. apply (relay_trans _ _ _ Q2).
    match goal with
    | |- relay _ (exec (assign_next_from_queue t) ?w3) => apply (relay_trans _ w3)
    end.
    + apply (relay_frame _ _ []); try slot_frame.
      cbn [stdout]. rewrite app_nil_r. reflexivity.
    + apply relay_pop. cbn [shm].
      change (0 <= t < num_tools (shm w2)). rewrite (rl_tools _ _ Q2). exact R1.
  - destruct (param_Q (shm w1) <=? elapsed).
    + destruct (0 <? Heap.heap_size (heap (shm w1))); [exact P | apply relay_refl].
    + destruct ((param_q (shm w1) <=? elapsed) && (0 <? Heap.heap_size (heap (shm w1))));
        [|apply relay_refl].
      cbv zeta.
      destruct ((0 <=? Heap.HEAP_ARRAY (heap (shm w1)) 0)
                && (Heap.HEAP_ARRAY (heap (shm w1)) 0 <? MAX_CUSTOMERS));
        [|apply relay_refl].
      cbn [when].
      destruct (Qltb _ _); [exact P | apply relay_refl].
Qed.

(** [handle_request] and the event slots. *)
Lemma handle_request_relay w idx d :
  wired (shm w) -> relay w (exec (handle_request idx d) w).
Proof.
  intros W. rewrite handle_request_exec.
  assert (Q2 : relay w
                 (exec (modify (on_customer idx (fun c =>
                          set_remaining_duration d (set_request_duration d c))))
                    (exec (request_entry idx (state (customers (shm w) idx))) w))).
  { rewrite exec_modify.
    assert (Q1 : relay w (exec (request_entry idx (state (customers (shm w) idx))) w)).
    { destruct (state (customers (shm w) idx)); cbn [request_entry];
        try (rewrite exec_ret; apply relay_refl).
      - rewrite exec_modify. apply (relay_frame _ _ []); try slot_frame.
        cbn [stdout]. rewrite app_nil_r. reflexivity.
      - apply relay_leave. }
    revert Q1. generalize (exec (request_entry idx (state (customers (shm w) idx))) w).
    intros w1 Q1. apply (relay_trans _ _ _ Q1).
    apply (relay_frame _ _ []); try slot_frame.
    cbn [stdout]. rewrite app_nil_r. reflexivity. }
  revert Q2.
  generalize (exec (modify (on_customer idx (fun c =>
                      set_remaining_duration d (set_request_duration d c))))
                (exec (request_entry idx (state (customers (shm w) idx))) w)).
  intros w2 Q2. apply (relay_trans _ _ _ Q2).
  pose proof (relay_wired _ _ W Q2) as W2. clear Q2 W.
  destruct (Z.eq_dec (find_free_tool (shm w2)) (-1)) as [F2|F2].
  2:{ rewrite (placement_free w2 idx F2). apply relay_bind.
      apply find_free_tool_spec. exact F2. }
  destruct (Z.eq_dec (find_preemption_candidate (share (customers (shm w2) idx)) (shm w2))
              (-1)) as [V2|V2].
  { rewrite (placement_enqueue w2 idx F2 V2). apply relay_enqueue. }
  pose proof (placement_preempt w2 idx F2) as P. cbn zeta in P. rewrite (P V2). clear P.
  destruct (find_preemption_candidate_range (shm w2) _ V2) as [Rv _].
  revert Rv.
  generalize (find_preemption_candidate (share (customers (shm w2) idx)) (shm w2)).
  intros tool Rv. generalize (current_user (tools (shm w2) tool)). intros u.
  pose proof (relay_unbind w2 u EVENT_TOOL_REMOVED W2 (or_introl eq_refl)) as Q3.
  revert Q3. generalize (exec (remove_customer_from_tool u EVENT_TOOL_REMOVED) w2).
  intros w3 Q3.
  pose proof (relay_enqueue w3 u) as Q4.
  revert Q4. generalize (exec (enqueue_waiting u) w3). intros w4 Q4.
  apply (relay_trans _ _ _ Q3). apply (relay_trans _ _ _ Q4).
  apply relay_bind. rewrite (rl_tools _ _ Q4), (rl_tools _ _ Q3). exact Rv.
Qed.

(** A step that clears [is_allocated] or [event_pending] of one customer
    and writes nothing else that the forwarders read. *)
Lemma relay_silence w w' x :
  num_tools (shm w') = num_tools (shm w) ->
  (forall t, tool_id (tools (shm w') t) = tool_id (tools (shm w) t)) ->
  (forall c, c <> x ->
     current_tool (customers (shm w') c) = current_tool (customers (shm w) c)) ->
  current_tool (customers (shm w') x) = current_tool (customers (shm w) x) \/
  current_tool (customers (shm w') x) = -1 ->
  (forall c, c <> x -> same_slot (customers (shm w) c) (customers (shm w') c)) ->
  is_allocated (customers (shm w') x) && event_pending (customers (shm w') x) = false ->
  stdout w' = stdout w -> relay w w'.
Proof.
  intros N I B Bx S Sx O. constructor; [exact N | exact I | |].
  - intros c. destruct (Z.eq_dec c x) as [->|Nc].
    + destruct Bx as [E|E]; [left | right; left]; exact E.
    + left. apply B. exact Nc.
  - exists []. split; [rewrite app_nil_r; exact O|].
    intros c. destruct (Z.eq_dec c x) as [->|Nc].
    + right. left. exact Sx.
    + left. apply S. exact Nc.
Qed.

(** The first critical section of a disconnection and the event slots. *)
Lemma agent_release_relay w idx :
  wired (shm w) -> relay w (exec (agent_release idx) w).
Proof.
  intros W. unfold agent_release. rewrite exec_bind.
  cbn [get_shm fst]. change (exec get_shm w) with w. cbn zeta.
  rewrite !exec_bind. unfold pthread_cond_signal. rewrite exec_ret, exec_modify.
  assert (Q1 : relay w
                 (exec (when (CustomerState_eqb (state (customers (shm w) idx))
                                CUSTOMER_STATE_USING
                              && negb (current_tool (customers (shm w) idx) =? -1))
                          (remove_customer_from_tool idx EVENT_TOOL_COMPLETED ;;
                           assign_next_from_queue
                             (current_tool (customers (shm w) idx)))) w)).
  { destruct (CustomerState_eqb (state (customers (shm w) idx)) CUSTOMER_STATE_USING);
      cbn [andb when]; [|rewrite exec_ret; apply relay_refl].
    destruct (Z.eqb_spec (current_tool (customers (shm w) idx)) (-1)) as [E|N];
      cbn [negb when]; [rewrite exec_ret; apply relay_refl|].
    rewrite exec_bind.
    pose proof (relay_unbind w idx EVENT_TOOL_COMPLETED W (or_intror eq_refl)) as Q1.
    revert Q1.
    generalize (exec (remove_customer_from_tool idx EVENT_TOOL_COMPLETED) w).
    intros w1 Q1. apply (relay_trans _ _ _ Q1). apply relay_pop.
    rewrite (rl_tools _ _ Q1).
    destruct (wd_bound _ W idx) as [C|C]; [contradiction | exact C]. }
  revert Q1.
  generalize (exec (when (CustomerState_eqb (state (customers (shm w) idx))
                            CUSTOMER_STATE_USING
                          && negb (current_tool (customers (shm w) idx) =? -1))
                      (remove_customer_from_tool idx EVENT_TOOL_COMPLETED ;;
                       assign_next_from_queue
                         (current_tool (customers (shm w) idx)))) w).
  intros w1 Q1. apply (relay_trans _ _ _ Q1).
  apply (relay_silence _ _ idx); cbn [shm stdout]; try reflexivity.
  - intros c Nc. unfold on_customer. cbn. rewrite upd_ne by exact Nc. reflexivity.
  - left. unfold on_customer. cbn. rewrite upd_eq. reflexivity.
  - intros c Nc. unfold on_customer. cbn. rewrite upd_ne by exact Nc. apply same_slot_refl.
  - unfold on_customer. cbn. rewrite upd_eq. reflexivity.
Qed.

Lemma allocate_customer_relay w id : relay w (exec (allocate_customer id) w).
Proof.
  destruct (Z.le_gt_cases (free_customer_count (shm w)) 0) as [Full|Free].
  - unfold exec. rewrite (allocate_customer_full w id Full). apply relay_refl.
  - unfold exec. rewrite (allocate_customer_exec w id ltac:(lia)). cbn [snd].
    apply (relay_silence _ _
             (free_customer_slots (shm w) (free_customer_count (shm w) - 1)));
      cbn [shm stdout]; try reflexivity.
    + intros c Nc. cbn. rewrite upd_ne by exact Nc. reflexivity.
    + right. cbn. rewrite upd_eq. reflexivity.
    + intros c Nc. cbn. rewrite upd_ne by exact Nc. apply same_slot_refl.
    + cbn. rewrite upd_eq. reflexivity.
Qed.

Lemma deallocate_customer_relay w idx : relay w (exec (deallocate_customer idx) w).
Proof.
  destruct (is_allocated (customers (shm w) idx)) eqn:Al.
  2:{ rewrite deallocate_customer_unallocated by exact Al. apply relay_refl. }
  unfold deallocate_customer.
  rewrite exec_bind. cbn [get_shm fst]. change (exec get_shm w) with w.
  cbv beta zeta. rewrite Al. cbn [negb].
  rewrite !exec_bind, !exec_modify. cbn [shm stdout clock ticks].
  match goal with
  | |- relay _ (mkWorld _ (stdout ?w0) _ _) =>
      assert (Q1 : relay w w0); [|revert Q1; generalize w0; intros w1 Q1]
  end.
  { destruct (state (customers (shm w) idx)).
    - rewrite exec_modify. apply (relay_frame _ _ []); try slot_frame.
      cbn [stdout]. rewrite app_nil_r. reflexivity.
    - apply relay_leave.
    - unfold when. destruct (_ && _); [|rewrite exec_ret; apply relay_refl].
      rewrite exec_modify. apply (relay_frame _ _ []); try slot_frame.
      cbn [stdout]. rewrite app_nil_r. reflexivity.
    - rewrite exec_ret. apply relay_refl. }
  apply (relay_trans _ _ _ Q1).
  apply (relay_silence _ _ idx); cbn [shm stdout]; try reflexivity.
  - intros c Nc. unfold on_customer. cbn. rewrite upd_ne by exact Nc. reflexivity.
  - right. unfold on_customer. cbn. rewrite upd_eq. reflexivity.
  - intros c Nc. unfold on_customer. cbn. rewrite upd_ne by exact Nc. apply same_slot_refl.
  - unfold on_customer. cbn. rewrite upd_eq. reflexivity.
Qed.

Lemma agent_notify_step_relay w idx buffer :
  relay w (exec (agent_notify_step idx buffer) w).
Proof.
  assert (G : exec (agent_notify_step idx buffer) w = w \/
              exec (agent_notify_step idx buffer) w
              = mkWorld (on_customer idx (set_event_pending false) (shm w))
                  (stdout w) (clock w) (ticks w)).
  { unfold agent_notify_step, exec, bind, get_shm, modify, ret.
    destruct (negb _ && _); [left; reflexivity|].
    destruct (negb _); [left; reflexivity|].
    destruct (event_pending _); [right; reflexivity | left; reflexivity]. }
  destruct G as [E|E]; rewrite E; [apply relay_refl|].
  apply (relay_silence _ _ idx); cbn [shm stdout]; try reflexivity.
  - intros c Nc. unfold on_customer. cbn. rewrite upd_ne by exact Nc. reflexivity.
  - left. unfold on_customer. cbn. rewrite upd_eq. reflexivity.
  - intros c Nc. unfold on_customer. cbn. rewrite upd_ne by exact Nc. apply same_slot_refl.
  - unfold on_customer. cbn. rewrite upd_eq. cbn. apply andb_false_r.
Qed.

Lemma handle_report_stdout w : stdout (exec handle_report w) = stdout w.
Proof.
  unfold handle_report, exec.
  unfold bind at 1, get_shm at 1. cbn zeta.
  unfold bind at 1, get_current_time_ms at 1.
  destruct (collect_waiting (shm w) (clock w (ticks w))) as [wait_list wait_count].
  unfold bind at 1. rewrite for_each_tool_rows. reflexivity.
Qed.

(** A turn of the socket thread and the event slots. *)
Lemma socket_turn_relay w idx received :
  wired (shm w) -> relay w (exec (socket_turn idx received) w).
Proof.
  intros W. unfold socket_turn.
  destruct received as [bytes|]; [|apply relay_refl].
  destruct (strlen bytes <=? 0); [apply relay_refl|].
  destruct (strtok (c_string bytes)) as [[cmd saved]|]; [|apply relay_refl].
  destruct (String.eqb cmd "REQUEST").
  { destruct (strtok saved) as [[duration_str after]|]; [|apply relay_refl].
    destruct (atoi duration_str) as [duration|]; [|apply relay_refl].
    destruct (0 <? duration); [|apply relay_refl].
    rewrite exec_bind, exec_ret. apply handle_request_relay. exact W. }
  destruct (String.eqb cmd "REST").
  { rewrite exec_bind, exec_ret. apply handle_rest_relay. exact W. }
  destruct (String.eqb cmd "REPORT").
  { rewrite exec_bind, exec_ret.
    apply (relay_frame _ _ []); rewrite ?handle_report_shm; try reflexivity.
    - intros c. apply same_slot_refl.
    - rewrite handle_report_stdout, app_nil_r. reflexivity. }
  destruct (String.eqb cmd "QUIT"); apply relay_refl.
Qed.

(** Every action with a defined behaviour writes the event slots together
    with the lines it prints. *)
Lemma perform_relay a w :
  admitted a w = true -> wired (shm w) -> relay w (exec (perform a) w).
Proof.
  intros A W. destruct a as [pid|idx received|idx buffer|idx|idx|t];
    cbn [perform admitted] in *.
  - rewrite exec_bind, exec_ret. apply allocate_customer_relay.
  - rewrite exec_bind, exec_ret. apply socket_turn_relay. exact W.
  - rewrite exec_bind, exec_ret. apply agent_notify_step_relay.
  - apply agent_release_relay. exact W.
  - apply deallocate_customer_relay.
  - apply andb_true_iff in A. destruct A as [A B].
    apply Z.leb_le in A. apply Z.ltb_lt in B.
    rewrite exec_bind, exec_ret. apply tool_process_tick_relay; [exact W | lia].
Qed.

Lemma steps_relay acts w w' :
  wired (shm w) -> steps acts w = Some w' -> relay w w'.
Proof.
  revert w. induction acts as [|a acts IH]; intros w W; cbn [steps].
  - intros E. injection E as <-. apply relay_refl.
  - destruct (admitted a w) eqn:A; [|discriminate].
    intros R. pose proof (perform_relay a w A W) as Q.
    apply (relay_trans _ _ _ Q). apply IH; [|exact R].
    exact (relay_wired _ _ W Q).
Qed.

Lemma setup_wired w q Q k :
  0 < k -> wired (shm (exec (setup_shared_memory q Q k) w)).
Proof.
  intros Hk. constructor.
  - intros t Ht. unfold setup_shared_memory, exec, bind, get_current_time_ms, modify in *.
    cbn [snd fst shm tools num_tools] in *.
    destruct (Z.leb_spec 0 t); [|lia]. destruct (Z.ltb_spec t k); [|lia]. reflexivity.
  - intros c. unfold setup_shared_memory, exec, bind, get_current_time_ms, modify.
    cbn [snd fst shm customers num_tools].
    destruct ((0 <=? c) && (c <? MAX_CUSTOMERS)); [left; reflexivity|].
    right. cbn. lia.
Qed.

Lemma setup_no_event w q Q k c :
  event_pending (customers (shm (exec (setup_shared_memory q Q k) w)) c) = false.
Proof.
  unfold setup_shared_memory, exec, bind, get_current_time_ms, modify.
  cbn [snd fst shm customers].
  destruct ((0 <=? c) && (c <? MAX_CUSTOMERS)); reflexivity.
Qed.

Lemma skipn_length_app {A : Type} (a b : list A) : skipn (List.length a) (a ++ b) = b.
Proof. induction a as [|x a IH]; [reflexivity | exact IH]. Qed.

(** What a round of the notify thread sends comes from an allocated
    customer with a pending event. *)
Lemma notify_sends w idx buffer line :
  fst (agent_notify_step idx buffer w) = NotifySends line ->
  let c := customers (shm w) idx in
  is_allocated c = true /\ event_pending c = true /\
  line = notify_buffer buffer (event_type c) (customer_id c)
           (double_to_int (share c)) (event_tool_id c).
Proof.
  unfold agent_notify_step, bind, get_shm, modify, ret. cbn [fst].
  destruct (is_allocated (customers (shm w) idx));
    destruct (event_pending (customers (shm w) idx)); cbn; intros E;
    try discriminate.
  injection E as <-. repeat split.
Qed.

(** C8, as the code has it.  In every state that the processes reach from
    start-up, in whatever order their critical sections are taken and
    whatever the customers send, a line that the event forwarder of a
    customer sends is the
    line of the event in the customer's slot, with the share truncated by
    [(int)], and the scheduler has printed that very line on its standard
    output since start-up.  Since any earlier state of the run, either
    nothing that the forwarder reads in the slot has changed, or the line
    has been printed since then. *)
Theorem forwarded_line_was_logged (w0 : World) (q Q k : Z)
        (acts1 acts2 : list Action) (w1 w : World)
        (idx : Z) (buffer line : string) :
  0 < k <= MAX_TOOLS ->
  steps acts1 (exec (setup_shared_memory q Q k) w0) = Some w1 ->
  steps acts2 w1 = Some w ->
  fst (agent_notify_step idx buffer w) = NotifySends line ->
  let c := customers (shm w) idx in
  event_type c <> EVENT_NONE /\
  line = event_line (event_type c) (customer_id c) (double_to_int (share c))
           (event_tool_id c) /\
  In line (skipn (List.length (stdout w0)) (stdout w)) /\
  (same_slot (customers (shm w1) idx) c \/
   In line (skipn (List.length (stdout w1)) (stdout w))).
Proof.
  intros Hk R1 R2 Sd c.
  destruct (notify_sends w idx buffer line Sd) as [Al [Pe Li]]. fold c in Al, Pe, Li.
  pose proof (setup_wired w0 q Q k ltac:(lia)) as W0.
  pose proof (steps_relay _ _ _ W0 R1) as Q1.
  pose proof (steps_relay _ _ _ (relay_wired _ _ W0 Q1) R2) as Q2.
  pose proof (relay_trans _ _ _ Q1 Q2) as Q0.
  destruct Q0 as [_ _ _ [out [O L]]]. specialize (L idx). fold c in L.
  assert (T : event_type c <> EVENT_NONE /\ In (slot_line c) out).
  { destruct L as [S|[N|T]]; [| |exact T].
    - destruct S as [_ P _ _ _ _]. rewrite setup_no_event in P. congruence.
    - rewrite Al, Pe in N. discriminate. }
  destruct T as [Ty I0].
  rewrite (notify_buffer_event_line _ _ _ _ _ Ty) in Li.
  split; [exact Ty|]. split; [exact Li|]. split.
  - rewrite O, Li.
    change (stdout (exec (setup_shared_memory q Q k) w0)) with (stdout w0).
    rewrite skipn_length_app. exact I0.
  - destruct Q2 as [_ _ _ [out2 [O2 L2]]]. specialize (L2 idx). fold c in L2.
    destruct L2 as [S|[N|[_ I2]]].
    + left. exact S.
    + rewrite Al, Pe in N. discriminate.
    + right. rewrite O2, Li, skipn_length_app. exact I2.
Qed.

(** At [w_starved] the tick prints two lines for customer 4242 inside one
    critical section, TOOL_REMOVED and then TOOL_ASSIGNED; the forwarder
    finds the second event in the slot, sends its line and waits: the
    TOOL_REMOVED line is never sent. *)
Lemma every_event_forwarded_fails :
  ~ every_event_forwarded w_starved (exec (tool_process_tick 0) w_starved) 1023.
Proof.
  intros C.
  destruct (C EVENT_TOOL_REMOVED 500 0) as [n I].
  - vm_compute. left. reflexivity.
  - assert (F : forall line,
              In line (forwarded n 1023 EmptyString
                         (exec (tool_process_tick 0) w_starved)) ->
              line = event_line EVENT_TOOL_ASSIGNED 4242 500 0).
    { intros line. destruct n as [|[|n]]; vm_compute;
        [intros [] | intros [E|[]]; symmetry; exact E ..]. }
    apply F in I. vm_compute in I. discriminate I.
Qed.

Example starved_tick_forwarded :
  let w' := exec (tool_process_tick 0) w_starved in
  skipn 3 (stdout w') = [event_line EVENT_TOOL_REMOVED 4242 500 0;
                         event_line EVENT_TOOL_ASSIGNED 4242 500 0] /\
  forwarded 2 1023 EmptyString w' = [event_line EVENT_TOOL_ASSIGNED 4242 500 0].
Proof. vm_compute. split; reflexivity. Qed.

Lemma forwarded_line_was_logged_witness :
  let w := w_asked in
  let line := ("Customer 4444 with share 51 is assigned to the tool 0." ++ newline)%string in
  let c := customers (shm w) 1021 in
  share c = (103 # 2)%Q /\
  event_type c <> EVENT_NONE /\
  line = event_line (event_type c) (customer_id c) (double_to_int (share c))
           (event_tool_id c) /\
  In line (skipn (List.length (stdout (boot relay_clock))) (stdout w)) /\
  (same_slot (customers (shm w_average) 1021) c \/
   In line (skipn (List.length (stdout w_average)) (stdout w))).
Proof.
  split; [vm_compute; reflexivity|].
  apply (forwarded_line_was_logged (boot relay_clock) 100 500 1 relay_before relay_after
           w_average w_asked 1021 EmptyString).
  - unfold MAX_TOOLS. lia.
  - vm_compute. reflexivity.
  - vm_compute. reflexivity.
  - vm_compute. reflexivity.
Defined.


(** ** The free stack after a deallocation *)

Lemma queued_invariants : sched_inv (shm w_queued) /\ table_inv (shm w_queued).
Proof.
  destruct (setup_shared_memory_spec (boot clock10) 100 500 1) as [I [Tb _]];
    [unfold MAX_TOOLS; lia|].
  apply (run_invariants queued _ w_queued I Tb). vm_compute. reflexivity.
Qed.

Lemma vacated_invariants : sched_inv (shm w_vacated) /\ table_inv (shm w_vacated).
Proof.
  destruct (setup_shared_memory_spec (boot clock10) 100 500 1) as [I [Tb _]];
    [unfold MAX_TOOLS; lia|].
  apply (run_invariants (queued ++ [Deallocate 1023]) _ w_vacated I Tb).
  vm_compute. reflexivity.
Qed.

Example vacated_stack :
  free_customer_count (shm w_vacated) = 1023 /\
  free_customer_slots (shm w_vacated) 1022 = 1023 /\
  free_customer_slots (shm w_vacated) 1021 = 1021 /\
  total_customers (shm w_vacated) = 1.
Proof. vm_compute. repeat split. Qed.

Lemma allocate_customer_keeps_invariants_witness :
  let w := w_vacated in
  let id := 4444 in
  let idx := fst (allocate_customer id w) in
  let s' := shm (exec (allocate_customer id) w) in
  idx = 1023 /\
  ((free_customer_count (shm w) <= 0 -> idx = -1 /\ exec (allocate_customer id) w = w) /\
   (0 < free_customer_count (shm w) ->
      idx = free_customer_slots (shm w) (free_customer_count (shm w) - 1) /\
      free_customer_slots s' = free_customer_slots (shm w) /\
      free_customer_count s' = free_customer_count (shm w) - 1 /\
      0 <= idx < MAX_CUSTOMERS /\
      is_allocated (customers (shm w) idx) = false /\
      is_allocated (customers s' idx) = true /\
      customer_id (customers s' idx) = id /\
      state (customers s' idx) = CUSTOMER_STATE_RESTING /\
      current_tool (customers s' idx) = -1 /\
      event_pending (customers s' idx) = false /\
      ~ Heap.in_heap (heap s') idx /\
      (forall c, c <> idx -> customers s' c = customers (shm w) c) /\
      resting_customers s' = resting_customers (shm w) + 1) /\
   sched_inv s' /\ table_inv s').
Proof.
  split; [vm_compute; reflexivity|].
  apply (allocate_customer_keeps_invariants w_vacated 4444).
  - exact (proj1 vacated_invariants).
  - exact (proj2 vacated_invariants).
Defined.

Lemma deallocate_customer_keeps_invariants_witness :
  (let w := w_queued in
   let idx := 1022 in
   let s' := shm (exec (deallocate_customer idx) w) in
   state (customers (shm w) idx) = CUSTOMER_STATE_WAITING /\
   (sched_inv s' /\ table_inv s' /\
    ~ Heap.in_heap (heap s') idx /\
    (forall t, 0 <= t < num_tools s' -> current_user (tools s' t) <> idx) /\
    (forall c, c <> idx -> customers s' c = customers (shm w) c) /\
    free_customer_count (shm w) < MAX_CUSTOMERS /\
    free_customer_count s' = free_customer_count (shm w) + 1 /\
    (forall i, free_customer_slots s' i =
       if i =? free_customer_count (shm w) then idx else free_customer_slots (shm w) i) /\
    total_customers s' = total_customers (shm w) - 1 /\
    is_allocated (customers s' idx) = false /\
    state (customers s' idx) = CUSTOMER_STATE_DELETED)) /\
  (let w := w_queued in
   let idx := 1023 in
   let s' := shm (exec (deallocate_customer idx) w) in
   state (customers (shm w) idx) = CUSTOMER_STATE_USING /\
   (sched_inv s' /\ table_inv s' /\
    ~ Heap.in_heap (heap s') idx /\
    (forall t, 0 <= t < num_tools s' -> current_user (tools s' t) <> idx) /\
    (forall c, c <> idx -> customers s' c = customers (shm w) c) /\
    free_customer_count (shm w) < MAX_CUSTOMERS /\
    free_customer_count s' = free_customer_count (shm w) + 1 /\
    (forall i, free_customer_slots s' i =
       if i =? free_customer_count (shm w) then idx else free_customer_slots (shm w) i) /\
    total_customers s' = total_customers (shm w) - 1 /\
    is_allocated (customers s' idx) = false /\
    state (customers s' idx) = CUSTOMER_STATE_DELETED)).
Proof.
  split; (split; [vm_compute; reflexivity|]).
  - apply (deallocate_customer_keeps_invariants w_queued 1022).
    + exact (proj1 queued_invariants).
    + exact (proj2 queued_invariants).
    + unfold MAX_CUSTOMERS. lia.
    + vm_compute. reflexivity.
  - apply (deallocate_customer_keeps_invariants w_queued 1023).
    + exact (proj1 queued_invariants).
    + exact (proj2 queued_invariants).
    + unfold MAX_CUSTOMERS. lia.
    + vm_compute. reflexivity.
Defined.
